(* ===== verification/_CoqProject ===== *)
-Q . S2P
Prelude.v
Json.v
Errors.v
Breaker.v
Runtime.v
Wire.v
Resources.v
Backends.v
DbDriver.v
MongoDriver.v
MailDriver.v
RedisDriver.v
AmqDriver.v
AuthDriver.v
DriverSet.v
DriverDemo.v
Fabricd.v
SaToken.v
Sidecar.v
EndToEnd.v
Identity.v
Quota.v
Partition.v
Bytecode.v
Quic.v
Ssrf.v
Http.v
S3.v
Sys.v
EngineConfig.v
BoxConfig.v
FabricdBoot.v
Daemon.v
Engine.v
Determinism.v
Timeout.v
Js.v
Wrappers.v
Helpers.v
ScriptPath.v
ApiPath.v
DriverRead.v
Registry.v
Pool.v
Host.v
Metrics.v
Events.v
Bulkhead.v
Handler.v
Box.v
System.v
Telemetry.v
Boot.v
