(* ===== verification/Prelude.v ===== *)
(** * A verification of runlet

    runlet runs untrusted JavaScript handlers for many tenants.  A box (crates [runlet] and
    [runlet-core]) accepts [POST /execute] requests, gates them, and runs each script in a sandboxed
    QuickJS context.  Scripts reach databases, mail, queues and the like only through the egress
    port; the credentials live in a second process, the daemon [fabricd] (crates [fabricd] and
    [fabric-backends]), which the box talks to over length-prefixed JSON frames (crate
    [fabric-wire]).  HTTP requests and S3 links are made by the engine itself, behind a host allowlist
    and a private-address guard.  All paths below are under [src/crates/].

    ** How the parts interact

    A request enters [handler.rs] ([run_execute]).  It passes the edge credential, the trusted
    identity ([identity.rs]), the member gate ([authz.rs]), script resolution and size checks
    ([sandbox.rs]) and the tenant quota ([quota.rs]).  If it asks for I/O, the box opens a session
    with the daemon ([sidecar.rs]); the daemon authenticates it ([fabricd/src/auth.rs]), resolves the
    logical names against its table ([resources.rs]) and builds the session's backend set
    ([backendset.rs]).  The request then takes a partition permit ([partition.rs]) and a bulkhead
    permit and runs on the host ([host.rs]: pool, bytecode cache, engine).  The engine's native
    functions are the egress port, the HTTP client ([http.rs] over [ssrf.rs]), [s3.rs], and the
    always-on [sys.rs] and [decimal.rs]; a script calls them through JavaScript globals
    ([runlet-core/src/js/]).  The response, the counters ([metrics.rs]) and the events
    ([events.rs]) close it.

    On the daemon's side a call reaches one of six drivers ([db.rs], [mongo.rs], [mail.rs], [kv.rs],
    [amq.rs], [auth.rs]).  Both processes read a JSON configuration and refuse to start on an unsafe
    one ([runlet/src/{config,main}.rs], [fabricd/src/main.rs]); between machines they speak QUIC with a
    pinned certificate ([quic.rs]), and the daemon may authenticate boxes by service-account tokens
    ([sa_token.rs]).

    ** The files

    - [Prelude]: [Result], machine integers with saturating, wrapping and checked operations, text as
      bytes, list lemmas, tactics, the hint database [runlet].
    - [Json]: JSON trees and the shape of derived deserializers.
    - [Errors]: [fabric-wire/src/{errors,egress}.rs], [runlet-core/src/errors.rs].
    - [Breaker]: [fabric-wire/src/breaker.rs].
    - [Runtime]: the state monad over the outside world, clocks, timeouts, shared breaker cells, IEEE
      numbers, as the drivers use them.
    - [Wire]: [fabric-wire/src/{wire,metrics}.rs].  A reader is the bytes still to come and what
      follows them, a writer the bytes sent and the room left.
    - [Resources]: [fabric-backends/src/resources.rs] and the configuration records of the drivers.
    - [Backends]: [fabric-backends/src/backendset.rs] over the interface [Backend], the outside
      world a threaded state.
    - [DbDriver], [MongoDriver], [MailDriver], [RedisDriver], [AmqDriver], [AuthDriver]:
      [fabric-backends/src/{db,mongo,mail,kv,amq,auth}.rs].  [DriverSet]: the drivers as instances of
      [Backend], and what a session sees of all of them.  [DriverDemo]: concrete sessions.
    - [Fabricd]: [fabric-wire/src/ct.rs], [fabricd/src/auth.rs], and [serve]/[dispatch] of
      [fabricd/src/main.rs]; [session] is the abstract specification on messages.
    - [SaToken]: [fabric-backends/src/sa_token.rs].  [FabricdBoot]: the configuration, listeners and
      start-up of [fabricd/src/main.rs], and the deserializers of the operator table.  [Daemon]: its
      accept loops and concurrent sessions once it runs.
    - [Sidecar]: [runlet/src/sidecar.rs].  [EndToEnd]: client and server joined over their bytes.
      [Quic]: [fabric-wire/src/quic.rs].
    - [Identity]: [runlet/src/{identity,authz}.rs].  [Quota]: [runlet/src/quota.rs].
    - [Partition]: [runlet-core/src/partition.rs].  [Bytecode]: [runlet-core/src/bytecode.rs] and the
      cached compilation of [engine.rs].
    - [Ssrf]: [runlet-core/src/ssrf.rs] and the [std::net] address types, parser and printer.
      [Http]: [runlet-core/src/http.rs].  [S3]: [runlet-core/src/s3.rs].  The network the engine's
      clients talk to is a threaded state, with a log of the connections opened.
    - [Sys]: [runlet-core/src/{sys,decimal,bytesize}.rs].
    - [EngineConfig]: [runlet-core/src/{config,sandbox}.rs].  [Engine]: [runlet-core/src/engine.rs];
      QuickJS is the class [QuickJs], user code an arbitrary tree of native calls.  [Determinism]: its
      hardening of a realm ([harden], [js/determinism.js]), on a heap of shared objects.  [Timeout]: its
      interrupt handler.
    - [Js]: plain JavaScript data, its JSON and exceptions, and code as trees of native calls; QuickJS's
      [JSON] object is the class [JsJson].  [Wrappers]: the capability globals of
      [runlet-core/src/js/].  [ScriptPath]: from a global through the engine to the drivers' payload
      readers, and back.  [Helpers]: the decimal and date objects of [js/decimal.js] and [js/sys.js].
      [DriverRead]: a driver's behaviour depends on what those readers make of a
      payload.  [ApiPath]: the URLs of [api.get].
    - [Registry]: [runlet-core/src/{registry,modules}.rs].  [Pool]: [runlet-core/src/pool.rs].
      [Host]: [runlet-core/src/host.rs].
    - [Metrics]: [runlet-core/src/metrics.rs].  [Events]: [runlet/src/events.rs].
    - [Handler]: [runlet/src/handler.rs].  [Bulkhead]: its permit span under client disconnection.
      [Box]: any number of its requests in flight at once, clients leaving at its awaits.
    - [System]: the request pipeline over the wire against the same pipeline with its backends inside.
      [Telemetry]: [runlet/src/telemetry.rs] and the request spans of [handler.rs].
    - [BoxConfig]: [runlet/src/config.rs].  [Boot]: [runlet/src/main.rs], joined to the requests of
      [Box].

    Concurrency is modelled where the code has it: an operation that runs under a lock is one step,
    lock-free code ([Pool]) is split into its atomic actions, and the theorems quantify over every
    interleaving (relations [qreach], [preach], [treach], [ereach], [breach], [reached], [dreach], and
    the runs [box_run] of the whole pipeline, which refine [qreach], [preach] and [breach]).  A step of
    [Box] is one operation of [Handler] on shared state, executed whole: the ones that do several things
    (a counter and an event) touch parts that other operations only add to.

    ** What the theorems show

    - The whole path: a request answered by the daemon's drivers over a socket is, to its caller and to
      the box, the request answered by backends in the box ([System.request_over_wire]; a refused session
      in [System.refused_over_wire]); it rests on a simulation that carries a change of egress through
      the engine and the host ([System.host_run_alike]).
    - What a script says and hears: a call of a global arrives at the driver as what was meant
    ([ScriptPath.script_call_delivered], [DriverRead.backend_call_reads]), a failure comes back with
    its identity
      ([ScriptPath.script_error_classified]), parameters survive the query string
      ([ApiPath.api_query_roundtrip], but not behind a fragment, [ApiPath.fragment_swallows_params]), a
      handler's answer is the response ([System.answer_delivered]); a found document that has an error
      field is thrown ([ScriptPath.found_document_thrown]).
    - Observability: spans, usage and audit events agree ([Telemetry.span_agrees_with_events]).
    - The box and the daemon: running calls through the sidecar gives what the in-process backend set
      gives ([EndToEnd.sidecar_transparent]); the byte server refines the message session
      ([Fabricd.serve_refines_session]); frames round-trip and every read is classified
      ([Wire.frames_roundtrip], [Wire.read_frame_spec]); a timed-out call leaves the stream one reply
      behind ([Sidecar.timed_out_call_shifts_replies]); failover takes the first reachable replica
      ([Sidecar.connect_any_first_reachable]).
    - The daemon at work: under any interleaving of sessions over both transports, every serving session
      was authenticated by its listener and holds only its tenant's bindings
      ([Daemon.daemon_sessions_isolated]); it makes progress ([Daemon.daemon_progress]), and a failed
      accept on the socket ends it ([Daemon.uds_error_ends_daemon]).
    - Tenant isolation: name resolution grants only own bindings and leaks nothing of others
      ([Resources.resolve_grants_own_bindings], [Resources.resolve_noninterference]); a session acts
      only through what it was granted ([Backends.session_confined]); the bytecode cache is
      transparent and never shared across namespaces ([Bytecode.bytecode_cache_transparent],
      [Bytecode.bytecode_cache_isolated]).
    - Authentication and authorization: [Fabricd.static_auth_exact],
      [Fabricd.serve_rejects_unauthenticated], [Identity.authorize_exact],
      [Identity.identity_from_trusted_headers], [Handler.gates_sound].
    - The pipeline: in any interleaving of requests, resources are accounted exactly and come back
      ([Box.box_accounts]), every response leaves one mark in counters and events and nothing else does
      ([Box.box_ledger]), the box never gets stuck and drains ([Box.box_drains]), and a request nobody
      interleaves with is one call of [run_execute] ([Box.box_runs_handler]), which ends once and gives
      back what it took ([Handler.request_ends_once], [Handler.request_conserves_resources]).
    - Accounting under interleaving: [Quota.quota_exact], [Quota.quota_admits_iff],
      [Partition.partition_cap], [Partition.partition_admits_iff], [Pool.pool_gauge_exact],
      [Events.events_accounted], [Events.events_flushed], [Bulkhead.bulkhead_bound], [Host.host_run_balanced].
    - Start-up: a box that serves passed its exposure checks and starts in its invariants, and after any
      interleaving of requests still admits the next one ([Boot.boot_fail_closed], [Boot.booted_box_serves]);
      every loaded configuration fits its machine types ([BoxConfig.config_load_wf]); the registries
      hold exactly what a walk of the directory finds ([Registry.registry_load_exact]); a daemon that
      starts listens only where it should, behind the authenticator it was given
      ([FabricdBoot.daemon_starts_closed]).
    - Trust between the processes: the QUIC pin admits exactly the pinned certificate
      ([Quic.quic_pin_exact]); a service-account token is admitted exactly under the last key set
      fetched ([SaToken.sa_token_admits_exactly]).
    - The drivers: errors are classified ([DriverSet.session_errors_classified]); query results are
      capped, typed and honest about truncation ([DbDriver.db_query_faithful]); connecting refines the
      breaker ([DbDriver.db_connects_refine_breaker]), although the daemon configures none
      ([DriverSet.no_breaker_never_open]); cursors drain within a bound
      ([MongoDriver.drain_cursor_terminates]); mail policy, publication order and credential
      confinement ([MailDriver.mail_policy_enforced], [AmqDriver.amq_publishes_in_order],
      [AuthDriver.auth_credentials_confined]).
    - Secrets and determinism: an execution depends on a secret's plaintext only through the digests it
      asks for ([Engine.secrets_only_through_hmac]); a deterministic execution replays
      ([Engine.deterministic_replay]) unless it reads the clock or a UUID through [__sys], which stays
      reachable ([Engine.deterministic_clock_reachable]).  The hardening disables the names it lists
      ([Determinism.harden_disables_names]), not the functions: a reference kept by the top level works
      on ([Determinism.captured_function_survives]), and the built-in [Date] is the constructor of the
      shared prototype ([Determinism.real_date_reachable]).
    - The sandbox: budgets hold against any script ([Engine.execution_budget]), the deadline cuts it
      ([Timeout.deadline_enforced]), the deterministic
      profile performs no I/O ([Engine.deterministic_no_io]), errors keep their class and leak no
      internals ([Engine.egress_error_roundtrip], [Engine.envelope_redacts]), the host wildcard never
      meets private targets ([Host.wildcard_never_with_private_targets]).
    - Network confinement: whatever a script does, DNS answers and servers redirect, its HTTP
      connections go to allowlisted hosts at public addresses
      ([Engine.script_connections_confined]), the one exception being URLs with an IPv6 literal,
      which the guard does not see ([Http.v6_literal_unguarded]); the address classifier decides the
      CIDR blocks it is meant to ([Ssrf.private_ip_classifier]); HTTP calls are metered
      ([Http.http_call_metered]).
    - Object storage: what an [s3] call may send, what a link may be, what a usage scan reports
      ([S3.s3_requests_gated], [S3.s3_links_bounded], [S3.usage_scan_totals],
      [S3.canonical_query_agrees]).
    - Resilience and limits: [Breaker.breaker_history], [Breaker.breaker_single_probe],
      [Breaker.breaker_trips_exact], [Backends.slot_connects_once], [Fabricd.session_discipline],
      [Resources.clamp_bounds], [EngineConfig.resolve_limits_headroom], [Quota.quota_fail_closed],
      [Metrics.histogram_faithful].

    - Script helpers: decimals compare and compute as the library does ([Helpers.dec_tests_meaning],
      [Helpers.dec_arith_meaning]), a date moved by a duration is that far away
      ([Helpers.date_add_then_diff]), and a script's call run by the session's own backends is the call
      it meant ([DriverRead.script_call_executed]).

    ** Bounds and fuel

    [Fabricd.serve_loop] runs with one more than the number of bytes to come: each frame takes at
    least four, and [serve_loop_fuel] proves more fuel changes nothing.  [Pool.drain_queue] gets the
    queue's length, one pop per element, and [Events.writer_loop] one more than the events queued
    ([writer_loop_drains]).  [S3.usage_pages] gets one more round than [max_ops]: each
    round but the last records a metric, and [usage_pages_fuel] proves more changes nothing. 
    [MongoDriver.drain_loop] gets one more round
    than [max_docs], which [drain_cursor_terminates] proves enough for any server;
    [Determinism.call] one unit per stacked sanitizer, two for a hardened realm;
    [Registry.load_loop] one round per directory of the tree.  [Wire.read_frames] is a test reader
    whose fuel is one more than the number of frames.  Integers are [Z] with their width written out;
    a 64-bit target is
    assumed for [usize].

    ** Third-party code

    Each enters as a class with the laws its documentation gives: [Json.JsonText] and [Wire.Codec]
    (serde_json), [Fabricd.ConstantTimeEq] (subtle), [Identity.Headers] (axum), [Partition.Semaphore]
    (tokio), [Partition.StdHasher], [Pool.ArrayQueue] (crossbeam), [Events.Mpsc] (tokio),
    [Bytecode.Sha256], [Bytecode.Moka], [Bytecode.ModuleCompiler], [Engine.QuickJs] and [Js.JsJson]
    (rquickjs), [Telemetry.OpenTelemetry],
    [Http.UrlLib] (url), [Http.HttpClient] (reqwest), [S3.S3Lib] (reqwest, hmac, hex, base64, chrono),
    [Sys.SysLib], [Sys.RustDecimal], [DbDriver.Postgres], [MongoDriver.MongoDb], [MailDriver.Lettre],
    [RedisDriver.Redis], [AmqDriver.Brokers] and [AmqDriver.RawJson], [AuthDriver.AuthHttp],
    [SaToken.Jwt] and [SaToken.JwksHttp], [Quic.Rustls], [Runtime.PercentEncoding],
    [Runtime.Formats]; of the platform, [Ssrf.Dns], [Runtime.Clock], [Runtime.UnicodeCase],
    [Runtime.Tokio], [Runtime.BreakerStore] (shared cells behind a lock) and
    [Sys.UnicodeAlphabetic]; [Engine.NetLib] bundles the ones the engine uses.  The witnesses
    instantiate them by concrete functions.

    ** What is not modelled

    Log lines.  In JavaScript: conversions to and from doubles beyond the integers a double holds
    exactly ([toNumber], fractional durations); accessors, frozen objects and prototype lookups in
    [Determinism], whose properties are own data properties.  [Engine] treats every script, wrappers
    included, as arbitrary calls of the natives, so its theorems hold whatever these files do.  [ScriptPath] takes
    plain data as arguments: no getters, proxies or [toJSON] of a script's own, and numbers both
    languages write alike.  Signals, the spawning of tasks and the HTTP router: the environment in which
    the modelled functions run.  Tests and the benchmark crate.

    This file holds the shared vocabulary. *)

From Stdlib Require Import ZArith Lia Ascii.
From stdpp Require Export base gmap list strings pretty option fin_maps.

(** ** Fallible code: Rust's [Result] *)

Inductive result (A E : Type) : Type :=
| Ok (a : A)
| Err (e : E).
Arguments Ok {A E} a.
Arguments Err {A E} e.

Definition result_bind {A B E} (r : result A E) (k : A → result B E) : result B E :=
  match r with Ok a => k a | Err e => Err e end.

(** [Result::map_err]. *)
Definition map_err {A E F} (f : E → F) (r : result A E) : result A F :=
  match r with Ok a => Ok a | Err e => Err (f e) end.

(** [Option::ok_or]. *)
Definition ok_or {A E} (o : option A) (e : E) : result A E :=
  match o with Some a => Ok a | None => Err e end.

Definition is_ok {A E} (r : result A E) : bool :=
  match r with Ok _ => true | Err _ => false end.

Declare Scope runlet_scope.
Delimit Scope runlet_scope with runlet.
Notation "'let?' x ':=' c 'in' k" := (result_bind c (λ x, k))
  (at level 10, x pattern, c at level 100, k at level 200) : runlet_scope.
Global Open Scope runlet_scope.

(** ** Machine integers (kept as [Z] in their range) *)

Definition U16_MAX : Z := 65535.
Definition U32_MAX : Z := 4294967295.
Definition U64_MAX : Z := 18446744073709551615.
Definition in_u32 (z : Z) : Prop := (0 ≤ z ≤ U32_MAX)%Z.
Definition in_u64 (z : Z) : Prop := (0 ≤ z ≤ U64_MAX)%Z.

(** [saturating_add] / [saturating_sub] on [u32] and [u64]. *)
Definition sat_add_u32 (a b : Z) : Z := Z.min U32_MAX (a + b).
Definition sat_add_u64 (a b : Z) : Z := Z.min U64_MAX (a + b).
Definition sat_sub (a b : Z) : Z := Z.max 0 (a - b).

(** [AtomicU64::fetch_add] wraps around. *)
Definition fetch_add_u64 (a b : Z) : Z := ((a + b) mod 2 ^ 64)%Z.
Definition fetch_sub_u64 (a b : Z) : Z := ((a - b) mod 2 ^ 64)%Z.

(** [u64::try_from(x).unwrap_or(u64::MAX)] for a wider unsigned [x]. *)
Definition to_u64_or_max (a : Z) : Z := if decide (a ≤ U64_MAX)%Z then a else U64_MAX.

Lemma sat_add_u64_range a b : in_u64 a → in_u64 b → in_u64 (sat_add_u64 a b).
Proof. unfold in_u64, sat_add_u64, U64_MAX. lia. Qed.

Lemma sat_add_u32_range a b : in_u32 a → in_u32 b → in_u32 (sat_add_u32 a b).
Proof. unfold in_u32, sat_add_u32, U32_MAX. lia. Qed.

Lemma fetch_add_u64_small a b :
  (0 ≤ a + b ≤ U64_MAX)%Z → fetch_add_u64 a b = (a + b)%Z.
Proof. unfold fetch_add_u64, U64_MAX. intros. apply Z.mod_small. lia. Qed.

Lemma fetch_sub_u64_small a b :
  (0 ≤ a - b ≤ U64_MAX)%Z → fetch_sub_u64 a b = (a - b)%Z.
Proof. unfold fetch_sub_u64, U64_MAX. intros. apply Z.mod_small. lia. Qed.

Lemma fetch_add_u64_range a b : in_u64 (fetch_add_u64 a b).
Proof.
  unfold fetch_add_u64, in_u64, U64_MAX.
  pose proof (Z.mod_pos_bound (a + b) (2 ^ 64)). lia.
Qed.

Lemma fetch_sub_add_u64 a b : in_u64 a → fetch_sub_u64 (fetch_add_u64 a b) b = a.
Proof.
  unfold fetch_sub_u64, fetch_add_u64, in_u64, U64_MAX. intros Ha.
  rewrite Zminus_mod_idemp_l. rewrite Z.mod_small; lia.
Qed.

(** ** Strings: a Rust [str] is its UTF-8 bytes, here one [ascii] per byte *)

Abbreviation str_len s := (Z.of_nat (String.length s)).
Definition nonempty (s : string) : bool :=
  match s with EmptyString => false | String _ _ => true end.
Definition is_empty (s : string) : bool := negb (nonempty s).

Fixpoint strip_prefix (p s : string) : option string :=
  match p, s with
  | EmptyString, _ => Some s
  | String a p', String b s' => if decide (a = b) then strip_prefix p' s' else None
  | String _ _, EmptyString => None
  end.

Fixpoint bytes_of (s : string) : list ascii :=
  match s with EmptyString => [] | String a s' => a :: bytes_of s' end.
Fixpoint string_of (l : list ascii) : string :=
  match l with [] => EmptyString | a :: l' => String a (string_of l') end.

(** [char::is_whitespace] (the Unicode [White_Space] property) on the UTF-8
    encodings of one, two and three bytes; there are no longer ones. *)
Definition ws1 (a : ascii) : bool :=
  let n := nat_of_ascii a in bool_decide (n = 32 ∨ 9 ≤ n ≤ 13).
Definition ws2 (a b : ascii) : bool :=
  bool_decide (nat_of_ascii a = 194 ∧ (nat_of_ascii b = 133 ∨ nat_of_ascii b = 160)).
Definition ws3 (a b c : ascii) : bool :=
  let '(x, y, z) := (nat_of_ascii a, nat_of_ascii b, nat_of_ascii c) in
  bool_decide ((x = 225 ∧ y = 154 ∧ z = 128) ∨
               (x = 226 ∧ y = 128 ∧ (128 ≤ z ≤ 138 ∨ z = 168 ∨ z = 169 ∨ z = 175)) ∨
               (x = 226 ∧ y = 129 ∧ z = 159) ∨
               (x = 227 ∧ y = 128 ∧ z = 128)).

Fixpoint trim_start_bytes (l : list ascii) : list ascii :=
  match l with
  | [] => []
  | a :: l1 =>
      if ws1 a then trim_start_bytes l1 else
      match l1 with
      | [] => l
      | b :: l2 =>
          if ws2 a b then trim_start_bytes l2 else
          match l2 with
          | [] => l
          | c :: l3 => if ws3 a b c then trim_start_bytes l3 else l
          end
      end
  end.

(** The same walk from the right, on the reversed bytes. *)
Fixpoint trim_end_rev (l : list ascii) : list ascii :=
  match l with
  | [] => []
  | a :: l1 =>
      if ws1 a then trim_end_rev l1 else
      match l1 with
      | [] => l
      | b :: l2 =>
          if ws2 b a then trim_end_rev l2 else
          match l2 with
          | [] => l
          | c :: l3 => if ws3 c b a then trim_end_rev l3 else l
          end
      end
  end.

Definition trim_end_bytes (l : list ascii) : list ascii := rev (trim_end_rev (rev l)).
Definition trim_bytes (l : list ascii) : list ascii := trim_end_bytes (trim_start_bytes l).

(** [str::trim_start] and [str::trim]. *)
Definition trim_start (s : string) : string := string_of (trim_start_bytes (bytes_of s)).
Definition trim (s : string) : string := string_of (trim_bytes (bytes_of s)).

Definition lower_ascii (a : ascii) : ascii :=
  let n := nat_of_ascii a in
  if decide (65 ≤ n ≤ 90) then ascii_of_nat (n + 32) else a.
Definition upper_ascii (a : ascii) : ascii :=
  let n := nat_of_ascii a in
  if decide (97 ≤ n ≤ 122) then ascii_of_nat (n - 32) else a.

(** [str::to_ascii_lowercase] / [str::to_ascii_uppercase]. *)
Definition to_ascii_lowercase (s : string) : string := string_of (lower_ascii <$> bytes_of s).
Definition to_ascii_uppercase (s : string) : string := string_of (upper_ascii <$> bytes_of s).

(** [str::split] on one ASCII separator: always at least one piece. *)
Fixpoint split_bytes (sep : ascii) (acc : list ascii) (l : list ascii) : list (list ascii) :=
  match l with
  | [] => [rev acc]
  | a :: l' => if decide (a = sep) then rev acc :: split_bytes sep [] l'
               else split_bytes sep (a :: acc) l'
  end.
Definition split (sep : ascii) (s : string) : list string :=
  string_of <$> split_bytes sep [] (bytes_of s).

(** [str::split] on a non-empty text; [skip] counts the bytes of a match still to pass over. *)
Fixpoint strip_prefix_bytes (p l : list ascii) : option (list ascii) :=
  match p, l with
  | [], _ => Some l
  | a :: p', b :: l' => if decide (a = b) then strip_prefix_bytes p' l' else None
  | _ :: _, [] => None
  end.
Fixpoint split_text_bytes (pat : list ascii) (skip : nat) (acc l : list ascii) : list (list ascii) :=
  match l with
  | [] => [rev acc]
  | a :: l' =>
      match skip with
      | S k => split_text_bytes pat k acc l'
      | O =>
          match strip_prefix_bytes pat l with
          | Some _ => rev acc :: split_text_bytes pat (pred (length pat)) [] l'
          | None => split_text_bytes pat 0 (a :: acc) l'
          end
      end
  end.
Definition split_text (pat s : string) : list string :=
  string_of <$> split_text_bytes (bytes_of pat) 0 [] (bytes_of s).

(** [str::split_once] and [str::rsplit_once]. *)
Fixpoint split_once_bytes (pat acc l : list ascii) : option (list ascii * list ascii) :=
  match strip_prefix_bytes pat l with
  | Some rest => Some (rev acc, rest)
  | None => match l with [] => None | a :: l' => split_once_bytes pat (a :: acc) l' end
  end.
Definition split_once (pat s : string) : option (string * string) :=
  '(a, b) ← split_once_bytes (bytes_of pat) [] (bytes_of s); Some (string_of a, string_of b).
Definition rsplit_once_char (c : ascii) (s : string) : option (string * string) :=
  '(a, b) ← split_once_bytes [c] [] (rev (bytes_of s)); Some (string_of (rev b), string_of (rev a)).

(** [str::eq_ignore_ascii_case]. *)
Definition eq_ignore_ascii_case (a b : string) : bool :=
  bool_decide (to_ascii_lowercase a = to_ascii_lowercase b).

Definition is_ascii_digit (a : ascii) : bool := bool_decide (48 ≤ nat_of_ascii a ≤ 57).
Definition decimal_value (l : list ascii) : Z :=
  foldl (λ n a, n * 10 + (Z.of_nat (nat_of_ascii a) - 48))%Z 0%Z l.
(** [str::parse] into an unsigned type of maximum [max]: digits after an optional plus sign. *)
Definition parse_unsigned (max : Z) (s : string) : option Z :=
  let digits := match bytes_of s with
                | a :: l => if decide (a = "+"%char) then l else a :: l
                | [] => [] end in
  if bool_decide (digits ≠ []) && forallb is_ascii_digit digits &&
     bool_decide (decimal_value digits ≤ max)%Z
  then Some (decimal_value digits) else None.

Lemma decimal_value_nonneg l : forallb is_ascii_digit l = true → (0 ≤ decimal_value l)%Z.
Proof.
  unfold decimal_value. generalize (Z.le_refl 0). generalize 0%Z at 2 4.
  induction l as [|a l IH]; intros n Hn Hd; [done|]. simpl in *.
  apply andb_true_iff in Hd as [Ha Hl]. apply IH; [|done].
  unfold is_ascii_digit in Ha. apply bool_decide_eq_true in Ha. lia.
Qed.

Lemma parse_unsigned_range max s z : parse_unsigned max s = Some z → (0 ≤ z ≤ max)%Z.
Proof.
  unfold parse_unsigned. intros Hp.
  match type of Hp with (if ?b then _ else _) = _ => destruct b eqn:E; [|done] end.
  injection Hp as <-. rewrite !andb_true_iff in E. destruct E as [[_ Hd] Hm].
  apply bool_decide_eq_true in Hm. split; [by apply decimal_value_nonneg|done].
Qed.

(** [s.chars().take(n)]: a character starts at every byte that is not a continuation byte. *)
Fixpoint take_chars_bytes (n : nat) (l : list ascii) : list ascii :=
  match l with
  | [] => []
  | a :: l' =>
      if decide (128 ≤ nat_of_ascii a < 192) then a :: take_chars_bytes n l'
      else match n with O => [] | S k => a :: take_chars_bytes k l' end
  end.
Definition take_chars (n : nat) (s : string) : string := string_of (take_chars_bytes n (bytes_of s)).

(** [str::contains]. *)
Fixpoint contains (needle s : string) : bool :=
  match strip_prefix needle s with
  | Some _ => true
  | None => match s with EmptyString => false | String _ s' => contains needle s' end
  end.

(** [str::trim_end_matches] of one character. *)
Fixpoint drop_leading (a : ascii) (l : list ascii) : list ascii :=
  match l with b :: l' => if decide (b = a) then drop_leading a l' else l | [] => [] end.
Definition trim_end_matches (a : ascii) (s : string) : string :=
  string_of (rev (drop_leading a (rev (bytes_of s)))).

Lemma string_of_bytes_of s : string_of (bytes_of s) = s.
Proof. induction s; simpl; congruence. Qed.

Lemma bytes_of_string_of l : bytes_of (string_of l) = l.
Proof. induction l; simpl; congruence. Qed.

Lemma length_bytes_of s : length (bytes_of s) = String.length s.
Proof. induction s; simpl; congruence. Qed.

Lemma bytes_of_app s1 s2 : bytes_of (s1 +:+ s2) = bytes_of s1 ++ bytes_of s2.
Proof. induction s1 as [|a s1 IH]; [done|]. simpl. by f_equal. Qed.

#[global] Instance string_of_inj : Inj (=) (=) string_of.
Proof. intros l1 l2 H. rewrite <-(bytes_of_string_of l1), H. apply bytes_of_string_of. Qed.

#[global] Instance bytes_of_inj : Inj (=) (=) bytes_of.
Proof. intros s1 s2 H. rewrite <-(string_of_bytes_of s1), H. apply string_of_bytes_of. Qed.

#[global] Instance string_app_assoc : Assoc (=) String.append.
Proof. intros s1 s2 s3. apply (inj bytes_of). by rewrite !bytes_of_app, app_assoc. Qed.

(** A split stops at the first separator. *)
Lemma split_once_char (c : ascii) (l : list ascii) (acc rest : list ascii) :
  c ∉ l → split_once_bytes [c] acc (l ++ c :: rest) = Some (rev acc ++ l, rest).
Proof.
  revert acc. induction l as [|a l IH]; intros acc Hc; simpl.
  - by rewrite decide_True, app_nil_r.
  - rewrite decide_False by set_solver. rewrite IH by set_solver. simpl. by rewrite <-app_assoc.
Qed.

(** ** Trimming leaves nothing to trim *)

(** Does a byte string start with a white-space character? *)
Definition ws_head (l : list ascii) : bool :=
  match l with
  | a :: b :: c :: _ => ws1 a || ws2 a b || ws3 a b c
  | [a; b] => ws1 a || ws2 a b
  | [a] => ws1 a
  | [] => false
  end.

Lemma ws_head_app l k : ws_head l = true → ws_head (l ++ k) = true.
Proof.
  destruct l as [|a [|b [|c l]]]; simpl; try done;
    destruct k as [|x [|y k]]; simpl; rewrite ?app_nil_r, ?orb_true_iff; tauto.
Qed.

Lemma trim_start_bytes_head l : ws_head (trim_start_bytes l) = false.
Proof.
  induction l as [l IH] using (induction_ltof1 _ length).
  assert (∀ k, length k < length l → ws_head (trim_start_bytes k) = false) as IH' by done.
  clear IH. destruct l as [|a [|b [|c l]]]; simpl in *; [done| | |];
    repeat case_match; simplify_eq/=; rewrite ?orb_false_iff; auto with lia.
Qed.

Lemma trim_start_bytes_id l : ws_head l = false → trim_start_bytes l = l.
Proof.
  destruct l as [|a [|b [|c l]]]; simpl; rewrite ?orb_false_iff; intros;
    destruct_and?; repeat case_match; congruence.
Qed.

Lemma trim_end_rev_suffix l : ∃ k, l = k ++ trim_end_rev l.
Proof.
  induction l as [l IH] using (induction_ltof1 _ length).
  assert (∀ k, length k < length l → ∃ j, k = j ++ trim_end_rev k) as IH' by done.
  clear IH. destruct l as [|a l1]; [by exists []|]. simpl.
  destruct (ws1 a).
  { destruct (IH' l1) as [j Hj]; [simpl; lia|]. exists (a :: j). simpl. congruence. }
  destruct l1 as [|b l2]; [by exists []|]. destruct (ws2 b a).
  { destruct (IH' l2) as [j Hj]; [simpl; lia|]. exists (a :: b :: j). simpl. congruence. }
  destruct l2 as [|c l3]; [by exists []|]. destruct (ws3 c b a); [|by exists []].
  destruct (IH' l3) as [j Hj]; [simpl; lia|]. exists (a :: b :: c :: j). simpl. congruence.
Qed.

Lemma trim_end_rev_idem l : trim_end_rev (trim_end_rev l) = trim_end_rev l.
Proof.
  induction l as [l IH] using (induction_ltof1 _ length).
  assert (∀ k, length k < length l →
            trim_end_rev (trim_end_rev k) = trim_end_rev k) as IH' by done.
  clear IH. destruct l as [|a [|b [|c l]]]; simpl in *; [done| | |];
    repeat (case_match; simplify_eq/=); auto with lia.
Qed.

Lemma trim_bytes_idem l : trim_bytes (trim_bytes l) = trim_bytes l.
Proof.
  unfold trim_bytes, trim_end_bytes.
  set (m := trim_start_bytes l).
  assert (ws_head m = false) as Hm by apply trim_start_bytes_head.
  destruct (trim_end_rev_suffix (rev m)) as [k Hk].
  assert (m = rev (trim_end_rev (rev m)) ++ rev k) as Hm'.
  { rewrite <-rev_app_distr, <-Hk. by rewrite rev_involutive. }
  rewrite (trim_start_bytes_id (rev (trim_end_rev (rev m)))).
  - by rewrite rev_involutive, trim_end_rev_idem.
  - destruct (ws_head (rev (trim_end_rev (rev m)))) eqn:E; [|done].
    apply (ws_head_app _ (rev k)) in E. rewrite <-Hm' in E. congruence.
Qed.

(** Printable ASCII text has nothing to trim. *)
Definition plain_ascii (a : ascii) : Prop := (33 ≤ nat_of_ascii a < 128)%nat.

Lemma plain_ascii_ws a b c : plain_ascii a → ws1 a = false ∧ ws2 a b = false ∧ ws3 a b c = false.
Proof.
  unfold plain_ascii, ws1, ws2, ws3. intros Ha. rewrite !bool_decide_eq_false. lia.
Qed.

Lemma trim_bytes_plain l : Forall plain_ascii l → trim_bytes l = l.
Proof.
  assert (∀ k, Forall plain_ascii k → trim_start_bytes k = k ∧ trim_end_rev k = k) as Hk.
  { intros k Hk. destruct k as [|a [|b [|c k]]]; [done| | |]; rewrite ?Forall_cons in Hk;
      destruct_and?; simpl;
      repeat match goal with H : plain_ascii ?x |- context [ws1 ?x] =>
        destruct (plain_ascii_ws x x x H) as [-> _] end;
      repeat match goal with H : plain_ascii ?x |- context [ws2 ?x ?y] =>
        destruct (plain_ascii_ws x y y H) as (_ & -> & _) end;
      repeat match goal with H : plain_ascii ?x |- context [ws3 ?x ?y ?z] =>
        destruct (plain_ascii_ws x y z H) as (_ & _ & ->) end; done. }
  intros Hl. unfold trim_bytes, trim_end_bytes. destruct (Hk l Hl) as [-> _].
  destruct (Hk (rev l)) as [_ ->]; [|apply rev_involutive]. by apply Forall_rev.
Qed.

Lemma trim_plain s : Forall plain_ascii (bytes_of s) → trim s = s.
Proof. intros Hs. unfold trim. by rewrite trim_bytes_plain, string_of_bytes_of. Qed.

Lemma trim_idem s : trim (trim s) = trim s.
Proof. unfold trim. by rewrite bytes_of_string_of, trim_bytes_idem. Qed.

(** ** Counting the live guards of a list *)

Section count_if.
Context {A : Type} (P : A → Prop) `{!∀ x, Decision (P x)}.

Definition count_if (l : list A) : nat := length (filter P l).

Lemma count_if_nil : count_if [] = 0.
Proof. done. Qed.

Lemma count_if_cons x l : count_if (x :: l) = (if decide (P x) then 1 else 0) + count_if l.
Proof. unfold count_if. rewrite filter_cons. by case_decide. Qed.

Lemma count_if_app l k : count_if (l ++ k) = count_if l + count_if k.
Proof. unfold count_if. by rewrite filter_app, length_app. Qed.

Lemma count_if_delete l i x :
  l !! i = Some x → count_if l = (if decide (P x) then 1 else 0) + count_if (delete i l).
Proof.
  intros Hi. rewrite <-(take_drop_middle l i x Hi) at 1. rewrite delete_take_drop.
  rewrite !count_if_app, count_if_cons. lia.
Qed.

Lemma count_if_le l : count_if l ≤ length l.
Proof. apply length_filter. Qed.
End count_if.

(** Elements that agree on membership filter alike. *)
Lemma count_if_iff {A} (P Q : A → Prop) `{!∀ x, Decision (P x), !∀ x, Decision (Q x)} l :
  Forall (λ x, P x ↔ Q x) l → count_if P l = count_if Q l.
Proof.
  induction 1 as [|x l Hx Hl IH]; [done|]. rewrite !count_if_cons, IH.
  repeat case_decide; tauto.
Qed.

Lemma sum_list_with_fmap {A B} (f : B → nat) (g : A → B) l :
  sum_list_with f (g <$> l) = sum_list_with (λ x, f (g x)) l.
Proof. induction l as [|x l IH]; [done|]. simpl. by rewrite <- IH. Qed.
Lemma sum_list_with_insert {A} (f : A → nat) l i x y :
  l !! i = Some x → sum_list_with f (<[i := y]> l) + f x = sum_list_with f l + f y.
Proof.
  revert i. induction l as [|z l IH]; intros [|i] Hi; simplify_eq/=; [lia|]. specialize (IH i Hi). lia.
Qed.

(** A list split over [n] classes of at most [m] elements each. *)
Lemma pigeon_bound {A} (f : A → nat) n m (l : list A) :
  (∀ i, i < n → count_if (λ x, f x = i) l ≤ m) → Forall (λ x, f x < n) l → length l ≤ n * m.
Proof.
  revert l. induction n as [|n IH]; intros l Hc Hl.
  { destruct Hl; simpl; lia. }
  assert (length l = count_if (λ x, f x = n) l + length (filter (λ x, f x ≠ n) l)) as ->.
  { clear. unfold count_if. induction l as [|x l IH]; [done|].
    rewrite !filter_cons. repeat case_decide; simpl; try lia; done. }
  specialize (IH (filter (λ x, f x ≠ n) l)). pose proof (Hc n ltac:(lia)). simpl.
  assert (length (filter (λ x, f x ≠ n) l) ≤ n * m); [|lia]. apply IH.
  - intros i Hi. etrans; [|apply (Hc i); lia]. unfold count_if.
    rewrite list_filter_filter. apply Nat.eq_le_incl. f_equal. apply list_filter_iff. intros x. lia.
  - apply Forall_forall. intros x Hx. apply list_elem_of_filter in Hx as [Hne Hx].
    rewrite Forall_forall in Hl. specialize (Hl x Hx). lia.
Qed.

(** ** Automation *)

Create HintDb runlet discriminated.
Create Rewrite HintDb runlet.
#[export] Hint Constants Opaque : runlet.
#[export] Hint Resolve sat_add_u64_range sat_add_u32_range fetch_add_u64_range : runlet.

(** Case analysis on every [match]/[if] of the goal and hypotheses. *)
Ltac destruct_matches :=
  repeat (case_decide || case_bool_decide || case_match); simplify_eq/=.

(** Opens existentials and conjunctions of the context. *)
Ltac open_all :=
  repeat match goal with
  | H : ∃ x, _ |- _ => let y := fresh x in destruct H as [y H]
  | H : _ ∧ _ |- _ => destruct H
  end.
