(* ===== verification/Json.v ===== *)
(** * Json: JSON trees and the derived deserializers

    [serde_json]'s values as trees, and the shape of the code [#[derive(Deserialize)]] generates
    for a struct: fields by name from an object (a repeated field is an error), or by position
    from an array.  Text parsing and printing are third-party and enter as the class [JsonText]. *)

From Stdlib Require Import ZArith Lia Ascii.
From stdpp Require Import pretty.
From S2P Require Import Prelude.

(** [serde_json::Value]; a number keeps its decimal lexeme.  The objects the box builds with [json!]
    are maps ordered by key, and are written here in that order; in the daemon's crates, which the BSON
    library makes keep the insertion order, they are written in the order the code inserts. *)
Inductive Value : Type :=
| VNull
| VBool (b : bool)
| VNumber (lexeme : string)
| VString (s : string)
| VArray (l : list Value)
| VObject (fields : list (string * Value)).

(** [Value::is_null]. *)
Definition is_null (v : Value) : bool := match v with VNull => true | _ => false end.

(** [serde_json::from_str] and [to_string], with the error texts of the library. *)
Class JsonText := {
  json_parse : string → result Value string;
  json_print : Value → option string;
  json_type_error : Value → string;
  json_print_error : Value → string
}.

(** [serde_json::to_string(&v).map_err(f)]. *)
Definition to_string_err {E} `{JsonText} (f : string → E) (v : Value) : result string E :=
  match json_print v with Some s => Ok s | None => Err (f (json_print_error v)) end.

(** [serde_json::from_str::<T>] for a derived deserializer [de]. *)
Definition from_str {T} `{JsonText} (de : Value → option T) (s : string) : result T string :=
  match json_parse s with
  | Err e => Err e
  | Ok v => ok_or (de v) (json_type_error v)
  end.

(** A JSON string without escapes. *)
Definition quoted (s : string) : string :=
  let quote := String "034"%char EmptyString in quote +:+ s +:+ quote.

(** The occurrences of one field in an object. *)
Definition occurrences (k : string) (l : list (string * Value)) : list Value :=
  omap (λ '(k', v), if decide (k' = k) then Some v else None) l.

(** A field by name: absent, present once, or ([None]) repeated. *)
Definition field (k : string) (l : list (string * Value)) : option (option Value) :=
  match occurrences k l with
  | [] => Some None
  | [v] => Some (Some v)
  | _ => None
  end.

(** Deserializers of the field types the program uses. *)
Definition de_string (v : Value) : option string :=
  match v with VString s => Some s | _ => None end.
Definition de_bool (v : Value) : option bool :=
  match v with VBool b => Some b | _ => None end.
Definition de_option {T} (de : Value → option T) (v : Value) : option (option T) :=
  match v with VNull => Some None | _ => Some <$> de v end.
Definition de_value (v : Value) : option Value := Some v.

(** A [u64]: a number written with digits only, in range. *)
Definition de_u64 (v : Value) : option Z :=
  match v with
  | VNumber lexeme =>
      if forallb is_ascii_digit (bytes_of lexeme) then parse_unsigned U64_MAX lexeme else None
  | _ => None
  end.

(** ** Maps *)

(** [BTreeMap::insert]: keys in byte order, a later value replaces an earlier one. *)
Fixpoint btree_insert {A} (k : string) (v : A) (l : list (string * A)) : list (string * A) :=
  match l with
  | [] => [(k, v)]
  | (k', v') :: l' =>
      match String.compare k k' with
      | Lt => (k, v) :: l
      | Eq => (k, v) :: l'
      | Gt => (k', v') :: btree_insert k v l'
      end
  end.

(** [IndexMap::insert], the map behind JSON and BSON objects in the daemon's crates: a new key goes
    last, a known key keeps its place and takes the new value. *)
Fixpoint map_insert {A} (k : string) (v : A) (l : list (string * A)) : list (string * A) :=
  match l with
  | [] => [(k, v)]
  | (k', v') :: l' => if decide (k' = k) then (k', v) :: l' else (k', v') :: map_insert k v l'
  end.
Definition map_of {A} (l : list (string * A)) : list (string * A) :=
  foldl (λ acc '(k, v), map_insert k v acc) [] l.

(** What [from_str::<Value>] makes of a parsed tree: objects are maps. *)
Fixpoint norm (v : Value) : Value :=
  match v with
  | VArray l => VArray (norm <$> l)
  | VObject l => VObject (map_of ((λ '(k, x), (k, norm x)) <$> l))
  | _ => v
  end.

(** A [Value]-typed field of the daemon's payloads. *)
Definition de_map_value (v : Value) : option Value := Some (norm v).

(** ** Access to values *)

(** [Value::get] by key. *)
Definition value_get (k : string) (v : Value) : option Value :=
  match v with VObject l => last (occurrences k l) | _ => None end.
(** [Value::as_str], [as_bool]. *)
Definition as_str (v : Value) : option string := match v with VString s => Some s | _ => None end.
Definition as_bool (v : Value) : option bool := match v with VBool b => Some b | _ => None end.

(** [Number::as_i64] of a lexeme.  [-0] and integers beyond the 64-bit types are floats. *)
Definition I64_MAX : Z := 9223372036854775807.
Definition I64_MIN : Z := -9223372036854775808.
Definition number_i64 (lexeme : string) : option Z :=
  match bytes_of lexeme with
  | "-"%char :: digits =>
      if bool_decide (digits ≠ []) && forallb is_ascii_digit digits &&
         bool_decide (0 < decimal_value digits ≤ 9223372036854775808)%Z
      then Some (- decimal_value digits)%Z else None
  | digits =>
      if bool_decide (digits ≠ []) && forallb is_ascii_digit digits &&
         bool_decide (decimal_value digits ≤ I64_MAX)%Z
      then Some (decimal_value digits) else None
  end.

(** [Value::as_u64]. *)
Definition as_u64 (v : Value) : option Z := de_u64 v.

(** An [i64]: a number without fraction or exponent, in range. *)
Definition de_i64 (v : Value) : option Z :=
  match v with VNumber lexeme => number_i64 lexeme | _ => None end.
(** A [Vec<String>]. *)
Definition de_strings (v : Value) : option (list string) :=
  match v with VArray l => mapM de_string l | _ => None end.

(** The fields of a derived struct: by name from an object, by position from an array, where missing
    trailing elements are absent and extra ones an error. *)
Definition fields_of (names : list string) (v : Value) : option (list (option Value)) :=
  match v with
  | VObject l => mapM (λ k, field k l) names
  | VArray l =>
      if decide (length l ≤ length names)%nat
      then Some ((Some <$> l) ++ replicate (length names - length l) None) else None
  | _ => None
  end.

(** A required field and a [#[serde(default)]] field, given the field's presence. *)
Definition required {T} (de : Value → option T) (o : option Value) : option T := o ≫= de.
Definition defaulted {T} (d : T) (de : Value → option T) (o : option Value) : option T :=
  match o with None => Some d | Some v => de v end.

Lemma field_absent k l : (∀ v, (k, v) ∉ l) → field k l = Some None.
Proof.
  unfold field. intros Hl. assert (occurrences k l = []) as ->; [|done].
  induction l as [|[k' v] l IH]; simpl; [done|]. unfold occurrences in *. simpl.
  case_decide as E.
  - subst. destruct (Hl v). by left.
  - apply IH. intros w Hw. apply (Hl w). by right.
Qed.

(** ** Numbers printed and read back *)

Lemma pretty_N_char_digit x : (x < 10)%N →
  is_ascii_digit (pretty_N_char x) = true ∧
  (Z.of_nat (nat_of_ascii (pretty_N_char x)) - 48 = Z.of_N x)%Z.
Proof.
  intros Hx. assert (x ∈ [0; 1; 2; 3; 4; 5; 6; 7; 8; 9]%N) as Hin.
  { repeat (destruct x as [|x]; [set_solver|]); rewrite !elem_of_cons; lia. }
  rewrite !elem_of_cons in Hin. destruct_or?; subst; done || by apply elem_of_nil in Hin.
Qed.

Lemma pretty_N_go_digits x s :
  forallb is_ascii_digit (bytes_of s) = true →
  forallb is_ascii_digit (bytes_of (pretty_N_go x s)) = true ∧
  decimal_value (bytes_of (pretty_N_go x s)) =
    foldl (λ n a, n * 10 + (Z.of_nat (nat_of_ascii a) - 48))%Z (Z.of_N x) (bytes_of s).
Proof.
  revert s. induction (N.lt_wf_0 x) as [x _ IH]; intros s Hs.
  destruct (decide (0 < x)%N) as [Hx|Hx].
  - rewrite pretty_N_go_step by done.
    destruct (pretty_N_char_digit (x mod 10)) as [Hd Hv]; [by apply N.mod_lt|].
    destruct (IH (x / 10)%N) with (s := String (pretty_N_char (x mod 10)) s) as [H1 H2].
    { by apply N.div_lt. }
    { simpl. by rewrite Hd, Hs. }
    split; [done|]. rewrite H2. simpl. f_equal. rewrite Hv.
    pose proof (N.div_mod x 10 ltac:(done)). lia.
  - assert (x = 0%N) as -> by lia. by rewrite pretty_N_go_0.
Qed.

Lemma pretty_Z_digits z : (0 ≤ z)%Z →
  forallb is_ascii_digit (bytes_of (pretty z)) = true ∧ bytes_of (pretty z) ≠ [] ∧
  decimal_value (bytes_of (pretty z)) = z.
Proof.
  intros Hz. destruct z as [|p|p]; [done| |lia].
  change (pretty (Z.pos p)) with (pretty (N.pos p)). unfold pretty, pretty_N.
  rewrite decide_False by done.
  destruct (pretty_N_go_digits (N.pos p) "" eq_refl) as [H1 H2].
  rewrite H2. split_and!; [done| |done]. intros E. rewrite E in H2. by vm_compute in H2.
Qed.

(** What [to_string] writes for an unsigned number is read back as that number. *)
Lemma as_u64_pretty z : (0 ≤ z ≤ U64_MAX)%Z → as_u64 (VNumber (pretty z)) = Some z.
Proof.
  intros Hz. destruct (pretty_Z_digits z) as (Hd & Hn & Hv); [lia|].
  unfold as_u64, de_u64. rewrite Hd. unfold parse_unsigned.
  destruct (bytes_of (pretty z)) as [|a l] eqn:E; [done|].
  destruct (decide (a = "+"%char)) as [->|_]; [done|].
  rewrite Hd, Hv. by rewrite !bool_decide_eq_true_2 by (done || lia).
Qed.

Lemma number_i64_pretty z : (0 ≤ z ≤ I64_MAX)%Z → number_i64 (pretty z) = Some z.
Proof.
  intros Hz. destruct (pretty_Z_digits z) as (Hd & Hn & Hv); [lia|]. unfold number_i64.
  destruct (bytes_of (pretty z)) as [|a l] eqn:E; [done|].
  assert (a ≠ "-"%char) by (intros ->; done).
  enough ((if bool_decide (a :: l ≠ []) && forallb is_ascii_digit (a :: l) &&
              bool_decide (decimal_value (a :: l) ≤ I64_MAX)%Z
           then Some (decimal_value (a :: l)) else None) = Some z) as <-.
  { by destruct a as [[] [] [] [] [] [] [] []]. }
  rewrite Hd, Hv. by rewrite !bool_decide_eq_true_2 by (done || lia).
Qed.

(** ** Maps built by insertion *)

Lemma map_insert_elem {A} k (v : A) l k' v' :
  (k', v') ∈ map_insert k v l → (k', v') = (k, v) ∨ (k', v') ∈ l.
Proof.
  induction l as [|[k1 v1] l IH]; simpl; [set_solver|]. case_decide; subst; set_solver.
Qed.

Lemma foldl_map_insert_elem {A} (l acc : list (string * A)) k v :
  (k, v) ∈ foldl (λ acc '(k, v), map_insert k v acc) acc l → (k, v) ∈ acc ∨ (k, v) ∈ l.
Proof.
  revert acc. induction l as [|[k1 v1] l IH]; simpl; intros acc H; [by left|].
  apply IH in H as [H|H]; [|set_solver]. apply map_insert_elem in H. set_solver.
Qed.

(** A map holds only pairs it was given. *)
Lemma map_of_elem {A} (l : list (string * A)) k v : (k, v) ∈ map_of l → (k, v) ∈ l.
Proof. intros H. apply foldl_map_insert_elem in H. set_solver. Qed.

(** ** A reference codec

    A text codec that satisfies the round trip [serde_json] promises: a value is written as the bits of
    its number in an enumeration of all values. *)

Section value_ind.
Context (P : Value → Prop).
Context (Hleaf : ∀ v, (match v with VArray _ | VObject _ => False | _ => True end) → P v).
Context (Harray : ∀ l, Forall P l → P (VArray l)).
Context (Hobject : ∀ l, Forall (λ kx, P kx.2) l → P (VObject l)).
Fixpoint value_nested_ind (v : Value) : P v :=
  match v with
  | VArray l => Harray l ((fix go l : Forall P l := match l with
      | [] => Forall_nil_2 P | x :: l => Forall_cons_2 P x l (value_nested_ind x) (go l) end) l)
  | VObject l => Hobject l ((fix go l : Forall (λ kx, P kx.2) l := match l with
      | [] => Forall_nil_2 _ | x :: l => Forall_cons_2 _ x l (value_nested_ind x.2) (go l) end) l)
  | v => Hleaf v I
  end.
End value_ind.

Fixpoint value_tree (v : Value) : gen_tree (string + bool) :=
  match v with
  | VNull => GenNode 0 []
  | VBool b => GenNode 1 [GenLeaf (inr b)]
  | VNumber s => GenNode 2 [GenLeaf (inl s)]
  | VString s => GenNode 3 [GenLeaf (inl s)]
  | VArray l => GenNode 4 (value_tree <$> l)
  | VObject l => GenNode 5 ((λ '(k, x), GenNode 6 [GenLeaf (inl k); value_tree x]) <$> l)
  end.
Fixpoint tree_value (t : gen_tree (string + bool)) : Value :=
  match t with
  | GenNode 1 [GenLeaf (inr b)] => VBool b
  | GenNode 2 [GenLeaf (inl s)] => VNumber s
  | GenNode 3 [GenLeaf (inl s)] => VString s
  | GenNode 4 l => VArray (tree_value <$> l)
  | GenNode 5 l => VObject ((λ t, match t with
      | GenNode 6 [GenLeaf (inl k); x] => (k, tree_value x) | _ => (EmptyString, VNull) end) <$> l)
  | _ => VNull
  end.

Lemma tree_value_tree v : tree_value (value_tree v) = v.
Proof.
  induction v as [v Hv|l IH|l IH] using value_nested_ind; [by destruct v| |]; simpl; f_equal.
  - rewrite <-list_fmap_compose. induction IH as [|x l Hx Hl IHl]; [done|].
    rewrite fmap_cons. f_equal; [exact Hx|exact IHl].
  - rewrite <-list_fmap_compose. induction IH as [|[k x] l Hx Hl IHl]; [done|].
    rewrite fmap_cons. f_equal; [|exact IHl]. simpl in *. by rewrite Hx.
Qed.

#[export] Instance Value_eq_dec : EqDecision Value.
Proof.
  intros v1 v2. destruct (decide (value_tree v1 = value_tree v2)) as [E|E]; [left|right].
  - by rewrite <-(tree_value_tree v1), E, tree_value_tree.
  - congruence.
Defined.

(** Bits as text. *)
Fixpoint bits_text (p : positive) : string :=
  match p with
  | xH => EmptyString
  | xO p => String "0" (bits_text p)
  | xI p => String "1" (bits_text p)
  end.
Fixpoint text_bits (s : string) : positive :=
  match s with
  | String "0" s => xO (text_bits s)
  | String _ s => xI (text_bits s)
  | EmptyString => xH
  end.
Lemma text_bits_text p : text_bits (bits_text p) = p.
Proof. induction p; simpl; congruence. Qed.

(** The codec; it also reads the two literals the drivers fall back to. *)
Definition reference_json : JsonText := {|
  json_parse s :=
    if decide (s = "[]") then Ok (VArray [])
    else if decide (s = "{}") then Ok (VObject [])
    else match decode (text_bits s) with Some t => Ok (tree_value t) | None => Err "expected value" end;
  json_print v := Some (bits_text (encode (value_tree v)));
  json_type_error _ := "invalid type"; json_print_error _ := "unsupported" |}.

Lemma reference_json_roundtrip v s :
  json_print (JsonText := reference_json) v = Some s → json_parse (JsonText := reference_json) s = Ok v.
Proof.
  intros [= <-]. simpl. rewrite !decide_False.
  - by rewrite text_bits_text, decode_encode, tree_value_tree.
  - intros E. by destruct (encode (value_tree v)).
  - intros E. by destruct (encode (value_tree v)).
Qed.
