(* ===== verification/Errors.v ===== *)
(** * Errors: the error taxonomy shared by the box and the daemon

    Models [fabric-wire/src/errors.rs] and [fabric-wire/src/egress.rs] (owners, faults, the
    [EgressError] port result and its [__runlet] tag) and [runlet-core/src/errors.rs] (categories,
    sources, the response envelope).  JSON values are kept as trees ([Value]); the text codec is
    third-party and is not modelled here. *)

From S2P Require Import Prelude Json.

(** ** fabric-wire: owners and faults *)

Inductive ErrorOwner := Caller | Developer | Operator.

#[export] Instance ErrorOwner_eq_dec : EqDecision ErrorOwner.
Proof. solve_decision. Defined.

(** [#[serde(rename_all = "lowercase")]] on [ErrorOwner]. *)
Definition owner_str (o : ErrorOwner) : string :=
  match o with
  | Caller => "caller" | Developer => "developer" | Operator => "operator"
  end.

(** [ErrorOwner::parse]. *)
Definition owner_parse (value : string) : option ErrorOwner :=
  if decide (value = "caller") then Some Caller
  else if decide (value = "developer") then Some Developer
  else if decide (value = "operator") then Some Operator
  else None.

Record Fault := { fault_code : string; fault_retryable : bool; fault_owner : ErrorOwner }.

(** [Fault::new]. *)
Definition Fault_new (code : string) (retryable : bool) (owner : ErrorOwner) : Fault :=
  {| fault_code := code; fault_retryable := retryable; fault_owner := owner |}.

(** The [__runlet] tag built from dynamic fields. *)
Record DynamicFault := {
  df_error : string;
  df_code : string;
  df_retryable : bool;
  df_owner : ErrorOwner;
  df_source : string;
  df_details : option Value
}.

(** The derived [Serialize] of [DynamicFault]: the fields in declaration order, [details] skipped
    when absent. *)
Definition dynamic_fault_value (f : DynamicFault) : Value :=
  VObject ([("error", VString (df_error f));
            ("code", VString (df_code f));
            ("retryable", VBool (df_retryable f));
            ("owner", VString (owner_str (df_owner f)));
            ("source", VString (df_source f))]
           ++ match df_details f with Some d => [("details", d)] | None => [] end).

(** ** fabric-wire: the [Egress] port's error *)

Record EgressError := {
  ee_code : string;
  ee_message : string;
  ee_source : string;
  ee_details : option Value;
  ee_retryable : bool;
  ee_owner : ErrorOwner
}.

(** [EgressError::new]. *)
Definition EgressError_new (source code message : string) : EgressError :=
  {| ee_code := code; ee_message := message; ee_source := source;
     ee_details := None; ee_retryable := false; ee_owner := Operator |}.

(** [EgressError::retryable] (builder). *)
Definition with_retryable (e : EgressError) : EgressError :=
  {| ee_code := ee_code e; ee_message := ee_message e; ee_source := ee_source e;
     ee_details := ee_details e; ee_retryable := true; ee_owner := ee_owner e |}.

(** [EgressError::owner] (builder). *)
Definition with_owner (e : EgressError) (o : ErrorOwner) : EgressError :=
  {| ee_code := ee_code e; ee_message := ee_message e; ee_source := ee_source e;
     ee_details := ee_details e; ee_retryable := ee_retryable e; ee_owner := o |}.

(** [EgressError::to_tag_json], up to the JSON text codec. *)
Definition to_tag (e : EgressError) : Value :=
  dynamic_fault_value
    {| df_error := ee_message e; df_code := ee_code e; df_retryable := ee_retryable e;
       df_owner := ee_owner e; df_source := ee_source e; df_details := ee_details e |}.

(** ** runlet-core: categories, sources, envelope *)

Inductive ErrorCategory := CatRequest | CatRuntime | CatScript | CatCapability.

#[export] Instance ErrorCategory_eq_dec : EqDecision ErrorCategory.
Proof. solve_decision. Defined.

Inductive ErrorSource :=
| SrcRequest | SrcEngine | SrcHandler | SrcDb | SrcMongo | SrcMail | SrcS3 | SrcApi
| SrcRedis | SrcAmq | SrcAuth.

#[export] Instance ErrorSource_eq_dec : EqDecision ErrorSource.
Proof. solve_decision. Defined.

(** [#[serde(rename_all = "lowercase")]] on [ErrorSource]. *)
Definition source_str (s : ErrorSource) : string :=
  match s with
  | SrcRequest => "request" | SrcEngine => "engine" | SrcHandler => "handler"
  | SrcDb => "db" | SrcMongo => "mongo" | SrcMail => "mail" | SrcS3 => "s3"
  | SrcApi => "api" | SrcRedis => "redis" | SrcAmq => "amq" | SrcAuth => "auth"
  end.

(** [ErrorSource::parse]. *)
Definition source_parse (value : string) : option ErrorSource :=
  if decide (value = "request") then Some SrcRequest
  else if decide (value = "engine") then Some SrcEngine
  else if decide (value = "handler") then Some SrcHandler
  else if decide (value = "db") then Some SrcDb
  else if decide (value = "mongo") then Some SrcMongo
  else if decide (value = "mail") then Some SrcMail
  else if decide (value = "s3") then Some SrcS3
  else if decide (value = "api") then Some SrcApi
  else if decide (value = "redis") then Some SrcRedis
  else if decide (value = "amq") then Some SrcAmq
  else if decide (value = "auth") then Some SrcAuth
  else None.

(** The FFI payload of a throwing capability and [capability_fault_json], up to the text codec. *)
Definition capability_fault_value (source : ErrorSource) (fault : Fault) (message : string)
    (details : option Value) : Value :=
  VObject ([("error", VString message);
            ("code", VString (fault_code fault));
            ("retryable", VBool (fault_retryable fault));
            ("owner", VString (owner_str (fault_owner fault)));
            ("source", VString (source_str source))]
           ++ match details with Some d => [("details", d)] | None => [] end).

(** [api_inband_error_json]: the transport failure returned as data, never thrown. *)
Definition api_inband_error_value (fault : Fault) (message : string) : Value :=
  VObject [("status", VNumber "0");
           ("error", VObject [("code", VString (fault_code fault));
                              ("retryable", VBool (fault_retryable fault));
                              ("owner", VString (owner_str (fault_owner fault)));
                              ("source", VString (source_str SrcApi));
                              ("message", VString message)])].

Record ErrorDebug := { dbg_stack : option string; dbg_raw : option string }.

(** [ErrorDebug::is_empty]. *)
Definition debug_is_empty (d : ErrorDebug) : bool :=
  bool_decide (dbg_stack d = None) && bool_decide (dbg_raw d = None).

Record ErrorEnvelope := {
  env_category : ErrorCategory;
  env_source : ErrorSource;
  env_code : string;
  env_message : option string;
  env_retryable : bool;
  env_owner : ErrorOwner;
  env_details : option Value;
  env_debug : option ErrorDebug
}.

(** [ErrorEnvelope::new]. *)
Definition ErrorEnvelope_new (category : ErrorCategory) (source : ErrorSource) (code : string)
    (retryable : bool) (owner : ErrorOwner) : ErrorEnvelope :=
  {| env_category := category; env_source := source; env_code := code; env_message := None;
     env_retryable := retryable; env_owner := owner; env_details := None; env_debug := None |}.

(** [ErrorEnvelope::with_message]. *)
Definition with_message (e : ErrorEnvelope) (message : string) : ErrorEnvelope :=
  {| env_category := env_category e; env_source := env_source e; env_code := env_code e;
     env_message := Some message; env_retryable := env_retryable e; env_owner := env_owner e;
     env_details := env_details e; env_debug := env_debug e |}.

(** [ErrorEnvelope::with_details]. *)
Definition with_details (e : ErrorEnvelope) (details : option Value) : ErrorEnvelope :=
  {| env_category := env_category e; env_source := env_source e; env_code := env_code e;
     env_message := env_message e; env_retryable := env_retryable e; env_owner := env_owner e;
     env_details := details; env_debug := env_debug e |}.

(** [ErrorEnvelope::with_debug]: an empty debug object is dropped. *)
Definition with_debug (e : ErrorEnvelope) (d : ErrorDebug) : ErrorEnvelope :=
  {| env_category := env_category e; env_source := env_source e; env_code := env_code e;
     env_message := env_message e; env_retryable := env_retryable e; env_owner := env_owner e;
     env_details := env_details e;
     env_debug := if debug_is_empty d then None else Some d |}.

(** ** Lemmas *)

Lemma owner_parse_str o : owner_parse (owner_str o) = Some o.
Proof. by destruct o. Qed.

Lemma source_parse_str s : source_parse (source_str s) = Some s.
Proof. by destruct s. Qed.

Lemma source_parse_inv value s : source_parse value = Some s → value = source_str s.
Proof.
  unfold source_parse. intros H.
  repeat match type of H with context [decide ?P] => destruct (decide P) as [->|] end;
    by simplify_eq/=.
Qed.

Lemma owner_parse_inv value o : owner_parse value = Some o → value = owner_str o.
Proof.
  unfold owner_parse. intros H.
  repeat match type of H with context [decide ?P] => destruct (decide P) as [->|] end;
    by simplify_eq/=.
Qed.

#[export] Hint Rewrite owner_parse_str source_parse_str : runlet.

(** ** The taxonomy of a capability's faults *)

(** A fault a capability may raise: its code carries the capability's prefix, and only the operator's
    faults are worth a retry. *)
Definition fault_of (kind : string) (code : string) (retryable : bool) (owner : ErrorOwner) : Prop :=
  is_Some (strip_prefix (to_ascii_uppercase kind +:+ "_") code) ∧ (retryable = true → owner = Operator).
Definition capability_fault (kind : string) (f : Fault) : Prop :=
  fault_of kind (fault_code f) (fault_retryable f) (fault_owner f).
(** An egress error a capability may return. *)
Definition capability_error (kind : string) (e : EgressError) : Prop :=
  ee_source e = kind ∧ fault_of kind (ee_code e) (ee_retryable e) (ee_owner e).

Lemma fault_of_bool kind code retryable owner :
  bool_decide (is_Some (strip_prefix (to_ascii_uppercase kind +:+ "_") code)) &&
    (negb retryable || bool_decide (owner = Operator)) = true →
  fault_of kind code retryable owner.
Proof.
  rewrite andb_true_iff, bool_decide_eq_true, orb_true_iff, negb_true_iff, bool_decide_eq_true.
  intros [H1 H2]. split; [done|]. intros ->. by destruct H2.
Qed.

(** Decides whether a concrete fault belongs to a capability. *)
Ltac fault_tac := by (repeat case_match; apply fault_of_bool; vm_compute).
Ltac cap_tac := by (repeat case_match; (split; [reflexivity|]); apply fault_of_bool; vm_compute).
