(* ===== verification/Breaker.v ===== *)
(** * Breaker: the per-target circuit breaker

    Models [fabric-wire/src/breaker.rs].  Instants and durations are nanoseconds; every operation
    takes the clock reading its body makes.  The mutex is its poison flag plus the map it guards;
    each operation holds the lock for its whole body, so a concurrent history is a sequence of
    operations ([run]). *)

From S2P Require Import Prelude.
Local Open Scope Z_scope.

(** [Instant] on Linux: an [i64] of seconds and nanoseconds below 10^9. *)
Definition INSTANT_MAX : Z := (2 ^ 63 - 1) * 1000000000 + 999999999.

(** [Instant::checked_add]. *)
Definition checked_add (now d : Z) : option Z :=
  if decide (now + d ≤ INSTANT_MAX) then Some (now + d) else None.

Record BreakerConfig := { threshold : Z; cooldown : Z }.

Record TargetState := { failures : Z; open_until : option Z }.

Record CircuitBreaker := {
  config : BreakerConfig;
  poisoned : bool;
  targets : gmap string TargetState;
  trips : Z
}.

(** [CircuitBreaker::new]. *)
Definition CircuitBreaker_new (config : BreakerConfig) : option CircuitBreaker :=
  if decide (threshold config = 0) then None
  else Some {| config := config; poisoned := false; targets := ∅; trips := 0 |}.

Definition set_targets (cb : CircuitBreaker) (m : gmap string TargetState) (n : Z)
    : CircuitBreaker :=
  {| config := config cb; poisoned := poisoned cb; targets := m; trips := n |}.

(** [CircuitBreaker::allow], at clock reading [now]. *)
Definition allow (cb : CircuitBreaker) (target : string) (now : Z) : bool * CircuitBreaker :=
  if poisoned cb then (true, cb) else
  match targets cb !! target with
  | None => (true, cb)
  | Some state =>
      match open_until state with
      | Some until =>
          if decide (now < until) then (false, cb)
          else (true, set_targets cb
                        (<[target := {| failures := failures state;
                                        open_until := checked_add now (cooldown (config cb)) |}]>
                           (targets cb)) (trips cb))
      | None => (true, cb)
      end
  end.

(** [CircuitBreaker::record], at clock reading [now]. *)
Definition record (cb : CircuitBreaker) (target : string) (success : bool) (now : Z)
    : CircuitBreaker :=
  if poisoned cb then cb else
  let state := default {| failures := 0; open_until := None |} (targets cb !! target) in
  if success then
    set_targets cb (<[target := {| failures := 0; open_until := None |}]> (targets cb)) (trips cb)
  else
    let n := sat_add_u32 (failures state) 1 in
    if decide (threshold (config cb) ≤ n) then
      set_targets cb
        (<[target := {| failures := n; open_until := checked_add now (cooldown (config cb)) |}]>
           (targets cb))
        (if decide (open_until state = None) then fetch_add_u64 (trips cb) 1 else trips cb)
    else
      set_targets cb (<[target := {| failures := n; open_until := open_until state |}]>
                        (targets cb)) (trips cb).

(** ** Histories *)

Inductive op :=
| OAllow (target : string) (now : Z)
| ORecord (target : string) (success : bool) (now : Z).

Definition op_target (o : op) : string :=
  match o with OAllow t _ => t | ORecord t _ _ => t end.
Definition op_now (o : op) : Z :=
  match o with OAllow _ now => now | ORecord _ _ now => now end.

Definition step (cb : CircuitBreaker) (o : op) : CircuitBreaker :=
  match o with
  | OAllow t now => (allow cb t now).2
  | ORecord t ok now => record cb t ok now
  end.

Definition run (cb : CircuitBreaker) (ops : list op) : CircuitBreaker := fold_left step ops cb.

(** The answers of a list of [allow] calls on one target. *)
Fixpoint allow_all (cb : CircuitBreaker) (target : string) (nows : list Z)
    : list bool * CircuitBreaker :=
  match nows with
  | [] => ([], cb)
  | now :: rest =>
      let '(b, cb1) := allow cb target now in
      let '(bs, cb2) := allow_all cb1 target rest in (b :: bs, cb2)
  end.

(** ** Abstract specification: what a history means for one target *)

(** Connect failures since the last success recorded for [t]. *)
Fixpoint consecutive (t : string) (acc : Z) (ops : list op) : Z :=
  match ops with
  | [] => acc
  | ORecord t' ok _ :: rest =>
      consecutive t (if decide (t' = t) then (if ok then 0 else acc + 1) else acc) rest
  | OAllow _ _ :: rest => consecutive t acc rest
  end.

(** The failure count the breaker holds for a target (absent means zero). *)
Definition failures_of (cb : CircuitBreaker) (t : string) : Z :=
  match targets cb !! t with Some s => failures s | None => 0 end.

(** The open window the breaker holds for a target. *)
Definition open_of (cb : CircuitBreaker) (t : string) : option Z :=
  match targets cb !! t with Some s => open_until s | None => None end.

(** Well-formed: counts are [u32], and an open target has reached the threshold. *)
Definition wf (cb : CircuitBreaker) : Prop :=
  0 < threshold (config cb) ∧
  ∀ t s, targets cb !! t = Some s →
    in_u32 (failures s) ∧ (open_until s ≠ None → threshold (config cb) ≤ failures s).

(** ** Lemmas *)

Lemma step_config cb o : config (step cb o) = config cb.
Proof. destruct o; simpl; unfold allow, record; destruct_matches; done. Qed.

Lemma step_poisoned cb o : poisoned (step cb o) = poisoned cb.
Proof. destruct o; simpl; unfold allow, record; destruct_matches; done. Qed.

Lemma step_other cb o t : op_target o ≠ t → targets (step cb o) !! t = targets cb !! t.
Proof.
  intros Hne. destruct o; simpl in *; unfold allow, record; destruct_matches;
    by rewrite ?lookup_insert_ne.
Qed.

Lemma allow_targets cb t now b cb' :
  allow cb t now = (b, cb') → failures_of cb' t = failures_of cb t.
Proof.
  unfold allow, failures_of. intros H. destruct_matches; simplify_map_eq; done.
Qed.

Lemma failures_of_step cb o t :
  poisoned cb = false → failures_of (step cb o) t =
    match o with
    | ORecord t' ok _ =>
        if decide (t' = t) then (if ok then 0 else sat_add_u32 (failures_of cb t) 1)
        else failures_of cb t
    | OAllow _ _ => failures_of cb t
    end.
Proof.
  intros Hp. destruct o as [t' now|t' ok now]; simpl.
  - destruct (decide (t' = t)) as [->|Hne].
    + destruct (allow cb t now) eqn:E. by eapply allow_targets.
    + unfold failures_of. by rewrite (step_other cb (OAllow t' now)).
  - destruct (decide (t' = t)) as [->|Hne].
    + unfold record, failures_of. rewrite Hp.
      destruct (targets cb !! t) eqn:E; destruct_matches; simplify_map_eq; done.
    + unfold failures_of. by rewrite (step_other cb (ORecord t' ok now)).
Qed.

Lemma step_wf cb o : wf cb → wf (step cb o).
Proof.
  intros [Hth Hwf]. split; [by rewrite step_config|].
  intros t s Hs. rewrite step_config.
  destruct (decide (op_target o = t)) as [Ht|Hne];
    [|rewrite step_other in Hs by done; by apply Hwf in Hs].
  destruct o; simpl in *; subst; unfold allow, record in Hs;
    repeat (case_decide || case_match); simplify_map_eq; eauto;
    destruct (targets cb !! t) as [s0|] eqn:E; simpl in *; simplify_eq;
    try (destruct (Hwf _ _ E) as [? Hop]); unfold in_u32, sat_add_u32, U32_MAX in *;
    split; try lia; intros Hopen; try congruence;
    specialize (Hop ltac:(congruence)); lia.
Qed.
#[export] Hint Resolve step_wf : runlet.

Lemma run_wf cb ops : wf cb → wf (run cb ops).
Proof. revert cb. induction ops; simpl; auto with runlet. Qed.

Lemma new_wf cfg cb : 0 ≤ threshold cfg → CircuitBreaker_new cfg = Some cb → wf cb.
Proof.
  unfold CircuitBreaker_new. intros Hpos ?. case_decide; simplify_eq.
  split; simpl; [lia|]. intros t s. by rewrite lookup_empty.
Qed.

Lemma run_app cb ops ops' : run cb (ops ++ ops') = run (run cb ops) ops'.
Proof. apply fold_left_app. Qed.

Lemma run_poisoned cb ops : poisoned (run cb ops) = poisoned cb.
Proof. revert cb. induction ops as [|o ops IH]; intros cb; simpl; [done|]. by rewrite IH, step_poisoned. Qed.

Lemma run_config cb ops : config (run cb ops) = config cb.
Proof. revert cb. induction ops as [|o ops IH]; intros cb; simpl; [done|]. by rewrite IH, step_config. Qed.

Lemma consecutive_min t ops acc :
  0 ≤ acc → Z.min U32_MAX (consecutive t (Z.min U32_MAX acc) ops) =
             Z.min U32_MAX (consecutive t acc ops).
Proof.
  intros Hacc.
  enough (∀ a b, 0 ≤ a → 0 ≤ b → Z.min U32_MAX a = Z.min U32_MAX b →
    Z.min U32_MAX (consecutive t a ops) = Z.min U32_MAX (consecutive t b ops)) as H.
  { apply H; unfold U32_MAX; lia. }
  clear. induction ops as [|[t' n|t' ok n] ops IH]; intros a b Ha Hb E; simpl; [done| |].
  - by apply IH.
  - repeat case_decide; destruct ok; apply IH; unfold U32_MAX in *; lia.
Qed.

Lemma run_failures cb ops t :
  poisoned cb = false → in_u32 (failures_of cb t) →
  failures_of (run cb ops) t = Z.min U32_MAX (consecutive t (failures_of cb t) ops).
Proof.
  revert cb. induction ops as [|o ops IH]; intros cb Hp Hr.
  { unfold in_u32 in Hr. simpl. lia. }
  simpl. pose proof (failures_of_step cb o t Hp) as Hs.
  rewrite IH; [|by rewrite step_poisoned|].
  - rewrite Hs. destruct o as [t' n|t' ok n]; simpl; [done|].
    repeat case_decide; destruct ok; try done.
    unfold sat_add_u32. apply consecutive_min. unfold in_u32 in Hr. lia.
  - rewrite Hs. destruct o as [t' n|t' ok n]; [done|]. repeat case_decide; destruct ok; try done;
      unfold in_u32, sat_add_u32, U32_MAX in *; lia.
Qed.

(** While the window is open no call passes and the state does not move. *)
Lemma allow_all_closed cb t until nows :
  poisoned cb = false → open_of cb t = Some until → Forall (λ now, now < until) nows →
  allow_all cb t nows = (replicate (length nows) false, cb).
Proof.
  intros Hp Ho. induction 1 as [|now nows Hlt Hall IH]; [done|]. simpl.
  assert (allow cb t now = (false, cb)) as ->.
  { unfold allow. rewrite Hp. unfold open_of in Ho. destruct (targets cb !! t) as [s|]; [|done].
    rewrite Ho. by rewrite decide_True. }
  by rewrite IH.
Qed.

(** The operation moves its target from closed to open. *)
Definition opens (cb : CircuitBreaker) (o : op) : bool :=
  bool_decide (open_of cb (op_target o) = None) &&
  bool_decide (open_of (step cb o) (op_target o) ≠ None).

(** Closed-to-open transitions along a history. *)
Fixpoint count_opens (cb : CircuitBreaker) (ops : list op) : Z :=
  match ops with
  | [] => 0
  | o :: rest => (if opens cb o then 1 else 0) + count_opens (step cb o) rest
  end.

Lemma step_trips cb o :
  poisoned cb = false → op_now o + cooldown (config cb) ≤ INSTANT_MAX → in_u64 (trips cb) →
  wf cb →
  trips (step cb o) = fetch_add_u64 (trips cb) (if opens cb o then 1 else 0).
Proof.
  intros Hp Hmax Hr Hwf.
  assert (trips cb = fetch_add_u64 (trips cb) 0) as H0.
  { rewrite fetch_add_u64_small; unfold in_u64 in Hr; lia. }
  destruct o as [t now|t ok now]; simpl in *; unfold opens, open_of; simpl;
    unfold allow, record; rewrite Hp; unfold checked_add;
    destruct (targets cb !! t) as [s|] eqn:E; simpl; rewrite ?E; simpl;
    [destruct (open_until s) eqn:Eo| |destruct ok; [|destruct (open_until s) eqn:Eo]
    |destruct ok]; simpl; rewrite ?E; simpl;
    repeat (case_decide; simpl); rewrite ?E, ?lookup_insert_eq; simpl; rewrite ?Eo, ?andb_false_r; simpl;
    try done; try lia.
Qed.

Lemma run_trips cb ops :
  poisoned cb = false → Forall (λ o, op_now o + cooldown (config cb) ≤ INSTANT_MAX) ops →
  in_u64 (trips cb) → wf cb →
  trips (run cb ops) = fetch_add_u64 (trips cb) (count_opens cb ops).
Proof.
  intros Hp Hall. revert cb Hp Hall.
  induction ops as [|o ops IH]; intros cb Hp Hall Hr Hwf; simpl.
  { rewrite fetch_add_u64_small; unfold in_u64 in Hr; lia. }
  apply Forall_cons in Hall as [Ho Hall].
  rewrite IH; rewrite ?step_poisoned, ?step_config; auto with runlet.
  - rewrite step_trips by done. unfold fetch_add_u64.
    rewrite Zplus_mod_idemp_l. f_equal. lia.
  - rewrite step_trips by done. apply fetch_add_u64_range.
Qed.

Lemma run_other cb ops t :
  targets (run cb ops) !! t =
  targets (run cb (filter (λ o, op_target o = t) ops)) !! t.
Proof.
  enough (∀ cb1 cb2, config cb1 = config cb2 → poisoned cb1 = poisoned cb2 →
    targets cb1 !! t = targets cb2 !! t →
    targets (run cb1 ops) !! t = targets (run cb2 (filter (λ o, op_target o = t) ops)) !! t)
    by auto.
  clear cb. induction ops as [|o ops IH]; intros cb1 cb2 Hc Hp Ht; simpl; [done|].
  rewrite filter_cons. destruct (decide (op_target o = t)) as [Heq|Hne]; simpl.
  - apply IH; rewrite ?step_config, ?step_poisoned; try done.
    destruct o as [t' now|t' ok now]; simpl in *; subst; unfold allow, record;
      rewrite Hc, Hp, Ht; destruct_matches; simplify_map_eq; congruence.
  - apply IH; rewrite ?step_config, ?step_poisoned; try done. by rewrite step_other.
Qed.

(** ** Properties *)

(** C34: after any history of operations on a fresh breaker, the count kept for a target is the
    number of connect failures recorded since its last success (saturating at [u32::MAX]), it
    depends only on the operations of that target, and the target can only be open once the
    threshold was reached. *)
Theorem breaker_history (cfg : BreakerConfig) (cb : CircuitBreaker) (ops : list op) (t : string)
    (Hth : 0 ≤ threshold cfg) (Hnew : CircuitBreaker_new cfg = Some cb) :
  failures_of (run cb ops) t = Z.min U32_MAX (consecutive t 0 ops) ∧
  targets (run cb ops) !! t = targets (run cb (filter (λ o, op_target o = t) ops)) !! t ∧
  (open_of (run cb ops) t ≠ None → threshold cfg ≤ consecutive t 0 ops).
Proof.
  assert (failures_of (run cb ops) t = Z.min U32_MAX (consecutive t 0 ops)) as Hf.
  { unfold CircuitBreaker_new in Hnew. case_decide; simplify_eq.
    by rewrite run_failures by (unfold in_u32, failures_of, U32_MAX; simpl; done || lia). }
  split; [done|]. split; [apply run_other|]. intros Hopen.
  destruct (run_wf cb ops (new_wf _ _ Hth Hnew)) as [_ Hwf].
  assert (config (run cb ops) = cfg) as Hc.
  { rewrite run_config. unfold CircuitBreaker_new in Hnew. by case_decide; simplify_eq. }
  unfold open_of, failures_of in *. destruct (targets (run cb ops) !! t) as [s|] eqn:E; [|done].
  destruct (Hwf _ _ E) as [_ Hle]. rewrite Hc in Hle. specialize (Hle Hopen). lia.
Qed.

(** Half-open probing.  When a target's open window has elapsed, of any number of calls made
    before the next cool-down runs out exactly the first is let through; the others fast-fail. *)
Theorem breaker_single_probe (cb : CircuitBreaker) (t : string) (until now : Z) (nows : list Z)
    (Hp : poisoned cb = false) (Hopen : open_of cb t = Some until) (Hel : until ≤ now)
    (Hmax : now + cooldown (config cb) ≤ INSTANT_MAX)
    (Hin : Forall (λ n, n < now + cooldown (config cb)) nows) :
  (allow_all cb t (now :: nows)).1 = true :: replicate (length nows) false.
Proof.
  unfold open_of in Hopen. destruct (targets cb !! t) as [s|] eqn:E; [|done]. simpl.
  destruct (allow cb t now) as [b cb1] eqn:Ha. unfold allow in Ha.
  rewrite Hp, E, Hopen, decide_False in Ha by lia. simplify_eq.
  erewrite allow_all_closed; [done|done| |exact Hin].
  unfold open_of, checked_add. simpl. by rewrite lookup_insert_eq, decide_True by lia.
Qed.

(** The trip counter counts exactly the closed-to-open transitions of a history, over all
    targets, as long as no cool-down runs past the end of the clock. *)
Theorem breaker_trips_exact (cfg : BreakerConfig) (cb : CircuitBreaker) (ops : list op)
    (Hth : 0 ≤ threshold cfg) (Hnew : CircuitBreaker_new cfg = Some cb)
    (Hmax : Forall (λ o, op_now o + cooldown cfg ≤ INSTANT_MAX) ops) :
  trips (run cb ops) = (count_opens cb ops) mod 2 ^ 64.
Proof.
  pose proof (new_wf _ _ Hth Hnew) as Hwf.
  unfold CircuitBreaker_new in Hnew. case_decide; simplify_eq.
  rewrite run_trips; [done|done|done|unfold in_u64, U64_MAX; simpl; lia|done].
Qed.

(** ** Witnesses *)

Definition demo_cfg : BreakerConfig := {| threshold := 2; cooldown := 10 |}.
Definition demo_breaker : CircuitBreaker :=
  {| config := demo_cfg; poisoned := false; targets := ∅; trips := 0 |}.
Definition demo_ops : list op :=
  [ORecord "db:1" false 0; OAllow "db:1" 1; ORecord "db:1" false 2; ORecord "db:2" true 3].

Lemma breaker_history_witness :
  failures_of (run demo_breaker demo_ops) "db:1" = 2 ∧
  open_of (run demo_breaker demo_ops) "db:1" = Some 12.
Proof.
  split; [|vm_compute; reflexivity].
  rewrite (proj1 (breaker_history demo_cfg demo_breaker demo_ops "db:1"
             ltac:(vm_compute; discriminate) ltac:(reflexivity))).
  vm_compute. reflexivity.
Defined.

Lemma breaker_single_probe_witness :
  (allow_all (run demo_breaker demo_ops) "db:1" [12; 13; 21]).1 = [true; false; false].
Proof.
  apply (breaker_single_probe _ "db:1" 12 12 [13; 21]);
    [vm_compute; reflexivity|vm_compute; reflexivity|lia|vm_compute; discriminate|].
  repeat constructor; vm_compute; reflexivity.
Defined.

Lemma breaker_trips_exact_witness : trips (run demo_breaker demo_ops) = 1.
Proof.
  rewrite (breaker_trips_exact demo_cfg demo_breaker demo_ops);
    [vm_compute; reflexivity|vm_compute; discriminate|reflexivity|].
  repeat constructor; vm_compute; discriminate.
Defined.
