(* ===== verification/Runtime.v ===== *)
(** * Runtime: what the drivers use of the platform

    The outside world is a state every operation threads ([Act]).  This file holds that state monad
    with its error-propagating bind, the clocks, [tokio::time::timeout], [str::to_lowercase], the
    shared circuit-breaker cells, and IEEE-754 numbers as the code uses them.  Platform code enters as
    classes with the behaviour its documentation gives. *)

From Stdlib Require Import Ascii SpecFloat.
From stdpp Require Import pretty.
From S2P Require Import Prelude Json Breaker.
Local Open Scope Z_scope.

(** ** Effects: state passing, and the propagation of errors by [?] *)

Definition Act (World A : Type) : Type := World → A * World.
Definition act_ret {World A} (a : A) : Act World A := λ w, (a, w).
Definition act_bind {World A B} (m : Act World A) (k : A → Act World B) : Act World B :=
  λ w, let '(a, w') := m w in k a w'.
(** [let x = m?;] *)
Definition act_try {World A B E} (m : Act World (result A E)) (k : A → Act World (result B E))
    : Act World (result B E) :=
  λ w, match m w with (Ok a, w') => k a w' | (Err e, w') => (Err e, w') end.
(** [let x = r?;] for a pure [r]. *)
Definition pure_try {World A B E} (r : result A E) (k : A → Act World (result B E))
    : Act World (result B E) :=
  match r with Ok a => k a | Err e => act_ret (Err e) end.

Notation "'let!' x ':=' c 'in' k" := (act_bind c (λ x, k))
  (at level 10, x pattern, c at level 100, k at level 200) : runlet_scope.
Notation "'let!?' x ':=' c 'in' k" := (act_try c (λ x, k))
  (at level 10, x pattern, c at level 100, k at level 200) : runlet_scope.
Notation "'let?!' x ':=' c 'in' k" := (pure_try c (λ x, k))
  (at level 10, x pattern, c at level 100, k at level 200) : runlet_scope.

(** ** Platform classes *)

(** The clocks: [Instant] in nanoseconds, and [SystemTime] in seconds since the epoch or the error of
    [duration_since]. *)
Class Clock (Net : Type) := { instant : Net → Z; unix_secs : Net → result Z string }.

(** [str::to_lowercase]: on ASCII text it is the ASCII lower case. *)
Class UnicodeCase := {
  to_lowercase : string → string;
  to_lowercase_ascii s :
    Forall (λ a, (nat_of_ascii a < 128)%nat) (bytes_of s) → to_lowercase s = to_ascii_lowercase s
}.

(** [tokio::time::timeout], in nanoseconds: what the future returned, or [None] when the time elapsed
    and the future was dropped part-way. *)
Class Tokio (World : Type) := {
  timeout : ∀ {T : Type}, Z → Act World T → Act World (option T);
  timeout_completed {T} d (fut : Act World T) w x w' :
    timeout d fut w = (Some x, w') → fut w = (x, w')
}.

(** The shared breakers ([Arc<CircuitBreaker>]) of the process, by address. *)
Abbreviation BreakerRef := positive.
Class BreakerStore (World : Type) := {
  breaker_at : BreakerRef → World → CircuitBreaker;
  breaker_put : BreakerRef → CircuitBreaker → World → World;
  breaker_at_put r cb w : breaker_at r (breaker_put r cb w) = cb
}.

Section time.
Context {World : Type} `{!Clock World}.

(** [Instant::now]. *)
Definition now : Act World Z := λ w, (instant w, w).
(** [start.elapsed().as_micros()]. *)
Definition elapsed_micros (start : Z) : Act World Z := λ w, (sat_sub (instant w) start / 1000, w).
(** [deadline.saturating_duration_since(Instant::now())]. *)
Definition remaining (deadline : Z) : Act World Z := λ w, (sat_sub deadline (instant w), w).
(** [Instant::now().checked_add(timeout).unwrap_or_else(Instant::now)]; the timeout in milliseconds. *)
Definition deadline_after (timeout_ms : Z) : Act World Z :=
  λ w, (default (instant w) (checked_add (instant w) (timeout_ms * 1000000)), w).

(** [guard.allow(target)] and [guard.record(target, success)] on a shared breaker. *)
Context `{!BreakerStore World}.
Definition breaker_allow (r : BreakerRef) (target : string) : Act World bool :=
  λ w, let '(b, cb) := allow (breaker_at r w) target (instant w) in (b, breaker_put r cb w).
Definition breaker_record (r : BreakerRef) (target : string) (success : bool) : Act World () :=
  λ w, ((), breaker_put r (record (breaker_at r w) target success (instant w)) w).
End time.

(** ** IEEE-754 numbers *)

(** [f64] (and [f32]) as the Standard Library's specification floats. *)
Abbreviation f64 := spec_float.
Definition f64_is_finite (x : f64) : bool :=
  match x with S754_zero _ | S754_finite _ _ _ => true | S754_infinity _ | S754_nan => false end.
(** [f64::from(x : f32)]: exact. *)
Definition f64_from_f32 (x : spec_float) : f64 :=
  match x with
  | S754_finite s m e => binary_normalize 53 1024 (if s then Z.neg m else Z.pos m) e s
  | _ => x
  end.

(** ** Text formats *)

(** One byte percent-encoded, and [utf8_percent_encode] for a set of ASCII bytes: bytes of the set and
    all non-ASCII bytes are escaped. *)
Definition upper_hex (d : nat) : ascii := ascii_of_nat (if decide (d < 10)%nat then d + 48 else d + 55).
Definition encode_byte (set : ascii → bool) (a : ascii) : list ascii :=
  let n := nat_of_ascii a in
  if decide (set a = true ∨ (128 ≤ n)%nat)
  then ["%"%char; upper_hex (n / 16); upper_hex (n mod 16)] else [a].
Class PercentEncoding := {
  utf8_percent_encode : (ascii → bool) → string → string;
  utf8_percent_encode_spec set s :
    utf8_percent_encode set s = string_of (bytes_of s ≫= encode_byte set)
}.

(** [NON_ALPHANUMERIC] of [percent_encoding]. *)
Definition NON_ALPHANUMERIC (a : ascii) : bool :=
  let n := nat_of_ascii a in
  negb (bool_decide (48 ≤ n ≤ 57 ∨ 65 ≤ n ≤ 90 ∨ 97 ≤ n ≤ 122)%nat).

(** The numbers and bytes the drivers print: [serde_json]'s text of a finite [f64] and its reading of a
    number that is no 64-bit integer, and [base64]'s standard alphabet. *)
Class Formats := {
  f64_text : f64 → string;
  f64_parse : string → f64;
  b64_encode : list ascii → string
}.

(** [Number::from_f64(x).map_or(Value::Null, Value::Number)]. *)
Definition f64_value `{!Formats} (x : f64) : Value :=
  if f64_is_finite x then VNumber (f64_text x) else VNull.

(** A number JavaScript reads without loss: a 32-bit integer or a finite double. *)
Definition js_number `{!Formats} (lexeme : string) : Prop :=
  (∃ z, - 2 ^ 31 ≤ z < 2 ^ 31 ∧ lexeme = pretty z) ∨
  (∃ x, f64_is_finite x = true ∧ lexeme = f64_text x).
(** A tree all of whose numbers are such. *)
Fixpoint js_tree `{!Formats} (v : Value) : Prop :=
  match v with
  | VNull | VBool _ | VString _ => True
  | VNumber lexeme => js_number lexeme
  | VArray l => foldr (λ x P, js_tree x ∧ P) True l
  | VObject l => foldr (λ kx P, js_tree kx.2 ∧ P) True l
  end.

(** [Value::to_string] (the compact text; printing a value does not fail). *)
Definition value_display `{!JsonText} (v : Value) : string := default EmptyString (json_print v).

Lemma f64_value_number `{!Formats} x : js_tree (f64_value x).
Proof. unfold f64_value. destruct (f64_is_finite x) eqn:E; [|done]. right. eauto. Qed.

Lemma js_tree_array `{!Formats} l : js_tree (VArray l) ↔ Forall js_tree l.
Proof. induction l as [|v l IH]; [done|]. rewrite Forall_cons. simpl in *. by rewrite IH. Qed.
Lemma js_tree_object `{!Formats} l : js_tree (VObject l) ↔ Forall (λ kx, js_tree kx.2) l.
Proof. induction l as [|v l IH]; [done|]. rewrite Forall_cons. simpl in *. by rewrite IH. Qed.

(** Percent-encoding all but letters and digits leaves letters, digits and the percent sign. *)
Lemma encode_alphanumeric `{!PercentEncoding} s a :
  a ∈ bytes_of (utf8_percent_encode NON_ALPHANUMERIC s) →
  NON_ALPHANUMERIC a = false ∨ a = "%"%char.
Proof.
  rewrite utf8_percent_encode_spec, bytes_of_string_of. intros (c & Ha & _)%list_elem_of_bind.
  unfold encode_byte in Ha. case_decide as Hc.
  - rewrite !elem_of_cons in Ha. destruct Ha as [->|[->|[->|Ha]]]; [by right| | |by apply elem_of_nil in Ha];
      left; destruct c as [[] [] [] [] [] [] [] []]; done.
  - apply list_elem_of_singleton in Ha as ->. left. destruct (NON_ALPHANUMERIC c); naive_solver.
Qed.

(** ** Reasoning about the effects *)

Section laws.
Context {World : Type}.

Lemma act_try_ok {A B E} (m : Act World (result A E)) (k : A → Act World (result B E)) w a w' :
  m w = (Ok a, w') → act_try m k w = k a w'.
Proof. intros H. unfold act_try. by rewrite H. Qed.

Lemma act_try_err {A B E} (m : Act World (result A E)) (k : A → Act World (result B E)) w e w' :
  m w = (Err e, w') → act_try m k w = (Err e, w').
Proof. intros H. unfold act_try. by rewrite H. Qed.

(** What holds of the result of [m], and of what follows it, holds of the whole. *)
Lemma act_try_post {A B E} (P : result B E → Prop) (m : Act World (result A E)) k w :
  (∀ e w', m w = (Err e, w') → P (Err e)) →
  (∀ a w', m w = (Ok a, w') → P (k a w').1) →
  P (act_try m k w).1.
Proof. intros He Hk. unfold act_try. destruct (m w) as [[a|e] w1] eqn:Hm; simpl; eauto. Qed.

Lemma act_bind_post {A B} (P : B → Prop) (m : Act World A) k w :
  (∀ a w', m w = (a, w') → P (k a w').1) → P (act_bind m k w).1.
Proof. intros Hk. unfold act_bind. destruct (m w) as [a w1] eqn:Hm. eauto. Qed.

Lemma pure_try_post {A B E} (P : result B E → Prop) (r : result A E)
    (k : A → Act World (result B E)) w :
  (∀ e, r = Err e → P (Err e)) → (∀ a, r = Ok a → P (k a w).1) → P (pure_try r k w).1.
Proof. intros He Hk. destruct r; simpl; eauto. Qed.
End laws.

(** ** Which errors a computation can return *)

Section errs.
Context {World : Type}.

(** Every error of [m] satisfies [P]. *)
Definition errs {A E} (P : E → Prop) (m : Act World (result A E)) : Prop :=
  ∀ w e w', m w = (Err e, w') → P e.
(** The same for a pure result. *)
Definition pure_errs {A E} (P : E → Prop) (r : result A E) : Prop := ∀ e, r = Err e → P e.

Lemma pure_errs_ok {A E} (P : E → Prop) (a : A) : pure_errs P (Ok a).
Proof. by intros e. Qed.
Lemma pure_errs_err {A E} (P : E → Prop) e : P e → pure_errs P (Err (A:=A) e).
Proof. intros He e' [= ->]. done. Qed.
Lemma pure_errs_bind {A B E} (P : E → Prop) (r : result A E) (k : A → result B E) :
  pure_errs P r → (∀ a, pure_errs P (k a)) → pure_errs P (result_bind r k).
Proof. intros Hr Hk e. destruct r; simpl; [apply Hk|]. intros [= ->]. by apply Hr. Qed.
Lemma pure_errs_map {A E F} (P : F → Prop) (f : E → F) (r : result A E) :
  (∀ e, P (f e)) → pure_errs P (map_err f r).
Proof. intros Hf e. destruct r; simpl; [done|]. intros [= <-]. apply Hf. Qed.
Lemma pure_errs_map_of {A E F} (Q : E → Prop) (P : F → Prop) (f : E → F) (r : result A E) :
  pure_errs Q r → (∀ e, Q e → P (f e)) → pure_errs P (map_err f r).
Proof. intros Hr Hf e. destruct r; simpl; [done|]. intros [= <-]. by apply Hf, Hr. Qed.
Lemma pure_errs_ok_or {A E} (P : E → Prop) (o : option A) e : P e → pure_errs P (ok_or o e).
Proof. intros He e'. destruct o; simpl; [done|]. by intros [= <-]. Qed.

Lemma errs_ret {A E} (P : E → Prop) (r : result A E) : pure_errs P r → errs P (act_ret r).
Proof. intros H w e w' [= -> _]. by apply H. Qed.
Lemma errs_try {A B E} (P : E → Prop) (m : Act World (result A E)) (k : A → Act World (result B E)) :
  errs P m → (∀ a, errs P (k a)) → errs P (act_try m k).
Proof.
  intros Hm Hk w e w'. unfold act_try. destruct (m w) as [[a|e'] w1] eqn:Hw.
  - apply Hk.
  - intros [= -> ->]. by eapply Hm.
Qed.
Lemma errs_pure_try {A B E} (P : E → Prop) (r : result A E) (k : A → Act World (result B E)) :
  pure_errs P r → (∀ a, errs P (k a)) → errs P (pure_try r k).
Proof. intros Hr Hk. destruct r; simpl; [apply Hk|]. apply errs_ret, pure_errs_err. by apply Hr. Qed.
Lemma errs_bind {A B E} (P : E → Prop) (m : Act World A) (k : A → Act World (result B E)) :
  (∀ a, errs P (k a)) → errs P (act_bind m k).
Proof. intros Hk w e w'. unfold act_bind. destruct (m w) as [a w1]. apply Hk. Qed.
Lemma errs_bind_of {A B E F} (Q : F → Prop) (P : E → Prop) (m : Act World (result A F))
    (k : result A F → Act World (result B E)) :
  errs Q m → (∀ r, pure_errs Q r → errs P (k r)) → errs P (act_bind m k).
Proof.
  intros Hm Hk w e w'. unfold act_bind. destruct (m w) as [r w1] eqn:Hw. apply Hk.
  intros e' ->. by eapply Hm.
Qed.

Lemma errs_inv {A E} (P : E → Prop) (m : Act World (result A E)) w e :
  errs P m → (m w).1 = Err e → P e.
Proof. intros Hm. destruct (m w) as [r w'] eqn:Hw. simpl. intros ->. by eapply Hm. Qed.
End errs.

Create HintDb errs.
#[export] Hint Resolve pure_errs_ok pure_errs_err pure_errs_map pure_errs_ok_or : errs.

(** Walks through a computation, leaving the errors it makes itself. *)
Ltac errs_step :=
  first
    [ apply errs_pure_try; [|intros ?] | apply errs_try; [|intros ?] | apply errs_ret
    | apply pure_errs_bind; [|intros ?] | apply errs_bind; intros ?
    | apply pure_errs_ok | apply pure_errs_err | apply pure_errs_map; intros ?
    | apply pure_errs_ok_or
    | case_match | progress simpl ].
Ltac errs_auto := repeat (first [solve [eauto with errs] | errs_step]).
