(* ===== verification/Wire.v ===== *)
(** * Wire: the box-daemon protocol, its framing, and the metric collector

    Models [fabric-wire/src/wire.rs] (metric types, session protocol, length-prefixed frames) and
    [fabric-wire/src/metrics.rs] (the per-execution collector).  The JSON codec is third-party
    ([serde_json]) and enters as the class [Codec]; a reader is the bytes still to come and what
    happens after them, a writer the bytes sent so far and the room left. *)

From Stdlib Require Import Ascii.
From S2P Require Import Prelude Errors.
Local Open Scope Z_scope.

(** ** Per-capability metrics *)

Record DbMetric := {
  dbm_action : string; dbm_duration_us : Z; dbm_rows_returned : Z; dbm_rows_affected : Z;
  dbm_truncated : bool }.
Record MongoMetric := {
  mgm_action : string; mgm_duration_us : Z; mgm_docs_returned : Z; mgm_docs_affected : Z;
  mgm_truncated : bool }.
Record MailMetric := {
  mlm_action : string; mlm_duration_us : Z; mlm_recipients : Z; mlm_bytes : Z;
  mlm_accepted : bool }.
Record RedisMetric := {
  rdm_action : string; rdm_duration_us : Z; rdm_bytes : Z; rdm_hit : bool }.
Record AmqMetric := {
  aqm_action : string; aqm_duration_us : Z; aqm_messages : Z; aqm_bytes : Z;
  aqm_published : bool }.
Record AuthMetric := {
  atm_action : string; atm_host : string; atm_status : Z; atm_duration_us : Z }.

Record BackendMetrics := {
  bm_db : list DbMetric; bm_mongo : list MongoMetric; bm_mail : list MailMetric;
  bm_redis : list RedisMetric; bm_amq : list AmqMetric; bm_auth : list AuthMetric }.

(** The derived [Default]. *)
Definition BackendMetrics_default : BackendMetrics :=
  {| bm_db := []; bm_mongo := []; bm_mail := []; bm_redis := []; bm_amq := []; bm_auth := [] |}.

(** ** Session protocol *)

Record WireInit := {
  wi_db : option string; wi_mongo : option string; wi_mail : option string;
  wi_redis : option string; wi_amq : option string; wi_auth : option string;
  wi_timeout_ms : Z; wi_tenant : option string; wi_token : option string }.

(** [Clone] plus the assignment of [token] ([authed.token = token]). *)
Definition set_token (i : WireInit) (token : option string) : WireInit :=
  {| wi_db := wi_db i; wi_mongo := wi_mongo i; wi_mail := wi_mail i; wi_redis := wi_redis i;
     wi_amq := wi_amq i; wi_auth := wi_auth i; wi_timeout_ms := wi_timeout_ms i;
     wi_tenant := wi_tenant i; wi_token := token |}.

(** The arguments of the hand-written [Debug for WireInit]: one entry per [.field] call. *)
Inductive debug_arg := DOptStr (o : option string) | DU64 (z : Z).
Definition init_debug_fields (i : WireInit) : list (string * debug_arg) :=
  [("db", DOptStr (wi_db i)); ("mongo", DOptStr (wi_mongo i)); ("mail", DOptStr (wi_mail i));
   ("redis", DOptStr (wi_redis i)); ("amq", DOptStr (wi_amq i)); ("auth", DOptStr (wi_auth i));
   ("timeout_ms", DU64 (wi_timeout_ms i)); ("tenant", DOptStr (wi_tenant i));
   ("token", DOptStr ((λ _, "<redacted>") <$> wi_token i))].

Record WireCall := { wc_name : string; wc_action : string; wc_payload : string }.

Inductive WireRequest :=
| ReqInit (i : WireInit)
| ReqCall (c : WireCall)
| ReqDrain.

Inductive WireResponse :=
| Ack
| InitError (code message : string)
| Reply (r : result string EgressError)
| RespMetrics (m : BackendMetrics)
| ProtocolError (message : string).

(** ** Byte streams *)

Inductive IoError := UnexpectedEof (msg : string) | InvalidData (msg : string) | OtherIo (msg : string).

Definition is_eof (e : IoError) : bool :=
  match e with UnexpectedEof _ => true | _ => false end.

(** After its bytes a reader ends cleanly ([None]) or fails. *)
Record Reader := { r_avail : list ascii; r_tail : option IoError }.

(** [AsyncReadExt::read_exact]: all [n] bytes, or the error that cut it short. *)
Definition read_exact (n : nat) (r : Reader) : result (list ascii * Reader) IoError :=
  if decide (n ≤ length (r_avail r))%nat
  then Ok (take n (r_avail r), {| r_avail := drop n (r_avail r); r_tail := r_tail r |})
  else Err (default (UnexpectedEof "early eof") (r_tail r)).

(** [w_room]: bytes the peer still takes ([None] = any number). *)
Record Writer := { w_sent : list ascii; w_room : option nat; w_flush : option IoError }.

(** [AsyncWriteExt::write_all]. *)
Definition write_all (w : Writer) (bs : list ascii) : result unit IoError * Writer :=
  match w_room w with
  | None => (Ok (), {| w_sent := w_sent w ++ bs; w_room := None; w_flush := w_flush w |})
  | Some n =>
      if decide (length bs ≤ n)%nat
      then (Ok (), {| w_sent := w_sent w ++ bs; w_room := Some (n - length bs)%nat;
                      w_flush := w_flush w |})
      else (Err (OtherIo "write zero"),
            {| w_sent := w_sent w ++ take n bs; w_room := Some 0%nat; w_flush := w_flush w |})
  end.

(** [AsyncWriteExt::flush]. *)
Definition flush (w : Writer) : result unit IoError :=
  match w_flush w with Some e => Err e | None => Ok () end.

(** [u32::to_le_bytes] and [u32::from_le_bytes]. *)
Fixpoint le_bytes (n : nat) (z : Z) : list ascii :=
  match n with
  | O => []
  | S n' => ascii_of_N (Z.to_N (z mod 256)) :: le_bytes n' (z / 256)
  end.
Fixpoint from_le (l : list ascii) : Z :=
  match l with
  | [] => 0
  | a :: l' => Z.of_N (N_of_ascii a) + 256 * from_le l'
  end.

(** ** Framing *)

(** The hard cap on one frame's payload: 64 MiB. *)
Definition MAX_FRAME_BYTES : Z := 64 * 1024 * 1024.

(** [serde_json] for one message type: encoding may fail, and what was encoded from a value of
    [codec_ok] decodes back to it. *)
Class Codec (T : Type) := {
  to_vec : T → option (list ascii);
  from_slice : list ascii → option T;
  codec_ok : T → Prop;
  codec_roundtrip v bs : codec_ok v → to_vec v = Some bs → from_slice bs = Some v
}.

(** [write_frame]. *)
Definition write_frame {T} `{Codec T} (w : Writer) (v : T) : result unit IoError * Writer :=
  match to_vec v with
  | None => (Err (InvalidData "serialize"), w)
  | Some bytes =>
      let len := Z.of_nat (length bytes) in
      if decide (U32_MAX < len) then (Err (InvalidData "frame too large to encode"), w)
      else if decide (MAX_FRAME_BYTES < len) then (Err (InvalidData "frame exceeds size cap"), w)
      else
        match write_all w (le_bytes 4 len) with
        | (Err e, w1) => (Err e, w1)
        | (Ok _, w1) =>
            match write_all w1 bytes with
            | (Err e, w2) => (Err e, w2)
            | (Ok _, w2) => (flush w2, w2)
            end
        end
  end.

(** [read_frame]: the value ([None] at an end of stream) and the reader after it. *)
Definition read_frame {T} `{Codec T} (r : Reader) : result (option T * Reader) IoError :=
  match read_exact 4 r with
  | Err e => if is_eof e then Ok (None, r) else Err e
  | Ok (len_buf, r1) =>
      let len := from_le len_buf in
      if decide (MAX_FRAME_BYTES < len) then Err (InvalidData "frame exceeds size cap")
      else
        match read_exact (Z.to_nat len) r1 with
        | Err e => Err e
        | Ok (buf, r2) =>
            match from_slice buf with
            | Some v => Ok (Some v, r2)
            | None => Err (InvalidData "deserialize")
            end
        end
  end.

(** A run of [write_frame] calls. *)
Fixpoint write_frames {T} `{Codec T} (w : Writer) (vs : list T) : result unit IoError * Writer :=
  match vs with
  | [] => (Ok (), w)
  | v :: vs' =>
      match write_frame w v with
      | (Err e, w1) => (Err e, w1)
      | (Ok _, w1) => write_frames w1 vs'
      end
  end.

(** Reads frames until the end of the stream; [fuel] bounds the number of frames. *)
Fixpoint read_frames {T} `{Codec T} (fuel : nat) (r : Reader) : result (list T) IoError :=
  match fuel with
  | O => Ok []
  | S fuel' =>
      match read_frame r with
      | Err e => Err e
      | Ok (None, _) => Ok []
      | Ok (Some v, r1) => let? vs := read_frames fuel' r1 in Ok (v :: vs)
      end
  end.

(** ** The metric collector ([fabric-wire/src/metrics.rs]) *)

Record Collector (T : Type) := { coll_poisoned : bool; coll_items : list T }.
Arguments coll_poisoned {T} _.
Arguments coll_items {T} _.

(** [new_collector]. *)
Definition new_collector {T} : Collector T := {| coll_poisoned := false; coll_items := [] |}.

(** [record]: a poisoned lock drops the metric. *)
Definition coll_record {T} (c : Collector T) (metric : T) : Collector T :=
  if coll_poisoned c then c
  else {| coll_poisoned := false; coll_items := coll_items c ++ [metric] |}.

(** [drain]: a snapshot; the collector keeps its items. *)
Definition coll_drain {T} (c : option (Collector T)) : list T :=
  match c with
  | Some c => if coll_poisoned c then [] else coll_items c
  | None => []
  end.

(** [op_count]. *)
Definition op_count {T} (c : Collector T) : Z :=
  if coll_poisoned c then 0 else Z.of_nat (length (coll_items c)).

(** [check_op_limit]. *)
Definition check_op_limit {T} (c : Collector T) (max_ops : Z) : result unit string :=
  if negb (coll_poisoned c) && bool_decide (max_ops ≤ Z.of_nat (length (coll_items c)))
  then Err ("too many operations: limit is " +:+ pretty max_ops +:+ " per execution")
  else Ok ().

(** ** Lemmas *)

Lemma length_le_bytes n z : length (le_bytes n z) = n.
Proof. revert z. induction n; simpl; auto. Qed.

Lemma from_le_le_bytes n z : 0 ≤ z < 256 ^ Z.of_nat n → from_le (le_bytes n z) = z.
Proof.
  revert z. induction n as [|n IH]; intros z Hz; [simpl in *; lia|].
  cbn [le_bytes from_le]. rewrite Nat2Z.inj_succ, Z.pow_succ_r in Hz by lia.
  rewrite N_ascii_embedding.
  - rewrite Z2N.id by (apply Z.mod_pos_bound; lia).
    rewrite IH.
    + pose proof (Z.div_mod z 256). lia.
    + split; [apply Z.div_pos; lia|]. apply Z.div_lt_upper_bound; lia.
  - pose proof (Z.mod_pos_bound z 256). lia.
Qed.

Lemma from_le_bound l : 0 ≤ from_le l < 256 ^ Z.of_nat (length l).
Proof.
  induction l as [|a l IH]; [simpl; lia|].
  cbn [from_le length]. rewrite Nat2Z.inj_succ, Z.pow_succ_r by lia.
  pose proof (N_ascii_bounded a). lia.
Qed.

Lemma read_exact_app l k tl :
  read_exact (length l) {| r_avail := l ++ k; r_tail := tl |} =
  Ok (l, {| r_avail := k; r_tail := tl |}).
Proof.
  unfold read_exact. simpl. rewrite decide_True by (rewrite length_app; lia).
  by rewrite take_app_length, drop_app_length.
Qed.

Lemma write_all_unbounded w bs :
  w_room w = None →
  write_all w bs = (Ok (), {| w_sent := w_sent w ++ bs; w_room := None; w_flush := w_flush w |}).
Proof. unfold write_all. by intros ->. Qed.

Lemma read_exact_short n r :
  (length (r_avail r) < n)%nat →
  read_exact n r = Err (default (UnexpectedEof "early eof") (r_tail r)).
Proof. intros H. unfold read_exact. by rewrite decide_False by lia. Qed.

Section framing.
Context {T : Type} `{Codec T}.
Implicit Types (v : T) (r : Reader) (w : Writer).

(** The bytes of one frame. *)
Definition frame_bytes (bs : list ascii) : list ascii := le_bytes 4 (Z.of_nat (length bs)) ++ bs.

(** The values a frame can carry: encodable, within the cap, in the codec's domain. *)
Definition frameable v (bs : list ascii) : Prop :=
  codec_ok v ∧ to_vec v = Some bs ∧ Z.of_nat (length bs) ≤ MAX_FRAME_BYTES.

Lemma write_frame_ok w v bs :
  frameable v bs → w_room w = None → w_flush w = None →
  write_frame w v = (Ok (), {| w_sent := w_sent w ++ frame_bytes bs; w_room := None;
                               w_flush := None |}).
Proof.
  intros (Hok & Hv & Hlen) Hroom Hfl. unfold write_frame. rewrite Hv.
  rewrite !decide_False by (unfold U32_MAX, MAX_FRAME_BYTES in *; lia).
  rewrite write_all_unbounded by done. cbn zeta iota beta.
  rewrite write_all_unbounded by done. unfold flush, frame_bytes. simpl.
  by rewrite Hfl, <-app_assoc.
Qed.

Lemma read_frame_ok v bs rest tl :
  frameable v bs →
  read_frame {| r_avail := frame_bytes bs ++ rest; r_tail := tl |} =
  Ok (Some v, {| r_avail := rest; r_tail := tl |}).
Proof.
  intros (Hok & Hv & Hlen). unfold read_frame, frame_bytes. rewrite <-app_assoc.
  pose proof (read_exact_app (le_bytes 4 (Z.of_nat (length bs))) (bs ++ rest) tl) as Hr.
  rewrite length_le_bytes in Hr. rewrite Hr. cbn zeta.
  rewrite from_le_le_bytes by (unfold MAX_FRAME_BYTES in Hlen; lia).
  rewrite decide_False by lia. rewrite Nat2Z.id, read_exact_app.
  by erewrite codec_roundtrip.
Qed.

Lemma read_frame_eof r :
  (length (r_avail r) < 4)%nat → r_tail r = None → read_frame r = Ok (None, r).
Proof. intros Hl Ht. unfold read_frame. rewrite read_exact_short by done. by rewrite Ht. Qed.

Lemma write_frames_ok w vs bss :
  Forall2 frameable vs bss → w_room w = None → w_flush w = None →
  write_frames w vs =
  (Ok (), {| w_sent := w_sent w ++ concat (frame_bytes <$> bss); w_room := None;
             w_flush := None |}).
Proof.
  intros Hall. revert w. induction Hall as [|v bs vs bss Hv Hall IH]; intros w Hr Hf; simpl.
  - destruct w; simpl in *; subst. by rewrite app_nil_r.
  - erewrite write_frame_ok by done. rewrite IH by done. cbn [w_sent].
    by rewrite <-app_assoc.
Qed.

Lemma read_frames_ok fuel vs bss :
  Forall2 frameable vs bss → (length vs < fuel)%nat →
  read_frames fuel {| r_avail := concat (frame_bytes <$> bss); r_tail := None |} = Ok vs.
Proof.
  intros Hall. revert fuel. induction Hall as [|v bs vs bss Hv Hall IH]; intros fuel Hf;
    destruct fuel as [|fuel]; cbn [length] in Hf; try lia; cbn [read_frames].
  - by rewrite read_frame_eof by (simpl; done || lia).
  - rewrite fmap_cons. cbn [concat]. rewrite read_frame_ok with (v := v) by done.
    by rewrite IH by lia.
Qed.

End framing.

(** ** Properties *)

(** C40: a run of frames written to the wire and read back is the same run of messages, ending in
    the clean end of stream. *)
Theorem frames_roundtrip {T} `{Codec T} (vs : list T) (bss : list (list ascii)) (w : Writer)
    (Hvs : Forall2 frameable vs bss) (Hroom : w_room w = None) (Hfl : w_flush w = None)
    (Hstart : w_sent w = []) :
  let '(res, w') := write_frames w vs in
  res = Ok () ∧
  read_frames (S (length vs)) {| r_avail := w_sent w'; r_tail := None |} = Ok vs.
Proof.
  rewrite (write_frames_ok w vs bss) by done. rewrite Hstart.
  cbn [w_sent app]. split; [done|]. by apply read_frames_ok; [|lia].
Qed.

(** Every read is classified by the bytes alone, on every branch: a header cut short ends the
    session, a length above the cap is refused before any payload byte is taken, a payload cut
    short and an undecodable payload are errors, and a complete decodable frame is returned with
    exactly its bytes consumed. *)
Theorem read_frame_spec {T} `{Codec T} (r : Reader) :
  let len := from_le (take 4 (r_avail r)) in
  read_frame (T := T) r =
    if decide (length (r_avail r) < 4)%nat then
      match r_tail r with
      | Some e => if is_eof e then Ok (None, r) else Err e
      | None => Ok (None, r)
      end
    else if decide (MAX_FRAME_BYTES < len) then Err (InvalidData "frame exceeds size cap")
    else if decide (Z.of_nat (length (r_avail r)) - 4 < len) then
      Err (default (UnexpectedEof "early eof") (r_tail r))
    else
      match from_slice (take (Z.to_nat len) (drop 4 (r_avail r))) with
      | Some v => Ok (Some v, {| r_avail := drop (4 + Z.to_nat len) (r_avail r);
                                 r_tail := r_tail r |})
      | None => Err (InvalidData "deserialize")
      end.
Proof.
  cbv zeta. pose proof (from_le_bound (take 4 (r_avail r))) as Hb.
  unfold read_frame. destruct (decide (length (r_avail r) < 4)%nat) as [Hs|Hs].
  { rewrite read_exact_short by done. by destruct (r_tail r). }
  unfold read_exact at 1. rewrite decide_True by lia. cbv zeta iota beta.
  destruct (decide (MAX_FRAME_BYTES < _)); [done|].
  destruct (decide (_ < _)) as [Hlt|Hge].
  - by rewrite read_exact_short by (simpl; rewrite length_drop; lia).
  - unfold read_exact. simpl. rewrite decide_True by (rewrite length_drop; lia).
    by rewrite drop_drop.
Qed.

(** The [Debug] output of a session-open message shows whether a token is present and never
    its value: any two tokens print alike. *)
Theorem init_debug_redacts (i : WireInit) (t1 t2 : string) :
  init_debug_fields (set_token i (Some t1)) = init_debug_fields (set_token i (Some t2)) ∧
  (∀ name arg, (name, arg) ∈ init_debug_fields (set_token i (Some t1)) → name = "token" →
     arg = DOptStr (Some "<redacted>")).
Proof.
  split; [done|]. intros name arg Hin Hname. subst.
  repeat (apply elem_of_cons in Hin as [Hin|Hin]; [by simplify_eq/=|]).
  by apply elem_of_nil in Hin.
Qed.

(** ** Witnesses *)

#[local] Instance text_codec : Codec string := {|
  to_vec s := Some (bytes_of s);
  from_slice bs := Some (string_of bs);
  codec_ok _ := True;
  codec_roundtrip v bs _ Hv := f_equal Some (eq_trans
    (f_equal string_of (eq_sym (Some_inj _ _ Hv))) (string_of_bytes_of v))
|}.

Lemma frames_roundtrip_witness :
  read_frames (T := string) 3
    {| r_avail := concat (frame_bytes <$> (bytes_of <$> ["Init"; "Drain"])); r_tail := None |}
  = Ok ["Init"; "Drain"].
Proof.
  pose proof (frames_roundtrip ["Init"; "Drain"] (bytes_of <$> ["Init"; "Drain"])
    {| w_sent := []; w_room := None; w_flush := None |}) as Hw.
  apply Hw; [|reflexivity|reflexivity|reflexivity].
  repeat constructor; vm_compute; discriminate.
Defined.

Lemma read_frame_spec_witness :
  read_frame (T := string) {| r_avail := bytes_of "abc"; r_tail := None |} =
  Ok (None, {| r_avail := bytes_of "abc"; r_tail := None |}).
Proof. exact (read_frame_spec {| r_avail := bytes_of "abc"; r_tail := None |}). Defined.
