(* ===== verification/Resources.v ===== *)
(** * Resources: the operator table and name resolution

    Models [fabric-backends/src/resources.rs] and the driver configuration records it carries
    ([db.rs], [mongo.rs], [mail.rs], [kv.rs], [amq.rs], [auth.rs]).  This is the daemon's trust
    boundary: a session names resources, the table decides what the names mean for its tenant. *)

From Stdlib Require Import Morphisms.
From S2P Require Import Prelude Errors Wire.
Local Open Scope Z_scope.

(** ** Driver configurations *)

Record DbConfig := {
  db_host : string; db_port : Z; db_user : string; db_password : string; db_database : string;
  db_ssl : bool; statement_timeout_ms : Z; db_max_rows : Z }.

Record MongoConfig := {
  mongo_host : string; mongo_port : Z; mongo_username : option string;
  mongo_password : option string; mongo_database : string; mongo_auth_source : string;
  mongo_tls : bool; mongo_ca_cert : option string; mongo_op_timeout_ms : Z; mongo_max_docs : Z }.

Inductive TlsMode := Starttls | Wrapper | TlsNone.

Record MailConfig := {
  mail_host : string; mail_port : Z; mail_user : string; mail_password : string;
  mail_tls : TlsMode; mail_from : string; mail_max_recipients : Z;
  mail_allowed_recipient_domains : list string; mail_max_sends : Z; mail_timeout_ms : Z }.

Record RedisConfig := { redis_url : string; redis_timeout_ms : Z }.

Inductive AmqBackend := Rabbitmq | Nats.

Record AmqConfig := {
  amq_backend : AmqBackend; amq_host : string; amq_port : option Z; amq_username : option string;
  amq_password : option string; amq_token : option string; amq_vhost : string;
  amq_exchange : string; amq_max_batch : Z; amq_request_timeout_ms : Z; amq_tls : bool;
  amq_ca_cert : option string }.

Record AuthConfig := {
  auth_issuer : string; auth_userinfo_url : option string; auth_introspect_url : option string;
  auth_client_id : string; auth_client_secret : string; auth_timeout_ms : Z }.

(** ** Bindings *)

Inductive ResourceBinding :=
| BDb (c : DbConfig)
| BMongo (c : MongoConfig)
| BMail (c : MailConfig)
| BRedis (c : RedisConfig)
| BAmq (c : AmqConfig)
| BAuth (c : AuthConfig).

Definition as_db (b : ResourceBinding) : option DbConfig :=
  match b with BDb c => Some c | BMongo _ | BMail _ | BRedis _ | BAmq _ | BAuth _ => None end.
Definition as_mongo (b : ResourceBinding) : option MongoConfig :=
  match b with BMongo c => Some c | BDb _ | BMail _ | BRedis _ | BAmq _ | BAuth _ => None end.
Definition as_mail (b : ResourceBinding) : option MailConfig :=
  match b with BMail c => Some c | BDb _ | BMongo _ | BRedis _ | BAmq _ | BAuth _ => None end.
Definition as_redis (b : ResourceBinding) : option RedisConfig :=
  match b with BRedis c => Some c | BDb _ | BMongo _ | BMail _ | BAmq _ | BAuth _ => None end.
Definition as_amq (b : ResourceBinding) : option AmqConfig :=
  match b with BAmq c => Some c | BDb _ | BMongo _ | BMail _ | BRedis _ | BAuth _ => None end.
Definition as_auth (b : ResourceBinding) : option AuthConfig :=
  match b with BAuth c => Some c | BDb _ | BMongo _ | BMail _ | BRedis _ | BAmq _ => None end.

Record TenantResourceBinding := { trb_tenant : option string; trb_binding : ResourceBinding }.

Record ResolvedConfigs := {
  rc_db : option DbConfig; rc_mongo : option MongoConfig; rc_mail : option MailConfig;
  rc_redis : option RedisConfig; rc_amq : option AmqConfig; rc_auth : option AuthConfig }.

(** [db.statement_timeout_ms = ...] on a mutable config. *)
Definition set_statement_timeout (c : DbConfig) (ms : Z) : DbConfig :=
  {| db_host := db_host c; db_port := db_port c; db_user := db_user c;
     db_password := db_password c; db_database := db_database c; db_ssl := db_ssl c;
     statement_timeout_ms := ms; db_max_rows := db_max_rows c |}.

(** [ResolvedConfigs::clamp_db_statement_timeout]. *)
Definition clamp_db_statement_timeout (rc : ResolvedConfigs) (ceiling_ms : Z) : ResolvedConfigs :=
  if decide (ceiling_ms = 0) then rc else
  {| rc_db := match rc_db rc with
              | Some db =>
                  Some (set_statement_timeout db
                    (if decide (statement_timeout_ms db = 0) then ceiling_ms
                     else Z.min (statement_timeout_ms db) ceiling_ms))
              | None => None
              end;
     rc_mongo := rc_mongo rc; rc_mail := rc_mail rc; rc_redis := rc_redis rc;
     rc_amq := rc_amq rc; rc_auth := rc_auth rc |}.

(** ** Resolution errors *)

Inductive ResolveError :=
| NotFound (name : string)
| KindMismatch (name kind : string).

(** [ResolveError::code]. *)
Definition resolve_code (e : ResolveError) : string :=
  match e with
  | NotFound _ => "RESOURCE_NOT_FOUND"
  | KindMismatch _ _ => "RESOURCE_KIND_MISMATCH"
  end.

(** [ResolveError::message]. *)
Definition resolve_message (e : ResolveError) : string :=
  match e with
  | NotFound name => "no operator resource named `" +:+ name +:+ "`"
  | KindMismatch name kind => "resource `" +:+ name +:+ "` is not a " +:+ kind +:+ " resource"
  end.

(** ** Resolution *)

(** [pick]. *)
Definition pick {T} (table : gmap string TenantResourceBinding) (session_tenant : option string)
    (name : option string) (kind : string) (extract : ResourceBinding → option T)
    : result (option T) ResolveError :=
  match name with
  | None => Ok None
  | Some resource_name =>
      match table !! resource_name with
      | None => Err (NotFound resource_name)
      | Some entry =>
          if decide (trb_tenant entry = session_tenant) then
            match extract (trb_binding entry) with
            | Some c => Ok (Some c)
            | None => Err (KindMismatch resource_name kind)
            end
          else Err (NotFound resource_name)
      end
  end.

(** [resolve]: the kinds in the source's order, the first failure wins. *)
Definition resolve (table : gmap string TenantResourceBinding) (init : WireInit)
    : result ResolvedConfigs ResolveError :=
  let tenant := wi_tenant init in
  let? db := pick table tenant (wi_db init) "db" as_db in
  let? mongo := pick table tenant (wi_mongo init) "mongo" as_mongo in
  let? mail := pick table tenant (wi_mail init) "mail" as_mail in
  let? redis := pick table tenant (wi_redis init) "redis" as_redis in
  let? amq := pick table tenant (wi_amq init) "amq" as_amq in
  let? auth := pick table tenant (wi_auth init) "auth" as_auth in
  Ok {| rc_db := db; rc_mongo := mongo; rc_mail := mail; rc_redis := redis; rc_amq := amq;
        rc_auth := auth |}.

(** ** Abstract specification: what a tenant can see *)

(** The bindings of the table that belong to [tenant], and nothing else of it. *)
Definition visible (table : gmap string TenantResourceBinding) (tenant : option string)
    (name : string) : option ResourceBinding :=
  match table !! name with
  | Some e => if decide (trb_tenant e = tenant) then Some (trb_binding e) else None
  | None => None
  end.

(** Two tables a tenant cannot tell apart. *)
Definition same_view (tenant : option string) : relation (gmap string TenantResourceBinding) :=
  λ t1 t2, ∀ name, visible t1 tenant name = visible t2 tenant name.

#[export] Instance same_view_equiv tenant : Equivalence (same_view tenant).
Proof. split; unfold same_view; [done| |]; intros x y; [done|]. intros z H1 H2 n. by rewrite H1. Qed.

(** A granted kind is the tenant's own binding of the requested name. *)
Definition granted {T} (table : gmap string TenantResourceBinding) (tenant name : option string)
    (extract : ResourceBinding → option T) (o : option T) : Prop :=
  match o with
  | None => name = None
  | Some c => ∃ n b, name = Some n ∧ visible table tenant n = Some b ∧ extract b = Some c
  end.

(** ** Lemmas *)

Lemma pick_visible {T} table tenant name kind (extract : ResourceBinding → option T) :
  pick table tenant name kind extract =
  match name with
  | None => Ok None
  | Some n => match visible table tenant n with
              | None => Err (NotFound n)
              | Some b => match extract b with
                          | Some c => Ok (Some c)
                          | None => Err (KindMismatch n kind)
                          end
              end
  end.
Proof. unfold pick, visible. destruct_matches; done. Qed.

#[export] Instance pick_proper T tenant name kind (extract : ResourceBinding → option T) :
  Proper (same_view tenant ==> (=)) (λ table, pick table tenant name kind extract).
Proof. intros t1 t2 Ht. rewrite !pick_visible. destruct name; [|done]. by rewrite Ht. Qed.

Lemma pick_ok {T} table tenant name kind (extract : ResourceBinding → option T) o :
  pick table tenant name kind extract = Ok o → granted table tenant name extract o.
Proof. rewrite pick_visible. intros H. destruct_matches; naive_solver. Qed.

(** [resolve] reads the table only through what the session's tenant can see. *)
#[export] Instance resolve_proper (init : WireInit) :
  Proper (same_view (wi_tenant init) ==> (=)) (λ table, resolve table init).
Proof.
  intros t1 t2 Ht. unfold resolve.
  rewrite !(λ T n k (f : ResourceBinding → option T), pick_proper T _ n k f t1 t2 Ht).
  repeat match goal with
  | |- context [pick t1 ?t ?n ?k ?f] => rewrite (pick_proper _ t n k f t1 t2 Ht)
  end. done.
Qed.

Lemma resolve_inv table init rc :
  resolve table init = Ok rc →
  pick table (wi_tenant init) (wi_db init) "db" as_db = Ok (rc_db rc) ∧
  pick table (wi_tenant init) (wi_mongo init) "mongo" as_mongo = Ok (rc_mongo rc) ∧
  pick table (wi_tenant init) (wi_mail init) "mail" as_mail = Ok (rc_mail rc) ∧
  pick table (wi_tenant init) (wi_redis init) "redis" as_redis = Ok (rc_redis rc) ∧
  pick table (wi_tenant init) (wi_amq init) "amq" as_amq = Ok (rc_amq rc) ∧
  pick table (wi_tenant init) (wi_auth init) "auth" as_auth = Ok (rc_auth rc).
Proof.
  unfold resolve, result_bind. intros H.
  repeat (case_match; try done). by simplify_eq/=.
Qed.

(** ** Properties *)

(** C11: tenant isolation of credentials.  When a session resolves, each configuration it gets is
    the binding of the name it asked for, of the requested kind and owned by exactly its own
    tenant; a kind it did not name yields none. *)
Theorem resolve_grants_own_bindings (table : gmap string TenantResourceBinding) (init : WireInit)
    (rc : ResolvedConfigs) (Hres : resolve table init = Ok rc) :
  granted table (wi_tenant init) (wi_db init) as_db (rc_db rc) ∧
  granted table (wi_tenant init) (wi_mongo init) as_mongo (rc_mongo rc) ∧
  granted table (wi_tenant init) (wi_mail init) as_mail (rc_mail rc) ∧
  granted table (wi_tenant init) (wi_redis init) as_redis (rc_redis rc) ∧
  granted table (wi_tenant init) (wi_amq init) as_amq (rc_amq rc) ∧
  granted table (wi_tenant init) (wi_auth init) as_auth (rc_auth rc).
Proof. apply resolve_inv in Hres. open_all. repeat split; by eapply pick_ok. Qed.

(** C10: no cross-tenant probing.  Whatever other tenants' bindings the table holds, adds or drops,
    a session's result (its configurations or its error, code and message included) is the same. *)
Theorem resolve_noninterference (init : WireInit)
    (table1 table2 : gmap string TenantResourceBinding)
    (Hsame : ∀ name, visible table1 (wi_tenant init) name = visible table2 (wi_tenant init) name) :
  resolve table1 init = resolve table2 init.
Proof. exact (resolve_proper init table1 table2 Hsame). Qed.

(** The statement-timeout ceiling.  With a ceiling configured, a resolved database never runs
    unbounded or above the ceiling, a smaller explicit timeout is kept, and nothing else of the
    configuration changes. *)
Theorem clamp_bounds (rc : ResolvedConfigs) (ceiling : Z) (db db' : DbConfig)
    (Hc : 0 < ceiling) (Hnn : 0 ≤ statement_timeout_ms db) (Hdb : rc_db rc = Some db)
    (Hdb' : rc_db (clamp_db_statement_timeout rc ceiling) = Some db') :
  0 < statement_timeout_ms db' ≤ ceiling ∧
  (0 < statement_timeout_ms db ≤ ceiling → db' = db) ∧
  set_statement_timeout db' (statement_timeout_ms db) = db.
Proof.
  unfold clamp_db_statement_timeout in Hdb'. rewrite decide_False in Hdb' by lia.
  rewrite Hdb in Hdb'. simplify_eq/=. destruct db; unfold set_statement_timeout; simpl in *.
  repeat split; try (case_decide; lia).
  intros. case_decide; [lia|]. by rewrite Z.min_l by lia.
Qed.

(** ** Witnesses *)

Definition demo_db : DbConfig :=
  {| db_host := "pg"; db_port := 5432; db_user := "app"; db_password := "pw";
     db_database := "shop"; db_ssl := false; statement_timeout_ms := 0; db_max_rows := 100 |}.
Definition demo_redis : RedisConfig := {| redis_url := "redis://c"; redis_timeout_ms := 50 |}.
Definition demo_table : gmap string TenantResourceBinding :=
  {[ "orders" := {| trb_tenant := Some "ws_a"; trb_binding := BDb demo_db |};
     "cache" := {| trb_tenant := Some "ws_b"; trb_binding := BRedis demo_redis |} ]}.
Definition demo_init (tenant db redis : option string) : WireInit :=
  {| wi_db := db; wi_mongo := None; wi_mail := None; wi_redis := redis; wi_amq := None;
     wi_auth := None; wi_timeout_ms := 100; wi_tenant := tenant; wi_token := None |}.

Lemma resolve_grants_own_bindings_witness :
  ∃ rc, resolve demo_table (demo_init (Some "ws_a") (Some "orders") None) = Ok rc ∧
        granted demo_table (Some "ws_a") (Some "orders") as_db (rc_db rc) ∧
        rc_db rc = Some demo_db.
Proof.
  eexists. split; [vm_compute; reflexivity|]. split; [|reflexivity].
  refine (proj1 (resolve_grants_own_bindings demo_table
            (demo_init (Some "ws_a") (Some "orders") None) _ _)).
  vm_compute. reflexivity.
Defined.

Lemma resolve_noninterference_witness :
  resolve demo_table (demo_init (Some "ws_a") (Some "orders") (Some "cache")) =
  resolve (delete "cache" demo_table) (demo_init (Some "ws_a") (Some "orders") (Some "cache")) ∧
  resolve demo_table (demo_init (Some "ws_a") (Some "orders") (Some "cache")) =
  Err (NotFound "cache").
Proof.
  split; [|vm_compute; reflexivity].
  apply (resolve_noninterference (demo_init (Some "ws_a") (Some "orders") (Some "cache"))).
  intros name. unfold visible, demo_init; simpl.
  destruct (decide (name = "cache")) as [->|Hne]; [reflexivity|].
  by rewrite lookup_delete_ne by congruence.
Defined.

Lemma clamp_bounds_witness :
  ∃ db', rc_db (clamp_db_statement_timeout
                 {| rc_db := Some demo_db; rc_mongo := None; rc_mail := None; rc_redis := None;
                    rc_amq := None; rc_auth := None |} 5000) = Some db' ∧
         0 < statement_timeout_ms db' ≤ 5000.
Proof.
  eexists. split; [reflexivity|].
  refine (proj1 (clamp_bounds {| rc_db := Some demo_db; rc_mongo := None; rc_mail := None;
    rc_redis := None; rc_amq := None; rc_auth := None |} 5000 demo_db _ _ _ _ _));
    [lia|vm_compute; discriminate|reflexivity|reflexivity].
Defined.
