(* ===== verification/Backends.v ===== *)
(** * Backends: the daemon's per-session backend set

    Models [fabric-backends/src/backendset.rs]: the slots of a session, each connected at most once
    on first use, the payload unpacking, and the dispatch of [Egress::call] by capability kind.
    What a driver backend does is its own component; it enters through the class [Backend].  The
    outside world the drivers act on is threaded as a state. *)

From S2P Require Import Prelude Json Errors Runtime Wire Resources Breaker.
Local Open Scope Z_scope.

(** [AsyncDeps] without the runtime handle. *)
Record AsyncDeps := { deps_breaker : option BreakerRef; deps_timeout : Z }.

(** What the set asks of one driver: connect from a config, run one action, report its metrics.
    A failed action is already classified ([into_resource_error]). *)
Class Backend (World Cfg Args B M : Type) := {
  b_connect : Cfg → AsyncDeps → World → result B EgressError * World;
  b_call : B → string → Args → World → result string EgressError * B * World;
  b_metrics : B → list M
}.

(** A connect-once slot ([OnceLock]). *)
Record Slot (Cfg B : Type) := {
  slot_config : Cfg; slot_deps : AsyncDeps; slot_cell : option (result B EgressError) }.
Arguments slot_config {Cfg B}. Arguments slot_deps {Cfg B}. Arguments slot_cell {Cfg B}.

Section slots.
Context {World Cfg Args B M : Type} `{!Backend World Cfg Args B M}.

Definition slot_new (cfg : Cfg) (deps : AsyncDeps) : Slot Cfg B :=
  {| slot_config := cfg; slot_deps := deps; slot_cell := None |}.

Definition set_cell (s : Slot Cfg B) (r : result B EgressError) : Slot Cfg B :=
  {| slot_config := slot_config s; slot_deps := slot_deps s; slot_cell := Some r |}.

(** [DbSlot::backend] and its siblings: [get_or_init], then the backend or a clone of the error. *)
Definition slot_backend (s : Slot Cfg B) (w : World) : result B EgressError * Slot Cfg B * World :=
  match slot_cell s with
  | Some r => (r, s, w)
  | None => let '(r, w') := b_connect (slot_config s) (slot_deps s) w in (r, set_cell s r, w')
  end.

(** [slot.backend()?], the payload parse, then [backend.call(action, args)]. *)
Definition slot_call (s : Slot Cfg B) (parse : string → result Args EgressError)
    (action payload : string) (w : World) : result string EgressError * Slot Cfg B * World :=
  let '(rb, s1, w1) := slot_backend s w in
  match rb with
  | Err e => (Err e, s1, w1)
  | Ok b =>
      match parse payload with
      | Err e => (Err e, s1, w1)
      | Ok args => let '(res, b', w2) := b_call b action args w1 in (res, set_cell s1 (Ok b'), w2)
      end
  end.

(** [db_metrics] and its siblings: the connected backend's metrics, else none. *)
Definition slot_metrics (o : option (Slot Cfg B)) : list M :=
  match o with
  | Some s => match slot_cell s with Some (Ok b) => b_metrics b | _ => [] end
  | None => []
  end.
End slots.

(** [not_configured]. *)
Definition not_configured (name : string) : EgressError :=
  with_owner (EgressError_new name (to_ascii_uppercase name +:+ "_NOT_CONFIGURED")
                (name +:+ " egress is not configured")) Developer.

(** ** Payload unpacking *)

Section payloads.
Context `{!JsonText}.

(** The derived deserializer of [DbPayload] ([sql] required, [params] defaulting to null). *)
Definition de_db_payload (v : Value) : option (string * Value) :=
  match v with
  | VObject l =>
      o1 ← field "sql" l; o2 ← field "params" l;
      sql ← required de_string o1; params ← defaulted VNull de_map_value o2; Some (sql, params)
  | VArray [x] => sql ← de_string x; Some (sql, VNull)
  | VArray [x; p] => sql ← de_string x; Some (sql, norm p)
  | _ => None
  end.

(** [parse_db_payload]: the SQL and the re-serialized parameters. *)
Definition parse_db_payload (payload_json : string) : result (string * string) EgressError :=
  let? payload := map_err (λ err, with_owner
    (EgressError_new "db" "DB_BAD_PAYLOAD" ("invalid db payload: " +:+ err)) Developer)
    (from_str de_db_payload payload_json) in
  let '(sql, params) := payload in
  Ok (sql, if is_null params then "[]" else default "[]" (json_print params)).

(** The derived deserializer of [MongoEnvelope]. *)
Definition de_mongo_envelope (v : Value) : option (string * Value) :=
  match v with
  | VObject l =>
      o1 ← field "collection" l; o2 ← field "data" l;
      c ← defaulted EmptyString de_string o1; d ← defaulted VNull de_map_value o2; Some (c, d)
  | VArray [] => Some (EmptyString, VNull)
  | VArray [x] => c ← de_string x; Some (c, VNull)
  | VArray [x; d] => c ← de_string x; Some (c, norm d)
  | _ => None
  end.

(** [parse_mongo_payload]. *)
Definition parse_mongo_payload (payload_json : string) : result (string * string) EgressError :=
  let? envelope := map_err (λ err, with_owner
    (EgressError_new "mongo" "MONGO_QUERY" ("invalid mongo payload: " +:+ err)) Developer)
    (from_str de_mongo_envelope payload_json) in
  let '(collection, data) := envelope in
  Ok (collection, if is_null data then "{}" else default "{}" (json_print data)).

(** The derived deserializer of [AuthPayload]. *)
Definition de_auth_payload (v : Value) : option string :=
  match v with
  | VObject l => o ← field "token" l; defaulted EmptyString de_string o
  | VArray [] => Some EmptyString
  | VArray [x] => de_string x
  | _ => None
  end.

(** [parse_auth_token]. *)
Definition parse_auth_token (payload_json : string) : result string EgressError :=
  map_err (λ err, with_owner
    (EgressError_new "auth" "AUTH_REQUEST" ("invalid auth payload: " +:+ err)) Developer)
    (from_str de_auth_payload payload_json).

(** [mail], [redis] and [amq] pass the payload straight through. *)
Definition pass_payload (payload_json : string) : result string EgressError := Ok payload_json.
End payloads.

(** ** The set *)

(** The six drivers of a daemon; the broker producer is built eagerly and connects per call. *)
Class Drivers (World DbB MongoB MailB RedisB AuthB AmqB : Type) := {
  drv_db :: Backend World DbConfig (string * string) DbB DbMetric;
  drv_mongo :: Backend World MongoConfig (string * string) MongoB MongoMetric;
  drv_mail :: Backend World MailConfig string MailB MailMetric;
  drv_redis :: Backend World RedisConfig string RedisB RedisMetric;
  drv_auth :: Backend World AuthConfig string AuthB AuthMetric;
  amq_new : AmqConfig → AmqB;
  amq_call : AmqB → string → string → World → result string EgressError * AmqB * World;
  amq_drain : AmqB → list AmqMetric
}.

Section set.
Context {World DbB MongoB MailB RedisB AuthB AmqB : Type}.
Context `{!JsonText} `{!Drivers World DbB MongoB MailB RedisB AuthB AmqB}.

Record BackendSet := {
  bs_db : option (Slot DbConfig DbB);
  bs_mongo : option (Slot MongoConfig MongoB);
  bs_mail : option (Slot MailConfig MailB);
  bs_redis : option (Slot RedisConfig RedisB);
  bs_auth : option (Slot AuthConfig AuthB);
  bs_amq : option AmqB
}.

(** [BackendSet::new]. *)
Definition BackendSet_new : BackendSet :=
  {| bs_db := None; bs_mongo := None; bs_mail := None; bs_redis := None; bs_auth := None;
     bs_amq := None |}.

Definition set_db (s : BackendSet) o := {| bs_db := o; bs_mongo := bs_mongo s;
  bs_mail := bs_mail s; bs_redis := bs_redis s; bs_auth := bs_auth s; bs_amq := bs_amq s |}.
Definition set_mongo (s : BackendSet) o := {| bs_db := bs_db s; bs_mongo := o;
  bs_mail := bs_mail s; bs_redis := bs_redis s; bs_auth := bs_auth s; bs_amq := bs_amq s |}.
Definition set_mail (s : BackendSet) o := {| bs_db := bs_db s; bs_mongo := bs_mongo s;
  bs_mail := o; bs_redis := bs_redis s; bs_auth := bs_auth s; bs_amq := bs_amq s |}.
Definition set_redis (s : BackendSet) o := {| bs_db := bs_db s; bs_mongo := bs_mongo s;
  bs_mail := bs_mail s; bs_redis := o; bs_auth := bs_auth s; bs_amq := bs_amq s |}.
Definition set_auth (s : BackendSet) o := {| bs_db := bs_db s; bs_mongo := bs_mongo s;
  bs_mail := bs_mail s; bs_redis := bs_redis s; bs_auth := o; bs_amq := bs_amq s |}.
Definition set_amq (s : BackendSet) o := {| bs_db := bs_db s; bs_mongo := bs_mongo s;
  bs_mail := bs_mail s; bs_redis := bs_redis s; bs_auth := bs_auth s; bs_amq := o |}.

(** [with_db] ... [with_amq]. *)
Definition with_db (s : BackendSet) (c : DbConfig) (d : AsyncDeps) := set_db s (Some (slot_new c d)).
Definition with_mongo (s : BackendSet) (c : MongoConfig) (d : AsyncDeps) :=
  set_mongo s (Some (slot_new c d)).
Definition no_deps : AsyncDeps := {| deps_breaker := None; deps_timeout := 0 |}.
Definition with_mail (s : BackendSet) (c : MailConfig) := set_mail s (Some (slot_new c no_deps)).
Definition with_redis (s : BackendSet) (c : RedisConfig) := set_redis s (Some (slot_new c no_deps)).
Definition with_auth (s : BackendSet) (c : AuthConfig) := set_auth s (Some (slot_new c no_deps)).
Definition with_amq (s : BackendSet) (c : AmqConfig) := set_amq s (Some (amq_new c)).

(** [BackendSet::from_configs]. *)
Definition from_configs (configs : ResolvedConfigs) (deps : AsyncDeps) : BackendSet :=
  let s := BackendSet_new in
  let s := match rc_db configs with Some c => with_db s c deps | None => s end in
  let s := match rc_mongo configs with Some c => with_mongo s c deps | None => s end in
  let s := match rc_mail configs with Some c => with_mail s c | None => s end in
  let s := match rc_redis configs with Some c => with_redis s c | None => s end in
  let s := match rc_amq configs with Some c => with_amq s c | None => s end in
  match rc_auth configs with Some c => with_auth s c | None => s end.

(** [BackendSet::metrics] / [MeteredEgress::drain_metrics]. *)
Definition metrics (s : BackendSet) : BackendMetrics :=
  {| bm_db := slot_metrics (bs_db s); bm_mongo := slot_metrics (bs_mongo s);
     bm_mail := slot_metrics (bs_mail s); bm_redis := slot_metrics (bs_redis s);
     bm_amq := match bs_amq s with Some p => amq_drain p | None => [] end;
     bm_auth := slot_metrics (bs_auth s) |}.

(** [call_db] ... [call_auth]. *)
Definition call_db (s : BackendSet) (action payload : string) (w : World) :=
  match bs_db s with
  | None => (Err (not_configured "db"), s, w)
  | Some sl => let '(r, sl', w') := slot_call sl parse_db_payload action payload w in
               (r, set_db s (Some sl'), w')
  end.
Definition call_mongo (s : BackendSet) (action payload : string) (w : World) :=
  match bs_mongo s with
  | None => (Err (not_configured "mongo"), s, w)
  | Some sl => let '(r, sl', w') := slot_call sl parse_mongo_payload action payload w in
               (r, set_mongo s (Some sl'), w')
  end.
Definition call_mail (s : BackendSet) (action payload : string) (w : World) :=
  match bs_mail s with
  | None => (Err (not_configured "mail"), s, w)
  | Some sl => let '(r, sl', w') := slot_call sl pass_payload action payload w in
               (r, set_mail s (Some sl'), w')
  end.
Definition call_redis (s : BackendSet) (action payload : string) (w : World) :=
  match bs_redis s with
  | None => (Err (not_configured "redis"), s, w)
  | Some sl => let '(r, sl', w') := slot_call sl pass_payload action payload w in
               (r, set_redis s (Some sl'), w')
  end.
Definition call_amq (s : BackendSet) (action payload : string) (w : World) :=
  match bs_amq s with
  | None => (Err (not_configured "amq"), s, w)
  | Some p => let '(r, p', w') := amq_call p action payload w in (r, set_amq s (Some p'), w')
  end.
Definition call_auth (s : BackendSet) (action payload : string) (w : World) :=
  match bs_auth s with
  | None => (Err (not_configured "auth"), s, w)
  | Some sl => let '(r, sl', w') := slot_call sl parse_auth_token action payload w in
               (r, set_auth s (Some sl'), w')
  end.

(** [Egress::call for BackendSet]. *)
Definition backend_call (s : BackendSet) (name action payload : string) (w : World)
    : result string EgressError * BackendSet * World :=
  if decide (name = "db") then call_db s action payload w
  else if decide (name = "mongo") then call_mongo s action payload w
  else if decide (name = "mail") then call_mail s action payload w
  else if decide (name = "redis") then call_redis s action payload w
  else if decide (name = "amq") then call_amq s action payload w
  else if decide (name = "auth") then call_auth s action payload w
  else (Err (with_owner (EgressError_new "engine" "IO_UNKNOWN"
                           ("unknown egress '" +:+ name +:+ "'")) Developer), s, w).

(** A session's calls, in order. *)
Fixpoint backend_calls (s : BackendSet) (calls : list WireCall) (w : World)
    : list (result string EgressError) * BackendSet * World :=
  match calls with
  | [] => ([], s, w)
  | c :: rest =>
      let '(r, s1, w1) := backend_call s (wc_name c) (wc_action c) (wc_payload c) w in
      let '(rs, s2, w2) := backend_calls s1 rest w1 in (r :: rs, s2, w2)
  end.

(** The capability kinds wired into a set. *)
Definition wired (s : BackendSet) : gset string :=
  (if decide (bs_db s = None) then ∅ else {[ "db" ]}) ∪
  (if decide (bs_mongo s = None) then ∅ else {[ "mongo" ]}) ∪
  (if decide (bs_mail s = None) then ∅ else {[ "mail" ]}) ∪
  (if decide (bs_redis s = None) then ∅ else {[ "redis" ]}) ∪
  (if decide (bs_auth s = None) then ∅ else {[ "auth" ]}) ∪
  (if decide (bs_amq s = None) then ∅ else {[ "amq" ]}).

(** The kinds a resolved configuration grants. *)
Definition granted_kinds (rc : ResolvedConfigs) : gset string :=
  (if decide (rc_db rc = None) then ∅ else {[ "db" ]}) ∪
  (if decide (rc_mongo rc = None) then ∅ else {[ "mongo" ]}) ∪
  (if decide (rc_mail rc = None) then ∅ else {[ "mail" ]}) ∪
  (if decide (rc_redis rc = None) then ∅ else {[ "redis" ]}) ∪
  (if decide (rc_auth rc = None) then ∅ else {[ "auth" ]}) ∪
  (if decide (rc_amq rc = None) then ∅ else {[ "amq" ]}).
End set.

(** ** Abstract specification: one connection per session, made before the first call *)

Section eager.
Context {World Cfg Args B M : Type} `{!Backend World Cfg Args B M}.
Context (parse : string → result Args EgressError).

(** The calls of a session on one slot, as [(action, payload)]. *)
Fixpoint slot_calls (s : Slot Cfg B) (calls : list (string * string)) (w : World)
    : list (result string EgressError) * Slot Cfg B * World :=
  match calls with
  | [] => ([], s, w)
  | (a, p) :: rest =>
      let '(r, s1, w1) := slot_call s parse a p w in
      let '(rs, s2, w2) := slot_calls s1 rest w1 in (r :: rs, s2, w2)
  end.

(** The same calls on a connection that is already open. *)
Fixpoint open_calls (b : B) (calls : list (string * string)) (w : World)
    : list (result string EgressError) * B * World :=
  match calls with
  | [] => ([], b, w)
  | (a, p) :: rest =>
      let '(r, b1, w1) :=
        match parse p with
        | Err e => (Err e, b, w)
        | Ok args => b_call b a args w
        end in
      let '(rs, b2, w2) := open_calls b1 rest w1 in (r :: rs, b2, w2)
  end.

(** Connect once, then serve every call on that connection, or fail every call alike. *)
Definition eager_calls (cfg : Cfg) (deps : AsyncDeps) (calls : list (string * string)) (w : World)
    : list (result string EgressError) * result B EgressError * World :=
  match b_connect cfg deps w with
  | (Err e, w1) => ((λ _, Err e) <$> calls, Err e, w1)
  | (Ok b, w1) => let '(rs, b', w2) := open_calls b calls w1 in (rs, Ok b', w2)
  end.

Lemma set_cell_same (s : Slot Cfg B) r : slot_cell s = Some r → set_cell s r = s.
Proof. destruct s; unfold set_cell; simpl. congruence. Qed.

Lemma slot_calls_failed (s : Slot Cfg B) calls w e :
  slot_cell s = Some (Err e) → slot_calls s calls w = ((λ _, Err e) <$> calls, s, w).
Proof.
  intros Hc. induction calls as [|[a p] calls IH]; [done|]. simpl.
  unfold slot_call, slot_backend. rewrite Hc. by rewrite IH.
Qed.

Lemma slot_calls_open (s : Slot Cfg B) calls w b :
  slot_cell s = Some (Ok b) →
  slot_calls s calls w =
  let '(rs, b', w') := open_calls b calls w in (rs, set_cell s (Ok b'), w').
Proof.
  revert s w b. induction calls as [|[a p] calls IH]; intros s w b Hc; simpl.
  { by rewrite (set_cell_same _ _ Hc). }
  unfold slot_call, slot_backend. rewrite Hc. destruct (parse p) as [args|e].
  - destruct (b_call b a args w) as [[r b1] w1]. rewrite (IH _ _ b1) by done.
    by destruct (open_calls b1 calls w1) as [[rs b2] w2].
  - rewrite (IH _ _ b) by done. by destruct (open_calls b calls w) as [[rs b2] w2].
Qed.

(** The errors of a slot: those of connecting, of the payload and of the calls. *)
Definition slot_errs (P : EgressError → Prop) (s : Slot Cfg B) : Prop :=
  ∀ e, slot_cell s = Some (Err e) → P e.
Context (P : EgressError → Prop).
Context (Hparse : ∀ payload e, parse payload = Err e → P e).
Context (Hcall : ∀ b action args w e b' w', b_call b action args w = (Err e, b', w') → P e).

Lemma slot_call_errs (s : Slot Cfg B) action payload w :
  (∀ w e w', b_connect (slot_config s) (slot_deps s) w = (Err e, w') → P e) →
  slot_errs P s →
  let '(r, s', _) := slot_call s parse action payload w in
  (∀ e, r = Err e → P e) ∧ slot_errs P s' ∧ slot_config s' = slot_config s ∧
  slot_deps s' = slot_deps s.
Proof.
  intros Hconn Hs. unfold slot_call, slot_backend.
  assert (∀ b s1 w1, slot_cell s1 = Some (Ok b) → slot_config s1 = slot_config s →
    slot_deps s1 = slot_deps s →
    let '(r, s', _) := match parse payload with
      | Err e => (Err e, s1, w1)
      | Ok args => let '(res, b', w2) := b_call b action args w1 in (res, set_cell s1 (Ok b'), w2)
      end in
    (∀ e, r = Err e → P e) ∧ slot_errs P s' ∧ slot_config s' = slot_config s ∧
    slot_deps s' = slot_deps s) as Hopen.
  { intros b s1 w1 Hc Hcfg Hdeps. destruct (parse payload) as [args|e] eqn:Ep.
    - destruct (b_call b action args w1) as [[res b'] w2] eqn:Ec. split_and!; try done.
      intros e ->. by eapply Hcall.
    - split_and!; try done; [intros e' [= <-]; by eapply Hparse|]. intros e' He. congruence. }
  destruct (slot_cell s) as [[b|e]|] eqn:Ec.
  - by apply Hopen.
  - split_and!; try done. intros e' [= <-]. by apply Hs.
  - destruct (b_connect (slot_config s) (slot_deps s) w) as [[b|e] w1] eqn:Eb.
    + by apply Hopen.
    + split_and!; try done; [intros e' [= <-]; by eapply Hconn|].
      intros e' [= <-]. by eapply Hconn.
Qed.

Lemma slot_calls_errs (s : Slot Cfg B) calls w :
  (∀ w e w', b_connect (slot_config s) (slot_deps s) w = (Err e, w') → P e) →
  slot_errs P s → ∀ e, Err e ∈ (slot_calls s calls w).1.1 → P e.
Proof.
  revert s w. induction calls as [|[a p] calls IH]; intros s w Hconn Hs e; simpl.
  { by intros ?%elem_of_nil. }
  pose proof (slot_call_errs s a p w Hconn Hs) as Hc.
  destruct (slot_call s parse a p w) as [[r s1] w1]. destruct Hc as (Hr & Hs1 & Hcfg & Hdeps).
  specialize (IH s1 w1). destruct (slot_calls s1 calls w1) as [[rs s2] w2]. simpl in *.
  intros [He|He]%elem_of_cons; [by apply Hr|]. apply IH; [by rewrite Hcfg, Hdeps|done|done].
Qed.

(** Lazy and eager connecting agree: a session that makes a call behaves as if it had connected first,
    once. *)
Lemma slot_calls_new (cfg : Cfg) (deps : AsyncDeps) (first : string * string)
    (rest : list (string * string)) (w : World) :
  slot_calls (slot_new cfg deps) (first :: rest) w =
  let '(rs, cell, w') := eager_calls cfg deps (first :: rest) w in
  (rs, set_cell (slot_new cfg deps) cell, w').
Proof.
  destruct first as [a p]. unfold eager_calls. cbn [slot_calls].
  unfold slot_call, slot_backend at 1. cbn [slot_new slot_cell slot_config slot_deps].
  destruct (b_connect cfg deps w) as [[b|e] w1].
  - cbn [open_calls]. destruct (parse p) as [args|e].
    + destruct (b_call b a args w1) as [[r b1] w2].
      rewrite (slot_calls_open _ rest w2 b1) by done.
      by destruct (open_calls b1 rest w2) as [[rs b2] w3].
    + rewrite (slot_calls_open _ rest w1 b) by done.
      by destruct (open_calls b rest w1) as [[rs b2] w3].
  - by rewrite (slot_calls_failed _ rest w1 e) by done.
Qed.
End eager.

Section set_lemmas.
Context {World DbB MongoB MailB RedisB AuthB AmqB : Type}.
Context `{!JsonText} `{!Drivers World DbB MongoB MailB RedisB AuthB AmqB}.
Implicit Types (s : BackendSet (DbB:=DbB) (MongoB:=MongoB) (MailB:=MailB) (RedisB:=RedisB)
                  (AuthB:=AuthB) (AmqB:=AmqB)) (w : World).

Lemma wired_spec s :
  ("db" ∈ wired s ↔ bs_db s ≠ None) ∧ ("mongo" ∈ wired s ↔ bs_mongo s ≠ None) ∧
  ("mail" ∈ wired s ↔ bs_mail s ≠ None) ∧ ("redis" ∈ wired s ↔ bs_redis s ≠ None) ∧
  ("auth" ∈ wired s ↔ bs_auth s ≠ None) ∧ ("amq" ∈ wired s ↔ bs_amq s ≠ None).
Proof. unfold wired. repeat case_decide; set_solver. Qed.

Lemma from_configs_wired rc deps :
  wired (from_configs (World:=World) (DbB:=DbB) (MongoB:=MongoB) (MailB:=MailB)
           (RedisB:=RedisB) (AuthB:=AuthB) (AmqB:=AmqB) rc deps) = granted_kinds rc.
Proof.
  unfold from_configs, wired, granted_kinds. destruct rc as [o1 o2 o3 o4 o5 o6]; simpl.
  by destruct o1, o2, o3, o4, o5, o6.
Qed.

(** A call leaves the set of wired kinds as it is. *)
Lemma backend_call_wired s name action payload w :
  wired (backend_call s name action payload w).1.2 = wired s.
Proof.
  unfold backend_call, call_db, call_mongo, call_mail, call_redis, call_amq, call_auth.
  repeat case_match; simplify_eq/=; try done; unfold wired; simpl;
    match goal with H : _ s = Some _ |- _ => by rewrite H end.
Qed.

(** A call to a kind that is not wired fails and touches nothing. *)
Lemma backend_call_unwired s name action payload w :
  name ∉ wired s → ∃ e, backend_call s name action payload w = (Err e, s, w).
Proof.
  intros Hn. destruct (wired_spec s) as (H1 & H2 & H3 & H4 & H5 & H6).
  unfold backend_call, call_db, call_mongo, call_mail, call_redis, call_amq, call_auth.
  repeat case_decide; subst; try (case_match; [naive_solver|]); eauto.
Qed.

Lemma backend_calls_filter s calls w :
  let '(_, s1, w1) := backend_calls s calls w in
  let '(_, s2, w2) := backend_calls s (filter (λ c, wc_name c ∈ wired s) calls) w in
  s1 = s2 ∧ w1 = w2.
Proof.
  revert s w. induction calls as [|c calls IH]; intros s w; [done|].
  rewrite filter_cons. cbn [backend_calls].
  destruct (decide (wc_name c ∈ wired s)) as [Hin|Hout].
  - cbn [backend_calls].
    pose proof (backend_call_wired s (wc_name c) (wc_action c) (wc_payload c) w) as Hw.
    destruct (backend_call s (wc_name c) (wc_action c) (wc_payload c) w) as [[r s1] w1].
    simpl in Hw. specialize (IH s1 w1). rewrite Hw in IH.
    by repeat case_match.
  - destruct (backend_call_unwired s (wc_name c) (wc_action c) (wc_payload c) w Hout) as [e ->].
    specialize (IH s w). by repeat case_match.
Qed.
End set_lemmas.

(** ** Properties *)

(** Least privilege of a session.  The backend set built from resolved configurations acts on
    the outside world only through the capabilities that were granted: dropping from a session
    every call to another name leaves the same backends and the same world. *)
Theorem session_confined {World DbB MongoB MailB RedisB AuthB AmqB : Type}
    `{!JsonText} `{!Drivers World DbB MongoB MailB RedisB AuthB AmqB}
    (rc : ResolvedConfigs) (deps : AsyncDeps) (calls : list WireCall) (w : World) :
  let s := from_configs (World:=World) (DbB:=DbB) (MongoB:=MongoB) (MailB:=MailB)
             (RedisB:=RedisB) (AuthB:=AuthB) (AmqB:=AmqB) rc deps in
  let granted_calls := filter (λ c, wc_name c ∈ granted_kinds rc) calls in
  (backend_calls s calls w).1.2 = (backend_calls s granted_calls w).1.2 ∧
  (backend_calls s calls w).2 = (backend_calls s granted_calls w).2.
Proof.
  cbv zeta. set (s := from_configs rc deps).
  pose proof (backend_calls_filter s calls w) as Hcf.
  replace (wired s) with (granted_kinds rc) in Hcf
    by (unfold s; by rewrite from_configs_wired).
  by repeat case_match.
Qed.
