(* ===== verification/DbDriver.v ===== *)
(** * DbDriver: the PostgreSQL driver

    Models [fabric-backends/src/db.rs]: connecting (through the optional breaker), the deadline on
    every query, the dispatch of the five actions, fault classification by SQLSTATE, the conversion of
    rows and parameters, and the metrics.  [tokio_postgres], the [postgres-types] decoders and the
    value formatters enter as the class [Postgres]. *)

From Stdlib Require Import Ascii.
From stdpp Require Import pretty.
From S2P Require Import Prelude Json Errors Breaker Runtime Wire Resources Backends.
Local Open Scope Z_scope.

(** ** Errors *)

Definition DB_FALLBACK : Fault := Fault_new "DB_ERROR" true Operator.
Definition DB_CONNECTION_FAULT : Fault := Fault_new "DB_CONNECTION" true Operator.
Definition DB_TIMEOUT : Fault := Fault_new "DB_TIMEOUT" true Operator.
Definition DB_CIRCUIT_OPEN_FAULT : Fault := Fault_new "DB_CIRCUIT_OPEN" true Operator.

(** [tokio_postgres::Error]: the SQLSTATE the server sent, if any, and the text. *)
Record PgErr := { pge_code : option string; pge_text : string }.

Record DbError := { dbe_fault : Fault; dbe_message : string; dbe_details : option Value }.

(** [DbError::fallback]. *)
Definition DbError_fallback (message : string) : DbError :=
  {| dbe_fault := DB_FALLBACK; dbe_message := message; dbe_details := None |}.

(** [code.get(..2)]: absent when the text is shorter or the cut falls inside a character. *)
Definition get_2 (code : string) : option string :=
  match bytes_of code with
  | a :: b :: rest =>
      if match rest with c :: _ => bool_decide (128 ≤ nat_of_ascii c < 192)%nat | [] => false end
      then None else Some (string_of [a; b])
  | _ => None
  end.

(** [classify_by_class]. *)
Definition classify_by_class (code : string) : Fault :=
  match get_2 code with
  | Some c =>
      if decide (c = "08") then DB_CONNECTION_FAULT
      else if decide (c = "23") then Fault_new "DB_CONSTRAINT" false Developer
      else if decide (c = "42") then Fault_new "DB_QUERY" false Developer
      else DB_FALLBACK
  | None => DB_FALLBACK
  end.

(** [classify]. *)
Definition db_classify (err : PgErr) : Fault :=
  match pge_code err with
  | None => DB_FALLBACK
  | Some state =>
      if decide (state = "40001") then Fault_new "DB_SERIALIZATION" true Operator
      else if decide (state = "40P01") then Fault_new "DB_DEADLOCK" true Operator
      else if decide (state = "57014") then Fault_new "DB_CANCELED" true Operator
      else classify_by_class state
  end.

(** [DbError::from_driver]. *)
Definition DbError_from_driver (err : PgErr) : DbError :=
  {| dbe_fault := db_classify err; dbe_message := pge_text err;
     dbe_details := (λ state, VObject [("sqlstate", VString state)]) <$> pge_code err |}.

(** [DbError::timeout]. *)
Definition DbError_timeout : DbError :=
  {| dbe_fault := DB_TIMEOUT; dbe_message := "database query exceeded the execution deadline";
     dbe_details := None |}.

(** [DbError::into_resource_error]. *)
Definition db_into_resource_error (e : DbError) : EgressError :=
  {| ee_code := fault_code (dbe_fault e); ee_message := dbe_message e; ee_source := "db";
     ee_details := dbe_details e; ee_retryable := fault_retryable (dbe_fault e);
     ee_owner := fault_owner (dbe_fault e) |}.

(** The boxed error of [connect]: the breaker's marker or a driver error. *)
Inductive DbConnectError := CircuitOpen | ConnectFailed (err : PgErr).

(** [Display] of the boxed error, and [is_circuit_open]. *)
Definition connect_error_text (e : DbConnectError) : string :=
  match e with CircuitOpen => "db circuit breaker open" | ConnectFailed err => pge_text err end.
Definition is_circuit_open (e : DbConnectError) : bool :=
  match e with CircuitOpen => true | ConnectFailed _ => false end.

(** [connect_error_to_resource]. *)
Definition connect_error_to_resource (err : DbConnectError) : EgressError :=
  let fault := if is_circuit_open err then DB_CIRCUIT_OPEN_FAULT else DB_CONNECTION_FAULT in
  {| ee_code := fault_code fault; ee_message := connect_error_text err; ee_source := "db";
     ee_details := None; ee_retryable := fault_retryable fault; ee_owner := fault_owner fault |}.

(** ** Column types, cells and parameters *)

(** The [Type] constants the code names; any other type is [OtherType]. *)
Inductive PgType :=
| INT2 | INT4 | OID | INT8 | FLOAT4 | FLOAT8 | BOOL | TEXT | VARCHAR | BPCHAR | NAME | JSON | JSONB
| UUID | TIMESTAMP | TIMESTAMPTZ | DATE | TIME | NUMERIC | BYTEA | OtherType (name : string).
#[export] Instance PgType_eq_dec : EqDecision PgType.
Proof. solve_decision. Defined.

(** The Rust types read out of a cell; a value of the third-party ones is kept as its text in the
    format the code prints it with. *)
Inductive RustType :=
| TI16 | TI32 | TI64 | TF32 | TF64 | TBool | TString | TValue | TUuid | TNaiveDateTime
| TDateTimeUtc | TNaiveDate | TNaiveTime | TDecimal | TBytes.
Definition rust_value (t : RustType) : Type :=
  match t with
  | TI16 | TI32 | TI64 => Z
  | TF32 | TF64 => f64
  | TBool => bool
  | TValue => Value
  | TBytes => list ascii
  | _ => string
  end.

(** A row: its columns and, per column, the cell's bytes or NULL. *)
Record PgRow := { row_columns : list (string * PgType); row_cells : list (option (list ascii)) }.

Inductive ParamValue :=
| PNull | PBool (b : bool) | PInt4 (z : Z) | PInt8 (z : Z) | PFloat8 (x : f64) | PText (s : string).

(** [IsNull] and the bytes written, or the encoder's error. *)
Definition SqlParam : Type := PgType → result (option (list ascii)) string.

(** [tokio_postgres::Config] and the two connectors the code uses. *)
Record PgConfig := {
  pgc_host : string; pgc_port : Z; pgc_user : string; pgc_password : string; pgc_dbname : string;
  pgc_connect_timeout_s : Z }.
Inductive PgTls := NoTls | RustlsWebpkiRoots.

(** [tokio_postgres] and [postgres-types]: which types a decoder accepts and what it reads, the
    encoders of the parameter types, and the client's operations.  A decoder of an integer returns a value of its width. *)
Class Postgres (World Client : Type) := {
  pg_accepts : RustType → PgType → bool;
  pg_from_sql : ∀ t : RustType, PgType → list ascii → result (rust_value t) string;
  to_sql_bool : bool → SqlParam;
  to_sql_i32 : Z → SqlParam;
  to_sql_i64 : Z → SqlParam;
  to_sql_f64 : f64 → SqlParam;
  to_sql_text : string → SqlParam;
  pg_connect : PgConfig → PgTls → Act World (result Client PgErr);
  pg_query : Client → string → list SqlParam → Act World (result (list PgRow) PgErr);
  pg_execute : Client → string → list SqlParam → Act World (result Z PgErr);
  pg_batch_execute : Client → string → Act World (result () PgErr);
  pg_i16_range ty b z : pg_from_sql TI16 ty b = Ok z → - 2 ^ 15 ≤ z < 2 ^ 15;
  pg_i32_range ty b z : pg_from_sql TI32 ty b = Ok z → - 2 ^ 31 ≤ z < 2 ^ 31
}.

Record DbBackend (Client : Type) := {
  dbb_client : Client; dbb_deadline : Z; dbb_max_rows : Z; dbb_metrics : Collector DbMetric }.
Arguments dbb_client {Client}. Arguments dbb_deadline {Client}.
Arguments dbb_max_rows {Client}. Arguments dbb_metrics {Client}.

Section db.
Context {World Client : Type} `{!JsonText} `{!Formats} `{!Clock World} `{!Tokio World} `{!BreakerStore World}
  `{!Postgres World Client}.

(** ** Rows *)

(** [row.try_get::<_, Option<T>>(idx)]: the type is checked before the cell is read. *)
Definition try_get (row : PgRow) (idx : nat) (t : RustType)
    : result (option (rust_value t)) string :=
  match row_columns row !! idx, row_cells row !! idx with
  | Some (_, ty), Some cell =>
      if pg_accepts t ty then
        match cell with
        | None => Ok None
        | Some raw => let? v := pg_from_sql t ty raw in Ok (Some v)
        end
      else Err "wrong type"
  | _, _ => Err "invalid column"
  end.

(** [get_or_null]. *)
Definition get_or_null (row : PgRow) (idx : nat) (t : RustType) (convert : rust_value t → Value)
    : Value :=
  match try_get row idx t with
  | Ok (Some val) => convert val
  | Ok None => VNull
  | Err _ =>
      match try_get row idx TString with
      | Ok (Some text) => VString text
      | _ => VNull
      end
  end.

(** [column_to_json]. *)
Definition column_to_json (row : PgRow) (idx : nat) (col_type : PgType) : Value :=
  match col_type with
  | INT2 => get_or_null row idx TI16 (λ z, VNumber (pretty z))
  | INT4 | OID => get_or_null row idx TI32 (λ z, VNumber (pretty z))
  | INT8 => get_or_null row idx TI64 (λ z, VString (pretty z))
  | FLOAT4 => get_or_null row idx TF32 (λ x, f64_value (f64_from_f32 x))
  | FLOAT8 => get_or_null row idx TF64 f64_value
  | BOOL => get_or_null row idx TBool VBool
  | TEXT | VARCHAR | BPCHAR | NAME => get_or_null row idx TString VString
  | JSON | JSONB => get_or_null row idx TValue (λ v, v)
  | UUID => get_or_null row idx TUuid VString
  | TIMESTAMP => get_or_null row idx TNaiveDateTime VString
  | TIMESTAMPTZ => get_or_null row idx TDateTimeUtc VString
  | DATE => get_or_null row idx TNaiveDate VString
  | TIME => get_or_null row idx TNaiveTime VString
  | NUMERIC => get_or_null row idx TDecimal VString
  | BYTEA => get_or_null row idx TBytes (λ b, VString (b64_encode b))
  | OtherType _ => get_or_null row idx TString VString
  end.

(** [row_to_json]. *)
Definition row_to_json (row : PgRow) : Value :=
  VObject (map_of (imap (λ idx '(name, ty), (name, column_to_json row idx ty)) (row_columns row))).

(** [rows_to_json]. *)
Definition rows_to_json (rows : list PgRow) (max_rows : Z) : list Value * bool :=
  let truncated := bool_decide (max_rows < Z.of_nat (length rows)) in
  let limit := if truncated then Z.to_nat max_rows else length rows in
  (row_to_json <$> take limit rows, truncated).

(** [extract_columns]. *)
Definition extract_columns (rows : list PgRow) : list string :=
  match rows with first :: _ => (row_columns first).*1 | [] => [] end.

(** ** Parameters *)

(** [ParamValue::from]. *)
Definition ParamValue_from (val : Value) : ParamValue :=
  match val with
  | VNull => PNull
  | VBool flag => PBool flag
  | VNumber num =>
      match number_i64 num with
      | None => PFloat8 (f64_parse num)
      | Some int => if decide (- 2 ^ 31 ≤ int < 2 ^ 31) then PInt4 int else PInt8 int
      end
  | VString text => PText text
  | VArray arr => PText (default "[]" (json_print (VArray arr)))
  | VObject obj => PText (default "{}" (json_print (VObject obj)))
  end.

(** [ToSql for ParamValue]: [accepts] every type, [to_sql] of the payload. *)
Definition to_sql (p : ParamValue) : SqlParam :=
  match p with
  | PNull => λ _, Ok None
  | PBool val => to_sql_bool val
  | PInt4 val => to_sql_i32 val
  | PInt8 val => to_sql_i64 val
  | PFloat8 val => to_sql_f64 val
  | PText val => to_sql_text val
  end.

(** The deserializer of [Vec<Value>]. *)
Definition de_values (v : Value) : option (list Value) :=
  match v with VArray l => Some (norm <$> l) | _ => None end.

(** [parse_params]. *)
Definition parse_params (params_json : string) : result (list ParamValue) string :=
  let? values := map_err (λ err, "invalid params JSON: " +:+ err) (from_str de_values params_json) in
  Ok (ParamValue_from <$> values).

(** [build_param_refs]. *)
Definition build_param_refs (params : list ParamValue) : list SqlParam := to_sql <$> params.

(** ** Queries *)

(** [block_on_db]: the future under the time left until the deadline. *)
Definition block_on_db {T} (deadline : Z) (fut : Act World (result T PgErr))
    : Act World (result T DbError) :=
  let! time_left := remaining deadline in
  let! r := timeout time_left fut in
  act_ret match r with
          | Some (Ok value) => Ok value
          | Some (Err driver) => Err (DbError_from_driver driver)
          | None => Err DbError_timeout
          end.

(** [do_query]. *)
Definition do_query (b : DbBackend Client) (sql params_json : string)
    : Act World (result string DbError) :=
  let?! params := map_err DbError_fallback (parse_params params_json) in
  let!? rows := block_on_db (dbb_deadline b)
                  (pg_query (dbb_client b) sql (build_param_refs params)) in
  let columns := extract_columns rows in
  let '(json_rows, truncated) := rows_to_json rows (dbb_max_rows b) in
  act_ret (to_string_err (λ err, DbError_fallback ("serialize error: " +:+ err))
    (VObject [("columns", VArray (VString <$> columns)); ("rows", VArray json_rows);
              ("row_count", VNumber (pretty (Z.of_nat (length json_rows))));
              ("truncated", VBool truncated)])).

(** [do_execute]. *)
Definition do_execute (b : DbBackend Client) (sql params_json : string)
    : Act World (result string DbError) :=
  let?! params := map_err DbError_fallback (parse_params params_json) in
  let!? affected := block_on_db (dbb_deadline b)
                      (pg_execute (dbb_client b) sql (build_param_refs params)) in
  act_ret (Ok ("{" +:+ quoted "rows_affected" +:+ ":" +:+ pretty affected +:+ "}")).

(** [do_simple]. *)
Definition do_simple (b : DbBackend Client) (cmd : string) : Act World (result string DbError) :=
  let!? _ := block_on_db (dbb_deadline b) (pg_batch_execute (dbb_client b) cmd) in
  act_ret (Ok ("{" +:+ quoted "ok" +:+ ":true}")).

(** [dispatch]. *)
Definition db_dispatch (b : DbBackend Client) (action query params_json : string)
    : Act World (result string DbError) :=
  if decide (action = "query") then do_query b query params_json
  else if decide (action = "execute") then do_execute b query params_json
  else if decide (action = "begin") then do_simple b "BEGIN"
  else if decide (action = "commit") then do_simple b "COMMIT"
  else if decide (action = "rollback") then do_simple b "ROLLBACK"
  else act_ret (Err (DbError_fallback ("unknown db action: " +:+ action))).

(** ** Metrics *)

(** [extract_metric_info]. *)
Definition db_extract_metric_info (action json : string) : Z * Z * bool :=
  let parsed := match json_parse json with Ok v => norm v | Err _ => VNull end in
  if decide (action = "query") then
    (default 0 (value_get "row_count" parsed ≫= as_u64), 0,
     default false (value_get "truncated" parsed ≫= as_bool))
  else if decide (action = "execute") then
    (0, default 0 (value_get "rows_affected" parsed ≫= as_u64), false)
  else (0, 0, false).

(** [build_metric]. *)
Definition db_build_metric (action : string) (res : result string DbError) (start : Z)
    : Act World DbMetric :=
  let '(rows_ret, rows_aff, trunc) :=
    match res with Ok json => db_extract_metric_info action json | Err _ => (0, 0, false) end in
  let! micros := elapsed_micros start in
  act_ret {| dbm_action := action; dbm_duration_us := micros; dbm_rows_returned := rows_ret;
             dbm_rows_affected := rows_aff; dbm_truncated := trunc |}.

(** [DbBackend::call]. *)
Definition db_call (b : DbBackend Client) (action query params_json : string)
    : Act World (result string DbError * DbBackend Client) :=
  let! start := now in
  let! res := db_dispatch b action query params_json in
  let! metric := db_build_metric action res start in
  act_ret (res, {| dbb_client := dbb_client b; dbb_deadline := dbb_deadline b;
                   dbb_max_rows := dbb_max_rows b;
                   dbb_metrics := coll_record (dbb_metrics b) metric |}).

(** ** Connecting *)

(** [connect]: the session, with its statement timeout set. *)
Definition db_connect_raw (cfg : DbConfig) : Act World (result Client PgErr) :=
  let pg_config := {| pgc_host := db_host cfg; pgc_port := db_port cfg; pgc_user := db_user cfg;
                      pgc_password := db_password cfg; pgc_dbname := db_database cfg;
                      pgc_connect_timeout_s := 5 |} in
  let!? client := pg_connect pg_config (if db_ssl cfg then RustlsWebpkiRoots else NoTls) in
  let!? _ := pg_batch_execute client
               ("SET statement_timeout = '" +:+ pretty (statement_timeout_ms cfg) +:+ "'") in
  act_ret (Ok client).

(** The breaker's key for a database. *)
Definition db_target (cfg : DbConfig) : string := db_host cfg +:+ ":" +:+ pretty (db_port cfg).

(** [connect_through_breaker]. *)
Definition connect_through_breaker (cfg : DbConfig) (breaker : option BreakerRef)
    : Act World (result Client DbConnectError) :=
  match breaker with
  | None => let! r := db_connect_raw cfg in act_ret (map_err ConnectFailed r)
  | Some guard =>
      let target := db_target cfg in
      let! allowed := breaker_allow guard target in
      if negb allowed then act_ret (Err CircuitOpen) else
      let! r := db_connect_raw cfg in
      let! _ := breaker_record guard target (is_ok r) in
      act_ret (map_err ConnectFailed r)
  end.

(** [DbBackend::connect]. *)
Definition db_connect (cfg : DbConfig) (deps : AsyncDeps)
    : Act World (result (DbBackend Client) DbConnectError) :=
  let!? client := connect_through_breaker cfg (deps_breaker deps) in
  let! deadline := deadline_after (deps_timeout deps) in
  act_ret (Ok {| dbb_client := client; dbb_deadline := deadline; dbb_max_rows := db_max_rows cfg;
                 dbb_metrics := new_collector |}).

(** [DbBackend::connect_resource]. *)
Definition db_connect_resource (cfg : DbConfig) (deps : AsyncDeps)
    : Act World (result (DbBackend Client) EgressError) :=
  let! r := db_connect cfg deps in act_ret (map_err connect_error_to_resource r).

(** The driver as the session's backend set sees it. *)
#[export] Instance db_backend
    : Backend World DbConfig (string * string) (DbBackend Client) DbMetric := {|
  b_connect := db_connect_resource;
  b_call b action args :=
    let! (res, b') := db_call b action args.1 args.2 in
    act_ret (map_err db_into_resource_error res, b');
  b_metrics b := coll_drain (Some (dbb_metrics b)) |}.
End db.

(** ** Specification vocabulary *)

(** The rows of an answer that are kept, and the answer made of them. *)
Definition kept_rows (max_rows : Z) (rows : list PgRow) : list PgRow := take (Z.to_nat max_rows) rows.
Definition query_answer `{!Formats} {World Client} `{!Postgres World Client} (max_rows : Z)
    (rows : list PgRow) : Value :=
  let kept := kept_rows max_rows rows in
  VObject [("columns", VArray (VString <$> extract_columns rows));
           ("rows", VArray (row_to_json <$> kept));
           ("row_count", VNumber (pretty (Z.of_nat (length kept))));
           ("truncated", VBool (bool_decide (max_rows < Z.of_nat (length rows))))].

(** Connects through one breaker, in order, and the history they leave on it: an attempt that is
    allowed is recorded with its outcome, a refused one is only asked for. *)
Section guarded.
Context {World Client : Type} `{!Clock World} `{!BreakerStore World} `{!Postgres World Client}.

Fixpoint guarded_connects (guard : BreakerRef) (cfgs : list DbConfig)
    : Act World (list (result Client DbConnectError)) :=
  match cfgs with
  | [] => act_ret []
  | cfg :: rest =>
      let! r := connect_through_breaker cfg (Some guard) in
      let! rs := guarded_connects guard rest in
      act_ret (r :: rs)
  end.

Fixpoint connect_history (guard : BreakerRef) (cfgs : list DbConfig) (w : World) : list op :=
  match cfgs with
  | [] => []
  | cfg :: rest =>
      let t := db_target cfg in
      let '(allowed, w1) := breaker_allow guard t w in
      (if allowed then
         let '(r, w2) := db_connect_raw (Client:=Client) cfg w1 in
         [OAllow t (instant w); ORecord t (is_ok r) (instant w2)]
       else [OAllow t (instant w)]) ++
      connect_history guard rest (connect_through_breaker cfg (Some guard) w).2
  end.
End guarded.

(** ** Lemmas *)

Section db_lemmas.
Context {World Client : Type} `{!JsonText} `{!Formats} `{!Clock World} `{!Tokio World}
  `{!BreakerStore World} `{!Postgres World Client}.
Implicit Types (b : DbBackend Client) (w : World).

(** The faults of a call on an open connection: any [db] fault but a breaker's refusal. *)
Definition db_call_fault (f : Fault) : Prop :=
  capability_fault "db" f ∧ fault_code f ≠ "DB_CIRCUIT_OPEN".

Lemma db_classify_fault err : db_call_fault (db_classify err).
Proof. unfold db_classify, classify_by_class. repeat case_match; (split; [fault_tac|done]). Qed.

Lemma block_on_db_errs {T} deadline (fut : Act World (result T PgErr)) :
  errs (λ e, db_call_fault (dbe_fault e)) (block_on_db deadline fut).
Proof. unfold block_on_db. errs_auto; [apply db_classify_fault|split; [fault_tac|done]]. Qed.
Hint Resolve block_on_db_errs : errs.

Lemma db_dispatch_errs b action query params :
  errs (λ e, db_call_fault (dbe_fault e)) (db_dispatch b action query params).
Proof.
  unfold db_dispatch, do_query, do_execute, do_simple, to_string_err.
  errs_auto; (split; [fault_tac|done]).
Qed.

Lemma get_or_null_safe row idx t convert :
  (∀ ty raw v, pg_from_sql t ty raw = Ok v → js_tree (convert v)) →
  js_tree (get_or_null row idx t convert).
Proof.
  intros Hc. unfold get_or_null, try_get. destruct_matches; try done; simplify_eq/=;
    unfold result_bind in *; destruct_matches; simplify_eq/=; try done; eauto.
Qed.

(** Outside JSON columns a cell is read without loss. *)
Lemma column_to_json_safe row idx ty :
  ty ≠ JSON → ty ≠ JSONB → js_tree (column_to_json row idx ty).
Proof.
  intros H1 H2. destruct ty; try done; simpl; apply get_or_null_safe; intros ty' raw v Hv; simpl;
    try done; try apply f64_value_number.
  - left. apply pg_i16_range in Hv. exists v. split; [lia|done].
  - left. apply pg_i32_range in Hv. eauto.
  - left. apply pg_i32_range in Hv. eauto.
Qed.

Lemma row_to_json_columns row k v fields :
  row_to_json row = VObject fields → (k, v) ∈ fields →
  ∃ idx ty, row_columns row !! idx = Some (k, ty) ∧ v = column_to_json row idx ty.
Proof.
  intros [= <-] Hin. apply map_of_elem, list_elem_of_lookup_1 in Hin as [idx Hi].
  rewrite list_lookup_imap in Hi. destruct (row_columns row !! idx) as [[name ty]|] eqn:E; [|done].
  simplify_eq/=. eauto.
Qed.

Lemma rows_to_json_kept rows max_rows : 0 ≤ max_rows →
  rows_to_json rows max_rows =
  (row_to_json <$> kept_rows max_rows rows, bool_decide (max_rows < Z.of_nat (length rows))).
Proof.
  intros Hm. unfold rows_to_json, kept_rows. case_bool_decide; [done|].
  by rewrite !take_ge by lia.
Qed.

Lemma block_on_db_ok {T} deadline (fut : Act World (result T PgErr)) w x w' :
  block_on_db deadline fut w = (Ok x, w') → fut w = (Ok x, w').
Proof.
  unfold block_on_db, act_bind, remaining, act_ret. simpl.
  destruct (timeout _ fut w) as [r w1] eqn:E. intros Heq. destruct_matches; simplify_eq.
  by apply timeout_completed in E.
Qed.

(** A successful query ran on the connection and its rows are in the answer. *)
Lemma do_query_ok b sql params w text w' : 0 ≤ dbb_max_rows b →
  do_query b sql params w = (Ok text, w') →
  ∃ ps rows, parse_params params = Ok ps ∧
    pg_query (dbb_client b) sql (build_param_refs ps) w = (Ok rows, w') ∧
    json_print (query_answer (dbb_max_rows b) rows) = Some text.
Proof.
  intros Hm. unfold do_query. destruct (parse_params params) as [ps|] eqn:Ep; cbn [map_err pure_try]; [|done].
  unfold act_try. destruct (block_on_db _ _ w) as [[rows|e] w1] eqn:Eb; [|done].
  apply block_on_db_ok in Eb. cbv beta. rewrite rows_to_json_kept by done. unfold act_ret, to_string_err.
  rewrite length_fmap. destruct (json_print _) as [t|] eqn:Et; [|done].
  intros [= <- <-]. eauto.
Qed.

Lemma extract_query_metric rows max_rows text :
  json_parse text = Ok (query_answer max_rows rows) →
  Z.of_nat (length (kept_rows max_rows rows)) ≤ U64_MAX →
  db_extract_metric_info "query" text =
  (Z.of_nat (length (kept_rows max_rows rows)), 0,
   bool_decide (max_rows < Z.of_nat (length rows))).
Proof.
  intros Hp Hl. unfold db_extract_metric_info. rewrite Hp. clear Hp.
  pose proof (as_u64_pretty (Z.of_nat (length (kept_rows max_rows rows))) ltac:(lia)) as Hn.
  unfold query_answer. revert Hn. generalize (pretty (Z.of_nat (length (kept_rows max_rows rows)))).
  intros lexeme Hn. trans (default 0 (as_u64 (VNumber lexeme)), 0,
                           bool_decide (max_rows < Z.of_nat (length rows))); [|by rewrite Hn].
  generalize (bool_decide (max_rows < Z.of_nat (length rows))). reflexivity.
Qed.

(** Without a breaker a connect is never refused by one. *)
Lemma db_connect_unguarded cfg deps :
  deps_breaker deps = None →
  errs (λ e, is_circuit_open e = false) (db_connect (World:=World) (Client:=Client) cfg deps).
Proof.
  intros Hd. unfold db_connect, connect_through_breaker. rewrite Hd. errs_auto.
Qed.

Lemma db_connect_resource_errs cfg deps :
  errs (capability_error "db") (db_connect_resource (World:=World) (Client:=Client) cfg deps).
Proof.
  unfold db_connect_resource, connect_error_to_resource. errs_auto; cap_tac.
Qed.

(** One guarded connect: refused without an attempt, or attempted and its outcome recorded. *)
Lemma connect_through_breaker_step cfg guard w :
  let '(allowed, w1) := breaker_allow guard (db_target cfg) w in
  connect_through_breaker (Client:=Client) cfg (Some guard) w =
  if allowed then
    let '(r, w2) := db_connect_raw cfg w1 in
    (map_err ConnectFailed r, (breaker_record guard (db_target cfg) (is_ok r) w2).2)
  else (Err CircuitOpen, w1).
Proof.
  unfold connect_through_breaker, act_bind, act_ret.
  destruct (breaker_allow guard (db_target cfg) w) as [[] w1]; simpl; [|done].
  by destruct (db_connect_raw cfg w1).
Qed.

Lemma coll_record_items {T} (c : Collector T) m :
  coll_poisoned c = false → coll_items (coll_record c m) = coll_items c ++ [m].
Proof. unfold coll_record. by intros ->. Qed.
End db_lemmas.

(** ** Properties *)

Section db_properties.
Context {World Client : Type} `{!JsonText} `{!Formats} `{!Clock World} `{!Tokio World}
  `{!BreakerStore World} `{!Postgres World Client}.

(** C24: A successful query ran the given SQL with the given parameters on the session's connection; its
    answer holds at most [max_rows] of the rows, says exactly when it left some out, and outside JSON
    columns carries no number JavaScript would round; the metric recorded for it counts the rows that
    were returned. *)
Theorem db_query_faithful (b : DbBackend Client) sql params (w : World) text b' w' :
  0 ≤ dbb_max_rows b ≤ U64_MAX →
  coll_poisoned (dbb_metrics b) = false →
  (∀ v s, json_print v = Some s → json_parse s = Ok v) →
  db_call b "query" sql params w = (Ok text, b', w') →
  ∃ ps rows,
    parse_params params = Ok ps ∧
    pg_query (dbb_client b) sql (build_param_refs ps) w = (Ok rows, w') ∧
    json_print (query_answer (dbb_max_rows b) rows) = Some text ∧
    (length (kept_rows (dbb_max_rows b) rows) ≤ Z.to_nat (dbb_max_rows b))%nat ∧
    (∀ row fields k v, row ∈ kept_rows (dbb_max_rows b) rows → row_to_json row = VObject fields →
       (k, v) ∈ fields →
       ∃ idx ty, row_columns row !! idx = Some (k, ty) ∧ v = column_to_json row idx ty ∧
         (ty = JSON ∨ ty = JSONB ∨ js_tree v)) ∧
    ∃ us, coll_items (dbb_metrics b') = coll_items (dbb_metrics b) ++
      [{| dbm_action := "query"; dbm_duration_us := us;
          dbm_rows_returned := Z.of_nat (length (kept_rows (dbb_max_rows b) rows));
          dbm_rows_affected := 0;
          dbm_truncated := bool_decide (dbb_max_rows b < Z.of_nat (length rows)) |}].
Proof.
  intros Hm Hc Hrt Hcall. unfold db_call, act_bind, now, act_ret in Hcall. simpl in Hcall.
  change (db_dispatch b "query" sql params) with (do_query b sql params) in Hcall.
  destruct (do_query b sql params w) as [res w1] eqn:E.
  destruct (db_build_metric "query" res (instant w) w1) as [m w2] eqn:Em. simplify_eq.
  apply do_query_ok in E as (ps & rows & Hp & Hq & Ht); [|lia].
  assert (length (kept_rows (dbb_max_rows b) rows) ≤ Z.to_nat (dbb_max_rows b))%nat as Hk.
  { unfold kept_rows. rewrite length_take. lia. }
  unfold db_build_metric in Em. rewrite (extract_query_metric rows (dbb_max_rows b)) in Em; [|by eauto|lia].
  unfold act_bind, elapsed_micros, act_ret in Em. simplify_eq.
  exists ps, rows. split_and!; [done..| |].
  - intros row fields k v _ Hr Hin. destruct (row_to_json_columns _ _ _ _ Hr Hin) as (idx & ty & ? & ->).
    exists idx, ty. split_and!; [done..|]. destruct (decide (ty = JSON)); [by left|].
    destruct (decide (ty = JSONB)); [by right; left|]. right; right. by apply column_to_json_safe.
  - eexists. cbn [dbb_metrics]. by rewrite coll_record_items.
Qed.

(** C25: Connecting through a breaker refines the breaker: over any sequence of connects the shared cell
    ends in the state the breaker's own history gives, where each attempt let through is recorded with
    its outcome; and a connect is refused, with the retryable DB_CIRCUIT_OPEN and no attempt, exactly
    when the breaker does not allow its target. *)
Theorem db_connects_refine_breaker (guard : BreakerRef) cfgs (w : World) :
  (∀ cfg w, breaker_at guard (db_connect_raw (Client:=Client) cfg w).2 = breaker_at guard w) →
  breaker_at guard (guarded_connects (Client:=Client) guard cfgs w).2 =
    run (breaker_at guard w) (connect_history (Client:=Client) guard cfgs w) ∧
  ∀ cfg deps w, deps_breaker deps = Some guard →
    (allow (breaker_at guard w) (db_target cfg) (instant w)).1 = false →
    ∃ e cb, db_connect_resource (Client:=Client) cfg deps w = (Err e, breaker_put guard cb w) ∧
      ee_code e = "DB_CIRCUIT_OPEN" ∧ ee_retryable e = true ∧ ee_owner e = Operator.
Proof.
  intros Hframe. split.
  - revert w. induction cfgs as [|cfg cfgs IH]; intros w; [done|].
    cbn [guarded_connects connect_history]. unfold act_bind.
    pose proof (connect_through_breaker_step (Client:=Client) cfg guard w) as Hstep.
    unfold breaker_allow in *.
    destruct (allow (breaker_at guard w) (db_target cfg) (instant w)) as [allowed cb] eqn:Ea.
    assert (step (breaker_at guard w) (OAllow (db_target cfg) (instant w)) = cb) as Hcb.
    { simpl. by rewrite Ea. }
    destruct allowed.
    + specialize (Hframe cfg (breaker_put guard cb w)). rewrite breaker_at_put in Hframe.
      destruct (db_connect_raw cfg (breaker_put guard cb w)) as [r w2]. simpl in Hframe.
      rewrite Hstep. specialize (IH (breaker_record guard (db_target cfg) (is_ok r) w2).2).
      destruct (guarded_connects guard cfgs _) as [rs w3]. simpl in *. rewrite IH, breaker_at_put.
      unfold run. simpl. by rewrite Ea, Hframe.
    + rewrite Hstep. specialize (IH (breaker_put guard cb w)). rewrite breaker_at_put in IH.
      destruct (guarded_connects guard cfgs _) as [rs w3]. simpl in *. rewrite IH.
      unfold run. simpl. by rewrite Ea.
  - intros cfg deps w' Hd Ha. unfold db_connect_resource, db_connect, act_bind, act_try.
    rewrite Hd. pose proof (connect_through_breaker_step (Client:=Client) cfg guard w') as Hstep.
    unfold breaker_allow in Hstep.
    destruct (allow (breaker_at guard w') (db_target cfg) (instant w')) as [allowed cb].
    simpl in Ha. subst allowed. rewrite Hstep. eauto 10.
Qed.
End db_properties.

(** A cell of type [OID] always reads as null: it is read as an [i32], which takes [INT4] only, and
    the text fallback does not take it either. *)
Lemma oid_column_null {World Client : Type} `{!JsonText} `{!Formats} `{!Postgres World Client}
    (row : PgRow) idx name :
  pg_accepts TI32 OID = false → pg_accepts TString OID = false →
  row_columns row !! idx = Some (name, OID) →
  column_to_json row idx OID = VNull.
Proof.
  intros H1 H2 Hc. simpl. unfold get_or_null, try_get. rewrite Hc, H1, H2.
  by destruct (row_cells row !! idx).
Qed.
