(* ===== verification/MongoDriver.v ===== *)
(** * MongoDriver: the MongoDB driver

    Models [fabric-backends/src/mongo.rs]: the connection URI, the ten actions under the execution
    deadline, the bounded draining of a cursor, the conversions between JSON and BSON, fault
    classification and metrics.  The [mongodb] client and the BSON library enter as the class
    [MongoDb]; a client or cursor is a handle whose state is in the world. *)

From Stdlib Require Import Ascii.
From stdpp Require Import pretty.
From S2P Require Import Prelude Json Errors Runtime Wire Resources Backends.
Local Open Scope Z_scope.

(** ** Errors *)

Definition MONGO_FALLBACK : Fault := Fault_new "MONGO_ERROR" true Operator.
Definition MONGO_CONNECTION : Fault := Fault_new "MONGO_CONNECTION" true Operator.
Definition MONGO_TIMEOUT : Fault := Fault_new "MONGO_TIMEOUT" true Operator.
Definition MONGO_WRITE : Fault := Fault_new "MONGO_WRITE" false Developer.
Definition MONGO_QUERY : Fault := Fault_new "MONGO_QUERY" false Developer.

(** [mongodb::error::ErrorKind] as far as the code looks at it, and an error's text. *)
Inductive ErrorKind :=
| Authentication | Io | ServerSelection | Write | BulkWrite | Command (code : Z)
| InvalidArgument | OtherKind.
Record DriverError := { de_kind : ErrorKind; de_text : string }.

Record MongoError := { mge_fault : Fault; mge_message : string; mge_details : option Value }.

(** [MongoError::query]. *)
Definition MongoError_query (message : string) : MongoError :=
  {| mge_fault := MONGO_QUERY; mge_message := message; mge_details := None |}.

(** [MongoError::timeout]. *)
Definition MongoError_timeout : MongoError :=
  {| mge_fault := MONGO_TIMEOUT; mge_message := "mongo operation exceeded the execution deadline";
     mge_details := None |}.

(** [classify_command]. *)
Definition classify_command (code : Z) : Fault :=
  if decide (code = 11000 ∨ code = 11001) then MONGO_WRITE
  else if decide (code = 13 ∨ code = 18) then MONGO_CONNECTION
  else if decide (code ∈ [2; 4; 9; 14; 40; 51; 52; 168]) then MONGO_QUERY
  else MONGO_FALLBACK.

(** [classify]. *)
Definition mongo_classify (err : DriverError) : Fault :=
  match de_kind err with
  | Authentication | Io | ServerSelection => MONGO_CONNECTION
  | Write | BulkWrite => MONGO_WRITE
  | Command code => classify_command code
  | InvalidArgument => MONGO_QUERY
  | OtherKind => MONGO_FALLBACK
  end.

(** [MongoError::from_driver]. *)
Definition MongoError_from_driver (err : DriverError) : MongoError :=
  {| mge_fault := mongo_classify err; mge_message := de_text err; mge_details := None |}.

(** [MongoError::into_resource_error]. *)
Definition mongo_into_resource_error (e : MongoError) : EgressError :=
  {| ee_code := fault_code (mge_fault e); ee_message := mge_message e; ee_source := "mongo";
     ee_details := mge_details e; ee_retryable := fault_retryable (mge_fault e);
     ee_owner := fault_owner (mge_fault e) |}.

(** ** Values *)

(** [bson::Bson]; a document is an ordered map.  The kinds the code only prints are their text. *)
Inductive Bson :=
| BsDouble (x : f64)
| BsString (s : string)
| BsArray (l : list Bson)
| BsDocument (fields : list (string * Bson))
| BsBoolean (b : bool)
| BsNull
| BsInt32 (z : Z)
| BsInt64 (z : Z)
| BsObjectId (bytes : list ascii)
| BsDecimal128 (display : string)
| BsDateTime (millis : Z)
| BsBinary (bytes : list ascii)
| BsOther (display : string).
Abbreviation Document := (list (string * Bson)).

(** What the driver answers to writes. *)
Record UpdateResult := { ur_matched_count : Z; ur_modified_count : Z }.

(** The options of a [find]; absent ones are not set. *)
Record FindAction := {
  fa_max_time_ms : Z; fa_limit : option Z; fa_skip : option Z; fa_sort : option Document;
  fa_projection : option Document }.

(** The [mongodb] client and the BSON library.  Parsing a URI and building the client reach no
    database (it connects on the first operation). *)
Class MongoDb (World Database Cursor : Type) := {
  mongo_client : string → string → Act World (result Database DriverError);
  mongo_find : Database → string → Document → FindAction → Act World (result Cursor DriverError);
  mongo_find_one : Database → string → Document → Act World (result (option Document) DriverError);
  mongo_count : Database → string → Document → Z → Act World (result Z DriverError);
  mongo_aggregate : Database → string → list Document → Z → Act World (result Cursor DriverError);
  mongo_insert_one : Database → string → Document → Act World (result Bson DriverError);
  mongo_insert_many : Database → string → list Document → Act World (result Z DriverError);
  mongo_update : Database → string → Document → Document → bool →
    Act World (result UpdateResult DriverError);
  mongo_delete : Database → string → Document → bool → Act World (result Z DriverError);
  cursor_advance : Cursor → Act World (result bool DriverError);
  cursor_current : Cursor → Act World (result Document DriverError);
  to_bson : Value → result Bson string;
  oid_to_hex : list ascii → string;
  datetime_rfc3339 : Z → option string
}.

Record MongoBackend (Database : Type) := {
  mgb_database : Database; mgb_deadline : Z; mgb_max_docs : Z; mgb_op_timeout : Z;
  mgb_metrics : Collector MongoMetric }.
Arguments mgb_database {Database}. Arguments mgb_deadline {Database}.
Arguments mgb_max_docs {Database}. Arguments mgb_op_timeout {Database}.
Arguments mgb_metrics {Database}.

Record MongoOutcome := {
  out_json : string; docs_returned : Z; docs_affected : Z; out_truncated : bool }.

(** ** Payloads *)

Record FindOpts := {
  fo_limit : option Z; fo_skip : option Z; fo_sort : option Value; fo_projection : option Value }.
Definition FindOpts_default : FindOpts :=
  {| fo_limit := None; fo_skip := None; fo_sort := None; fo_projection := None |}.

Record MongoPayload := {
  mp_filter : Value; mp_update : Value; mp_doc : Value; mp_docs : Value; mp_pipeline : Value;
  mp_options : FindOpts }.


(** The derived deserializers of [FindOpts] and [MongoPayload]. *)
Definition de_find_opts (v : Value) : option FindOpts :=
  fs ← fields_of ["limit"; "skip"; "sort"; "projection"] v;
  match fs with
  | [o1; o2; o3; o4] =>
      limit ← defaulted None (de_option de_i64) o1; skip ← defaulted None (de_option de_u64) o2;
      sort ← defaulted None (de_option de_map_value) o3;
      projection ← defaulted None (de_option de_map_value) o4;
      Some {| fo_limit := limit; fo_skip := skip; fo_sort := sort; fo_projection := projection |}
  | _ => None
  end.
Definition de_mongo_payload (v : Value) : option MongoPayload :=
  fs ← fields_of ["filter"; "update"; "doc"; "docs"; "pipeline"; "options"] v;
  match fs with
  | [o1; o2; o3; o4; o5; o6] =>
      filter ← defaulted VNull de_map_value o1; update ← defaulted VNull de_map_value o2;
      doc ← defaulted VNull de_map_value o3; docs ← defaulted VNull de_map_value o4;
      pipeline ← defaulted VNull de_map_value o5;
      options ← defaulted FindOpts_default de_find_opts o6;
      Some {| mp_filter := filter; mp_update := update; mp_doc := doc; mp_docs := docs;
              mp_pipeline := pipeline; mp_options := options |}
  | _ => None
  end.

Section mongo.
Context {World Database Cursor : Type} `{!JsonText} `{!Formats} `{!PercentEncoding} `{!Clock World}
  `{!Tokio World} `{!MongoDb World Database Cursor}.

(** ** The connection URI *)

(** [encode]. *)
Definition encode (value : string) : string := utf8_percent_encode NON_ALPHANUMERIC value.

(** The credentials part of the URI, up to and with the at sign. *)
Definition uri_userinfo (cfg : MongoConfig) : string :=
  match mongo_username cfg with
  | Some username =>
      encode username +:+
      match mongo_password cfg with Some password => ":" +:+ encode password | None => "" end +:+ "@"
  | None => ""
  end.

(** [build_uri]: what follows the host, and the whole. *)
Definition uri_rest (cfg : MongoConfig) : string :=
  ":" +:+ pretty (mongo_port cfg) +:+ "/?directConnection=true&appName=runlet" +:+
  "&connectTimeoutMS=5000&serverSelectionTimeoutMS=5000" +:+
  match mongo_username cfg with
  | Some _ => "&authSource=" +:+ encode (mongo_auth_source cfg) | None => "" end +:+
  (if mongo_tls cfg
   then "&tls=true" +:+
        match mongo_ca_cert cfg with Some ca => "&tlsCAFile=" +:+ encode ca | None => "" end
   else "").
Definition build_uri (cfg : MongoConfig) : string :=
  "mongodb://" +:+ uri_userinfo cfg +:+ mongo_host cfg +:+ uri_rest cfg.

(** ** JSON to BSON and back *)

(** [json_to_doc]. *)
Definition json_to_doc (value : Value) : result Document MongoError :=
  if is_null value then Ok [] else
  match to_bson value with
  | Ok (BsDocument doc) => Ok doc
  | Ok _ => Err (MongoError_query "expected a JSON object")
  | Err err => Err (MongoError_query ("invalid document: " +:+ err))
  end.

(** [items.iter().map(json_to_doc).collect()]: the first error wins. *)
Fixpoint collect_docs (items : list Value) : result (list Document) MongoError :=
  match items with
  | [] => Ok []
  | v :: rest => let? d := json_to_doc v in let? ds := collect_docs rest in Ok (d :: ds)
  end.

(** [docs_to_docs] and [pipeline_to_docs]. *)
Definition docs_to_docs (value : Value) : result (list Document) MongoError :=
  match value with
  | VNull => Ok []
  | VArray items => collect_docs items
  | _ => Err (MongoError_query "expected a JSON array")
  end.
Definition pipeline_to_docs (value : Value) : result (list Document) MongoError :=
  docs_to_docs value.

(** [bson_to_json] and [document_to_json]. *)
Fixpoint bson_to_json (value : Bson) : Value :=
  match value with
  | BsDouble num => f64_value num
  | BsString text => VString text
  | BsBoolean flag => VBool flag
  | BsNull => VNull
  | BsInt32 int => VNumber (pretty int)
  | BsInt64 int => VString (pretty int)
  | BsObjectId oid => VString (oid_to_hex oid)
  | BsDecimal128 dec => VString dec
  | BsDateTime date => VString (default (pretty date) (datetime_rfc3339 date))
  | BsBinary bin => VString (b64_encode bin)
  | BsArray items => VArray (bson_to_json <$> items)
  | BsDocument doc => VObject (map_of ((λ '(key, val), (key, bson_to_json val)) <$> doc))
  | BsOther display => VString display
  end.
Definition document_to_json (doc : Document) : Value := bson_to_json (BsDocument doc).

(** [id_to_string]. *)
Definition id_to_string (id : Bson) : string :=
  match id with
  | BsObjectId oid => oid_to_hex oid
  | BsString text => text
  | other => value_display (bson_to_json other)
  end.

(** [.map_err(|err| MongoError::from_driver(&err))] on an operation. *)
Definition driver {T} (m : Act World (result T DriverError)) : Act World (result T MongoError) :=
  let! r := m in act_ret (map_err MongoError_from_driver r).

(** ** Reads *)

(** The loop of [drain_cursor]; [None] when the fuel runs out. *)
Fixpoint drain_loop (fuel : nat) (cursor : Cursor) (max_docs : Z) (docs : list Value)
    : Act World (option (result (list Value * bool) MongoError)) :=
  match fuel with
  | O => act_ret None
  | S fuel' =>
      let! advanced := cursor_advance cursor in
      match advanced with
      | Err err => act_ret (Some (Err (MongoError_from_driver err)))
      | Ok false => act_ret (Some (Ok (docs, false)))
      | Ok true =>
          if decide (max_docs ≤ Z.of_nat (length docs)) then act_ret (Some (Ok (docs, true))) else
          let! current := cursor_current cursor in
          match current with
          | Err err => act_ret (Some (Err (MongoError_from_driver err)))
          | Ok doc => drain_loop fuel' cursor max_docs (docs ++ [document_to_json doc])
          end
      end
  end.

(** [drain_cursor]: no more rounds than documents allowed, and one to see that there are more. *)
Definition drain_cursor (cursor : Cursor) (max_docs : Z)
    : Act World (result MongoOutcome MongoError) :=
  let! drained := drain_loop (S (Z.to_nat max_docs)) cursor max_docs [] in
  act_ret
    (let? (docs, truncated) := default (Err MongoError_timeout) drained in
     let count := Z.of_nat (length docs) in
     Ok {| out_json := value_display (VObject [("docs", VArray docs);
                         ("count", VNumber (pretty count)); ("truncated", VBool truncated)]);
           docs_returned := count; docs_affected := 0; out_truncated := truncated |}).

(** [payload.options.sort] and [projection]: an absent option, or its document. *)
Definition opt_doc (o : option Value) : result (option Document) MongoError :=
  match o with None => Ok None | Some v => let? d := json_to_doc v in Ok (Some d) end.

(** [do_find]. *)
Definition do_find (b : MongoBackend Database) (name : string) (payload : MongoPayload)
    : Act World (result MongoOutcome MongoError) :=
  let?! filter := json_to_doc (mp_filter payload) in
  let?! sort := opt_doc (fo_sort (mp_options payload)) in
  let?! projection := opt_doc (fo_projection (mp_options payload)) in
  let action := {| fa_max_time_ms := mgb_op_timeout b; fa_limit := fo_limit (mp_options payload);
                   fa_skip := fo_skip (mp_options payload); fa_sort := sort;
                   fa_projection := projection |} in
  let!? cursor := driver (mongo_find (mgb_database b) name filter action) in
  drain_cursor cursor (mgb_max_docs b).

(** [do_find_one]. *)
Definition do_find_one (b : MongoBackend Database) (name : string) (payload : MongoPayload)
    : Act World (result MongoOutcome MongoError) :=
  let?! filter := json_to_doc (mp_filter payload) in
  let!? found := driver (mongo_find_one (mgb_database b) name filter) in
  act_ret (Ok
    match found with
    | Some doc => {| out_json := value_display (document_to_json doc); docs_returned := 1;
                     docs_affected := 0; out_truncated := false |}
    | None => {| out_json := "null"; docs_returned := 0; docs_affected := 0;
                 out_truncated := false |}
    end).

(** An outcome that returned no documents. *)
Definition outcome (json : string) (affected : Z) : MongoOutcome :=
  {| out_json := json; docs_returned := 0; docs_affected := affected; out_truncated := false |}.

(** [do_count]. *)
Definition do_count (b : MongoBackend Database) (name : string) (payload : MongoPayload)
    : Act World (result MongoOutcome MongoError) :=
  let?! filter := json_to_doc (mp_filter payload) in
  let!? count := driver (mongo_count (mgb_database b) name filter (mgb_op_timeout b)) in
  act_ret (Ok (outcome ("{" +:+ quoted "count" +:+ ":" +:+ pretty count +:+ "}") 0)).

(** [do_aggregate]. *)
Definition do_aggregate (b : MongoBackend Database) (name : string) (payload : MongoPayload)
    : Act World (result MongoOutcome MongoError) :=
  let?! pipeline := pipeline_to_docs (mp_pipeline payload) in
  let!? cursor := driver (mongo_aggregate (mgb_database b) name pipeline (mgb_op_timeout b)) in
  drain_cursor cursor (mgb_max_docs b).

(** ** Writes *)

(** [do_insert_one]. *)
Definition do_insert_one (b : MongoBackend Database) (name : string) (payload : MongoPayload)
    : Act World (result MongoOutcome MongoError) :=
  let?! doc := json_to_doc (mp_doc payload) in
  let!? inserted_id := driver (mongo_insert_one (mgb_database b) name doc) in
  let id := id_to_string inserted_id in
  let encoded := default (quoted "") (json_print (VString id)) in
  act_ret (Ok (outcome ("{" +:+ quoted "inserted_id" +:+ ":" +:+ encoded +:+ "}") 1)).

(** [do_insert_many]. *)
Definition do_insert_many (b : MongoBackend Database) (name : string) (payload : MongoPayload)
    : Act World (result MongoOutcome MongoError) :=
  let?! docs := docs_to_docs (mp_docs payload) in
  if decide (docs = [] :> list (list (string * Bson)))
  then act_ret (Err (MongoError_query "mongo.insert_many requires at least one document")) else
  let!? inserted := driver (mongo_insert_many (mgb_database b) name docs) in
  let count := to_u64_or_max inserted in
  act_ret (Ok (outcome ("{" +:+ quoted "inserted_count" +:+ ":" +:+ pretty count +:+ "}") count)).

(** [do_update]. *)
Definition do_update (b : MongoBackend Database) (name : string) (payload : MongoPayload)
    (many : bool) : Act World (result MongoOutcome MongoError) :=
  let?! filter := json_to_doc (mp_filter payload) in
  let?! update := json_to_doc (mp_update payload) in
  let!? res := driver (mongo_update (mgb_database b) name filter update many) in
  act_ret (Ok (outcome
    ("{" +:+ quoted "matched" +:+ ":" +:+ pretty (ur_matched_count res) +:+ "," +:+
     quoted "modified" +:+ ":" +:+ pretty (ur_modified_count res) +:+ "}")
    (ur_modified_count res))).

(** [do_delete]. *)
Definition do_delete (b : MongoBackend Database) (name : string) (payload : MongoPayload)
    (many : bool) : Act World (result MongoOutcome MongoError) :=
  let?! filter := json_to_doc (mp_filter payload) in
  let!? deleted := driver (mongo_delete (mgb_database b) name filter many) in
  act_ret (Ok (outcome ("{" +:+ quoted "deleted" +:+ ":" +:+ pretty deleted +:+ "}") deleted)).

(** ** Dispatch *)

(** [run]. *)
Definition mongo_run (b : MongoBackend Database) (name action : string) (payload : MongoPayload)
    : Act World (result MongoOutcome MongoError) :=
  if decide (action = "find") then do_find b name payload
  else if decide (action = "find_one") then do_find_one b name payload
  else if decide (action = "count") then do_count b name payload
  else if decide (action = "aggregate") then do_aggregate b name payload
  else if decide (action = "insert_one") then do_insert_one b name payload
  else if decide (action = "insert_many") then do_insert_many b name payload
  else if decide (action = "update_one") then do_update b name payload false
  else if decide (action = "update_many") then do_update b name payload true
  else if decide (action = "delete_one") then do_delete b name payload false
  else if decide (action = "delete_many") then do_delete b name payload true
  else act_ret (Err (MongoError_query ("unknown mongo action: " +:+ action))).

(** [dispatch]. *)
Definition mongo_dispatch (b : MongoBackend Database) (action name payload_json : string)
    : Act World (result MongoOutcome MongoError) :=
  let?! payload := map_err (λ err, MongoError_query ("invalid mongo payload: " +:+ err))
                     (from_str de_mongo_payload payload_json) in
  let! time_left := remaining (mgb_deadline b) in
  let! r := timeout time_left (mongo_run b name action payload) in
  act_ret (default (Err MongoError_timeout) r).

(** [build_metric]. *)
Definition mongo_build_metric (action : string) (out : option MongoOutcome) (start : Z)
    : Act World MongoMetric :=
  let '(returned, affected, truncated) :=
    match out with Some o => (docs_returned o, docs_affected o, out_truncated o)
    | None => (0, 0, false) end in
  let! micros := elapsed_micros start in
  act_ret {| mgm_action := action; mgm_duration_us := micros; mgm_docs_returned := returned;
             mgm_docs_affected := affected; mgm_truncated := truncated |}.

(** [MongoBackend::call]. *)
Definition mongo_call (b : MongoBackend Database) (action collection payload_json : string)
    : Act World (result string MongoError * MongoBackend Database) :=
  let! start := now in
  let! res := mongo_dispatch b action collection payload_json in
  let! metric := mongo_build_metric action
                   (match res with Ok out => Some out | Err _ => None end) start in
  act_ret (let? out := res in Ok (out_json out),
           {| mgb_database := mgb_database b; mgb_deadline := mgb_deadline b;
              mgb_max_docs := mgb_max_docs b; mgb_op_timeout := mgb_op_timeout b;
              mgb_metrics := coll_record (mgb_metrics b) metric |}).

(** [MongoBackend::connect_resource]. *)
Definition mongo_connect_resource (cfg : MongoConfig) (deps : AsyncDeps)
    : Act World (result (MongoBackend Database) EgressError) :=
  let uri := build_uri cfg in
  let! client := mongo_client uri (mongo_database cfg) in
  let?! database := map_err (λ err, mongo_into_resource_error (MongoError_from_driver err)) client in
  let! deadline := deadline_after (deps_timeout deps) in
  act_ret (Ok {| mgb_database := database; mgb_deadline := deadline;
                 mgb_max_docs := mongo_max_docs cfg; mgb_op_timeout := mongo_op_timeout_ms cfg;
                 mgb_metrics := new_collector |}).

(** The driver as the session's backend set sees it. *)
#[export] Instance mongo_backend
    : Backend World MongoConfig (string * string) (MongoBackend Database) MongoMetric := {|
  b_connect := mongo_connect_resource;
  b_call b action args :=
    let! (res, b') := mongo_call b action args.1 args.2 in
    act_ret (map_err mongo_into_resource_error res, b');
  b_metrics b := coll_drain (Some (mgb_metrics b)) |}.
End mongo.

(** ** Specification vocabulary *)

(** Induction on BSON through arrays and documents. *)
Section bson_ind.
Context (P : Bson → Prop).
Context (Hleaf : ∀ v, (match v with BsArray _ | BsDocument _ => False | _ => True end) → P v).
Context (Harray : ∀ l, Forall P l → P (BsArray l)).
Context (Hdoc : ∀ l, Forall (λ kx, P kx.2) l → P (BsDocument l)).
Fixpoint bson_nested_ind (v : Bson) : P v :=
  match v with
  | BsArray l => Harray l ((fix go l : Forall P l := match l with
      | [] => Forall_nil_2 P | x :: l => Forall_cons_2 P x l (bson_nested_ind x) (go l) end) l)
  | BsDocument l => Hdoc l ((fix go l : Forall (λ kx, P kx.2) l := match l with
      | [] => Forall_nil_2 _ | x :: l => Forall_cons_2 _ x l (bson_nested_ind x.2) (go l) end) l)
  | v => Hleaf v I
  end.
End bson_ind.

(** A BSON value as the driver makes it: [Int32] holds an [i32]. *)
Fixpoint bson_wf (v : Bson) : Prop :=
  match v with
  | BsInt32 z => - 2 ^ 31 ≤ z < 2 ^ 31
  | BsArray l => foldr (λ x Q, bson_wf x ∧ Q) True l
  | BsDocument l => foldr (λ kx Q, bson_wf kx.2 ∧ Q) True l
  | _ => True
  end.

(** The documents read from a cursor by that many advances, one after the other. *)
Inductive reads {World Database Cursor} `{!MongoDb World Database Cursor} (cursor : Cursor)
    : World → list Document → World → Prop :=
| reads_nil w : reads cursor w [] w
| reads_cons w w1 w2 w3 doc docs :
    cursor_advance cursor w = (Ok true, w1) → cursor_current cursor w1 = (Ok doc, w2) →
    reads cursor w2 docs w3 → reads cursor w (doc :: docs) w3.

(** ** Lemmas *)

Section mongo_lemmas.
Context {World Database Cursor : Type} `{!JsonText} `{!Formats} `{!PercentEncoding} `{!Clock World}
  `{!Tokio World} `{!MongoDb World Database Cursor}.
Implicit Types (b : MongoBackend Database) (w : World).

Lemma mongo_classify_fault err : capability_fault "mongo" (mongo_classify err).
Proof. unfold mongo_classify, classify_command. fault_tac. Qed.

Abbreviation mongo_errs m := (errs (λ e, capability_fault "mongo" (mge_fault e)) m).

Lemma driver_errs {T} (m : Act World (result T DriverError)) : mongo_errs (driver m).
Proof. unfold driver. errs_auto. apply mongo_classify_fault. Qed.

Lemma json_to_doc_errs v : pure_errs (λ e, capability_fault "mongo" (mge_fault e)) (json_to_doc v).
Proof. unfold json_to_doc. errs_auto; fault_tac. Qed.
Hint Resolve driver_errs json_to_doc_errs : errs.

Lemma collect_docs_errs l : pure_errs (λ e, capability_fault "mongo" (mge_fault e)) (collect_docs l).
Proof. induction l; simpl; errs_auto. Qed.
Hint Resolve collect_docs_errs : errs.

Lemma docs_to_docs_errs v :
  pure_errs (λ e, capability_fault "mongo" (mge_fault e)) (docs_to_docs v).
Proof. unfold docs_to_docs. errs_auto; fault_tac. Qed.
Hint Resolve docs_to_docs_errs : errs.

(** Every round takes a document or is the last: one round more than the documents still allowed is
    enough, whatever the server answers. *)
Lemma drain_loop_total cursor max_docs docs fuel w :
  (Z.to_nat max_docs - length docs < fuel)%nat →
  ∃ r w', drain_loop fuel cursor max_docs docs w = (Some r, w').
Proof.
  revert docs w. induction fuel as [|fuel IH]; intros docs w Hf; [lia|]. simpl. unfold act_bind.
  destruct (cursor_advance cursor w) as [[[]|e] w1]; unfold act_ret; eauto.
  case_decide; eauto. destruct (cursor_current cursor w1) as [[doc|e] w2]; eauto.
  apply IH. rewrite length_app. simpl. lia.
Qed.

(** Fuel beyond that changes nothing. *)
Lemma drain_loop_fuel cursor max_docs docs f1 f2 w r w' :
  drain_loop f1 cursor max_docs docs w = (Some r, w') →
  (Z.to_nat max_docs - length docs < f2)%nat →
  drain_loop f2 cursor max_docs docs w = (Some r, w').
Proof.
  revert f2 docs w. induction f1 as [|f1 IH]; intros f2 docs w; [done|].
  destruct f2 as [|f2]; [lia|]. simpl. unfold act_bind.
  destruct (cursor_advance cursor w) as [[[]|e] w1]; [|done..].
  case_decide; [done|]. destruct (cursor_current cursor w1) as [[doc|e] w2]; [|done].
  intros E Hf. apply (IH f2 _ _ E). rewrite length_app. simpl. lia.
Qed.

(** What the loop returns on success. *)
Lemma drain_loop_ok cursor max_docs docs0 fuel w docs more w' :
  Z.of_nat (length docs0) ≤ max_docs →
  drain_loop fuel cursor max_docs docs0 w = (Some (Ok (docs, more)), w') →
  ∃ read w1, reads cursor w read w1 ∧ docs = docs0 ++ (document_to_json <$> read) ∧
    Z.of_nat (length docs) ≤ max_docs ∧ cursor_advance cursor w1 = (Ok more, w') ∧
    (more = true → Z.of_nat (length docs) = max_docs).
Proof.
  revert docs0 w. induction fuel as [|fuel IH]; intros docs0 w Hl; [done|]. simpl. unfold act_bind.
  destruct (cursor_advance cursor w) as [[[]|e] w1] eqn:Ea; unfold act_ret; try done.
  - case_decide as Hm.
    + intros [= <- <- <-]. exists [], w. cbn [fmap list_fmap]. rewrite app_nil_r. split_and!; [constructor|done|lia|done|lia].
    + destruct (cursor_current cursor w1) as [[doc|e] w2] eqn:Ec; [|done].
      intros (read & w3 & Hr & Hd & Hn & Hadv & Hmore)%IH; [|rewrite length_app; simpl; lia].
      exists (doc :: read), w3. split_and!; [by econstructor| |done..].
      by rewrite Hd, <-app_assoc.
  - intros [= <- <- <-]. exists [], w. cbn [fmap list_fmap]. rewrite app_nil_r. split_and!; [constructor|done|lia|done|done].
Qed.

Lemma drain_loop_errs fuel cursor max_docs docs w e w' :
  drain_loop fuel cursor max_docs docs w = (Some (Err e), w') → capability_fault "mongo" (mge_fault e).
Proof.
  revert docs w. induction fuel as [|fuel IH]; intros docs w; [done|]. simpl. unfold act_bind.
  destruct (cursor_advance cursor w) as [[[]|e'] w1]; unfold act_ret; try done.
  - case_decide; [done|]. destruct (cursor_current cursor w1) as [[doc|e'] w2]; [apply IH|].
    intros [= <- <-]. apply mongo_classify_fault.
  - intros [= <- <-]. apply mongo_classify_fault.
Qed.

Lemma drain_cursor_errs cursor max_docs : mongo_errs (drain_cursor cursor max_docs).
Proof.
  intros w e w'. unfold drain_cursor, act_bind, act_ret.
  destruct (drain_loop _ cursor max_docs [] w) as [[[[docs t]|e']|] w1] eqn:E; simpl; [done| |].
  - intros [= <- <-]. by eapply drain_loop_errs.
  - intros [= <- <-]. fault_tac.
Qed.
Hint Resolve drain_cursor_errs : errs.

Lemma mongo_run_errs b name action payload : mongo_errs (mongo_run b name action payload).
Proof.
  unfold mongo_run, do_find, do_find_one, do_count, do_aggregate, do_insert_one, do_insert_many,
    do_update, do_delete, pipeline_to_docs, opt_doc. errs_auto; fault_tac.
Qed.

Lemma mongo_dispatch_errs b action name payload_json :
  mongo_errs (mongo_dispatch b action name payload_json).
Proof.
  unfold mongo_dispatch. apply errs_pure_try; [errs_auto; fault_tac|intros payload].
  intros w e w'. unfold act_bind, act_ret, remaining.
  destruct (timeout _ _ w) as [[r|] w1] eqn:E; simpl.
  - apply timeout_completed in E. intros [= -> ->]. by eapply mongo_run_errs.
  - intros [= <- <-]. fault_tac.
Qed.

Lemma mongo_connect_resource_errs cfg deps :
  errs (capability_error "mongo")
    (mongo_connect_resource (World:=World) (Database:=Database) cfg deps).
Proof.
  unfold mongo_connect_resource. errs_auto. split; [done|]. apply mongo_classify_fault.
Qed.

Lemma bson_wf_array l : bson_wf (BsArray l) ↔ Forall bson_wf l.
Proof. induction l as [|v l IH]; [done|]. rewrite Forall_cons. simpl in *. by rewrite IH. Qed.
Lemma bson_wf_document l : bson_wf (BsDocument l) ↔ Forall (λ kx, bson_wf kx.2) l.
Proof. induction l as [|v l IH]; [done|]. rewrite Forall_cons. simpl in *. by rewrite IH. Qed.

(** No number in a converted document loses precision. *)
Lemma bson_to_json_tree v : bson_wf v → js_tree (bson_to_json v).
Proof.
  induction v as [v Hv|l IH|l IH] using bson_nested_ind; intros Hwf.
  - destruct v; try done; simpl; [apply f64_value_number|]. left. eauto.
  - apply bson_wf_array in Hwf. simpl bson_to_json. apply js_tree_array, Forall_fmap.
    eapply Forall_impl; [apply Forall_and; split; [exact IH|exact Hwf]|]. simpl. naive_solver.
  - apply bson_wf_document in Hwf. simpl bson_to_json. apply js_tree_object, Forall_forall.
    intros [k x] Hin. apply map_of_elem, list_elem_of_fmap in Hin as ([k' y] & [= -> ->] & Hy).
    rewrite Forall_forall in IH. rewrite Forall_forall in Hwf.
    apply (IH _ Hy), (Hwf _ Hy).
Qed.

Lemma encode_no_separator s a : NON_ALPHANUMERIC a = true → a ≠ "%"%char → a ∉ bytes_of (encode s).
Proof. intros Ha Hp Hin. apply encode_alphanumeric in Hin. destruct Hin; congruence. Qed.

Lemma split_once_encoded (c : ascii) s1 s2 :
  c ∉ bytes_of s1 →
  split_once (String c EmptyString) (s1 +:+ String c s2) = Some (s1, s2).
Proof.
  intros Hc. unfold split_once. rewrite bytes_of_app. simpl bytes_of.
  rewrite split_once_char by done. simpl. by rewrite !string_of_bytes_of.
Qed.

(** Whatever the credentials hold, the URI is read back as they were given: they end at the first at
    sign, the password starts at the first colon, and the host follows. *)
Lemma build_uri_credentials cfg username :
  mongo_username cfg = Some username →
  ∃ t creds rest,
    strip_prefix "mongodb://" (build_uri cfg) = Some t ∧
    split_once "@" t = Some (creds, mongo_host cfg +:+ rest) ∧
    match mongo_password cfg with
    | Some password => split_once ":" creds = Some (encode username, encode password)
    | None => creds = encode username
    end.
Proof.
  intros Hu. unfold build_uri, uri_userinfo. rewrite Hu. generalize (uri_rest cfg). intros rest.
  destruct (mongo_password cfg) as [password|].
  - exists (encode username +:+ (":" +:+ encode password) +:+ "@" +:+ mongo_host cfg +:+ rest),
      (encode username +:+ ":" +:+ encode password), rest.
    split_and!; [|rewrite (assoc_L _ (encode username)); apply split_once_encoded|
      apply split_once_encoded; by apply encode_no_separator].
    + simpl. f_equal. by rewrite <-!(assoc_L String.append).
    + rewrite bytes_of_app. simpl. rewrite elem_of_app, elem_of_cons.
      intros [Hin|[Hin|Hin]]; [|done|]; revert Hin; by apply encode_no_separator.
  - exists (encode username +:+ "@" +:+ mongo_host cfg +:+ rest), (encode username), rest.
    split_and!; [|apply split_once_encoded; by apply encode_no_separator|done].
    simpl. f_equal. by rewrite <-!(assoc_L String.append).
Qed.
End mongo_lemmas.

(** ** Properties *)

Section mongo_properties.
Context {World Database Cursor : Type} `{!JsonText} `{!Formats} `{!PercentEncoding} `{!Clock World}
  `{!Tokio World} `{!MongoDb World Database Cursor}.

(** C26: Draining a cursor ends whatever the server sends: the loop returns within one round more than
    the documents allowed, and further fuel changes nothing.  A successful drain holds exactly the
    documents of the first advances, at most [max_docs], is marked truncated exactly when the server
    had one more, and carries no number JavaScript would round. *)
Theorem drain_cursor_terminates (cursor : Cursor) max_docs (w : World) :
  0 ≤ max_docs →
  ∃ r w', (∀ fuel, (Z.to_nat max_docs < fuel)%nat →
             drain_loop fuel cursor max_docs [] w = (Some r, w')) ∧
    (drain_cursor cursor max_docs w).2 = w' ∧
    match r with
    | Err e => (drain_cursor cursor max_docs w).1 = Err e
    | Ok (docs, more) =>
        (∃ out, (drain_cursor cursor max_docs w).1 = Ok out ∧
           docs_returned out = Z.of_nat (length docs) ∧ out_truncated out = more) ∧
        Z.of_nat (length docs) ≤ max_docs ∧
        ∃ read w1, reads cursor w read w1 ∧ docs = document_to_json <$> read ∧
          cursor_advance cursor w1 = (Ok more, w') ∧
          (more = true → Z.of_nat (length docs) = max_docs) ∧
          (Forall (λ doc, bson_wf (BsDocument doc)) read → Forall js_tree docs)
    end.
Proof.
  intros Hm. destruct (drain_loop_total cursor max_docs [] (S (Z.to_nat max_docs)) w) as (r & w' & E);
    [simpl; lia|].
  exists r, w'. split_and!.
  - intros fuel Hf. eapply drain_loop_fuel; [done|simpl; lia].
  - unfold drain_cursor, act_bind. by rewrite E.
  - unfold drain_cursor, act_bind. rewrite E. destruct r as [[docs more]|e]; [|done]. simpl.
    apply drain_loop_ok in E as (read & w1 & Hr & -> & Hn & Hadv & Hmore); [|simpl; lia].
    split_and!; [eexists; split_and!; reflexivity|done|]. exists read, w1. split_and!; auto.
    intros Hwf. apply Forall_fmap. eapply Forall_impl; [exact Hwf|]. intros doc. apply (bson_to_json_tree (BsDocument doc)).
Qed.
End mongo_properties.
