(* ===== verification/MailDriver.v ===== *)
(** * MailDriver: the SMTP driver

    Models [fabric-backends/src/mail.rs]: the relay set-up, the send policy (recipient count,
    recipient domains, sends per execution), message building, fault classification and metrics.
    [lettre] enters as the class [Lettre], with the log of the messages handed to a relay. *)

From stdpp Require Import pretty.
From S2P Require Import Prelude Json Errors Runtime Wire Resources Backends.
Local Open Scope Z_scope.

(** ** Errors *)

Definition MAIL_FALLBACK : Fault := Fault_new "MAIL_ERROR" true Operator.
Definition MAIL_OP_LIMIT : Fault := Fault_new "MAIL_OP_LIMIT" false Developer.

(** [lettre]'s SMTP error: the two reply classes and the text. *)
Record SmtpError := { smtp_transient : bool; smtp_permanent : bool; smtp_text : string }.

Record MailError := { mle_fault : Fault; mle_message : string }.

(** [MailError::fallback]. *)
Definition MailError_fallback (message : string) : MailError :=
  {| mle_fault := MAIL_FALLBACK; mle_message := message |}.

(** [classify]. *)
Definition mail_classify (err : SmtpError) : Fault :=
  if smtp_transient err then Fault_new "MAIL_TRANSIENT" true Operator
  else if smtp_permanent err then Fault_new "MAIL_PERMANENT" false Developer
  else MAIL_FALLBACK.

(** [MailError::from_driver]. *)
Definition MailError_from_driver (err : SmtpError) : MailError :=
  {| mle_fault := mail_classify err; mle_message := smtp_text err |}.

(** [MailError::into_resource_error]. *)
Definition mail_into_resource_error (e : MailError) : EgressError :=
  {| ee_code := fault_code (mle_fault e); ee_message := mle_message e; ee_source := "mail";
     ee_details := None; ee_retryable := fault_retryable (mle_fault e);
     ee_owner := fault_owner (mle_fault e) |}.

(** ** Messages *)

Record Mailbox := { mb_name : option string; mb_user : string; mb_domain : string }.

Inductive Body := Plain (text : string) | Html (html : string) | PlainHtml (text html : string).

(** What a [MessageBuilder] was given. *)
Record Message := {
  msg_from : Mailbox; msg_to : list Mailbox; msg_cc : list Mailbox; msg_bcc : list Mailbox;
  msg_reply_to : option Mailbox; msg_subject : string; msg_body : Body }.

Definition msg_recipients (m : Message) : list Mailbox := msg_to m ++ msg_cc m ++ msg_bcc m.

(** The transport's settings, and the relay's answer. *)
Record SmtpTransport := {
  tr_host : string; tr_tls : TlsMode; tr_port : Z; tr_timeout_ms : Z;
  tr_credentials : option (string * string) }.
Record SmtpResponse := { resp_positive : bool; resp_first_line : option string }.

(** [lettre]: parsing a mailbox, setting up TLS for a relay, finishing a message, its size on the
    wire, and sending.  [mail_sent] are the messages handed to a relay so far. *)
Class Lettre (World : Type) := {
  mailbox_parse : string → result Mailbox string;
  relay_tls : TlsMode → string → result () string;
  message_finish : Message → result () string;
  formatted_len : Message → Z;
  smtp_send : SmtpTransport → Message → Act World (result SmtpResponse SmtpError);
  mail_sent : World → list Message;
  smtp_send_log t m w : mail_sent (smtp_send t m w).2 = mail_sent w ++ [m]
}.

Record SendPayload := {
  sp_from : string; sp_to : list string; sp_cc : list string; sp_bcc : list string;
  sp_reply_to : string; sp_subject : string; sp_text : string; sp_html : string }.

Record SendOutcome := {
  so_json : string; so_recipients : Z; so_bytes : Z; so_accepted : bool }.

Record MailBackend := {
  mlb_transport : SmtpTransport; mlb_default_from : string; mlb_max_recipients : Z;
  mlb_allowed_domains : list string; mlb_max_sends : Z; mlb_metrics : Collector MailMetric }.

(** The derived deserializer of [SendPayload]. *)
Definition de_send_payload (v : Value) : option SendPayload :=
  fs ← fields_of ["from"; "to"; "cc"; "bcc"; "reply_to"; "subject"; "text"; "html"] v;
  match fs with
  | [o1; o2; o3; o4; o5; o6; o7; o8] =>
      from ← defaulted "" de_string o1; to ← defaulted [] de_strings o2;
      cc ← defaulted [] de_strings o3; bcc ← defaulted [] de_strings o4;
      reply_to ← defaulted "" de_string o5; subject ← defaulted "" de_string o6;
      text ← defaulted "" de_string o7; html ← defaulted "" de_string o8;
      Some {| sp_from := from; sp_to := to; sp_cc := cc; sp_bcc := bcc; sp_reply_to := reply_to;
              sp_subject := subject; sp_text := text; sp_html := html |}
  | _ => None
  end.

(** [count_recipients]: saturating at [usize::MAX]. *)
Definition count_recipients (p : SendPayload) : Z :=
  sat_add_u64 (sat_add_u64 (Z.of_nat (length (sp_to p))) (Z.of_nat (length (sp_cc p))))
    (Z.of_nat (length (sp_bcc p))).

Section mail.
Context {World : Type} `{!JsonText} `{!UnicodeCase} `{!Clock World} `{!Lettre World}.

(** [build_transport]. *)
Definition build_transport (cfg : MailConfig) : result SmtpTransport string :=
  let? _ := match mail_tls cfg with TlsNone => Ok () | mode => relay_tls mode (mail_host cfg) end in
  Ok {| tr_host := mail_host cfg; tr_tls := mail_tls cfg; tr_port := mail_port cfg;
        tr_timeout_ms := mail_timeout_ms cfg;
        tr_credentials := if nonempty (mail_user cfg)
                          then Some (mail_user cfg, mail_password cfg) else None |}.

(** [MailBackend::connect_resource]. *)
Definition mail_connect_resource (cfg : MailConfig) : result MailBackend EgressError :=
  let? transport := map_err (λ err,
    {| ee_code := fault_code MAIL_FALLBACK; ee_message := err; ee_source := "mail";
       ee_details := None; ee_retryable := fault_retryable MAIL_FALLBACK;
       ee_owner := fault_owner MAIL_FALLBACK |}) (build_transport cfg) in
  Ok {| mlb_transport := transport; mlb_default_from := mail_from cfg;
        mlb_max_recipients := mail_max_recipients cfg;
        mlb_allowed_domains := mail_allowed_recipient_domains cfg;
        mlb_max_sends := mail_max_sends cfg; mlb_metrics := new_collector |}.

(** [parse_mailbox]. *)
Definition parse_mailbox (addr field : string) : result Mailbox string :=
  map_err (λ err, "invalid " +:+ field +:+ " address '" +:+ addr +:+ "': " +:+ err)
    (mailbox_parse addr).

(** The loops over addresses: every one must parse. *)
Fixpoint parse_mailboxes (addrs : list string) (field : string) : result (list Mailbox) string :=
  match addrs with
  | [] => Ok []
  | a :: rest =>
      let? m := parse_mailbox a field in let? ms := parse_mailboxes rest field in Ok (m :: ms)
  end.

(** [enforce_recipient_domains]. *)
Fixpoint enforce_domains (addrs allowed : list string) : result () MailError :=
  match addrs with
  | [] => Ok ()
  | addr :: rest =>
      let? mailbox := map_err MailError_fallback (parse_mailbox addr "recipient") in
      let domain := to_lowercase (mb_domain mailbox) in
      if negb (existsb (λ allow, bool_decide (to_lowercase allow = domain)) allowed)
      then Err (MailError_fallback ("recipient domain '" +:+ domain +:+
                                    "' is not in allowed_recipient_domains"))
      else enforce_domains rest allowed
  end.
Definition enforce_recipient_domains (p : SendPayload) (allowed : list string)
    : result () MailError :=
  match allowed with [] => Ok () | _ => enforce_domains (sp_to p ++ sp_cc p ++ sp_bcc p) allowed end.

(** [build_body]: the body's shape, then the builder's own checks. *)
Definition body_of (p : SendPayload) : Body :=
  if nonempty (sp_text p) && nonempty (sp_html p) then PlainHtml (sp_text p) (sp_html p)
  else if nonempty (sp_html p) then Html (sp_html p) else Plain (sp_text p).

(** [build_message]. *)
Definition build_message (p : SendPayload) (default_from : string) : result Message string :=
  let from_str := if is_empty (sp_from p) then default_from else sp_from p in
  let? from := parse_mailbox from_str "from" in
  let? to := parse_mailboxes (sp_to p) "to" in
  let? cc := parse_mailboxes (sp_cc p) "cc" in
  let? bcc := parse_mailboxes (sp_bcc p) "bcc" in
  let? reply_to := if nonempty (sp_reply_to p)
                   then let? m := parse_mailbox (sp_reply_to p) "reply_to" in Ok (Some m)
                   else Ok None in
  let message := {| msg_from := from; msg_to := to; msg_cc := cc; msg_bcc := bcc;
                    msg_reply_to := reply_to; msg_subject := sp_subject p; msg_body := body_of p |} in
  let? _ := map_err (λ err, "failed to build message: " +:+ err) (message_finish message) in
  Ok message.

(** [do_send]. *)
Definition do_send (b : MailBackend) (payload_json : string)
    : Act World (result SendOutcome MailError) :=
  let?! p := map_err (λ err, MailError_fallback ("invalid mail payload: " +:+ err))
               (from_str de_send_payload payload_json) in
  let recipients := count_recipients p in
  if decide (recipients = 0)
  then act_ret (Err (MailError_fallback "at least one recipient (to/cc/bcc) is required")) else
  if decide (mlb_max_recipients b < recipients)
  then act_ret (Err (MailError_fallback ("too many recipients: " +:+ pretty recipients +:+
                       " (max " +:+ pretty (mlb_max_recipients b) +:+ ")"))) else
  let?! _ := enforce_recipient_domains p (mlb_allowed_domains b) in
  let?! message := map_err MailError_fallback (build_message p (mlb_default_from b)) in
  let bytes := formatted_len message in
  let! sent := smtp_send (mlb_transport b) message in
  act_ret match sent with
  | Ok response =>
      let accepted := resp_positive response in
      let escaped := default (quoted "")
                       (json_print (VString (default "" (resp_first_line response)))) in
      Ok {| so_json := "{" +:+ quoted "accepted" +:+ ":" +:+ (if accepted then "true" else "false")
                       +:+ "," +:+ quoted "response" +:+ ":" +:+ escaped +:+ "}";
            so_recipients := recipients; so_bytes := bytes; so_accepted := accepted |}
  | Err err => Err (MailError_from_driver err)
  end.

(** [dispatch]. *)
Definition mail_dispatch (b : MailBackend) (action payload_json : string)
    : Act World (result SendOutcome MailError) :=
  if decide (action = "send") then do_send b payload_json
  else act_ret (Err (MailError_fallback ("unknown mail action: " +:+ action))).

(** [build_metric]. *)
Definition mail_build_metric (action : string) (out : option SendOutcome) (start : Z)
    : Act World MailMetric :=
  let '(recipients, bytes, accepted) :=
    match out with Some o => (so_recipients o, so_bytes o, so_accepted o)
    | None => (0, 0, false) end in
  let! micros := elapsed_micros start in
  act_ret {| mlm_action := action; mlm_duration_us := micros; mlm_recipients := recipients;
             mlm_bytes := bytes; mlm_accepted := accepted |}.

(** [MailBackend::call]. *)
Definition mail_call (b : MailBackend) (action payload_json : string)
    : Act World (result string MailError * MailBackend) :=
  if bool_decide (mlb_max_sends b ≠ 0) &&
     bool_decide (mlb_max_sends b ≤ op_count (mlb_metrics b))
  then act_ret (Err {| mle_fault := MAIL_OP_LIMIT;
                       mle_message := "too many mail.send calls: limit is " +:+
                                      pretty (mlb_max_sends b) |}, b) else
  let! start := now in
  let! res := mail_dispatch b action payload_json in
  let! metric := mail_build_metric action
                   (match res with Ok out => Some out | Err _ => None end) start in
  act_ret (let? out := res in Ok (so_json out),
           {| mlb_transport := mlb_transport b; mlb_default_from := mlb_default_from b;
              mlb_max_recipients := mlb_max_recipients b;
              mlb_allowed_domains := mlb_allowed_domains b; mlb_max_sends := mlb_max_sends b;
              mlb_metrics := coll_record (mlb_metrics b) metric |}).

(** The driver as the session's backend set sees it. *)
#[export] Instance mail_backend : Backend World MailConfig string MailBackend MailMetric := {|
  b_connect cfg _ := act_ret (mail_connect_resource cfg);
  b_call b action payload :=
    let! (res, b') := mail_call b action payload in
    act_ret (map_err mail_into_resource_error res, b');
  b_metrics b := coll_drain (Some (mlb_metrics b)) |}.
End mail.

(** ** Specification vocabulary *)

(** What a message may be under a configuration: at least one recipient and no more than allowed, every
    recipient in an allowed domain when there is a list of them. *)
Definition mail_policy `{!UnicodeCase} (max_recipients : Z) (allowed : list string) (m : Message)
    : Prop :=
  1 ≤ Z.of_nat (length (msg_recipients m)) ≤ max_recipients ∧
  (allowed ≠ [] → ∀ r, r ∈ msg_recipients m →
     ∃ a, a ∈ allowed ∧ to_lowercase a = to_lowercase (mb_domain r)).

(** ** Lemmas *)

Section mail_lemmas.
Context {World : Type} `{!JsonText} `{!UnicodeCase} `{!Clock World} `{!Lettre World}.
Implicit Types (b : MailBackend) (w : World).

Lemma enforce_recipient_domains_errs p allowed :
  pure_errs (λ e, capability_fault "mail" (mle_fault e)) (enforce_recipient_domains p allowed).
Proof.
  unfold enforce_recipient_domains. generalize (sp_to p ++ sp_cc p ++ sp_bcc p). intros addrs.
  destruct allowed as [|d allowed]; [errs_auto|].
  induction addrs; cbn [enforce_domains]; errs_auto; fault_tac.
Qed.
Hint Resolve enforce_recipient_domains_errs : errs.

Lemma mail_dispatch_errs b action payload :
  errs (λ e, capability_fault "mail" (mle_fault e)) (mail_dispatch b action payload).
Proof.
  unfold mail_dispatch, do_send. errs_auto; try fault_tac.
  unfold MailError_from_driver, mail_classify. fault_tac.
Qed.

Lemma mail_connect_resource_errs cfg :
  pure_errs (capability_error "mail") (mail_connect_resource cfg).
Proof. unfold mail_connect_resource. errs_auto; cap_tac. Qed.

(** Parsing the same addresses gives the same mailboxes whatever the field is called. *)
Lemma parse_mailboxes_ok addrs field ms :
  parse_mailboxes addrs field = Ok ms →
  length ms = length addrs ∧ ∀ m, m ∈ ms → ∃ a, a ∈ addrs ∧ mailbox_parse a = Ok m.
Proof.
  revert ms. induction addrs as [|a addrs IH]; intros ms; simpl.
  { intros [= <-]. split; [done|]. intros m Hm. by apply elem_of_nil in Hm. }
  unfold parse_mailbox. destruct (mailbox_parse a) as [m|] eqn:Em; simpl; [|done].
  destruct (parse_mailboxes addrs field) as [ms'|]; simpl; [|done]. intros [= <-].
  destruct (IH ms' eq_refl) as [Hl Hin]. split; [simpl; by rewrite Hl|].
  intros m' [->|H']%elem_of_cons; [exists a; by rewrite elem_of_cons; auto|].
  destruct (Hin m' H') as (a' & ? & ?). exists a'. rewrite elem_of_cons. auto.
Qed.

Lemma enforce_domains_ok addrs allowed :
  enforce_domains addrs allowed = Ok () →
  ∀ a, a ∈ addrs → ∃ m d, mailbox_parse a = Ok m ∧ d ∈ allowed ∧
    to_lowercase d = to_lowercase (mb_domain m).
Proof.
  induction addrs as [|a addrs IH]; simpl; intros He a'; [by intros ?%elem_of_nil|].
  unfold parse_mailbox in He. destruct (mailbox_parse a) as [m|] eqn:Em; simpl in He; [|done].
  destruct (existsb _ allowed) eqn:Ex; simpl in He; [|done].
  intros [->|Ha]%elem_of_cons; [|by apply IH].
  apply existsb_exists in Ex as (d & Hd & Hl). apply bool_decide_eq_true in Hl.
  apply list_elem_of_In in Hd. eauto.
Qed.

Lemma build_message_ok p default_from m :
  build_message p default_from = Ok m →
  Z.of_nat (length (msg_recipients m)) =
    Z.of_nat (length (sp_to p)) + Z.of_nat (length (sp_cc p)) + Z.of_nat (length (sp_bcc p)) ∧
  ∀ r, r ∈ msg_recipients m →
    ∃ a, a ∈ sp_to p ++ sp_cc p ++ sp_bcc p ∧ mailbox_parse a = Ok r.
Proof.
  unfold build_message, result_bind. intros Hb. destruct_matches; simplify_eq/=.
  all: repeat match goal with Hp : parse_mailboxes _ _ = Ok _ |- _ =>
    apply parse_mailboxes_ok in Hp as [? ?] end.
  all: unfold msg_recipients; simpl; rewrite !length_app; split; [lia|].
  all: intros r; setoid_rewrite elem_of_app; setoid_rewrite elem_of_app; naive_solver.
Qed.

(** A send hands the relay nothing, or one message the policy allows. *)
Lemma do_send_policy b payload w :
  mlb_max_recipients b < U64_MAX →
  mail_sent (do_send b payload w).2 = mail_sent w ∨
  ∃ m, mail_sent (do_send b payload w).2 = mail_sent w ++ [m] ∧
       mail_policy (mlb_max_recipients b) (mlb_allowed_domains b) m.
Proof.
  intros Hmax. unfold do_send. destruct (from_str _ _) as [p|]; simpl; [|by left].
  case_decide as Hzero; [by left|]. case_decide as Hcap; [by left|].
  destruct (enforce_recipient_domains _ _) as [[]|] eqn:Ee; simpl; [|by left].
  destruct (build_message _ _) as [m|] eqn:Eb; simpl; [|by left]. right. exists m.
  unfold act_bind. pose proof (smtp_send_log (mlb_transport b) m w) as Hlog.
  destruct (smtp_send (mlb_transport b) m w) as [r w1]. simpl in *. split; [done|].
  apply build_message_ok in Eb as [Hl Hr]. unfold count_recipients, sat_add_u64 in *.
  split; [unfold U64_MAX in *; lia|]. intros Hne r' Hin. destruct (Hr r' Hin) as (a & Ha & Hp).
  unfold enforce_recipient_domains in Ee.
  assert (enforce_domains (sp_to p ++ sp_cc p ++ sp_bcc p) (mlb_allowed_domains b) = Ok ()) as Ed.
  { by destruct (mlb_allowed_domains b). }
  destruct (enforce_domains_ok _ _ Ed a Ha) as (m' & d & Hm' & Hd & Hlow).
  assert (m' = r') as <- by congruence. by exists d.
Qed.

Lemma mail_dispatch_policy b action payload w :
  mlb_max_recipients b < U64_MAX →
  mail_sent (mail_dispatch b action payload w).2 = mail_sent w ∨
  ∃ m, mail_sent (mail_dispatch b action payload w).2 = mail_sent w ++ [m] ∧
       mail_policy (mlb_max_recipients b) (mlb_allowed_domains b) m.
Proof. unfold mail_dispatch. case_decide; [apply do_send_policy|by left]. Qed.

(** The settings of a backend that decide what may be sent. *)
Definition mail_settings b : Z * list string * Z :=
  (mlb_max_recipients b, mlb_allowed_domains b, mlb_max_sends b).

(** One call: settings are kept, at most one message leaves, and it takes a metric. *)
Lemma mail_call_step b action payload w :
  mlb_max_recipients b < U64_MAX → coll_poisoned (mlb_metrics b) = false →
  let '((_, b'), w') := mail_call b action payload w in
  mail_settings b' = mail_settings b ∧ coll_poisoned (mlb_metrics b') = false ∧
  ∃ msgs, mail_sent w' = mail_sent w ++ msgs ∧
    Forall (mail_policy (mlb_max_recipients b) (mlb_allowed_domains b)) msgs ∧
    op_count (mlb_metrics b) + Z.of_nat (length msgs) ≤ op_count (mlb_metrics b') ∧
    (mlb_max_sends b ≠ 0 → op_count (mlb_metrics b') ≤ Z.max (mlb_max_sends b) (op_count (mlb_metrics b))).
Proof.
  intros Hmax Hp. unfold mail_call. destruct (_ && _) eqn:Elim.
  { split_and!; [done..|]. exists []. rewrite app_nil_r. split_and!; [done..|simpl; lia|lia]. }
  unfold act_bind, now, act_ret. pose proof (mail_dispatch_policy b action payload w Hmax) as Hres.
  destruct (mail_dispatch b action payload w) as [r w1].
  assert (∃ m, mail_build_metric action (match r with Ok out => Some out | Err _ => None end)
                 (instant w) w1 = (m, w1)) as [m Em].
  { destruct r as [[]|]; unfold mail_build_metric, act_bind, elapsed_micros, act_ret; eauto. }
  rewrite Em. unfold coll_record. simpl. rewrite Hp. split_and!; [done..|].
  unfold op_count. simpl. rewrite Hp, length_app.
  assert (mlb_max_sends b ≠ 0 → Z.of_nat (length (coll_items (mlb_metrics b))) < mlb_max_sends b).
  { intros Hne. apply andb_false_iff in Elim. rewrite !bool_decide_eq_false in Elim.
    unfold op_count in Elim. rewrite Hp in Elim. lia. }
  destruct Hres as [Hs|(msg & Hs & Hpol)]; [exists []|exists [msg]]; simpl in *;
    rewrite Hs, ?app_nil_r; split_and!; auto using Forall; lia.
Qed.

Lemma open_calls_policy b calls w :
  mlb_max_recipients b < U64_MAX → coll_poisoned (mlb_metrics b) = false →
  let '((_, b'), w') := open_calls pass_payload b calls w in
  ∃ msgs, mail_sent w' = mail_sent w ++ msgs ∧
    Forall (mail_policy (mlb_max_recipients b) (mlb_allowed_domains b)) msgs ∧
    (mlb_max_sends b ≠ 0 → op_count (mlb_metrics b) + Z.of_nat (length msgs) ≤
                             Z.max (mlb_max_sends b) (op_count (mlb_metrics b))).
Proof.
  revert b w. induction calls as [|[a p] calls IH]; intros b w Hmax Hp; simpl.
  { exists []. rewrite app_nil_r. split_and!; auto using Forall. simpl. lia. }
  pose proof (mail_call_step b a p w Hmax Hp) as Hstep. unfold act_bind, act_ret.
  destruct (mail_call b a p w) as [[r b1] w1].
  destruct Hstep as (Hset & Hp1 & msgs & Hs & Hf & Hc & Hm). unfold mail_settings in Hset.
  simplify_eq. specialize (IH b1 w1). destruct (open_calls pass_payload b1 calls w1) as [[rs b2] w2].
  destruct IH as (msgs2 & Hs2 & Hf2 & Hm2); [congruence|done|]. exists (msgs ++ msgs2).
  rewrite Hs2, Hs, app_assoc, length_app. split_and!; [done| |].
  - apply Forall_app. split; congruence.
  - intros Hne. specialize (Hm Hne). specialize (Hm2 ltac:(congruence)).
    assert (mlb_max_sends b1 = mlb_max_sends b) as Heq by congruence. rewrite Heq in *. lia.
Qed.
End mail_lemmas.

(** ** Properties *)

(** C27: However a script calls it, a session's mail capability never sends a message without recipients
    or with more than [max_recipients], never to a domain outside the allowlist when there is one, and
    no more messages than [max_sends] when that is set. *)
Theorem mail_policy_enforced {World : Type} `{!JsonText} `{!UnicodeCase} `{!Clock World}
    `{!Lettre World} (cfg : MailConfig) deps calls (w : World) :
  mail_max_recipients cfg < U64_MAX → 0 ≤ mail_max_sends cfg →
  let '((_, _), w') := slot_calls pass_payload (slot_new cfg deps) calls w in
  ∃ msgs, mail_sent w' = mail_sent w ++ msgs ∧
    Forall (mail_policy (mail_max_recipients cfg) (mail_allowed_recipient_domains cfg)) msgs ∧
    (mail_max_sends cfg ≠ 0 → Z.of_nat (length msgs) ≤ mail_max_sends cfg).
Proof.
  intros Hmax Hs. destruct calls as [|[a p] calls].
  { exists []. rewrite app_nil_r. split_and!; auto using Forall; simpl; lia. }
  rewrite slot_calls_new. unfold eager_calls.
  change (b_connect cfg deps w) with (mail_connect_resource cfg, w). unfold mail_connect_resource.
  destruct (build_transport cfg) as [tr|e]; cbn [map_err result_bind].
  2: { exists []. rewrite app_nil_r. split_and!; auto using Forall; simpl; lia. }
  match goal with |- context [open_calls _ ?b _ _] =>
    pose proof (open_calls_policy b ((a, p) :: calls) w Hmax eq_refl) as Hp end.
  destruct (open_calls pass_payload _ ((a, p) :: calls) w) as [[rs b'] w'].
  destruct Hp as (msgs & ? & ? & Hn). exists msgs. split_and!; [done..|]. intros Hne.
  specialize (Hn Hne). unfold op_count in Hn. simpl in Hn. lia.
Qed.
