(* ===== verification/RedisDriver.v ===== *)
(** * RedisDriver: the Redis driver

    Models [fabric-backends/src/kv.rs]: connecting, the five commands on the shared connection, fault
    classification and metrics.  The [redis] client enters as the class [Redis]; the connection's
    mutex is its poison flag. *)

From stdpp Require Import pretty.
From S2P Require Import Prelude Json Errors Runtime Wire Resources Backends.
Local Open Scope Z_scope.

(** ** Errors *)

Definition REDIS_FALLBACK : Fault := Fault_new "REDIS_ERROR" true Operator.
Definition REDIS_TIMEOUT : Fault := Fault_new "REDIS_TIMEOUT" true Operator.
Definition REDIS_CONNECTION_FAULT : Fault := Fault_new "REDIS_CONNECTION" true Operator.

(** [redis::RedisError]: the two predicates the code asks, and the text. *)
Record RedisErr := { rde_timeout : bool; rde_io : bool; rde_text : string }.

Record RedisError := { rse_fault : Fault; rse_message : string }.

(** [RedisError::fallback]. *)
Definition RedisError_fallback (message : string) : RedisError :=
  {| rse_fault := REDIS_FALLBACK; rse_message := message |}.

(** [classify]. *)
Definition redis_classify (err : RedisErr) : Fault :=
  if rde_timeout err then REDIS_TIMEOUT
  else if rde_io err then REDIS_CONNECTION_FAULT else REDIS_FALLBACK.

(** [RedisError::from_driver]. *)
Definition RedisError_from_driver (err : RedisErr) : RedisError :=
  {| rse_fault := redis_classify err; rse_message := rde_text err |}.

(** [RedisError::into_resource_error]. *)
Definition redis_into_resource_error (e : RedisError) : EgressError :=
  {| ee_code := fault_code (rse_fault e); ee_message := rse_message e; ee_source := "redis";
     ee_details := None; ee_retryable := fault_retryable (rse_fault e);
     ee_owner := fault_owner (rse_fault e) |}.

(** The [redis] client: opening, connecting, the timeouts, and the commands. *)
Class Redis (World Conn : Type) := {
  redis_open : string → result () RedisErr;
  redis_get_connection : string → Act World (result Conn RedisErr);
  redis_set_timeouts : Conn → Z → result () RedisErr;
  redis_get : Conn → string → Act World (result (option string) RedisErr);
  redis_set : Conn → string → string → Act World (result () RedisErr);
  redis_set_ex : Conn → string → string → Z → Act World (result () RedisErr);
  redis_del : Conn → string → Act World (result Z RedisErr);
  redis_incr : Conn → string → Z → Act World (result Z RedisErr);
  redis_expire : Conn → string → Z → Act World (result bool RedisErr)
}.

Record RedisBackend (Conn : Type) := {
  rdb_conn : Conn; rdb_poisoned : bool; rdb_metrics : Collector RedisMetric }.
Arguments rdb_conn {Conn}. Arguments rdb_poisoned {Conn}. Arguments rdb_metrics {Conn}.

(** The payloads and their derived deserializers. *)
Record SetPayload := { set_key : string; set_value : string; set_ttl : option Z }.
Record ExpirePayload := { exp_key : string; exp_seconds : Z }.
Definition de_key_payload (v : Value) : option string :=
  fs ← fields_of ["key"] v;
  match fs with [o1] => defaulted "" de_string o1 | _ => None end.
Definition de_set_payload (v : Value) : option SetPayload :=
  fs ← fields_of ["key"; "value"; "ttl"] v;
  match fs with
  | [o1; o2; o3] =>
      key ← defaulted "" de_string o1; value ← defaulted "" de_string o2;
      ttl ← defaulted None (de_option de_u64) o3;
      Some {| set_key := key; set_value := value; set_ttl := ttl |}
  | _ => None
  end.
Definition de_expire_payload (v : Value) : option ExpirePayload :=
  fs ← fields_of ["key"; "seconds"] v;
  match fs with
  | [o1; o2] =>
      key ← defaulted "" de_string o1; seconds ← defaulted 0 de_i64 o2;
      Some {| exp_key := key; exp_seconds := seconds |}
  | _ => None
  end.

Section redis.
Context {World Conn : Type} `{!JsonText} `{!Clock World} `{!Redis World Conn}.

(** [connect]: every failure is a driver error ([is_connect_error] holds of it). *)
Definition redis_connect (cfg : RedisConfig) : Act World (result Conn RedisErr) :=
  let?! _ := redis_open (redis_url cfg) in
  let!? conn := redis_get_connection (redis_url cfg) in
  let?! _ := redis_set_timeouts conn (redis_timeout_ms cfg) in
  act_ret (Ok conn).

(** [RedisBackend::connect_resource]. *)
Definition redis_connect_resource (cfg : RedisConfig)
    : Act World (result (RedisBackend Conn) EgressError) :=
  let! r := redis_connect cfg in
  act_ret match r with
  | Ok conn => Ok {| rdb_conn := conn; rdb_poisoned := false; rdb_metrics := new_collector |}
  | Err err =>
      let fault := REDIS_CONNECTION_FAULT in
      Err {| ee_code := fault_code fault; ee_message := rde_text err; ee_source := "redis";
             ee_details := None; ee_retryable := fault_retryable fault;
             ee_owner := fault_owner fault |}
  end.

(** [lock_conn]. *)
Definition lock_conn (b : RedisBackend Conn) : result Conn RedisError :=
  if rdb_poisoned b
  then Err (RedisError_fallback "lock error: poisoned lock: another task failed inside")
  else Ok (rdb_conn b).

(** [parse] and [encode]. *)
Definition redis_parse {T} (de : Value → option T) (payload_json : string) : result T RedisError :=
  map_err (λ err, RedisError_fallback ("invalid redis payload: " +:+ err)) (from_str de payload_json).
Definition redis_encode (value : Value) : result string RedisError :=
  to_string_err (λ err, RedisError_fallback ("serialize error: " +:+ err)) value.

(** A command's error, classified. *)
Definition rd {T} (m : Act World (result T RedisErr)) : Act World (result T RedisError) :=
  let! r := m in act_ret (map_err RedisError_from_driver r).

(** [do_get]. *)
Definition do_get (b : RedisBackend Conn) (payload_json : string)
    : Act World (result string RedisError) :=
  let?! key := redis_parse de_key_payload payload_json in
  let?! conn := lock_conn b in
  let!? value := rd (redis_get conn key) in
  act_ret (redis_encode (VObject [("value", match value with Some s => VString s
                                            | None => VNull end)])).

(** [do_set]. *)
Definition do_set (b : RedisBackend Conn) (payload_json : string)
    : Act World (result string RedisError) :=
  let?! p := redis_parse de_set_payload payload_json in
  let?! conn := lock_conn b in
  let!? _ := rd match set_ttl p with
                | Some ttl => redis_set_ex conn (set_key p) (set_value p) ttl
                | None => redis_set conn (set_key p) (set_value p)
                end in
  act_ret (redis_encode (VObject [("ok", VBool true)])).

(** [do_del]. *)
Definition do_del (b : RedisBackend Conn) (payload_json : string)
    : Act World (result string RedisError) :=
  let?! key := redis_parse de_key_payload payload_json in
  let?! conn := lock_conn b in
  let!? count := rd (redis_del conn key) in
  act_ret (redis_encode (VObject [("count", VNumber (pretty count))])).

(** [do_incr]. *)
Definition do_incr (b : RedisBackend Conn) (payload_json : string)
    : Act World (result string RedisError) :=
  let?! key := redis_parse de_key_payload payload_json in
  let?! conn := lock_conn b in
  let!? value := rd (redis_incr conn key 1) in
  act_ret (redis_encode (VObject [("value", VNumber (pretty value))])).

(** [do_expire]. *)
Definition do_expire (b : RedisBackend Conn) (payload_json : string)
    : Act World (result string RedisError) :=
  let?! p := redis_parse de_expire_payload payload_json in
  let?! conn := lock_conn b in
  let!? was_set := rd (redis_expire conn (exp_key p) (exp_seconds p)) in
  act_ret (redis_encode (VObject [("set", VBool was_set)])).

(** [dispatch]. *)
Definition redis_dispatch (b : RedisBackend Conn) (action payload_json : string)
    : Act World (result string RedisError) :=
  if decide (action = "get") then do_get b payload_json
  else if decide (action = "set") then do_set b payload_json
  else if decide (action = "del") then do_del b payload_json
  else if decide (action = "incr") then do_incr b payload_json
  else if decide (action = "expire") then do_expire b payload_json
  else act_ret (Err (RedisError_fallback ("unknown redis action: " +:+ action))).

(** [value_stats]. *)
Definition value_stats (action json : string) : Z * bool :=
  if decide (action = "get") then
    let parsed := match json_parse json with Ok v => norm v | Err _ => VNull end in
    match value_get "value" parsed ≫= as_str with
    | Some text => (str_len text, true)
    | None => (0, false)
    end
  else (0, false).

(** [build_metric]. *)
Definition redis_build_metric (action : string) (res : result string RedisError) (start : Z)
    : Act World RedisMetric :=
  let '(bytes, hit) := match res with Ok json => value_stats action json | Err _ => (0, false) end in
  let! micros := elapsed_micros start in
  act_ret {| rdm_action := action; rdm_duration_us := micros; rdm_bytes := bytes; rdm_hit := hit |}.

(** [RedisBackend::call]. *)
Definition redis_call (b : RedisBackend Conn) (action payload_json : string)
    : Act World (result string RedisError * RedisBackend Conn) :=
  let! start := now in
  let! res := redis_dispatch b action payload_json in
  let! metric := redis_build_metric action res start in
  act_ret (res, {| rdb_conn := rdb_conn b; rdb_poisoned := rdb_poisoned b;
                   rdb_metrics := coll_record (rdb_metrics b) metric |}).

(** The driver as the session's backend set sees it. *)
#[export] Instance redis_backend
    : Backend World RedisConfig string (RedisBackend Conn) RedisMetric := {|
  b_connect cfg _ := redis_connect_resource cfg;
  b_call b action payload :=
    let! (res, b') := redis_call b action payload in
    act_ret (map_err redis_into_resource_error res, b');
  b_metrics b := coll_drain (Some (rdb_metrics b)) |}.
End redis.

(** ** Lemmas *)

Section redis_lemmas.
Context {World Conn : Type} `{!JsonText} `{!Clock World} `{!Redis World Conn}.

Lemma rd_errs {T} (m : Act World (result T RedisErr)) :
  errs (λ e, capability_fault "redis" (rse_fault e)) (rd m).
Proof. unfold rd. errs_auto. unfold RedisError_from_driver, redis_classify. fault_tac. Qed.

Lemma redis_encode_errs v :
  pure_errs (λ e, capability_fault "redis" (rse_fault e)) (redis_encode v).
Proof. unfold redis_encode, to_string_err. errs_auto; fault_tac. Qed.
Hint Resolve rd_errs redis_encode_errs : errs.

Lemma redis_dispatch_errs (b : RedisBackend Conn) action payload :
  errs (λ e, capability_fault "redis" (rse_fault e)) (redis_dispatch b action payload).
Proof.
  unfold redis_dispatch, do_get, do_set, do_del, do_incr, do_expire, redis_parse, lock_conn.
  errs_auto; fault_tac.
Qed.

Lemma redis_connect_resource_errs cfg :
  errs (capability_error "redis") (redis_connect_resource (World:=World) (Conn:=Conn) cfg).
Proof. unfold redis_connect_resource. errs_auto; cap_tac. Qed.

(** A hit is counted with the length of the value found, a miss as none. *)
Lemma value_stats_get value text :
  json_print (VObject [("value", match value with Some s => VString s | None => VNull end)])
    = Some text →
  (∀ v s, json_print v = Some s → json_parse s = Ok v) →
  value_stats "get" text = match value with Some s => (str_len s, true) | None => (0, false) end.
Proof. intros Hp Hrt. unfold value_stats. rewrite (Hrt _ _ Hp). by destruct value. Qed.
End redis_lemmas.
