(* ===== verification/AmqDriver.v ===== *)
(** * AmqDriver: the message-broker producer

    Models [fabric-backends/src/amq.rs]: batches published to RabbitMQ or NATS over a connection
    opened per call, NATS request-reply, fault classification and metrics.  [amqprs], [async_nats]
    and [RawValue] enter as classes, with the log of the messages handed to a broker. *)

From Stdlib Require Import Ascii.
From stdpp Require Import pretty.
From S2P Require Import Prelude Json Errors Runtime Wire Resources Backends.
Local Open Scope Z_scope.

(** ** Errors *)

Definition AMQ_FALLBACK : Fault := Fault_new "AMQ_ERROR" true Operator.
Definition AMQ_CONNECTION : Fault := Fault_new "AMQ_CONNECTION" true Operator.
Definition AMQ_BATCH : Fault := Fault_new "AMQ_BATCH_TOO_LARGE" false Developer.
Definition AMQ_TIMEOUT : Fault := Fault_new "AMQ_TIMEOUT" true Operator.
Definition AMQ_UNSUPPORTED : Fault := Fault_new "AMQ_UNSUPPORTED" false Developer.

#[export] Instance AmqBackend_eq_dec : EqDecision AmqBackend.
Proof. solve_decision. Defined.

(** [AmqConfig::resolved_port]. *)
Definition resolved_port (cfg : AmqConfig) : Z :=
  default (match amq_backend cfg with Rabbitmq => 5672 | Nats => 4222 end) (amq_port cfg).

Record AmqError := { aqe_fault : Fault; aqe_message : string }.

(** [AmqError::fallback], [connection] and [unsupported]. *)
Definition AmqError_fallback (message : string) : AmqError :=
  {| aqe_fault := AMQ_FALLBACK; aqe_message := message |}.
Definition AmqError_connection (message : string) : AmqError :=
  {| aqe_fault := AMQ_CONNECTION; aqe_message := message |}.
Definition AmqError_unsupported (message : string) : AmqError :=
  {| aqe_fault := AMQ_UNSUPPORTED; aqe_message := message |}.

(** [AmqError::into_resource_error]. *)
Definition amq_into_resource_error (e : AmqError) : EgressError :=
  {| ee_code := fault_code (aqe_fault e); ee_message := aqe_message e; ee_source := "amq";
     ee_details := None; ee_retryable := fault_retryable (aqe_fault e);
     ee_owner := fault_owner (aqe_fault e) |}.

(** ** Third-party interfaces *)

(** [RawValue]: the text of the sub-value at a path, as it stands in the input. *)
Inductive RawStep := RKey (k : string) | RIdx (n : nat).
Class RawJson := { raw_at : string → list RawStep → string }.

Record AmqpArgs := {
  aa_host : string; aa_port : Z; aa_username : string; aa_password : string; aa_vhost : string;
  aa_tls : bool }.
Inductive NatsAuth := NatsUser (username password : string) | NatsToken (token : string) | NatsAnonymous.
Record NatsOpts := {
  no_request_timeout_ms : Z; no_auth : NatsAuth; no_require_tls : bool; no_root_ca : option string }.

(** A message on its way to a broker: exchange (empty on NATS), key or subject, body. *)
Record Published := { pub_exchange : string; pub_key : string; pub_body : string }.

(** The runtime builder, [amqprs] and [async_nats].  [amq_published] are the messages handed to a
    broker: a successful publish adds its message, a failed one may,
    nothing else does (a request is answered, not published). *)
Class Brokers (World AmqpConn AmqpChan NatsClient : Type) := {
  tokio_runtime : Act World (result () string);
  amqp_tls_adaptor : option string → string → Act World (result () string);
  amqp_open : AmqpArgs → Act World (result AmqpConn string);
  amqp_open_channel : AmqpConn → Act World (result AmqpChan string);
  amqp_publish : AmqpChan → string → string → string → Act World (result () string);
  amqp_close_channel : AmqpChan → Act World ();
  amqp_close : AmqpConn → Act World ();
  nats_connect_with : string → NatsOpts → Act World (result NatsClient string);
  nats_client_publish : NatsClient → string → string → Act World (result () string);
  nats_flush : NatsClient → Act World (result () string);
  nats_client_request : NatsClient → string → string → Act World (result (list ascii) string);
  from_utf8_lossy : list ascii → string;
  amq_published : World → list Published;
  log_runtime w : amq_published (tokio_runtime w).2 = amq_published w;
  log_tls ca h w : amq_published (amqp_tls_adaptor ca h w).2 = amq_published w;
  log_open a w : amq_published (amqp_open a w).2 = amq_published w;
  log_channel c w : amq_published (amqp_open_channel c w).2 = amq_published w;
  log_publish ch x k m w :
    let p := {| pub_exchange := x; pub_key := k; pub_body := m |} in
    amq_published (amqp_publish ch x k m w).2 = amq_published w ++ [p] ∨
    (amq_published (amqp_publish ch x k m w).2 = amq_published w ∧
     is_ok (amqp_publish ch x k m w).1 = false);
  log_close_channel ch w : amq_published (amqp_close_channel ch w).2 = amq_published w;
  log_close c w : amq_published (amqp_close c w).2 = amq_published w;
  log_nats_connect a o w : amq_published (nats_connect_with a o w).2 = amq_published w;
  log_nats_publish c k m w :
    let p := {| pub_exchange := ""; pub_key := k; pub_body := m |} in
    amq_published (nats_client_publish c k m w).2 = amq_published w ++ [p] ∨
    (amq_published (nats_client_publish c k m w).2 = amq_published w ∧
     is_ok (nats_client_publish c k m w).1 = false);
  log_flush c w : amq_published (nats_flush c w).2 = amq_published w;
  log_request c k m w : amq_published (nats_client_request c k m w).2 = amq_published w
}.

(** ** Payloads *)

Record AmqMessage := { am_key : string; am_payload : string }.

Record AmqOutcome := { ao_json : string; ao_messages : Z; ao_bytes : Z }.

Record AmqProducer := { aqp_config : AmqConfig; aqp_metrics : Collector AmqMetric }.

Section payloads.
Context `{!JsonText} `{!RawJson}.

(** A struct of a text field and a raw field that defaults to [null]; [path] is where it stands in
    [text]. *)
Definition de_keyed_raw (name : string) (text : string) (path : list RawStep) (v : Value)
    : option AmqMessage :=
  fs ← fields_of [name; "payload"] v;
  match fs with
  | [o1; o2] =>
      key ← defaulted "" de_string o1;
      let step := match v with VObject _ => RKey "payload" | _ => RIdx 1 end in
      Some {| am_key := key;
              am_payload := match o2 with
                            | None => "null"
                            | Some _ => raw_at text (path ++ [step]) end |}
  | _ => None
  end.

(** The derived deserializers of [SendPayload] and [RequestPayload]. *)
Definition de_amq_send (text : string) (v : Value) : option (list AmqMessage) :=
  fs ← fields_of ["messages"] v;
  let step := match v with VObject _ => RKey "messages" | _ => RIdx 0 end in
  match fs with
  | [None] => Some []
  | [Some (VArray l)] =>
      mapM (λ '(i, m), de_keyed_raw "key" text [step; RIdx i] m) (imap pair l)
  | _ => None
  end.
Definition de_amq_request (text : string) (v : Value) : option AmqMessage :=
  de_keyed_raw "subject" text [] v.
End payloads.

Section amq.
Context {World AmqpConn AmqpChan NatsClient : Type} `{!JsonText} `{!RawJson} `{!UnicodeCase}
  `{!Clock World} `{!Brokers World AmqpConn AmqpChan NatsClient}.

(** An operation's error, turned into a driver error. *)
Definition wrap_err {T} (f : string → AmqError) (m : Act World (result T string))
    : Act World (result T AmqError) :=
  let! r := m in act_ret (map_err f r).

(** ** RabbitMQ *)

(** The publishing loop of [publish_batch]. *)
Fixpoint publish_all (ch : AmqpChan) (exchange : string) (messages : list AmqMessage) (total : Z)
    : Act World (result Z AmqError) :=
  match messages with
  | [] => act_ret (Ok total)
  | m :: rest =>
      let total := sat_add_u64 total (str_len (am_payload m)) in
      let!? _ := wrap_err (λ err, AmqError_fallback ("amq publish failed: " +:+ err))
                   (amqp_publish ch exchange (am_key m) (am_payload m)) in
      publish_all ch exchange rest total
  end.

(** [publish_batch]. *)
Definition publish_batch (cfg : AmqConfig) (messages : list AmqMessage)
    : Act World (result Z AmqError) :=
  let args := {| aa_host := amq_host cfg; aa_port := resolved_port cfg;
                 aa_username := default "guest" (amq_username cfg);
                 aa_password := default "guest" (amq_password cfg); aa_vhost := amq_vhost cfg;
                 aa_tls := amq_tls cfg |} in
  let!? _ := if amq_tls cfg
             then wrap_err (λ err, AmqError_connection ("amq tls setup failed: " +:+ err))
                    (amqp_tls_adaptor (amq_ca_cert cfg) (amq_host cfg))
             else act_ret (Ok ()) in
  let!? connection := wrap_err (λ err, AmqError_connection ("amq connect failed: " +:+ err))
                        (amqp_open args) in
  let!? channel := wrap_err (λ err, AmqError_connection ("amq channel failed: " +:+ err))
                     (amqp_open_channel connection) in
  let!? total_bytes := publish_all channel (amq_exchange cfg) messages 0 in
  let! _ := amqp_close_channel channel in
  let! _ := amqp_close connection in
  act_ret (Ok total_bytes).

(** ** NATS *)

(** [nats_connect]. *)
Definition nats_connect (cfg : AmqConfig) : Act World (result NatsClient AmqError) :=
  let opts := {| no_request_timeout_ms := amq_request_timeout_ms cfg;
                 no_auth := match amq_username cfg, amq_token cfg with
                            | Some username, _ =>
                                NatsUser username (default "" (amq_password cfg))
                            | None, Some token => NatsToken token
                            | None, None => NatsAnonymous
                            end;
                 no_require_tls := amq_tls cfg;
                 no_root_ca := if amq_tls cfg then amq_ca_cert cfg else None |} in
  wrap_err (λ err, AmqError_connection ("nats connect failed: " +:+ err))
    (nats_connect_with (amq_host cfg +:+ ":" +:+ pretty (resolved_port cfg)) opts).

(** The publishing loop of [nats_publish]. *)
Fixpoint nats_publish_all (client : NatsClient) (messages : list AmqMessage) (total : Z)
    : Act World (result Z AmqError) :=
  match messages with
  | [] => act_ret (Ok total)
  | m :: rest =>
      let total := sat_add_u64 total (str_len (am_payload m)) in
      let!? _ := wrap_err (λ err, AmqError_fallback ("nats publish failed: " +:+ err))
                   (nats_client_publish client (am_key m) (am_payload m)) in
      nats_publish_all client rest total
  end.

(** [nats_publish]. *)
Definition nats_publish (cfg : AmqConfig) (messages : list AmqMessage)
    : Act World (result Z AmqError) :=
  let!? client := nats_connect cfg in
  let!? total_bytes := nats_publish_all client messages 0 in
  let!? _ := wrap_err (λ err, AmqError_fallback ("nats flush failed: " +:+ err)) (nats_flush client) in
  act_ret (Ok total_bytes).

(** [classify_request_error]. *)
Definition classify_request_error (message : string) : Fault :=
  let lowered := to_lowercase message in
  if contains "no responders" lowered || contains "timed out" lowered || contains "timeout" lowered
  then AMQ_TIMEOUT else AMQ_FALLBACK.

(** [nats_request]. *)
Definition nats_request (cfg : AmqConfig) (subject payload : string)
    : Act World (result (string * Z) AmqError) :=
  let!? client := nats_connect cfg in
  let!? reply := wrap_err (λ err, {| aqe_fault := classify_request_error err;
                                     aqe_message := "nats request failed: " +:+ err |})
                   (nats_client_request client subject payload) in
  let body_text := from_utf8_lossy reply in
  let body := match json_parse body_text with Ok v => norm v | Err _ => VString body_text end in
  act_ret (Ok (value_display (VObject [("reply", body)]), str_len payload)).

(** ** Dispatch *)

(** [build_runtime]. *)
Definition build_runtime : Act World (result () AmqError) :=
  wrap_err (λ err, AmqError_fallback ("failed to build runtime: " +:+ err)) tokio_runtime.

(** [do_send]. *)
Definition amq_do_send (cfg : AmqConfig) (payload_json : string)
    : Act World (result AmqOutcome AmqError) :=
  let?! messages := map_err (λ err, AmqError_fallback ("invalid amq payload: " +:+ err))
                      (from_str (de_amq_send payload_json) payload_json) in
  let count := Z.of_nat (length messages) in
  if decide (count = 0)
  then act_ret (Err (AmqError_fallback "amq.send requires at least one message")) else
  if decide (amq_max_batch cfg < count)
  then act_ret (Err {| aqe_fault := AMQ_BATCH;
                       aqe_message := "batch too large: " +:+ pretty count +:+ " (max " +:+
                                      pretty (amq_max_batch cfg) +:+ ")" |}) else
  let!? _ := build_runtime in
  let!? bytes := match amq_backend cfg with
                 | Rabbitmq => publish_batch cfg messages
                 | Nats => nats_publish cfg messages
                 end in
  act_ret (Ok {| ao_json := "{" +:+ quoted "published" +:+ ":" +:+ pretty count +:+ "}";
                 ao_messages := count; ao_bytes := bytes |}).

(** [do_request]. *)
Definition amq_do_request (cfg : AmqConfig) (payload_json : string)
    : Act World (result AmqOutcome AmqError) :=
  if decide (amq_backend cfg ≠ Nats)
  then act_ret (Err (AmqError_unsupported "amq.request requires the nats backend")) else
  let?! req := map_err (λ err, AmqError_fallback ("invalid amq payload: " +:+ err))
                 (from_str (de_amq_request payload_json) payload_json) in
  let!? _ := build_runtime in
  let!? (json, bytes) := nats_request cfg (am_key req) (am_payload req) in
  act_ret (Ok {| ao_json := json; ao_messages := 1; ao_bytes := bytes |}).

(** [dispatch]. *)
Definition amq_dispatch (cfg : AmqConfig) (action payload_json : string)
    : Act World (result AmqOutcome AmqError) :=
  if decide (action = "send") then amq_do_send cfg payload_json
  else if decide (action = "request") then amq_do_request cfg payload_json
  else act_ret (Err (AmqError_fallback ("unknown amq action: " +:+ action))).

(** [build_metric]. *)
Definition amq_build_metric (action : string) (out : option AmqOutcome) (start : Z)
    : Act World AmqMetric :=
  let '(messages, bytes, published) :=
    match out with Some o => (ao_messages o, ao_bytes o, true) | None => (0, 0, false) end in
  let! micros := elapsed_micros start in
  act_ret {| aqm_action := action; aqm_duration_us := micros; aqm_messages := messages;
             aqm_bytes := bytes; aqm_published := published |}.

(** [AmqProducer::new]. *)
Definition AmqProducer_new (cfg : AmqConfig) : AmqProducer :=
  {| aqp_config := cfg; aqp_metrics := new_collector |}.

(** [AmqProducer::call]. *)
Definition amq_producer_call (p : AmqProducer) (action payload_json : string)
    : Act World (result string AmqError * AmqProducer) :=
  let! start := now in
  let! res := amq_dispatch (aqp_config p) action payload_json in
  let! metric := amq_build_metric action
                   (match res with Ok out => Some out | Err _ => None end) start in
  act_ret (let? out := res in Ok (ao_json out),
           {| aqp_config := aqp_config p; aqp_metrics := coll_record (aqp_metrics p) metric |}).
End amq.

(** ** Specification vocabulary *)

(** A batch as it goes to the broker. *)
Definition on_wire (cfg : AmqConfig) (m : AmqMessage) : Published :=
  {| pub_exchange := match amq_backend cfg with Rabbitmq => amq_exchange cfg | Nats => "" end;
     pub_key := am_key m; pub_body := am_payload m |}.

Section quiet.
Context {World AmqpConn AmqpChan NatsClient : Type} `{!Brokers World AmqpConn AmqpChan NatsClient}.

(** What a computation adds to the log: nothing, or a prefix of [batch] that is all of it on success. *)
Definition quiet {A} (m : Act World A) : Prop := ∀ w, amq_published (m w).2 = amq_published w.
Definition publishes {A E} (batch : list Published) (m : Act World (result A E)) : Prop :=
  ∀ w, ∃ sent, sent `prefix_of` batch ∧ amq_published (m w).2 = amq_published w ++ sent ∧
    (is_ok (m w).1 = true → sent = batch).
End quiet.

(** ** Lemmas *)

Section amq_lemmas.
Context {World AmqpConn AmqpChan NatsClient : Type} `{!JsonText} `{!RawJson} `{!UnicodeCase}
  `{!Clock World} `{!Brokers World AmqpConn AmqpChan NatsClient}.

Abbreviation amq_errs m := (errs (λ e, capability_fault "amq" (aqe_fault e)) m).

Lemma wrap_err_errs {T} f (m : Act World (result T string)) :
  (∀ e, capability_fault "amq" (aqe_fault (f e))) → amq_errs (wrap_err f m).
Proof. intros Hf. unfold wrap_err. errs_auto. Qed.

Lemma publish_all_errs ch x messages total : amq_errs (publish_all ch x messages total).
Proof.
  revert total. induction messages as [|m messages IH]; intros total; simpl; [by errs_auto|].
  apply errs_try; [apply wrap_err_errs; intros; fault_tac|]. intros _. apply IH.
Qed.
Lemma nats_publish_all_errs c messages total : amq_errs (nats_publish_all c messages total).
Proof.
  revert total. induction messages as [|m messages IH]; intros total; simpl; [by errs_auto|].
  apply errs_try; [apply wrap_err_errs; intros; fault_tac|]. intros _. apply IH.
Qed.
Hint Resolve publish_all_errs nats_publish_all_errs : errs.

Lemma amq_dispatch_errs cfg action payload :
  amq_errs (amq_dispatch cfg action payload).
Proof.
  unfold amq_dispatch, amq_do_send, amq_do_request, build_runtime, publish_batch, nats_publish,
    nats_request, nats_connect, classify_request_error.
  repeat (first [apply wrap_err_errs; intros ? | solve [eauto with errs] | errs_step]); fault_tac.
Qed.

Lemma quiet_ret {A} (a : A) : quiet (act_ret a).
Proof. by intros w. Qed.
Lemma quiet_wrap {T} f (m : Act World (result T string)) : quiet m → quiet (wrap_err f m).
Proof. intros Hm w. unfold wrap_err, act_bind. specialize (Hm w). by destruct (m w). Qed.
Lemma quiet_bind {A B} (m : Act World A) (k : A → Act World B) :
  quiet m → (∀ a, quiet (k a)) → quiet (act_bind m k).
Proof.
  intros Hm Hk w. unfold act_bind. specialize (Hm w). destruct (m w) as [a w1]. by rewrite Hk.
Qed.
Lemma quiet_try {A B E} (m : Act World (result A E)) (k : A → Act World (result B E)) :
  quiet m → (∀ a, quiet (k a)) → quiet (act_try m k).
Proof.
  intros Hm Hk w. unfold act_try. specialize (Hm w). destruct (m w) as [[a|e] w1]; [by rewrite Hk|done].
Qed.

(** A quiet step before, or after, what publishes. *)
Lemma publishes_try {A B E} batch (m : Act World (result A E)) (k : A → Act World (result B E)) :
  quiet m → (∀ a, publishes batch (k a)) → publishes batch (act_try m k).
Proof.
  intros Hm Hk w. unfold act_try. specialize (Hm w). destruct (m w) as [[a|e] w1]; simpl in *.
  - destruct (Hk a w1) as (sent & ? & Hlog & ?). exists sent. by rewrite Hlog, Hm.
  - exists []. rewrite app_nil_r. split_and!; [apply prefix_nil|done|done].
Qed.
Lemma publishes_then {A B E} batch (m : Act World (result A E)) (k : A → Act World (result B E)) :
  publishes batch m → (∀ a, quiet (k a)) → publishes batch (act_try m k).
Proof.
  intros Hm Hk w. unfold act_try. destruct (Hm w) as (sent & Hpre & Hlog & Hok).
  destruct (m w) as [[a|e] w1]; simpl in *.
  - exists sent. rewrite Hk. auto.
  - exists sent. auto.
Qed.
Lemma publishes_cons {A B E} p batch (m : Act World (result A E)) (k : A → Act World (result B E)) :
  (∀ w, amq_published (m w).2 = amq_published w ++ [p] ∨
        (amq_published (m w).2 = amq_published w ∧ is_ok (m w).1 = false)) →
  (∀ a, publishes batch (k a)) → publishes (p :: batch) (act_try m k).
Proof.
  intros Hm Hk w. unfold act_try. specialize (Hm w). destruct (m w) as [[a|e] w1]; simpl in *.
  - destruct Hm as [Hm|[_ Hm]]; [|done]. destruct (Hk a w1) as (sent & Hpre & Hlog & Hok).
    exists (p :: sent). rewrite Hlog, Hm, <-app_assoc. split_and!; [by apply prefix_cons|done|].
    intros H'. by rewrite Hok.
  - destruct Hm as [Hm|[Hm _]]; [exists [p]|exists []]; rewrite Hm, ?app_nil_r;
      (split_and!; [|done|done]); [apply prefix_cons|]; apply prefix_nil.
Qed.

Lemma wrap_err_result {T} f (m : Act World (result T string)) w :
  (wrap_err f m w).2 = (m w).2 ∧ is_ok (wrap_err f m w).1 = is_ok (m w).1.
Proof. unfold wrap_err, act_bind. by destruct (m w) as [[] w']. Qed.

Lemma publish_all_log cfg ch messages total : amq_backend cfg = Rabbitmq →
  publishes (on_wire cfg <$> messages) (publish_all ch (amq_exchange cfg) messages total).
Proof.
  intros Hb. revert total. induction messages as [|m messages IH]; intros total; simpl.
  { intros w. exists []. by rewrite app_nil_r. }
  apply publishes_cons; [|intros _; apply IH]. intros w. unfold on_wire. rewrite Hb.
  destruct (wrap_err_result (λ err, AmqError_fallback ("amq publish failed: " +:+ err))
    (amqp_publish ch (amq_exchange cfg) (am_key m) (am_payload m)) w) as [-> ->].
  apply log_publish.
Qed.

Lemma nats_publish_all_log cfg c messages total : amq_backend cfg = Nats →
  publishes (on_wire cfg <$> messages) (nats_publish_all c messages total).
Proof.
  intros Hb. revert total. induction messages as [|m messages IH]; intros total; simpl.
  { intros w. exists []. by rewrite app_nil_r. }
  apply publishes_cons; [|intros _; apply IH]. intros w. unfold on_wire. rewrite Hb.
  destruct (wrap_err_result (λ err, AmqError_fallback ("nats publish failed: " +:+ err))
    (nats_client_publish c (am_key m) (am_payload m)) w) as [-> ->].
  apply log_nats_publish.
Qed.

Lemma publish_batch_log cfg messages : amq_backend cfg = Rabbitmq →
  publishes (on_wire cfg <$> messages) (publish_batch cfg messages).
Proof.
  intros Hb. unfold publish_batch.
  apply publishes_try; [destruct (amq_tls cfg); [apply quiet_wrap; intros w; apply log_tls|
                                                 apply quiet_ret]|intros _].
  apply publishes_try; [apply quiet_wrap; intros w; apply log_open|intros c].
  apply publishes_try; [apply quiet_wrap; intros w; apply log_channel|intros ch].
  apply publishes_then; [by apply publish_all_log|intros n].
  apply quiet_bind; [intros w; apply log_close_channel|intros _].
  apply quiet_bind; [intros w; apply log_close|intros _; apply quiet_ret].
Qed.

Lemma nats_publish_log cfg messages : amq_backend cfg = Nats →
  publishes (on_wire cfg <$> messages) (nats_publish cfg messages).
Proof.
  intros Hb. unfold nats_publish, nats_connect.
  apply publishes_try; [apply quiet_wrap; intros w; apply log_nats_connect|intros c].
  apply publishes_then; [by apply nats_publish_all_log|intros n].
  apply quiet_try; [apply quiet_wrap; intros w; apply log_flush|intros _; apply quiet_ret].
Qed.

Lemma amq_do_request_quiet cfg payload : quiet (amq_do_request cfg payload).
Proof.
  unfold amq_do_request, nats_request, nats_connect, build_runtime. case_decide; [apply quiet_ret|].
  destruct (map_err _ _); [|apply quiet_ret]. simpl.
  apply quiet_try; [apply quiet_wrap; intros w; apply log_runtime|intros _].
  apply quiet_try; [|intros [json bytes]; apply quiet_ret].
  apply quiet_try; [apply quiet_wrap; intros w; apply log_nats_connect|intros c].
  apply quiet_try; [apply quiet_wrap; intros w; apply log_request|intros r; apply quiet_ret].
Qed.

(** A send publishes a prefix of its batch, in order, and all of it when it succeeds. *)
Lemma amq_do_send_log cfg payload w :
  amq_published (amq_do_send cfg payload w).2 = amq_published w ∧
    is_ok (amq_do_send cfg payload w).1 = false ∨
  ∃ batch sent, from_str (de_amq_send payload) payload = Ok batch ∧
    1 ≤ Z.of_nat (length batch) ≤ amq_max_batch cfg ∧
    sent `prefix_of` (on_wire cfg <$> batch) ∧
    amq_published (amq_do_send cfg payload w).2 = amq_published w ++ sent ∧
    (is_ok (amq_do_send cfg payload w).1 = true → sent = on_wire cfg <$> batch).
Proof.
  unfold amq_do_send. destruct (from_str _ _) as [batch|] eqn:Ep; simpl; [|by left].
  case_decide; [by left|]. case_decide; [by left|]. right.
  match goal with |- context [act_try ?m ?k] => assert (publishes (on_wire cfg <$> batch) (act_try m k)) as Hpub end.
  { apply publishes_try; [apply quiet_wrap; intros w'; apply log_runtime|intros _].
    apply publishes_then; [|intros n; apply quiet_ret].
    destruct (amq_backend cfg) eqn:Eb; [by apply publish_batch_log|by apply nats_publish_log]. }
  destruct (Hpub w) as (sent & ? & ? & ?). exists batch, sent. split_and!; auto; lia.
Qed.
End amq_lemmas.

(** ** Properties *)

