(* ===== verification/AuthDriver.v ===== *)
(** * AuthDriver: the identity-provider driver

    Models [fabric-backends/src/auth.rs]: endpoint resolution by configuration or memoized OIDC
    discovery, the two actions with their reading of the provider's status, and metrics.  The blocking
    [reqwest] client enters as the class [AuthHttp], with the log of the requests sent. *)

From Stdlib Require Import Ascii.
From stdpp Require Import pretty.
From S2P Require Import Prelude Json Errors Runtime Wire Resources Backends.
Local Open Scope Z_scope.

(** ** Errors *)

Definition AUTH_UNAVAILABLE : Fault := Fault_new "AUTH_UNAVAILABLE" true Operator.
Definition AUTH_REQUEST : Fault := Fault_new "AUTH_REQUEST" false Operator.

Record AuthError := { ate_fault : Fault; ate_message : string; ate_details : option Value }.

(** [AuthError::new]. *)
Definition AuthError_new (fault : Fault) (message : string) : AuthError :=
  {| ate_fault := fault; ate_message := message; ate_details := None |}.

(** [AuthError::with_status]. *)
Definition AuthError_with_status (fault : Fault) (message : string) (status : Z) : AuthError :=
  {| ate_fault := fault; ate_message := message +:+ " (status " +:+ pretty status +:+ ")";
     ate_details := Some (VObject [("http_status", VNumber (pretty status))]) |}.

(** [AuthError::from_transport]. *)
Definition AuthError_from_transport (err : string) : AuthError :=
  AuthError_new AUTH_UNAVAILABLE ("auth request failed: " +:+ err).

(** [AuthError::into_resource_error]. *)
Definition auth_into_resource_error (e : AuthError) : EgressError :=
  {| ee_code := fault_code (ate_fault e); ee_message := ate_message e; ee_source := "auth";
     ee_details := ate_details e; ee_retryable := fault_retryable (ate_fault e);
     ee_owner := fault_owner (ate_fault e) |}.

(** ** Requests *)

Inductive AuthCredential := NoCredential | Bearer (token : string) | Basic (id secret : string).
Record AuthRequest := {
  arq_post : bool; arq_url : string; arq_credential : AuthCredential;
  arq_headers : list (string * string); arq_body : option string }.

(** The client: building it, sending (the status and the body or the error of reading it), the host
    of a URL, and the log of the requests sent. *)
Class AuthHttp (World : Type) := {
  auth_client : Z → result () string;
  auth_send : AuthRequest → Act World (result (Z * result string string) string);
  url_host_text : string → option string;
  auth_sent : World → list AuthRequest;
  auth_send_log r w : auth_sent (auth_send r w).2 = auth_sent w ++ [r]
}.

Record Endpoints := { ep_userinfo : option string; ep_introspect : option string }.
Record AuthOutcome := { aco_json : string; aco_status : Z }.

(** The state of a connected backend; [atb_discovery] is the memo behind its mutex. *)
Record AuthBackend := {
  atb_config : AuthConfig; atb_discovery : option Endpoints; atb_poisoned : bool;
  atb_host : string; atb_metrics : Collector AuthMetric }.
Definition set_discovery (b : AuthBackend) (d : option Endpoints) : AuthBackend :=
  {| atb_config := atb_config b; atb_discovery := d; atb_poisoned := atb_poisoned b;
     atb_host := atb_host b; atb_metrics := atb_metrics b |}.

Section auth.
Context {World : Type} `{!JsonText} `{!PercentEncoding} `{!Clock World} `{!AuthHttp World}.

(** [encode], with its last resort. *)
Definition auth_encode (value : Value) : string :=
  default ("{" +:+ quoted "ok" +:+ ":false," +:+ quoted "status" +:+ ":0," +:+ quoted "code" +:+ ":"
           +:+ quoted "AUTH_INVALID_TOKEN" +:+ "}") (json_print value).
(** [ok_claims_json] and [invalid_token_json]. *)
Definition ok_claims_json (claims : Value) : string :=
  auth_encode (VObject [("ok", VBool true); ("claims", claims)]).
Definition invalid_token_json (status : Z) : string :=
  auth_encode (VObject [("ok", VBool false); ("status", VNumber (pretty status));
                        ("code", VString "AUTH_INVALID_TOKEN")]).

(** [string_field]. *)
Definition string_field (doc : Value) (key : string) : option string :=
  text ← value_get key doc ≫= as_str; if is_empty text then None else Some text.

(** [parse_claims]. *)
Definition parse_claims (body : string) (status : Z) : result Value AuthError :=
  match json_parse body with
  | Ok v => Ok (norm v)
  | Err err => Err (AuthError_with_status AUTH_REQUEST ("invalid claims JSON: " +:+ err) status)
  end.

(** [send]. *)
Definition auth_do_send (r : AuthRequest) : Act World (result (Z * string) AuthError) :=
  let! sent := auth_send r in
  act_ret match sent with
  | Err err => Err (AuthError_from_transport err)
  | Ok (status, Err err) =>
      Err (AuthError_new AUTH_UNAVAILABLE ("failed to read response: " +:+ err))
  | Ok (status, Ok body) => Ok (status, body)
  end.

Definition success (status : Z) : bool := bool_decide (200 ≤ status ≤ 299).
Definition server_error (status : Z) : bool := bool_decide (500 ≤ status ≤ 599).

(** [fetch_discovery]. *)
Definition discovery_url (cfg : AuthConfig) : string :=
  trim_end_matches "/" (auth_issuer cfg) +:+ "/.well-known/openid-configuration".
Definition fetch_discovery (b : AuthBackend) : Act World (result Endpoints AuthError) :=
  let!? (status, body) := auth_do_send
    {| arq_post := false; arq_url := discovery_url (atb_config b); arq_credential := NoCredential;
       arq_headers := []; arq_body := None |} in
  if negb (success status)
  then act_ret (Err (AuthError_with_status AUTH_REQUEST "OIDC discovery failed" status)) else
  act_ret match json_parse body with
  | Err err => Err (AuthError_new AUTH_REQUEST ("invalid discovery document: " +:+ err))
  | Ok doc => Ok {| ep_userinfo := string_field (norm doc) "userinfo_endpoint";
                    ep_introspect := string_field (norm doc) "introspection_endpoint" |}
  end.

(** [discover]: the memo, or a fetch that fills it; a poisoned lock is passed over. *)
Definition discover (b : AuthBackend) : Act World (result Endpoints AuthError * AuthBackend) :=
  match (if atb_poisoned b then None else atb_discovery b) with
  | Some endpoints => act_ret (Ok endpoints, b)
  | None =>
      let! r := fetch_discovery b in
      act_ret match r with
      | Err err => (Err err, b)
      | Ok endpoints =>
          (Ok endpoints, if atb_poisoned b then b else set_discovery b (Some endpoints))
      end
  end.

(** [resolve_userinfo] and [resolve_introspect]. *)
Definition resolve_endpoint (explicit : option string) (pick : Endpoints → option string)
    (missing : string) (b : AuthBackend) : Act World (result string AuthError * AuthBackend) :=
  match explicit with
  | Some url => act_ret (Ok url, b)
  | None =>
      let! (r, b') := discover b in
      act_ret (let? endpoints := r in ok_or (pick endpoints) (AuthError_new AUTH_REQUEST missing), b')
  end.
Definition resolve_userinfo (b : AuthBackend) :=
  resolve_endpoint (auth_userinfo_url (atb_config b)) ep_userinfo
    "issuer exposes no userinfo_endpoint" b.
Definition resolve_introspect (b : AuthBackend) :=
  resolve_endpoint (auth_introspect_url (atb_config b)) ep_introspect
    "issuer exposes no introspection_endpoint" b.

(** What [do_user_info] makes of the provider's answer. *)
Definition read_user_info (status : Z) (body : string) : result AuthOutcome AuthError :=
  if success status then
    let? claims := parse_claims body status in
    Ok {| aco_json := ok_claims_json claims; aco_status := status |}
  else if decide (status = 401 ∨ status = 403) then
    Ok {| aco_json := invalid_token_json status; aco_status := status |}
  else if server_error status then
    Err (AuthError_with_status AUTH_UNAVAILABLE "userinfo unavailable" status)
  else Err (AuthError_with_status AUTH_REQUEST "userinfo request failed" status).

(** [do_user_info]. *)
Definition do_user_info (b : AuthBackend) (token : string)
    : Act World (result AuthOutcome AuthError * AuthBackend) :=
  let! (url, b') := resolve_userinfo b in
  match url with
  | Err e => act_ret (Err e, b')
  | Ok url =>
      let! r := auth_do_send {| arq_post := false; arq_url := url; arq_credential := Bearer token;
                                arq_headers := []; arq_body := None |} in
      act_ret (let? (status, body) := r in read_user_info status body, b')
  end.

(** What [do_introspect] makes of the provider's answer. *)
Definition read_introspect (status : Z) (body : string) : result AuthOutcome AuthError :=
  if success status then
    let? claims := parse_claims body status in
    Ok {| aco_json := ok_claims_json claims; aco_status := status |}
  else if server_error status then
    Err (AuthError_with_status AUTH_UNAVAILABLE "introspection unavailable" status)
  else Err (AuthError_with_status AUTH_REQUEST "introspection request failed" status).

(** [do_introspect]. *)
Definition do_introspect (b : AuthBackend) (token : string)
    : Act World (result AuthOutcome AuthError * AuthBackend) :=
  let cfg := atb_config b in
  if is_empty (auth_client_id cfg)
  then act_ret (Err (AuthError_new AUTH_REQUEST
                       "introspect requires config.auth.client_id/client_secret"), b) else
  let! (url, b') := resolve_introspect b in
  match url with
  | Err e => act_ret (Err e, b')
  | Ok url =>
      let! r := auth_do_send
        {| arq_post := true; arq_url := url;
           arq_credential := Basic (auth_client_id cfg) (auth_client_secret cfg);
           arq_headers := [("Content-Type", "application/x-www-form-urlencoded")];
           arq_body := Some ("token=" +:+ utf8_percent_encode NON_ALPHANUMERIC token) |} in
      act_ret (let? (status, body) := r in read_introspect status body, b')
  end.

(** [dispatch]. *)
Definition auth_dispatch (b : AuthBackend) (action token : string)
    : Act World (result AuthOutcome AuthError * AuthBackend) :=
  if decide (action = "user_info") then do_user_info b token
  else if decide (action = "introspect") then do_introspect b token
  else act_ret (Err (AuthError_new AUTH_REQUEST ("unknown auth action: " +:+ action)), b).

(** [issuer_host]. *)
Definition issuer_host (issuer : string) : string := default "unknown" (url_host_text issuer).

(** [AuthBackend::connect_resource]. *)
Definition auth_connect_resource (cfg : AuthConfig) : result AuthBackend EgressError :=
  let? _ := map_err (λ err,
    {| ee_code := fault_code AUTH_UNAVAILABLE; ee_message := "auth client build failed: " +:+ err;
       ee_source := "auth"; ee_details := None; ee_retryable := fault_retryable AUTH_UNAVAILABLE;
       ee_owner := fault_owner AUTH_UNAVAILABLE |}) (auth_client (auth_timeout_ms cfg)) in
  Ok {| atb_config := cfg; atb_discovery := None; atb_poisoned := false;
        atb_host := issuer_host (auth_issuer cfg); atb_metrics := new_collector |}.

(** [build_metric]. *)
Definition auth_build_metric (action host : string) (status start : Z) : Act World AuthMetric :=
  let! micros := elapsed_micros start in
  act_ret {| atm_action := action; atm_host := host; atm_status := status; atm_duration_us := micros |}.

(** [AuthBackend::call]. *)
Definition auth_call (b : AuthBackend) (action token : string)
    : Act World (result string EgressError * AuthBackend) :=
  let! start := now in
  let! (res, b') := auth_dispatch b action token in
  let status := match res with Ok out => aco_status out | Err _ => 0 end in
  let! metric := auth_build_metric action (atb_host b) status start in
  act_ret (map_err auth_into_resource_error (let? out := res in Ok (aco_json out)),
           {| atb_config := atb_config b'; atb_discovery := atb_discovery b';
              atb_poisoned := atb_poisoned b'; atb_host := atb_host b';
              atb_metrics := coll_record (atb_metrics b') metric |}).

(** The driver as the session's backend set sees it. *)
#[export] Instance auth_backend : Backend World AuthConfig string AuthBackend AuthMetric := {|
  b_connect cfg _ := act_ret (auth_connect_resource cfg);
  b_call := auth_call;
  b_metrics b := coll_drain (Some (atb_metrics b)) |}.
End auth.

(** ** Specification vocabulary *)

(** Where each credential may go: discovery carries none; a bearer token goes to the userinfo endpoint,
    the client's secret to the introspection endpoint, each the configured one when there is one. *)
Definition auth_request_allowed (cfg : AuthConfig) (r : AuthRequest) : Prop :=
  match arq_credential r with
  | NoCredential => arq_url r = discovery_url cfg ∧ arq_post r = false
  | Bearer _ => arq_post r = false ∧ ∀ u, auth_userinfo_url cfg = Some u → arq_url r = u
  | Basic id secret =>
      id = auth_client_id cfg ∧ secret = auth_client_secret cfg ∧ nonempty id = true ∧
      arq_post r = true ∧ ∀ u, auth_introspect_url cfg = Some u → arq_url r = u
  end.

(** ** Lemmas *)

Section auth_lemmas.
Context {World : Type} `{!JsonText} `{!PercentEncoding} `{!Clock World} `{!AuthHttp World}.
Implicit Types (b : AuthBackend) (w : World).

Abbreviation auth_fault := (λ e, capability_fault "auth" (ate_fault e)).

(** A step of the backend: every error it reports is an [auth] fault, its configuration stays, every
    request it sends is allowed, and a memo is kept and makes discovery requests needless. *)
Definition auth_step_ok {A} (b : AuthBackend) (m : Act World (result A AuthError * AuthBackend))
    : Prop :=
  ∀ w, let '((r, b'), w') := m w in
    pure_errs auth_fault r ∧ atb_config b' = atb_config b ∧ atb_host b' = atb_host b ∧
    atb_poisoned b' = atb_poisoned b ∧ atb_metrics b' = atb_metrics b ∧
    (is_Some (atb_discovery b) → is_Some (atb_discovery b')) ∧
    ∃ reqs, auth_sent w' = auth_sent w ++ reqs ∧
      Forall (auth_request_allowed (atb_config b)) reqs ∧
      (atb_poisoned b = false → is_Some (atb_discovery b) →
       Forall (λ r, arq_credential r ≠ NoCredential) reqs).

Lemma auth_do_send_step r w :
  let '(res, w') := auth_do_send r w in
  pure_errs auth_fault res ∧ auth_sent w' = auth_sent w ++ [r].
Proof.
  unfold auth_do_send, act_bind, act_ret. pose proof (auth_send_log r w) as Hlog.
  destruct (auth_send r w) as [[[status [body|e]]|e] w']; simpl in *;
    (split; [|done]); errs_auto; fault_tac.
Qed.

Lemma auth_step_ret {A} b (r : result A AuthError) :
  pure_errs auth_fault r → auth_step_ok b (act_ret (r, b)).
Proof.
  intros Hr w. split_and!; auto. exists []. rewrite app_nil_r. split_and!; auto using Forall.
Qed.

Lemma discover_step b : auth_step_ok b (discover b).
Proof.
  unfold discover. destruct (if atb_poisoned b then _ else _) as [ep|] eqn:Em.
  { by apply auth_step_ret, pure_errs_ok. }
  intros w. unfold act_bind, fetch_discovery, act_try.
  pose proof (auth_do_send_step {| arq_post := false; arq_url := discovery_url (atb_config b);
    arq_credential := NoCredential; arq_headers := []; arq_body := None |} w) as Hs.
  destruct (auth_do_send _ w) as [r w1]. destruct Hs as [He Hlog].
  assert (atb_poisoned b = false → ¬ is_Some (atb_discovery b)) as Hmemo.
  { intros Hp. rewrite Hp in Em. rewrite Em. by intros []. }
  destruct r as [[status body]|e]; [destruct (success status); [destruct (json_parse body) as [doc|e]|]|];
    unfold act_ret; simpl; destruct (atb_poisoned b) eqn:Ep; simpl;
    (split_and!; [|done..|by eauto|]); try (by errs_auto; fault_tac);
    (eexists; split_and!; [exact Hlog| |naive_solver]); repeat constructor.
Qed.

Lemma resolve_endpoint_step explicit pick missing b :
  auth_step_ok b (resolve_endpoint explicit pick missing b) ∧
  ∀ w url b' w', resolve_endpoint explicit pick missing b w = ((Ok url, b'), w') →
    ∀ u, explicit = Some u → url = u.
Proof.
  unfold resolve_endpoint. destruct explicit as [url|].
  { split; [by apply auth_step_ret, pure_errs_ok|]. intros w url' b' w' [= <- <- <-] u. congruence. }
  split; [|done]. intros w. unfold act_bind, act_ret. pose proof (discover_step b w) as Hd.
  destruct (discover b w) as [[r b'] w']. destruct Hd as (He & Hrest). split; [|done].
  apply pure_errs_bind; [done|]. intros ep. errs_auto. fault_tac.
Qed.

(** Resolve an endpoint, then send one request to it: the shape of both actions. *)
Lemma resolve_then_send {A} b explicit pick missing (req : string → AuthRequest)
    (read : Z → string → result A AuthError) :
  (∀ url, (∀ u, explicit = Some u → url = u) → auth_request_allowed (atb_config b) (req url)) →
  (∀ url, arq_credential (req url) ≠ NoCredential) →
  (∀ status body, pure_errs auth_fault (read status body)) →
  auth_step_ok b
    (let! (url, b') := resolve_endpoint explicit pick missing b in
     match url with
     | Err e => act_ret (Err e, b')
     | Ok url =>
         let! r := auth_do_send (req url) in
         act_ret (let? (status, body) := r in read status body, b')
     end).
Proof.
  intros Hreq Hcred Hread w. unfold act_bind, act_ret.
  destruct (resolve_endpoint_step explicit pick missing b) as [Hstep Hurl].
  specialize (Hstep w). specialize (Hurl w).
  destruct (resolve_endpoint explicit pick missing b w) as [[[url|e] b'] w1]; [|].
  - destruct Hstep as (He & Hc & Hh & Hp & Hm & Hd & reqs & Hlog & Hall & Hmemo).
    pose proof (auth_do_send_step (req url) w1) as Hs. destruct (auth_do_send (req url) w1) as [r w2].
    destruct Hs as [He2 Hlog2]. split_and!; [|done..|].
    + apply pure_errs_bind; [done|]. intros [status body]. apply Hread.
    + exists (reqs ++ [req url]). rewrite Hlog2, Hlog, app_assoc. split_and!; [done| |].
      * apply Forall_app. split; [done|]. apply Forall_singleton, Hreq. eauto.
      * intros. apply Forall_app. split; [by apply Hmemo|]. by apply Forall_singleton.
  - destruct Hstep as (He & Hrest). split; [|done]. intros e' [= <-]. by apply He.
Qed.

Lemma parse_claims_errs body status : pure_errs auth_fault (parse_claims body status).
Proof. unfold parse_claims. errs_auto; fault_tac. Qed.
Hint Resolve parse_claims_errs : errs.

Lemma auth_dispatch_step b action token : auth_step_ok b (auth_dispatch b action token).
Proof.
  unfold auth_dispatch. case_decide; [|case_decide].
  - apply resolve_then_send; [done|done|]. intros status body. unfold read_user_info.
    errs_auto; fault_tac.
  - unfold do_introspect. destruct (is_empty (auth_client_id (atb_config b))) eqn:Eid.
    { apply auth_step_ret, pure_errs_err. fault_tac. }
    apply resolve_then_send; [|done|].
    + intros url Hu. split_and!; auto. unfold is_empty in Eid. simpl.
      by destruct (nonempty (auth_client_id (atb_config b))).
    + intros status body. unfold read_introspect. errs_auto; fault_tac.
  - apply auth_step_ret, pure_errs_err. fault_tac.
Qed.

(** One call. *)
Lemma auth_call_step b action token w :
  let '((r, b'), w') := auth_call b action token w in
  pure_errs (capability_error "auth") r ∧ atb_config b' = atb_config b ∧
  ∃ reqs, auth_sent w' = auth_sent w ++ reqs ∧ Forall (auth_request_allowed (atb_config b)) reqs.
Proof.
  unfold auth_call, act_bind, now, act_ret. pose proof (auth_dispatch_step b action token w) as Hs.
  destruct (auth_dispatch b action token w) as [[r b'] w1].
  destruct Hs as (He & Hc & _ & _ & _ & _ & reqs & Hlog & Hall & _).
  unfold auth_build_metric, act_bind, elapsed_micros, act_ret. split_and!; [|done|by eauto].
  eapply pure_errs_map_of; [apply pure_errs_bind; [exact He|intros out; apply pure_errs_ok]|].
  intros e Hf. by split.
Qed.

Lemma auth_connect_resource_errs cfg :
  pure_errs (capability_error "auth") (auth_connect_resource cfg).
Proof. unfold auth_connect_resource. errs_auto; cap_tac. Qed.

Lemma auth_open_calls b calls w :
  let '((_, b'), w') := open_calls parse_auth_token b calls w in
  ∃ reqs, auth_sent w' = auth_sent w ++ reqs ∧ Forall (auth_request_allowed (atb_config b)) reqs.
Proof.
  revert b w. induction calls as [|[a p] calls IH]; intros b w; simpl.
  { exists []. rewrite app_nil_r. split; auto using Forall. }
  destruct (parse_auth_token p) as [token|e].
  - pose proof (auth_call_step b a token w) as Hs. destruct (auth_call b a token w) as [[r b1] w1].
    destruct Hs as (_ & Hc & reqs & Hlog & Hall). specialize (IH b1 w1).
    destruct (open_calls parse_auth_token b1 calls w1) as [[rs b2] w2].
    destruct IH as (reqs2 & Hlog2 & Hall2). exists (reqs ++ reqs2).
    rewrite Hlog2, Hlog, app_assoc. split; [done|]. apply Forall_app. by rewrite Hc in Hall2.
  - specialize (IH b w). by destruct (open_calls parse_auth_token b calls w) as [[rs b2] w2].
Qed.
End auth_lemmas.

(** ** Properties *)

