(* ===== verification/DriverSet.v ===== *)
(** * DriverSet: the six drivers as one session's backend set

    Puts the driver models together into the set the daemon builds ([Backends.Drivers]), and shows what
    a session sees of them as a whole: every error a call returns is classified under the capability
    that was called, and the breaker that [connect_through_breaker] supports is never consulted, for
    the daemon gives its sessions none. *)

From S2P Require Import Prelude Json Errors Breaker Runtime Wire Resources Backends.
From S2P Require Import DbDriver MongoDriver MailDriver RedisDriver AmqDriver AuthDriver.
Local Open Scope Z_scope.

Section drivers.
Context {World Client Database Cursor Conn AmqpConn AmqpChan NatsClient : Type}.
Context `{!JsonText} `{!RawJson} `{!Formats} `{!PercentEncoding} `{!UnicodeCase} `{!Clock World}
  `{!Tokio World} `{!BreakerStore World} `{!Postgres World Client} `{!MongoDb World Database Cursor}
  `{!Lettre World} `{!Redis World Conn} `{!Brokers World AmqpConn AmqpChan NatsClient}
  `{!AuthHttp World}.

(** [AmqProducer::new], [call] with its error converted, and [drain_metrics]. *)
#[export] Instance drivers : Drivers World (DbBackend Client) (MongoBackend Database) MailBackend
    (RedisBackend Conn) AuthBackend AmqProducer := {|
  amq_new := AmqProducer_new;
  amq_call p action payload :=
    let! (res, p') := amq_producer_call p action payload in
    act_ret (map_err amq_into_resource_error res, p');
  amq_drain p := coll_drain (Some (aqp_metrics p)) |}.

Abbreviation BSet := (BackendSet (DbB:=DbBackend Client) (MongoB:=MongoBackend Database)
  (MailB:=MailBackend) (RedisB:=RedisBackend Conn) (AuthB:=AuthBackend) (AmqB:=AmqProducer)).

(** ** The errors of each driver *)

(** A driver's call is its dispatch, a metric, and the error converted: its errors are those of the
    dispatch, which [lem] classifies. *)
Ltac call_errs lem :=
  pose proof lem as Hd; simpl; unfold act_bind, now, act_ret; intros Hcall; destruct_matches;
  simplify_eq/=; unfold result_bind, map_err in *; destruct_matches; simplify_eq/=;
  (split; [reflexivity|]); by eapply Hd.

Lemma db_b_call_errs (b : DbBackend Client) action args w e b' w' :
  b_call b action args w = (Err e, b', w') →
  capability_error "db" e ∧ ee_code e ≠ "DB_CIRCUIT_OPEN".
Proof.
  simpl. unfold db_call, act_bind, now, act_ret. intros Hcall.
  pose proof (db_dispatch_errs b action args.1 args.2 w) as Hd. destruct_matches; simplify_eq/=.
  unfold map_err in *. destruct_matches; simplify_eq/=.
  destruct (Hd _ _ eq_refl) as [[Hprefix Howner] Hcode]. by split_and!.
Qed.

Lemma mongo_b_call_errs (b : MongoBackend Database) action args w e b' w' :
  b_call b action args w = (Err e, b', w') → capability_error "mongo" e.
Proof. unfold b_call. simpl. unfold mongo_call. call_errs (mongo_dispatch_errs b action args.1 args.2 w). Qed.

Lemma mail_b_call_errs (b : MailBackend) action payload w e b' w' :
  b_call b action payload w = (Err e, b', w') → capability_error "mail" e.
Proof.
  unfold b_call. simpl. unfold mail_call. destruct (_ && _).
  - intros Hcall. unfold act_bind, act_ret in Hcall. simplify_eq/=. cap_tac.
  - call_errs (mail_dispatch_errs b action payload w).
Qed.

Lemma redis_b_call_errs (b : RedisBackend Conn) action payload w e b' w' :
  b_call b action payload w = (Err e, b', w') → capability_error "redis" e.
Proof. unfold b_call. simpl. unfold redis_call. call_errs (redis_dispatch_errs b action payload w). Qed.

Lemma auth_b_call_errs (b : AuthBackend) action token w e b' w' :
  b_call b action token w = (Err e, b', w') → capability_error "auth" e.
Proof.
  simpl. intros Hc. pose proof (auth_call_step b action token w) as Hs. rewrite Hc in Hs.
  destruct Hs as [He _]. by apply He.
Qed.

Lemma amq_call_errs (p : AmqProducer) action payload w e p' w' :
  amq_call p action payload w = (Err e, p', w') → capability_error "amq" e.
Proof.
  unfold amq_call. simpl. unfold amq_producer_call.
  call_errs (amq_dispatch_errs (aqp_config p) action payload w).
Qed.

(** ** The set *)

(** The capability names a set knows. *)
Definition kinds : list string := ["db"; "mongo"; "mail"; "redis"; "amq"; "auth"].

(** What an answer to a call on [name] may be. *)
Definition reply_classified (name : string) (r : result string EgressError) : Prop :=
  match r with
  | Ok _ => True
  | Err e =>
      if decide (name ∈ kinds) then capability_error name e ∧ is_Some (source_parse (ee_source e))
      else ee_source e = "engine" ∧ ee_code e = "IO_UNKNOWN" ∧ ee_retryable e = false
  end.

(** The connect errors a set remembers are classified too. *)
Definition set_errs (s : BSet) : Prop :=
  (∀ sl, bs_db s = Some sl → slot_errs (capability_error "db") sl) ∧
  (∀ sl, bs_mongo s = Some sl → slot_errs (capability_error "mongo") sl) ∧
  (∀ sl, bs_mail s = Some sl → slot_errs (capability_error "mail") sl) ∧
  (∀ sl, bs_redis s = Some sl → slot_errs (capability_error "redis") sl) ∧
  (∀ sl, bs_auth s = Some sl → slot_errs (capability_error "auth") sl).

Lemma reply_capability name e :
  name ∈ kinds → capability_error name e → reply_classified name (Err e).
Proof.
  intros Hn He. unfold reply_classified. rewrite decide_True by done. split; [done|].
  destruct He as [-> _]. unfold kinds in Hn. rewrite !elem_of_cons in Hn.
  destruct_or?; subst; first [by eexists | by apply elem_of_nil in Hn].
Qed.

Lemma not_configured_error name : name ∈ kinds → capability_error name (not_configured name).
Proof.
  unfold kinds. rewrite !elem_of_cons. intros Hn.
  destruct Hn as [->|[->|[->|[->|[->|[->|Hn]]]]]]; [..|by apply elem_of_nil in Hn];
    (split; [reflexivity|]); apply fault_of_bool; vm_compute; reflexivity.
Qed.

Lemma parse_db_payload_errs payload e : parse_db_payload payload = Err e → capability_error "db" e.
Proof.
  assert (pure_errs (capability_error "db") (parse_db_payload payload)) as Hp; [|apply Hp].
  unfold parse_db_payload. errs_auto; cap_tac.
Qed.
Lemma parse_mongo_payload_errs payload e :
  parse_mongo_payload payload = Err e → capability_error "mongo" e.
Proof.
  assert (pure_errs (capability_error "mongo") (parse_mongo_payload payload)) as Hp; [|apply Hp].
  unfold parse_mongo_payload. errs_auto; cap_tac.
Qed.
Lemma parse_auth_token_errs payload e : parse_auth_token payload = Err e → capability_error "auth" e.
Proof.
  assert (pure_errs (capability_error "auth") (parse_auth_token payload)) as Hp; [|apply Hp].
  unfold parse_auth_token. errs_auto; cap_tac.
Qed.

(** One slot of the set: its answer is classified, and so is what it remembers. *)
Lemma slot_reply {Cfg Args B M} `{!Backend World Cfg Args B M} name parse (sl : Slot Cfg B) action
    payload w :
  name ∈ kinds →
  (∀ p e, parse p = Err e → capability_error name e) →
  (∀ b action args w e b' w', b_call b action args w = (Err e, b', w') → capability_error name e) →
  (∀ w e w', b_connect (slot_config sl) (slot_deps sl) w = (Err e, w') → capability_error name e) →
  slot_errs (capability_error name) sl →
  let '(r, sl', _) := slot_call sl parse action payload w in
  reply_classified name r ∧ slot_errs (capability_error name) sl'.
Proof.
  intros Hn Hparse Hcall Hconn Hs.
  pose proof (slot_call_errs parse _ Hparse Hcall sl action payload w Hconn Hs) as Hr.
  destruct (slot_call sl parse action payload w) as [[r sl'] w']. destruct Hr as (Hr & Hs' & _).
  split; [|done]. destruct r as [|e]; [done|]. apply reply_capability; auto.
Qed.

Lemma backend_call_classified (s : BSet) name action payload w :
  set_errs s →
  let '(r, s', _) := backend_call s name action payload w in reply_classified name r ∧ set_errs s'.
Proof.
  intros Hs. pose proof Hs as (H1' & H2' & H3' & H4' & H5'). unfold backend_call.
  assert (∀ k, k ∈ kinds → reply_classified k (Err (not_configured k)) ∧ set_errs s) as Hnone.
  { intros k Hk. split; [by apply reply_capability, not_configured_error|done]. }
  repeat case_decide; subst;
    unfold call_db, call_mongo, call_mail, call_redis, call_amq, call_auth.
  - destruct (bs_db s) as [s0|] eqn:Eo; [|apply Hnone; set_solver].
    pose proof (slot_reply "db" parse_db_payload s0 action payload w ltac:(set_solver)
      parse_db_payload_errs (λ b a g w e b' w' H, proj1 (db_b_call_errs b a g w e b' w' H))
      (db_connect_resource_errs _ _) (H1' _ eq_refl)) as Hr.
    destruct (slot_call s0 parse_db_payload action payload w) as [[r sl'] w'].
    destruct Hr as [Hr Hsl]. split; [done|]. split_and!; simpl; try done; by intros ? [= <-].
  - destruct (bs_mongo s) as [s0|] eqn:Eo; [|apply Hnone; set_solver].
    pose proof (slot_reply "mongo" parse_mongo_payload s0 action payload w ltac:(set_solver)
      parse_mongo_payload_errs mongo_b_call_errs (mongo_connect_resource_errs _ _) (H2' _ eq_refl)) as Hr.
    destruct (slot_call s0 parse_mongo_payload action payload w) as [[r sl'] w'].
    destruct Hr as [Hr Hsl]. split; [done|]. split_and!; simpl; try done; by intros ? [= <-].
  - destruct (bs_mail s) as [s0|] eqn:Eo; [|apply Hnone; set_solver].
    pose proof (slot_reply "mail" pass_payload s0 action payload w ltac:(set_solver)
      ltac:(done) mail_b_call_errs (errs_ret _ _ (mail_connect_resource_errs _)) (H3' _ eq_refl)) as Hr.
    destruct (slot_call s0 pass_payload action payload w) as [[r sl'] w'].
    destruct Hr as [Hr Hsl]. split; [done|]. split_and!; simpl; try done; by intros ? [= <-].
  - destruct (bs_redis s) as [s0|] eqn:Eo; [|apply Hnone; set_solver].
    pose proof (slot_reply "redis" pass_payload s0 action payload w ltac:(set_solver)
      ltac:(done) redis_b_call_errs (redis_connect_resource_errs _) (H4' _ eq_refl)) as Hr.
    destruct (slot_call s0 pass_payload action payload w) as [[r sl'] w'].
    destruct Hr as [Hr Hsl]. split; [done|]. split_and!; simpl; try done; by intros ? [= <-].
  - destruct (bs_amq s) as [a|] eqn:Eo; [|apply Hnone; set_solver].
    pose proof (amq_call_errs a action payload w) as Hr.
    destruct (amq_call a action payload w) as [[r p'] w']. split; [|done].
    destruct r as [|e]; [done|]. apply reply_capability; [set_solver|]. by eapply Hr.
  - destruct (bs_auth s) as [s0|] eqn:Eo; [|apply Hnone; set_solver].
    pose proof (slot_reply "auth" parse_auth_token s0 action payload w ltac:(set_solver)
      parse_auth_token_errs auth_b_call_errs (errs_ret _ _ (auth_connect_resource_errs _))
      (H5' _ eq_refl)) as Hr.
    destruct (slot_call s0 parse_auth_token action payload w) as [[r sl'] w'].
    destruct Hr as [Hr Hsl]. split; [done|]. split_and!; simpl; try done; by intros ? [= <-].
  - split; [|done]. unfold reply_classified. rewrite decide_False; [done|]. set_solver.
Qed.

Lemma backend_calls_classified (s : BSet) calls w :
  set_errs s →
  Forall2 (λ c r, reply_classified (wc_name c) r) calls (backend_calls s calls w).1.1.
Proof.
  revert s w. induction calls as [|c calls IH]; intros s w Hs; cbn [backend_calls]; [constructor|].
  pose proof (backend_call_classified s (wc_name c) (wc_action c) (wc_payload c) w Hs) as Hc.
  destruct (backend_call s (wc_name c) (wc_action c) (wc_payload c) w) as [[r s1] w1].
  destruct Hc as [Hr Hs1]. specialize (IH s1 w1 Hs1).
  destruct (backend_calls s1 calls w1) as [[rs s2] w2]. by constructor.
Qed.

Lemma from_configs_errs rc deps : set_errs (from_configs rc deps).
Proof.
  unfold set_errs, from_configs. destruct rc as [[] [] [] [] [] []]; simpl;
    split_and!; intros sl Hsl; simplify_eq/=; by intros e.
Qed.
End drivers.

(** ** Properties *)

Section driver_properties.
Context {World Client Database Cursor Conn AmqpConn AmqpChan NatsClient : Type}.
Context `{!JsonText} `{!RawJson} `{!Formats} `{!PercentEncoding} `{!UnicodeCase} `{!Clock World}
  `{!Tokio World} `{!BreakerStore World} `{!Postgres World Client} `{!MongoDb World Database Cursor}
  `{!Lettre World} `{!Redis World Conn} `{!Brokers World AmqpConn AmqpChan NatsClient}
  `{!AuthHttp World}.

(** C23: Whatever a session calls and whatever its backends answer, every error it gets is classified: it
    carries the capability's name as a source the box knows and a code with the capability's prefix, and
    is marked worth a retry only when it is the operator's; a name that is no capability is refused as
    such. *)
Theorem session_errors_classified (rc : ResolvedConfigs) deps calls (w : World) :
  Forall2 (λ c r, reply_classified (wc_name c) r) calls
    (backend_calls (DbB:=DbBackend Client) (MongoB:=MongoBackend Database)
       (RedisB:=RedisBackend Conn) (from_configs rc deps) calls w).1.1.
Proof. apply backend_calls_classified, from_configs_errs. Qed.

(** A session without a breaker, which is how the daemon opens every session, never answers
    DB_CIRCUIT_OPEN: it attempts the connection however often it has failed. *)
Theorem no_breaker_never_open (cfg : DbConfig) deps calls (w : World) e :
  deps_breaker deps = None →
  Err e ∈ (slot_calls (B:=DbBackend Client) parse_db_payload (slot_new cfg deps) calls w).1.1 →
  ee_code e ≠ "DB_CIRCUIT_OPEN".
Proof.
  intros Hd. apply (slot_calls_errs parse_db_payload (λ e, ee_code e ≠ "DB_CIRCUIT_OPEN")).
  - intros payload e' He. unfold parse_db_payload, result_bind, map_err in He.
    by destruct_matches; simplify_eq/=.
  - intros b action args w1 e' b' w1' Hc. by apply (db_b_call_errs _ _ _ _ _ _ _ Hc).
  - intros w1 e' w1'. simpl. unfold db_connect_resource, act_bind, act_ret.
    pose proof (db_connect_unguarded (World:=World) (Client:=Client) cfg deps Hd w1) as Hu.
    destruct (db_connect cfg deps w1) as [[b|err] w2]; simpl; [done|]. intros [= <- <-].
    unfold connect_error_to_resource. by rewrite (Hu err w2 eq_refl).
  - by intros e'.
Qed.
End driver_properties.
