(* ===== verification/DriverDemo.v ===== *)
(** * DriverDemo: the driver theorems at work

    A small world in which the drivers run, a list of what reached the outside, and instances of the
    driver libraries over it; the theorems of the driver files are applied to concrete sessions. *)

From Stdlib Require Import Ascii SpecFloat.
From stdpp Require Import pretty.
From S2P Require Import Prelude Json Errors Breaker Runtime Wire Resources Backends.
From S2P Require Import DbDriver MongoDriver MailDriver RedisDriver AmqDriver AuthDriver DriverSet.
Local Open Scope Z_scope.

#[local] Existing Instance reference_json.

(** ** The world *)

Inductive Event :=
| EvMail (m : Message) | EvPublish (p : Published) | EvAuth (r : AuthRequest) | EvNote (text : string).
(** What happened, and the shared breaker. *)
Record Demo := { dm_events : list Event; dm_breaker : CircuitBreaker }.
Definition log (e : Event) (w : Demo) : Demo :=
  {| dm_events := dm_events w ++ [e]; dm_breaker := dm_breaker w |}.

Definition mails (w : Demo) : list Message :=
  omap (λ e, match e with EvMail m => Some m | _ => None end) (dm_events w).
Definition publications (w : Demo) : list Published :=
  omap (λ e, match e with EvPublish p => Some p | _ => None end) (dm_events w).
Definition auths (w : Demo) : list AuthRequest :=
  omap (λ e, match e with EvAuth r => Some r | _ => None end) (dm_events w).

Definition demo_breaker : CircuitBreaker :=
  {| config := {| threshold := 1; cooldown := 1000000 |}; poisoned := false; targets := ∅; trips := 0 |}.
Definition start : Demo := {| dm_events := []; dm_breaker := demo_breaker |}.

(** ** Instances *)

#[local] Instance demo_time : Clock Demo :=
  {| instant w := Z.of_nat (length (dm_events w)); unix_secs _ := Ok 0 |}.
#[local] Instance demo_formats : Formats :=
  {| f64_text _ := "0.5"; f64_parse _ := S754_zero false; b64_encode := string_of |}.
Lemma demo_percent_spec (set : ascii → bool) s :
  string_of (bytes_of s ≫= encode_byte set) = string_of (bytes_of s ≫= encode_byte set).
Proof. done. Qed.
#[local] Instance demo_percent : PercentEncoding := {|
  utf8_percent_encode set s := string_of (bytes_of s ≫= encode_byte set);
  utf8_percent_encode_spec := demo_percent_spec |}.
#[local] Instance demo_lower : UnicodeCase :=
  {| to_lowercase := to_ascii_lowercase; to_lowercase_ascii _ _ := eq_refl |}.

(** Time never runs out here. *)
Definition demo_timeout {T} (d : Z) (fut : Act Demo T) : Act Demo (option T) :=
  λ w, let '(x, w') := fut w in (Some x, w').
Lemma demo_timeout_completed {T} d (fut : Act Demo T) w x w' :
  demo_timeout d fut w = (Some x, w') → fut w = (x, w').
Proof. unfold demo_timeout. destruct (fut w). by intros [= -> ->]. Qed.
#[local] Instance demo_tokio : Tokio Demo :=
  {| timeout := @demo_timeout; timeout_completed := @demo_timeout_completed |}.

Definition demo_put (r : BreakerRef) (cb : CircuitBreaker) (w : Demo) : Demo :=
  {| dm_events := dm_events w; dm_breaker := cb |}.
#[local] Instance demo_store : BreakerStore Demo := {|
  breaker_at _ w := dm_breaker w; breaker_put := demo_put; breaker_at_put _ _ _ := eq_refl |}.

(** A database with one table of two rows, on the host "up". *)
Definition demo_rows : list PgRow :=
  [ {| row_columns := [("id", INT4); ("total", INT8)]; row_cells := [Some ["7"%char]; Some ["9"%char]] |};
    {| row_columns := [("id", INT4); ("total", INT8)]; row_cells := [Some ["8"%char]; None] |} ].
Definition demo_from_sql (t : RustType) (_ : PgType) (raw : list ascii)
    : result (rust_value t) string :=
  match t with
  | TI16 | TI32 | TI64 => Ok (Z.of_nat (length raw))
  | TF32 | TF64 => Ok (S754_zero false)
  | TBool => Ok true
  | TValue => Ok VNull
  | TBytes => Ok raw
  | TString | TUuid | TNaiveDateTime | TDateTimeUtc | TNaiveDate | TNaiveTime | TDecimal =>
      Ok (string_of raw)
  end.
Definition demo_from_sql_small (t : RustType) (ty : PgType) (raw : list ascii)
    : result (rust_value t) string :=
  if decide (length raw < 100)%nat then demo_from_sql t ty raw else Err "too long".
Lemma demo_i16 ty raw z : demo_from_sql_small TI16 ty raw = Ok z → - 2 ^ 15 ≤ z < 2 ^ 15.
Proof. unfold demo_from_sql_small. case_decide; [|done]. intros [= <-]. lia. Qed.
Lemma demo_i32 ty raw z : demo_from_sql_small TI32 ty raw = Ok z → - 2 ^ 31 ≤ z < 2 ^ 31.
Proof. unfold demo_from_sql_small. case_decide; [|done]. intros [= <-]. lia. Qed.
Definition demo_accepts (t : RustType) (ty : PgType) : bool :=
  match t, ty with TI32, INT4 | TI64, INT8 | TString, TEXT => true | _, _ => false end.
#[local] Instance demo_postgres : Postgres Demo () := {|
  pg_accepts := demo_accepts; pg_from_sql := demo_from_sql_small;
  to_sql_bool _ _ := Ok None; to_sql_i32 _ _ := Ok None; to_sql_i64 _ _ := Ok None;
  to_sql_f64 _ _ := Ok None; to_sql_text _ _ := Ok None;
  pg_connect c _ w := (if decide (pgc_host c = "up") then Ok ()
                       else Err {| pge_code := None; pge_text := "refused" |},
                       log (EvNote "connect") w);
  pg_query _ sql _ w := (Ok demo_rows, log (EvNote sql) w);
  pg_execute _ sql _ w := (Ok 1, log (EvNote sql) w);
  pg_batch_execute _ cmd w := (Ok (), log (EvNote cmd) w);
  pg_i16_range := demo_i16; pg_i32_range := demo_i32 |}.

(** A cursor that never ends. *)
#[local] Instance demo_mongo : MongoDb Demo () () := {|
  mongo_client _ _ w := (Ok (), w); mongo_find _ _ _ _ w := (Ok (), w);
  mongo_find_one _ _ _ w := (Ok None, w); mongo_count _ _ _ _ w := (Ok 0, w);
  mongo_aggregate _ _ _ _ w := (Ok (), w); mongo_insert_one _ _ _ w := (Ok BsNull, w);
  mongo_insert_many _ _ _ w := (Ok 0, w);
  mongo_update _ _ _ _ _ w := (Ok {| ur_matched_count := 0; ur_modified_count := 0 |}, w);
  mongo_delete _ _ _ _ w := (Ok 0, w);
  cursor_advance _ w := (Ok true, log (EvNote "advance") w);
  cursor_current _ w := (Ok [("n", BsInt32 1)], w);
  to_bson _ := Ok (BsDocument []); oid_to_hex := string_of; datetime_rfc3339 _ := None |}.

(** A relay that takes every message; addresses are domains. *)
Lemma demo_send_log (t : SmtpTransport) m w :
  mails (log (EvMail m) w) = mails w ++ [m].
Proof. unfold mails, log. simpl. by rewrite omap_app. Qed.
#[local] Instance demo_lettre : Lettre Demo := {|
  mailbox_parse a := Ok {| mb_name := None; mb_user := "u"; mb_domain := a |};
  relay_tls _ _ := Ok (); message_finish _ := Ok (); formatted_len _ := 10;
  smtp_send _ m w := (Ok {| resp_positive := true; resp_first_line := Some "OK" |}, log (EvMail m) w);
  mail_sent := mails; smtp_send_log := demo_send_log |}.

(** ** Witnesses *)

Definition demo_db : DbBackend () :=
  {| dbb_client := (); dbb_deadline := 1000; dbb_max_rows := 1; dbb_metrics := new_collector |}.

(** One row is kept of the two, and the answer says so. *)
Lemma db_query_faithful_witness :
  ∃ text b' w', db_call demo_db "query" "SELECT 1" "[]" start = (Ok text, b', w') ∧
    json_print (query_answer 1 demo_rows) = Some text ∧
    length (kept_rows 1 demo_rows) = 1%nat ∧ bool_decide (1 < Z.of_nat (length demo_rows)) = true.
Proof.
  assert (∃ text b' w', db_call demo_db "query" "SELECT 1" "[]" start = (Ok text, b', w'))
    as (text & b' & w' & Hc) by (do 3 eexists; reflexivity).
  destruct (db_query_faithful demo_db "SELECT 1" "[]" start text b' w' ltac:(done) eq_refl
    reference_json_roundtrip Hc) as (ps & rows & Hp & Hq & Ht & _).
  exists text, b', w'. split_and!; [exact Hc| |reflexivity|reflexivity].
  simpl in Hq. injection Hq as Hr _. rewrite Hr. exact Ht.
Defined.

Definition demo_db_config (host : string) : DbConfig :=
  {| db_host := host; db_port := 5432; db_user := "u"; db_password := "p"; db_database := "d";
     db_ssl := false; statement_timeout_ms := 5000; db_max_rows := 1000 |}.

(** After one failure the next connect is refused. *)
Lemma db_connects_refine_breaker_witness :
  dm_breaker (guarded_connects (Client := ()) 1 [demo_db_config "down"; demo_db_config "down"] start).2 =
    run demo_breaker
      (connect_history (Client := ()) 1 [demo_db_config "down"; demo_db_config "down"] start) ∧
  (guarded_connects (Client := ()) 1 [demo_db_config "down"; demo_db_config "down"] start).1 =
    [Err (ConnectFailed {| pge_code := None; pge_text := "refused" |}); Err CircuitOpen].
Proof.
  split; [|vm_compute; reflexivity].
  refine (proj1 (db_connects_refine_breaker (Client := ()) 1
    [demo_db_config "down"; demo_db_config "down"] start _)).
  intros cfg w. unfold db_connect_raw, act_try. simpl. by case_decide.
Defined.

(** Three documents of an endless cursor. *)
Lemma drain_cursor_terminates_witness :
  ∃ out, (drain_cursor (World := Demo) (Database := ()) () 3 start).1 = Ok out ∧
    docs_returned out = 3 ∧ out_truncated out = true.
Proof.
  destruct (drain_cursor_terminates (Database := ()) () 3 start ltac:(done)) as (r & w' & Hf & _ & Hr).
  assert (r = Ok (replicate 3 (VObject [("n", VNumber "1")]), true)) as ->.
  { specialize (Hf 4%nat ltac:(vm_compute; lia)). vm_compute in Hf. injection Hf as Hv _. rewrite <-Hv. reflexivity. }
  destruct Hr as [(out & Ho & Hn & Ht) _]. exists out. split_and!; assumption.
Defined.

Definition demo_mail_config : MailConfig :=
  {| mail_host := "relay"; mail_port := 587; mail_user := ""; mail_password := "";
     mail_tls := Starttls; mail_from := "box.example"; mail_max_recipients := 2;
     mail_allowed_recipient_domains := ["Corp.example"]; mail_max_sends := 1; mail_timeout_ms := 1000 |}.
Definition demo_send (to : list string) : string * string :=
  ("send", default "" (json_print (VObject [("to", VArray (VString <$> to))]))).

(** A message inside the allowlist is sent, the one outside and the second one are not. *)
Lemma mail_policy_enforced_witness :
  let calls := [demo_send ["corp.example"]; demo_send ["else.example"]; demo_send ["corp.example"]] in
  let w' := (slot_calls pass_payload (slot_new demo_mail_config no_deps) calls start).2 in
  (∃ msgs, mails w' = msgs ∧ Forall (mail_policy 2 ["Corp.example"]) msgs ∧
     Z.of_nat (length msgs) ≤ 1) ∧ length (mails w') = 1%nat.
Proof.
  cbv zeta. split; [|vm_compute; reflexivity].
  pose proof (mail_policy_enforced demo_mail_config no_deps
    [demo_send ["corp.example"]; demo_send ["else.example"]; demo_send ["corp.example"]] start
    ltac:(vm_compute; reflexivity) ltac:(done)) as Hp.
  destruct (slot_calls _ _ _ start) as [[rs s] w']. destruct Hp as (msgs & Hs & Hf & Hn).
  exists msgs. split_and!; [exact Hs|exact Hf|]. exact (Hn ltac:(done)).
Defined.
