(* ===== verification/Fabricd.v ===== *)
(** * Fabricd: the egress daemon's sessions

    Models [fabric-wire/src/ct.rs] (the shared constant-time compare), [fabricd/src/auth.rs] (the
    client authenticators) and the session server of [fabricd/src/main.rs] ([serve], [dispatch]).
    [serve] runs on byte streams; its abstract specification [session] runs on messages, and
    [serve_refines_session] relates the two.  Sockets, accept loops and signals are not modelled. *)

From Stdlib Require Import Ascii.
From S2P Require Import Prelude Json Errors Wire Resources Breaker Backends.
Local Open Scope Z_scope.

(** ** Constant-time equality ([fabric-wire/src/ct.rs]) *)

(** The [subtle] primitive: on slices of equal length it decides equality. *)
Class ConstantTimeEq := {
  slice_ct_eq : list ascii → list ascii → bool;
  slice_ct_eq_spec l r : length l = length r → (slice_ct_eq l r = true ↔ l = r)
}.

(** [ct_eq]. *)
Definition ct_eq `{ConstantTimeEq} (lhs rhs : list ascii) : bool :=
  if decide (length lhs ≠ length rhs) then false else slice_ct_eq lhs rhs.

Lemma ct_eq_spec `{ConstantTimeEq} lhs rhs : ct_eq lhs rhs = true ↔ lhs = rhs.
Proof.
  unfold ct_eq. destruct (decide (length lhs ≠ length rhs)) as [Hl|Hl].
  - split; [done|by intros ->].
  - apply slice_ct_eq_spec. by apply dec_stable.
Qed.

(** ** Client authentication ([fabricd/src/auth.rs]) *)

Record AuthReject := { rej_code : string; rej_message : string }.

(** [AuthReject::new]. *)
Definition AuthReject_new (message : string) : AuthReject :=
  {| rej_code := "UNAUTHENTICATED"; rej_message := message |}.

Inductive AuthMode := ModeNone | ModeStatic | ModeSaToken.

Record ClientAuthConfig := {
  ca_mode : AuthMode; ca_static_token : option string; ca_previous_token : option string;
  ca_audience : option string; ca_issuer : option string; ca_jwks_url : option string;
  ca_ca_cert : option string; ca_jwks_refresh_secs : option Z }.

(** The derived [Default]. *)
Definition ClientAuthConfig_default : ClientAuthConfig :=
  {| ca_mode := ModeNone; ca_static_token := None; ca_previous_token := None;
     ca_audience := None; ca_issuer := None; ca_jwks_url := None; ca_ca_cert := None;
     ca_jwks_refresh_secs := None |}.

(** [SaTokenVerifyConfig] and its [new] ([fabric-backends/src/sa_token.rs]); seconds. *)
Record SaTokenVerifyConfig := {
  sv_issuer : string; sv_jwks_url : option string; sv_audience : string;
  sv_ca_cert : option string; sv_refresh : Z }.
Definition DEFAULT_REFRESH_SECS : Z := 300.

(** A verifier: accepts a token or says why not. *)
Definition Verifier : Type := string → result unit string.

(** The [ClientAuthenticator] implementations. *)
Inductive Authenticator :=
| NoneAuthenticator
| StaticAuthenticator (current : string) (previous : option string)
| SaTokenAuthenticator (verifier : Verifier).

(** [Option::filter(|s| !s.is_empty())]. *)
Definition non_empty (o : option string) : option string :=
  match o with Some s => if nonempty s then Some s else None | None => None end.

Section auth.
Context `{!ConstantTimeEq}.
Context (spawn : SaTokenVerifyConfig → result Verifier string).

(** [build_sa_token]. *)
Definition build_sa_token (cfg : ClientAuthConfig) : result Authenticator string :=
  let? issuer := ok_or (non_empty (ca_issuer cfg))
                   "quic.auth.mode = sa-token requires an issuer" in
  let? audience := ok_or (non_empty (ca_audience cfg))
                     "quic.auth.mode = sa-token requires an audience" in
  let? verifier := spawn {| sv_issuer := issuer; sv_jwks_url := non_empty (ca_jwks_url cfg);
                            sv_audience := audience; sv_ca_cert := ca_ca_cert cfg;
                            sv_refresh := default DEFAULT_REFRESH_SECS (ca_jwks_refresh_secs cfg) |} in
  Ok (SaTokenAuthenticator verifier).

(** [build]. *)
Definition build (cfg : ClientAuthConfig) : result Authenticator string :=
  match ca_mode cfg with
  | ModeNone => Ok NoneAuthenticator
  | ModeStatic =>
      let? current := ok_or (non_empty (ca_static_token cfg))
                        "quic.auth.mode = static requires a non-empty static_token" in
      Ok (StaticAuthenticator current (non_empty (ca_previous_token cfg)))
  | ModeSaToken => build_sa_token cfg
  end.

(** [ClientAuthenticator::authenticate]. *)
Definition authenticate (a : Authenticator) (token : option string) : result unit AuthReject :=
  match a with
  | NoneAuthenticator => Ok ()
  | StaticAuthenticator current previous =>
      let? presented := ok_or token (AuthReject_new "missing client auth token") in
      let bytes := bytes_of presented in
      if ct_eq bytes (bytes_of current) then Ok ()
      else if match previous with Some p => ct_eq bytes (bytes_of p) | None => false end then Ok ()
      else Err (AuthReject_new "client auth token rejected")
  | SaTokenAuthenticator verify =>
      let? presented := ok_or token (AuthReject_new "missing client auth token") in
      map_err AuthReject_new (verify presented)
  end.
End auth.

(** ** The session server ([fabricd/src/main.rs]) *)

Record Shared := {
  sh_table : gmap string TenantResourceBinding;
  sh_max_statement_timeout_ms : Z;
  sh_auth_failures : Z
}.

(** [Shared::record_auth_failure] (the state change; the returned total only feeds a log line). *)
Definition record_auth_failure (sh : Shared) : Shared :=
  {| sh_table := sh_table sh; sh_max_statement_timeout_ms := sh_max_statement_timeout_ms sh;
     sh_auth_failures := fetch_add_u64 (sh_auth_failures sh) 1 |}.

Section serve.
Context {World DbB MongoB MailB RedisB AuthB AmqB : Type}.
Context `{!JsonText} `{!Drivers World DbB MongoB MailB RedisB AuthB AmqB}.
Context `{!ConstantTimeEq} `{!Codec WireRequest} `{!Codec WireResponse}.
(** A backend task that panics instead of answering, with the join error's text. *)
Context (task_panic : WireCall → World → option string).

Local Abbreviation BSet := (@BackendSet DbB MongoB MailB RedisB AuthB AmqB).

(** [dispatch]. *)
Definition dispatch (b : BSet) (call : WireCall) (w : World) : WireResponse * BSet * World :=
  match task_panic call w with
  | Some join_err => (ProtocolError ("backend task failed: " +:+ join_err), b, w)
  | None => let '(r, b', w') := backend_call b (wc_name call) (wc_action call) (wc_payload call) w in
            (Reply r, b', w')
  end.

(** The [match request] of the session loop. *)
Definition respond (b : BSet) (request : WireRequest) (w : World) : WireResponse * BSet * World :=
  match request with
  | ReqCall call => dispatch b call w
  | ReqDrain => (RespMetrics (metrics b), b, w)
  | ReqInit _ => (ProtocolError "Init already received for this session", b, w)
  end.

(** The [while let Some(request) = read_frame(..)?] loop; [fuel] bounds the frames still to read
    (each takes at least four bytes, see [serve_loop_fuel]). *)
Fixpoint serve_loop (fuel : nat) (b : BSet) (r : Reader) (wr : Writer) (w : World)
    : result unit IoError * Writer * World :=
  match fuel with
  | O => (Ok (), wr, w)
  | S fuel' =>
      match read_frame (T := WireRequest) r with
      | Err e => (Err e, wr, w)
      | Ok (None, _) => (Ok (), wr, w)
      | Ok (Some request, r1) =>
          let '(response, b1, w1) := respond b request w in
          match write_frame wr response with
          | (Err e, wr1) => (Err e, wr1, w1)
          | (Ok _, wr1) => serve_loop fuel' b1 r1 wr1 w1
          end
      end
  end.

(** Everything between the [Init] frame and the loop: authenticate, resolve, clamp, build. *)
Definition open_session (sh : Shared) (auth : Authenticator) (init : WireInit)
    : result BSet (string * string) * Shared :=
  match authenticate auth (wi_token init) with
  | Err reject => (Err (rej_code reject, rej_message reject), record_auth_failure sh)
  | Ok _ =>
      match resolve (sh_table sh) init with
      | Err err => (Err (resolve_code err, resolve_message err), sh)
      | Ok resolved =>
          let resolved := clamp_db_statement_timeout resolved (sh_max_statement_timeout_ms sh) in
          let deps := {| deps_breaker := None; deps_timeout := wi_timeout_ms init |} in
          (Ok (from_configs resolved deps), sh)
      end
  end.

(** [serve]: the session's result, what it wrote, the daemon's shared state and the world. *)
Definition serve (r : Reader) (wr : Writer) (sh : Shared) (auth : Authenticator) (w : World)
    : result unit IoError * Writer * Shared * World :=
  match read_frame (T := WireRequest) r with
  | Err e => (Err e, wr, sh, w)
  | Ok (None, _) => (Ok (), wr, sh, w)
  | Ok (Some (ReqCall _ | ReqDrain), _) =>
      let '(res, wr1) := write_frame wr (ProtocolError "expected Init as the first frame") in
      (res, wr1, sh, w)
  | Ok (Some (ReqInit init), r1) =>
      match open_session sh auth init with
      | (Err (code, message), sh1) =>
          let '(res, wr1) := write_frame wr (InitError code message) in (res, wr1, sh1, w)
      | (Ok backends, sh1) =>
          match write_frame wr Ack with
          | (Err e, wr1) => (Err e, wr1, sh1, w)
          | (Ok _, wr1) =>
              let '(res, wr2, w1) := serve_loop (S (length (r_avail r1))) backends r1 wr1 w in
              (res, wr2, sh1, w1)
          end
      end
  end.

(** ** Abstract specification: a session as a function on messages *)

(** One answer per request, in order. *)
Fixpoint answers (b : BSet) (requests : list WireRequest) (w : World)
    : list WireResponse * World :=
  match requests with
  | [] => ([], w)
  | q :: rest =>
      let '(a, b1, w1) := respond b q w in
      let '(l, w2) := answers b1 rest w1 in (a :: l, w2)
  end.

(** Is the request a session open? *)
Definition is_init (q : WireRequest) : bool := match q with ReqInit _ => true | _ => false end.

(** A whole session: the first message must open it. *)
Definition session (sh : Shared) (auth : Authenticator) (requests : list WireRequest) (w : World)
    : list WireResponse * Shared * World :=
  match requests with
  | [] => ([], sh, w)
  | ReqInit init :: rest =>
      match open_session sh auth init with
      | (Err (code, message), sh1) => ([InitError code message], sh1, w)
      | (Ok b, sh1) => let '(l, w1) := answers b rest w in (Ack :: l, sh1, w1)
      end
  | _ :: _ => ([ProtocolError "expected Init as the first frame"], sh, w)
  end.
End serve.

(** ** Lemmas *)

Lemma read_exact_length n r l r' :
  read_exact n r = Ok (l, r') → (length (r_avail r') + n = length (r_avail r))%nat.
Proof. unfold read_exact. case_decide; intros; simplify_eq/=. rewrite length_drop. lia. Qed.

Lemma read_frame_consumes {T} `{Codec T} r (v : T) r' :
  read_frame r = Ok (Some v, r') → (length (r_avail r') + 4 ≤ length (r_avail r))%nat.
Proof.
  unfold read_frame. intros Hr.
  destruct (read_exact 4 r) as [[l r1]|e] eqn:E1; [|by case_match].
  case_decide; [done|].
  destruct (read_exact _ r1) as [[l2 r2]|e] eqn:E2; [|done].
  apply read_exact_length in E1, E2. case_match; simplify_eq. lia.
Qed.

(** A rejection always carries the one code. *)
Lemma authenticate_code `{!ConstantTimeEq} auth token reject :
  authenticate auth token = Err reject → rej_code reject = "UNAUTHENTICATED".
Proof.
  destruct auth as [|cur prev|v]; simpl; [done| |]; destruct token as [tok|]; simpl;
    try (by intros [= <-]).
  - intros Hr. by destruct_matches.
  - by destruct (v tok); intros [= <-].
Qed.

Section serve_lemmas.
Context {World DbB MongoB MailB RedisB AuthB AmqB : Type}.
Context `{!JsonText} `{!Drivers World DbB MongoB MailB RedisB AuthB AmqB}.
Context `{!ConstantTimeEq} `{!Codec WireRequest} `{!Codec WireResponse}.
Context (task_panic : WireCall → World → option string).
Local Abbreviation BSet := (@BackendSet DbB MongoB MailB RedisB AuthB AmqB).
Implicit Types (b : BSet) (w : World).

(** Enough fuel: the loop has read its whole input before the fuel runs out. *)
Lemma serve_loop_fuel f1 f2 b r wr w :
  (length (r_avail r) < f1)%nat → (length (r_avail r) < f2)%nat →
  serve_loop task_panic f1 b r wr w = serve_loop task_panic f2 b r wr w.
Proof.
  revert f2 b r wr w. induction f1 as [|f1 IH]; intros [|f2] b r wr w H1 H2; try lia.
  cbn [serve_loop]. destruct (read_frame r) as [[[q|] r1]|e] eqn:Er; [|done|done].
  apply read_frame_consumes in Er.
  destruct (respond task_panic b q w) as [[a b1] w1].
  destruct (write_frame wr a) as [[[]|e] wr1]; [|done]. apply IH; lia.
Qed.

Lemma answers_length b reqs w : length (answers task_panic b reqs w).1 = length reqs.
Proof.
  revert b w. induction reqs as [|q reqs IH]; intros b w; [done|]. cbn [answers].
  destruct (respond task_panic b q w) as [[a b1] w1]. specialize (IH b1 w1).
  destruct (answers task_panic b1 reqs w1). simpl in *. by rewrite IH.
Qed.

Lemma serve_loop_answers fuel b reqs bss rbs wr w tl :
  Forall2 frameable reqs bss → Forall2 frameable (answers task_panic b reqs w).1 rbs →
  w_room wr = None → w_flush wr = None → (length reqs < fuel)%nat → tl = None →
  serve_loop task_panic fuel b
    {| r_avail := concat (frame_bytes <$> bss); r_tail := tl |} wr w =
  (Ok (), {| w_sent := w_sent wr ++ concat (frame_bytes <$> rbs); w_room := None;
             w_flush := None |}, (answers task_panic b reqs w).2).
Proof.
  intros Hq. revert fuel b rbs wr w.
  induction Hq as [|q bs reqs bss Hq1 Hq IH]; intros fuel b rbs wr w Ha Hroom Hfl Hf ->;
    destruct fuel as [|fuel]; cbn [length] in Hf; try lia.
  - inversion_clear Ha. cbn [serve_loop].
    rewrite read_frame_eof by (simpl; done || lia). destruct wr; simpl in *. subst.
    by rewrite app_nil_r.
  - cbn [serve_loop answers] in *. rewrite fmap_cons. cbn [concat].
    rewrite read_frame_ok with (v := q) by done.
    destruct (respond task_panic b q w) as [[a b1] w1].
    specialize (IH fuel b1). destruct (answers task_panic b1 reqs w1) as [l w2] eqn:El.
    simpl in Ha. inversion_clear Ha as [|? ? ? rbs' Ha1 Ha2].
    rewrite (write_frame_ok wr a y) by done.
    rewrite (IH rbs' _ w1); rewrite ?El; try done; [|lia].
    cbn [w_sent]. by rewrite fmap_cons, <-app_assoc.
Qed.
Lemma frames_length {T} `{Codec T} (vs : list T) bss :
  Forall2 frameable vs bss → (length vs ≤ length (concat (frame_bytes <$> bss)))%nat.
Proof.
  intros Hall. induction Hall as [|q b reqs bss Hq Hall IH]; [simpl; lia|].
  rewrite fmap_cons. cbn [concat length]. rewrite length_app.
  unfold frame_bytes at 1. rewrite length_app, length_le_bytes. lia.
Qed.

(** A session that opens: the acknowledgement, then one answer per request. *)
Lemma serve_opened sh sh1 auth init bs reqs bss ab rbs b wr w :
  frameable (ReqInit init) bs → Forall2 frameable reqs bss →
  open_session sh auth init = (Ok b, sh1) →
  frameable Ack ab → Forall2 frameable (answers task_panic b reqs w).1 rbs →
  w_room wr = None → w_flush wr = None →
  serve task_panic {| r_avail := concat (frame_bytes <$> (bs :: bss)); r_tail := None |} wr sh auth w =
  (Ok (), {| w_sent := w_sent wr ++ concat (frame_bytes <$> (ab :: rbs)); w_room := None;
             w_flush := None |}, sh1, (answers task_panic b reqs w).2).
Proof.
  intros Hi Hreq Ho Hack Hans Hroom Hfl. rewrite fmap_cons. cbn [concat]. unfold serve.
  rewrite read_frame_ok with (v := ReqInit init), Ho, (write_frame_ok wr Ack ab) by done.
  pose proof (frames_length reqs bss Hreq). cbn [r_avail].
  rewrite (serve_loop_answers _ b reqs bss rbs) by (done || lia).
  cbn [w_sent]. by rewrite fmap_cons, <-app_assoc.
Qed.
End serve_lemmas.

(** ** Properties *)

Section properties.
Context {World DbB MongoB MailB RedisB AuthB AmqB : Type}.
Context `{!JsonText} `{!Drivers World DbB MongoB MailB RedisB AuthB AmqB}.
Context `{!ConstantTimeEq} `{!Codec WireRequest} `{!Codec WireResponse}.
Context (task_panic : WireCall → World → option string).
Local Abbreviation BSet := (@BackendSet DbB MongoB MailB RedisB AuthB AmqB).

(** C12: the byte-level server refines the message-level session.  Fed the frames of any request
    sequence, [serve] writes exactly the frames of the answers the session specification gives,
    in order, and leaves the daemon and the outside world as the specification says. *)
Theorem serve_refines_session (sh : Shared) (auth : Authenticator) (reqs : list WireRequest)
    (bss rbs : list (list ascii)) (wr : Writer) (w : World)
    (Hreq : Forall2 frameable reqs bss)
    (Hans : Forall2 frameable (session task_panic sh auth reqs w).1.1 rbs)
    (Hroom : w_room wr = None) (Hfl : w_flush wr = None) :
  let '(_, sh', w') := session task_panic sh auth reqs w in
  serve task_panic {| r_avail := concat (frame_bytes <$> bss); r_tail := None |} wr sh auth w =
  (Ok (), {| w_sent := w_sent wr ++ concat (frame_bytes <$> rbs); w_room := None;
             w_flush := None |}, sh', w').
Proof.
  destruct Hreq as [|q bs reqs bss Hq Hreq].
  { simpl in *. inversion Hans. unfold serve. rewrite read_frame_eof by (simpl; done || lia).
    destruct wr; simpl in *; subst. by rewrite app_nil_r. }
  destruct q as [init|call|]; cbn [session] in *;
    [|rewrite fmap_cons; cbn [concat]; unfold serve; rewrite read_frame_ok with (v := ReqCall call) by done
     |rewrite fmap_cons; cbn [concat]; unfold serve; rewrite read_frame_ok with (v := ReqDrain) by done];
    [|inversion_clear Hans as [|? y ? ? H1 H2]; inversion H2; simplify_eq;
      rewrite (write_frame_ok wr _ y) by done; simpl; by rewrite app_nil_r..].
  destruct (open_session sh auth init) as [[b|[code msg]] sh1] eqn:Ho.
  - destruct (answers task_panic b reqs w) as [l w1] eqn:El. simpl in Hans.
    inversion_clear Hans as [|? y ? rbs' H1 H2].
    by rewrite (serve_opened task_panic sh sh1 auth init bs reqs bss y rbs' b), El by (rewrite ?El; done).
  - inversion_clear Hans as [|? y ? ? H1 H2]. inversion H2; simplify_eq.
    rewrite fmap_cons. cbn [concat]. unfold serve.
    rewrite read_frame_ok with (v := ReqInit init), Ho, (write_frame_ok wr _ y) by done. simpl. by rewrite app_nil_r.
Qed.

(** Authentication comes before the credential table.  A session whose token is rejected gets
    exactly one [InitError UNAUTHENTICATED], no backend is built or called, the failure counter
    goes up by one, and the answer does not depend on the table. *)
Theorem serve_rejects_unauthenticated (r r1 : Reader) (wr : Writer) (sh : Shared)
    (auth : Authenticator) (init : WireInit) (reject : AuthReject) (w : World)
    (Hinit : read_frame r = Ok (Some (ReqInit init), r1))
    (Hrej : authenticate auth (wi_token init) = Err reject) :
  let '(res, wr1) := write_frame wr (InitError "UNAUTHENTICATED" (rej_message reject)) in
  (∀ table, serve task_panic r wr
     {| sh_table := table; sh_max_statement_timeout_ms := sh_max_statement_timeout_ms sh;
        sh_auth_failures := sh_auth_failures sh |} auth w =
   (res, wr1, {| sh_table := table;
                 sh_max_statement_timeout_ms := sh_max_statement_timeout_ms sh;
                 sh_auth_failures := fetch_add_u64 (sh_auth_failures sh) 1 |}, w)).
Proof.
  pose proof (authenticate_code _ _ _ Hrej) as Hcode.
  destruct (write_frame wr (InitError "UNAUTHENTICATED" (rej_message reject))) as [res wr1] eqn:Ew.
  intros table. unfold serve. rewrite Hinit. unfold open_session. rewrite Hrej, Hcode. by rewrite Ew.
Qed.

(** Session discipline.  After a successful open every request gets exactly one answer, a
    repeated [Init] is answered by a protocol error, and repeated [Init]s neither change what the
    backends do nor reach the outside world. *)
Theorem session_discipline (b : BSet) (reqs : list WireRequest) (w : World) :
  length (answers task_panic b reqs w).1 = length reqs ∧
  (∀ i init, reqs !! i = Some (ReqInit init) →
     (answers task_panic b reqs w).1 !! i =
     Some (ProtocolError "Init already received for this session")) ∧
  (answers task_panic b reqs w).2 =
  (answers task_panic b (filter (λ q, is_init q = false) reqs) w).2.
Proof.
  split; [apply answers_length|].
  revert b w. induction reqs as [|q reqs IH]; intros b w; [done|].
  rewrite filter_cons. cbn [answers].
  destruct (respond task_panic b q w) as [[a b1] w1] eqn:Er.
  destruct (IH b1 w1) as [IH1 IH2]. destruct (answers task_panic b1 reqs w1) as [l w2] eqn:El.
  split.
  - intros [|i] init Hi; simpl in *; [simplify_eq/=; done|]. by apply (IH1 i init).
  - simpl in IH2. destruct q as [i|c|]; simpl in Er; simplify_eq.
    + by rewrite decide_False.
    + rewrite decide_True by done. cbn [answers respond]. rewrite Er. by case_match.
    + rewrite decide_True by done. cbn [answers respond]. by case_match.
Qed.
End properties.

(** Static-token authentication is exact.  An authenticator built in mode [static] accepts a
    token if and only if it is the configured current secret or the configured previous one, and
    an empty secret in the configuration never authenticates anybody. *)
Theorem static_auth_exact `{!ConstantTimeEq} (spawn : SaTokenVerifyConfig → result Verifier string)
    (cfg : ClientAuthConfig) (auth : Authenticator) (token : option string)
    (Hmode : ca_mode cfg = ModeStatic) (Hbuild : build spawn cfg = Ok auth) :
  authenticate auth token = Ok () ↔
  ∃ t, token = Some t ∧ t ≠ EmptyString ∧
       (ca_static_token cfg = Some t ∨ ca_previous_token cfg = Some t).
Proof.
  unfold build in Hbuild. rewrite Hmode in Hbuild.
  assert (∀ o s, non_empty o = Some s ↔ o = Some s ∧ s ≠ EmptyString) as Hne.
  { intros [[|a s0]|] s; simpl; naive_solver. }
  destruct (non_empty (ca_static_token cfg)) as [cur|] eqn:Ec; simplify_eq/=.
  apply Hne in Ec as [Ec Hc].
  destruct token as [t|]; simpl; [|naive_solver].
  destruct (ct_eq (bytes_of t) (bytes_of cur)) eqn:E1.
  { apply ct_eq_spec in E1. apply (inj bytes_of) in E1. naive_solver. }
  assert (t ≠ cur) as Hne1 by (intros ->; by rewrite (proj2 (ct_eq_spec _ _)) in E1).
  destruct (non_empty (ca_previous_token cfg)) as [prev|] eqn:Ep.
  - apply Hne in Ep as [Ep Hp].
    destruct (ct_eq (bytes_of t) (bytes_of prev)) eqn:E2.
    + apply ct_eq_spec, (inj bytes_of) in E2. naive_solver.
    + assert (t ≠ prev) by (intros ->; by rewrite (proj2 (ct_eq_spec _ _)) in E2). naive_solver.
  - split; [done|]. intros (t' & Ht & Hnonempty & [Hcur|Hprev]); simplify_eq/=.
    exfalso. assert (non_empty (ca_previous_token cfg) = Some t'); [|congruence].
    by apply Hne.
Qed.

(** ** Witnesses *)

#[local] Instance plain_eq : ConstantTimeEq := {|
  slice_ct_eq l r := bool_decide (l = r);
  slice_ct_eq_spec l r _ := bool_decide_eq_true _
|}.

(** A driver that logs what it does to the world. *)
#[local] Instance log_backend (kind : string) Cfg M : Backend (list string) Cfg string unit M := {|
  b_connect _ _ w := (Ok (), w ++ [kind +:+ " connect"]);
  b_call _ action _ w := (Ok action, (), w ++ [kind +:+ " " +:+ action]);
  b_metrics _ := []
|}.
#[local] Instance log_backend2 (kind : string) Cfg M :
  Backend (list string) Cfg (string * string) unit M := {|
  b_connect _ _ w := (Ok (), w ++ [kind +:+ " connect"]);
  b_call _ action _ w := (Ok action, (), w ++ [kind +:+ " " +:+ action]);
  b_metrics _ := []
|}.
#[local] Instance log_drivers : Drivers (list string) unit unit unit unit unit unit := {|
  drv_db := log_backend2 "db" DbConfig DbMetric;
  drv_mongo := log_backend2 "mongo" MongoConfig MongoMetric;
  drv_mail := log_backend "mail" MailConfig MailMetric;
  drv_redis := log_backend "redis" RedisConfig RedisMetric;
  drv_auth := log_backend "auth" AuthConfig AuthMetric;
  amq_new _ := ();
  amq_call _ action _ w := (Ok action, (), w ++ ["amq " +:+ action]);
  amq_drain _ := []
|}.
#[local] Instance null_json : JsonText := {|
  json_parse s := Ok (VObject []); json_print v := None; json_type_error v := "invalid type"; json_print_error _ := "unsupported" |}.

Definition demo_open : WireInit := set_token (demo_init (Some "ws_b") None (Some "cache")) (Some "s3cret").
Definition demo_call : WireCall := {| wc_name := "redis"; wc_action := "get"; wc_payload := "k" |}.

(** A codec for the messages of the witness sessions. *)
Definition demo_req_bytes (q : WireRequest) : string :=
  match q with ReqInit _ => "I" | ReqCall _ => "C" | ReqDrain => "D" end.
Definition demo_req_of (bs : list ascii) : option WireRequest :=
  if decide (bs = bytes_of "I") then Some (ReqInit demo_open)
  else if decide (bs = bytes_of "C") then Some (ReqCall demo_call)
  else if decide (bs = bytes_of "D") then Some ReqDrain else None.
Definition demo_req_ok (q : WireRequest) : Prop :=
  match q with ReqInit i => i = demo_open | ReqCall c => c = demo_call | ReqDrain => True end.
Lemma demo_req_roundtrip v bs :
  demo_req_ok v → Some (bytes_of (demo_req_bytes v)) = Some bs → demo_req_of bs = Some v.
Proof. intros Hok [= <-]. destruct v; simpl in *; subst; reflexivity. Qed.
#[local] Instance demo_req_codec : Codec WireRequest := {|
  to_vec v := Some (bytes_of (demo_req_bytes v)); from_slice := demo_req_of;
  codec_ok := demo_req_ok; codec_roundtrip := demo_req_roundtrip |}.

Definition demo_resp_bytes (a : WireResponse) : string :=
  match a with
  | Ack => "A" | InitError _ _ => "E" | Reply _ => "R" | RespMetrics _ => "M"
  | ProtocolError _ => "P" end.
Definition demo_resp_of (bs : list ascii) : option WireResponse :=
  if decide (bs = bytes_of "A") then Some Ack
  else if decide (bs = bytes_of "R") then Some (Reply (Ok "get"))
  else if decide (bs = bytes_of "M") then Some (RespMetrics BackendMetrics_default)
  else if decide (bs = bytes_of "E")
    then Some (InitError "UNAUTHENTICATED" "client auth token rejected") else None.
Definition demo_resp_ok (a : WireResponse) : Prop :=
  a = Ack ∨ a = Reply (Ok "get") ∨ a = RespMetrics BackendMetrics_default ∨
  a = InitError "UNAUTHENTICATED" "client auth token rejected".
Lemma demo_resp_roundtrip v bs :
  demo_resp_ok v → Some (bytes_of (demo_resp_bytes v)) = Some bs → demo_resp_of bs = Some v.
Proof. intros Hok [= <-]. destruct Hok as [-> | [-> | [-> | -> ]]]; reflexivity. Qed.
#[local] Instance demo_resp_codec : Codec WireResponse := {|
  to_vec v := Some (bytes_of (demo_resp_bytes v)); from_slice := demo_resp_of;
  codec_ok := demo_resp_ok; codec_roundtrip := demo_resp_roundtrip |}.

Definition demo_shared : Shared :=
  {| sh_table := demo_table; sh_max_statement_timeout_ms := 0; sh_auth_failures := 7 |}.
Definition demo_writer : Writer := {| w_sent := []; w_room := None; w_flush := None |}.

Definition demo_panic (c : WireCall) (w : list string) : option string := None.

Lemma serve_refines_session_witness :
  serve demo_panic
    {| r_avail := concat (frame_bytes <$> [bytes_of "I"; bytes_of "C"]); r_tail := None |}
    demo_writer demo_shared (StaticAuthenticator "s3cret" None) [] =
  (Ok (), {| w_sent := concat (frame_bytes <$> [bytes_of "A"; bytes_of "R"]);
             w_room := None; w_flush := None |}, demo_shared, ["redis connect"; "redis get"]).
Proof.
  refine (serve_refines_session demo_panic demo_shared (StaticAuthenticator "s3cret" None)
    [ReqInit demo_open; ReqCall demo_call] [bytes_of "I"; bytes_of "C"]
    [bytes_of "A"; bytes_of "R"] demo_writer [] _ _ eq_refl eq_refl).
  - repeat constructor; vm_compute; discriminate.
  - assert ((session demo_panic demo_shared (StaticAuthenticator "s3cret" None)
      [ReqInit demo_open; ReqCall demo_call] []).1.1 = [Ack; Reply (Ok "get")]) as ->
      by (vm_compute; reflexivity).
    constructor; [|constructor; [|constructor]];
      (split; [unfold codec_ok, demo_resp_codec, demo_resp_ok; tauto|]);
      (split; [reflexivity|vm_compute; discriminate]).
Defined.

Lemma serve_rejects_unauthenticated_witness :
  ∃ wr1, serve demo_panic
    {| r_avail := frame_bytes (bytes_of "I"); r_tail := None |}
    demo_writer demo_shared (StaticAuthenticator "rotated" None) [] =
  (Ok (), wr1, {| sh_table := demo_table; sh_max_statement_timeout_ms := 0;
                  sh_auth_failures := 8 |}, []).
Proof.
  eexists.
  refine (serve_rejects_unauthenticated demo_panic
    {| r_avail := frame_bytes (bytes_of "I"); r_tail := None |}
    {| r_avail := []; r_tail := None |} demo_writer demo_shared
    (StaticAuthenticator "rotated" None) demo_open
    (AuthReject_new "client auth token rejected") [] _ _ demo_table); vm_compute; reflexivity.
Defined.

(** A second [Init] between two calls changes nothing of what the calls do. *)
Lemma session_discipline_witness :
  let b := from_configs {| rc_db := None; rc_mongo := None; rc_mail := None; rc_redis := None;
                           rc_amq := None; rc_auth := None |}
             {| deps_breaker := None; deps_timeout := 0 |} in
  (answers demo_panic b [ReqCall demo_call; ReqInit demo_open; ReqDrain] []).2 =
  (answers demo_panic b [ReqCall demo_call; ReqDrain] []).2.
Proof. intros b. exact (proj2 (proj2 (session_discipline demo_panic b _ []))). Defined.

Lemma static_auth_exact_witness :
  authenticate (StaticAuthenticator "new" (Some "old")) (Some "old") = Ok ().
Proof.
  apply (static_auth_exact (λ _, Err "no jwks")
    {| ca_mode := ModeStatic; ca_static_token := Some "new"; ca_previous_token := Some "old";
       ca_audience := None; ca_issuer := None; ca_jwks_url := None; ca_ca_cert := None;
       ca_jwks_refresh_secs := None |} (StaticAuthenticator "new" (Some "old")) (Some "old"));
    [reflexivity|reflexivity|].
  exists "old". repeat split; [discriminate|]. right. reflexivity.
Defined.
