(* ===== verification/SaToken.v ===== *)
(** * SaToken: offline verification of service-account tokens

    Models [fabric-backends/src/sa_token.rs]: the verifier, its key cache behind a lock, the
    construction of the HTTP client, the background task that refetches the key set, and the
    authenticator of [fabricd/src/auth.rs] that defers to it.  JWT decoding, the key-set format and
    the HTTP client are third-party: the classes [Jwt] and [JwksHttp].

    The refresh task and the verifications of sessions interleave; [reached] is the cache after any
    interleaving, with the results of the fetches so far. *)

From Stdlib Require Import Ascii.
From S2P Require Import Prelude Json Errors Wire Runtime Fabricd.
Local Open Scope Z_scope.

(** ** Interfaces *)

(** [jsonwebtoken::Validation] and what [Validation::new] sets: the expiry is required and checked
    with a minute of leeway, nothing else is required. *)
Inductive Algorithm := RS256 | OtherAlgorithm (name : string).
Record Validation := {
  va_algorithms : list Algorithm; va_required_spec_claims : list string; va_leeway : Z;
  va_validate_exp : bool; va_aud : option (list string); va_iss : option (list string) }.
#[export] Instance Algorithm_eq_dec : EqDecision Algorithm.
Proof. solve_decision. Defined.
#[export] Instance Validation_eq_dec : EqDecision Validation.
Proof. solve_decision. Defined.
Definition Validation_new (alg : Algorithm) : Validation :=
  {| va_algorithms := [alg]; va_required_spec_claims := ["exp"]; va_leeway := 60;
     va_validate_exp := true; va_aud := None; va_iss := None |}.
Definition set_audience (v : Validation) (items : list string) : Validation :=
  {| va_algorithms := va_algorithms v; va_required_spec_claims := va_required_spec_claims v;
     va_leeway := va_leeway v; va_validate_exp := va_validate_exp v; va_aud := Some items;
     va_iss := va_iss v |}.
Definition set_issuer (v : Validation) (items : list string) : Validation :=
  {| va_algorithms := va_algorithms v; va_required_spec_claims := va_required_spec_claims v;
     va_leeway := va_leeway v; va_validate_exp := va_validate_exp v; va_aud := va_aud v;
     va_iss := Some items |}.

(** The registered claims of a token, as far as they are present. *)
Record Claims := { cl_exp : option Z; cl_aud : option (list string); cl_iss : option string }.

(** What a validation demands of claims at time [now].  An audience or issuer is compared when the
    token carries one; only a claim that is listed as required must be there. *)
Definition claims_ok (v : Validation) (now : Z) (c : Claims) : Prop :=
  ("exp" ∈ va_required_spec_claims v → is_Some (cl_exp c)) ∧
  ("aud" ∈ va_required_spec_claims v → is_Some (cl_aud c)) ∧
  ("iss" ∈ va_required_spec_claims v → is_Some (cl_iss c)) ∧
  (va_validate_exp v = true → ∀ e, cl_exp c = Some e → now - va_leeway v ≤ e) ∧
  (∀ items l, va_aud v = Some items → cl_aud c = Some l → ∃ a, a ∈ l ∧ a ∈ items) ∧
  (∀ items i, va_iss v = Some items → cl_iss c = Some i → i ∈ items).

(** [jsonwebtoken]: headers, keys and decoding against the clock.  A decoded token is signed under the
    key with an algorithm of the validation, and its claims pass. *)
Class Jwt (World Key Jwk : Type) := {
  jwt_now : World → Z;
  decode_header : string → result (option string) string;
  jwt_decode : string → Key → Validation → World → result Value string;
  from_jwk : Jwk → result Key string;
  jwk_key_id : Jwk → option string;
  de_jwk_set : Value → option (list Jwk);
  jwt_claims : string → Claims;
  signed_by : string → Key → Algorithm → Prop;
  jwt_decode_sound token key v w c :
    jwt_decode token key v w = Ok c →
    (∃ alg, alg ∈ va_algorithms v ∧ signed_by token key alg) ∧ claims_ok v (jwt_now w) (jwt_claims token)
}.

(** [reqwest]: the client and its requests; a response is a status and the outcome of reading its
    body.  [fs_read] is [std::fs::read].  Instants never go back; a sleep lasts as long as asked. *)
Class JwksHttp (World Client Cert : Type) `{!Clock World} := {
  fs_read : string → World → result string string;
  from_pem_bundle : string → result (list Cert) string;
  client_build : list Cert → result Client string;
  jwks_send : Client → string → Act World (result (Z * result string string) string);
  jwks_decode_error : string → string;
  status_text : Z → string;
  sleep : Z → Act World ();
  jwks_send_monotonic c url w : instant w ≤ instant (jwks_send c url w).2;
  sleep_lasts d w : instant w + d ≤ instant (sleep d w).2
}.

(** ** Faults *)

Definition SA_TOKEN_UNAVAILABLE : Fault :=
  Fault_new "SA_TOKEN_UNAVAILABLE" true Operator.
Definition MIN_REFRESH : Z := 1.

Inductive VerifyError :=
  | KeysNotLoaded | MissingKid | UnknownKid | Invalid (reason : string) | VerifyInternal.

(** The [Display] of the error. *)
Definition verify_error_text (e : VerifyError) : string :=
  match e with
  | KeysNotLoaded => "sa-token verifier not ready (JWKS not loaded)"
  | MissingKid => "token header missing kid"
  | UnknownKid => "no JWKS key matches the token kid"
  | Invalid reason => "token invalid: " +:+ reason
  | VerifyInternal => "internal verifier error"
  end.

(** [client_error]. *)
Definition client_error (message : string) : EgressError :=
  {| ee_code := fault_code SA_TOKEN_UNAVAILABLE; ee_message := message; ee_source := "sa-token";
     ee_details := None; ee_retryable := fault_retryable SA_TOKEN_UNAVAILABLE;
     ee_owner := fault_owner SA_TOKEN_UNAVAILABLE |}.

(** The verifier and the [RwLock] it shares with the refresh task. *)
Record JwksVerifier (Key : Type) := {
  jv_keys : option (gmap string Key); jv_poisoned : bool; jv_audience : string; jv_issuer : string }.
Arguments jv_keys {Key} _. Arguments jv_poisoned {Key} _. Arguments jv_audience {Key} _.
Arguments jv_issuer {Key} _.
Definition set_keys {Key} (v : JwksVerifier Key) (keys : option (gmap string Key)) : JwksVerifier Key :=
  {| jv_keys := keys; jv_poisoned := jv_poisoned v; jv_audience := jv_audience v;
     jv_issuer := jv_issuer v |}.

(** The arguments of the refresh task; the interval in seconds. *)
Record RefreshTask (Client : Type) := {
  rt_client : Client; rt_issuer : string; rt_jwks_url : option string; rt_interval : Z }.
Arguments rt_client {Client} _. Arguments rt_issuer {Client} _. Arguments rt_jwks_url {Client} _.
Arguments rt_interval {Client} _.

Section sa_token.
Context {World Client Cert Key Jwk : Type} `{!JsonText} `{!Clock World}.
Context `{!JwksHttp World Client Cert} `{!Jwt World Key Jwk}.
Local Abbreviation KeyMap := (gmap string Key).

(** ** Building and verifying *)

(** [build_client]. *)
Definition build_client (ca_cert : option string) (w : World) : result Client EgressError :=
  let? certs := match ca_cert with
    | None => Ok []
    | Some path =>
        let? pem := map_err (λ err, client_error ("read ca_cert " +:+ path +:+ ": " +:+ err)) (fs_read path w) in
        map_err (λ err, client_error ("parse ca_cert bundle: " +:+ err)) (from_pem_bundle pem)
    end in
  map_err (λ err, client_error ("build JWKS client: " +:+ err)) (client_build certs).

(** [JwksVerifier::spawn]: the verifier, and the task it starts. *)
Definition JwksVerifier_spawn (config : SaTokenVerifyConfig) (w : World)
    : result (JwksVerifier Key * RefreshTask Client) EgressError :=
  let? client := build_client (sv_ca_cert config) w in
  Ok ({| jv_keys := None; jv_poisoned := false; jv_audience := sv_audience config;
         jv_issuer := sv_issuer config |},
      {| rt_client := client; rt_issuer := sv_issuer config; rt_jwks_url := sv_jwks_url config;
         rt_interval := Z.max (sv_refresh config) MIN_REFRESH |}).

(** [JwksVerifier::validation]. *)
Definition validation (audience issuer : string) : Validation :=
  set_issuer (set_audience (Validation_new RS256) [audience]) [issuer].

(** [JwksVerifier::verify]. *)
Definition verify (v : JwksVerifier Key) (token : string) (w : World) : result () VerifyError :=
  let? header_kid := map_err Invalid (decode_header token) in
  let? kid := ok_or header_kid MissingKid in
  let? map := if jv_poisoned v then Err VerifyInternal else ok_or (jv_keys v) KeysNotLoaded in
  let? key := ok_or (map !! kid) UnknownKid in
  let? _ := map_err Invalid (jwt_decode token key (validation (jv_audience v) (jv_issuer v)) w) in
  Ok ().

(** ** Refreshing *)

(** [build_key_map]. *)
Definition build_key_map (set : list Jwk) : KeyMap :=
  foldl (λ map jwk,
    match jwk_key_id jwk with
    | None => map
    | Some kid => match from_jwk jwk with Ok key => <[kid := key]> map | Err _ => map end
    end) ∅ set.

(** [get_json]. *)
Definition get_json {T} (de : Value → option T) (client : Client) (url : string)
    : Act World (result T string) :=
  let!? response := (λ w, let '(r, w') := jwks_send client url w in
                       (map_err (λ err, "GET " +:+ url +:+ " failed: " +:+ err) r, w')) in
  let '(status, body) := response in
  if decide (¬ (200 ≤ status < 300)) then
    act_ret (Err ("GET " +:+ url +:+ " returned " +:+ status_text status))
  else
    act_ret (map_err (λ err, "decode " +:+ url +:+ " failed: " +:+ err)
      (let? text := body in map_err jwks_decode_error (from_str de text))).

(** [discover_jwks_url]. *)
Definition discover_jwks_url (client : Client) (issuer : string) : Act World (result string string) :=
  let base := trim_end_matches "/"%char issuer in
  let!? doc := get_json de_map_value client (base +:+ "/.well-known/openid-configuration") in
  act_ret (ok_or (text ← value_get "jwks_uri" doc; t ← as_str text; if nonempty t then Some t else None)
             "discovery document has no jwks_uri").

(** [fetch_keys]. *)
Definition fetch_keys (t : RefreshTask Client) : Act World (result KeyMap string) :=
  let!? url := match rt_jwks_url t with
    | Some explicit => act_ret (Ok explicit)
    | None => discover_jwks_url (rt_client t) (rt_issuer t)
    end in
  let!? set := get_json de_jwk_set (rt_client t) url in
  act_ret (Ok (build_key_map set)).

(** The swap of the cache in [refresh_loop]. *)
Definition swap_keys (r : result KeyMap string) (v : JwksVerifier Key) : JwksVerifier Key :=
  match r with
  | Ok map => if jv_poisoned v then v else set_keys v (Some map)
  | Err _ => v
  end.

(** One turn of [refresh_loop] up to its sleep; it also reports what was fetched. *)
Definition refresh_turn (t : RefreshTask Client) (v : JwksVerifier Key)
    : Act World (result KeyMap string * JwksVerifier Key) :=
  let! r := fetch_keys t in act_ret (r, swap_keys r v).

(** The loop for a number of turns. *)
Fixpoint refresh_loop (turns : nat) (t : RefreshTask Client) (v : JwksVerifier Key)
    : Act World (JwksVerifier Key) :=
  match turns with
  | O => act_ret v
  | S turns' =>
      let! turn := refresh_turn t v in
      let! _ := sleep (rt_interval t * 1000000000) in
      refresh_loop turns' t turn.2
  end.

(** What [SaTokenAuthenticator] sees of the verifier at one moment. *)
Definition verifier_at (v : JwksVerifier Key) (w : World) : Verifier :=
  λ token, map_err verify_error_text (verify v token w).

(** ** Interleavings *)

(** The task, the verifier and the world after some fetches, whose results are listed; in between,
    the task sleeps and anything else may happen to the world. *)
Inductive reached (config : SaTokenVerifyConfig)
  : list (result KeyMap string) → RefreshTask Client → JwksVerifier Key → World → Prop :=
  | reached_spawn w v t : JwksVerifier_spawn config w = Ok (v, t) → reached config [] t v w
  | reached_other h t v w w' : reached config h t v w → instant w ≤ instant w' → reached config h t v w'
  | reached_turn h t v w r v' w' :
      reached config h t v w → refresh_turn t v w = ((r, v'), w') → reached config (h ++ [r]) t v' w'.

(** The map of the last fetch that succeeded. *)
Definition last_fetched (h : list (result KeyMap string)) : option KeyMap :=
  last (omap (λ r, match r with Ok m => Some m | Err _ => None end) h).

(** ** Lemmas *)

(** A key is served for a [kid] when some entry of the set with that [kid] converts to it, and none
    after it does. *)
Lemma build_key_map_lookup (set : list Jwk) (kid : string) :
  build_key_map set !! kid =
  last (omap (λ jwk, if decide (jwk_key_id jwk = Some kid)
                     then match from_jwk jwk with Ok key => Some key | Err _ => None end else None) set).
Proof.
  unfold build_key_map. induction set as [|jwk set IH] using rev_ind; [done|].
  rewrite foldl_snoc, omap_app. simpl.
  destruct (jwk_key_id jwk) as [k|] eqn:Ek; simpl.
  - destruct (decide (Some k = Some kid)) as [[= ->]|Hne];
      destruct (from_jwk jwk); simpl; rewrite ?app_nil_r, ?last_snoc, <-?IH;
      [apply lookup_insert_eq|done|apply lookup_insert_ne; congruence|done].
  - rewrite app_nil_r. apply IH.
Qed.

Lemma reached_cache config h t v w :
  reached config h t v w →
  jv_keys v = last_fetched h ∧ jv_poisoned v = false ∧ jv_audience v = sv_audience config ∧
  jv_issuer v = sv_issuer config ∧ MIN_REFRESH ≤ rt_interval t.
Proof.
  induction 1 as [w v t Hs|h t v w w' _ IH|h t v w r v' w' _ IH Hturn]; [|done|].
  - unfold JwksVerifier_spawn in Hs. destruct (build_client _ _); simplify_eq/=. split_and!; try done. lia.
  - destruct IH as (Hk & Hp & Ha & Hi & Hint). unfold refresh_turn, act_bind, act_ret in Hturn.
    destruct (fetch_keys t w) as [r' w1]. simplify_eq.
    unfold last_fetched. rewrite omap_app. destruct r as [m|]; simpl.
    + rewrite Hp, last_snoc. by split_and!.
    + rewrite app_nil_r. by split_and!.
Qed.

Lemma get_json_monotonic {T} (de : Value → option T) c url w : instant w ≤ instant (get_json de c url w).2.
Proof.
  unfold get_json, act_try. pose proof (jwks_send_monotonic c url w) as Hm.
  destruct (jwks_send c url w) as [[[status body]|e] w']; simpl in *; [|done]. by case_decide.
Qed.
Lemma discover_monotonic c issuer w : instant w ≤ instant (discover_jwks_url c issuer w).2.
Proof.
  unfold discover_jwks_url, act_try.
  pose proof (get_json_monotonic de_map_value c (trim_end_matches "/"%char issuer +:+
    "/.well-known/openid-configuration") w) as Hm.
  by destruct (get_json de_map_value c _ w) as [[doc|] w1].
Qed.
Lemma refresh_turn_monotonic t v w : instant w ≤ instant (refresh_turn t v w).2.
Proof.
  unfold refresh_turn, act_bind, fetch_keys, act_try.
  destruct (rt_jwks_url t) as [url|]; simpl.
  - pose proof (get_json_monotonic de_jwk_set (rt_client t) url w) as Hm.
    by destruct (get_json de_jwk_set (rt_client t) url w) as [[] w2].
  - pose proof (discover_monotonic (rt_client t) (rt_issuer t) w) as Hd.
    destruct (discover_jwks_url (rt_client t) (rt_issuer t) w) as [[url|] w1]; simpl in *; [|done].
    pose proof (get_json_monotonic de_jwk_set (rt_client t) url w1) as Hm.
    destruct (get_json de_jwk_set (rt_client t) url w1) as [[] w2]; simpl in *; lia.
Qed.

(** However many turns, never more than one per second: a configured interval of zero does not make
    the task spin. *)
Lemma refresh_loop_rate turns t v w :
  MIN_REFRESH ≤ rt_interval t →
  instant w + Z.of_nat turns * 1000000000 ≤ instant (refresh_loop turns t v w).2.
Proof.
  intros Ht. revert v w. induction turns as [|n IH]; intros v w; simpl; [lia|].
  unfold act_bind. pose proof (refresh_turn_monotonic t v w) as H1.
  destruct (refresh_turn t v w) as [[r v'] w1]. simpl in *.
  pose proof (sleep_lasts (rt_interval t * 1000000000) w1) as H2.
  destruct (sleep _ w1) as [[] w2]. simpl in *. specialize (IH v' w2). unfold MIN_REFRESH in Ht. lia.
Qed.

(** ** Properties *)

(** C30: service-account authentication is exactly "signed by a key of the last key set fetched".  After
    any interleaving of refreshes and other activity, a session is admitted if and only if it presents
    a token whose [kid] names a key of the most recent successful fetch and which decodes under that
    key; a token that was admitted is signed with RS256 under that key, carries an expiry at most a
    minute past, and names the configured audience and issuer where it names any.  Before the first
    successful fetch, and without a token, nothing is admitted. *)
Theorem sa_token_admits_exactly `{!ConstantTimeEq} (config : SaTokenVerifyConfig)
    (h : list (result KeyMap string)) (t : RefreshTask Client) (v : JwksVerifier Key) (w : World)
    (Hreach : reached config h t v w) (presented : option string) :
  authenticate (SaTokenAuthenticator (verifier_at v w)) presented = Ok () ↔
  ∃ token kid keys key claims,
    presented = Some token ∧ decode_header token = Ok (Some kid) ∧
    last_fetched h = Some keys ∧ keys !! kid = Some key ∧
    jwt_decode token key (validation (sv_audience config) (sv_issuer config)) w = Ok claims ∧
    signed_by token key RS256 ∧
    (∃ e, cl_exp (jwt_claims token) = Some e ∧ jwt_now w ≤ e + 60) ∧
    (∀ l, cl_aud (jwt_claims token) = Some l → sv_audience config ∈ l) ∧
    (∀ i, cl_iss (jwt_claims token) = Some i → i = sv_issuer config).
Proof.
  destruct (reached_cache _ _ _ _ _ Hreach) as (Hk & Hp & Ha & Hi & _).
  unfold authenticate, verifier_at, verify. rewrite Hp, Hk, Ha, Hi. split.
  - destruct presented as [token|]; simpl; [|done].
    destruct (decode_header token) as [[kid|]|] eqn:Eh; simpl; try done.
    destruct (last_fetched h) as [keys|] eqn:El; simpl; [|done].
    destruct (keys !! kid) as [key|] eqn:Ekey; simpl; [|done].
    destruct (jwt_decode _ _ _ _) as [claims|] eqn:Ed; simpl; [|done]. intros _.
    destruct (jwt_decode_sound _ _ _ _ _ Ed) as [(alg & Halg & Hsig) (Hexp & _ & _ & Htime & Haud & Hiss)].
    apply list_elem_of_singleton in Halg. subst alg.
    exists token, kid, keys, key, claims. split_and!; try done.
    + destruct Hexp as [e He]; [by left|]. exists e. split; [done|]. specialize (Htime eq_refl e He).
      simpl in Htime. lia.
    + intros l Hl. destruct (Haud _ l eq_refl Hl) as (a & Hin & ->%list_elem_of_singleton). done.
    + intros i Hiss'. by apply list_elem_of_singleton, (Hiss _ i eq_refl Hiss').
  - intros (token & kid & keys & key & claims & -> & Eh & El & Ekey & Ed & _). simpl.
    rewrite Eh. simpl. rewrite El. simpl. rewrite Ekey. simpl. by rewrite Ed.
Qed.
End sa_token.

(** ** Witness *)

Module SaDemo.
(** One token, one key, a clock in nanoseconds. *)
#[export] Instance demo_clock : Clock Z := {| instant w := w; unix_secs w := Ok (w / 1000000000) |}.
#[export] Instance demo_json : JsonText :=
  {| json_parse _ := Ok VNull; json_print _ := None; json_type_error _ := ""; json_print_error _ := "" |}.
Definition demo_claims : Claims :=
  {| cl_exp := Some 100; cl_aud := Some ["fabricd"]; cl_iss := Some "cluster" |}.
#[export] Program Instance demo_jwt : Jwt Z nat nat := {|
  jwt_now w := w / 1000000000;
  decode_header token := Ok (Some "k1");
  jwt_decode token key v w :=
    if decide (token = "good" ∧ key = 7%nat ∧ w / 1000000000 ≤ 100 ∧ v = validation "fabricd" "cluster")
    then Ok VNull else Err "InvalidToken";
  from_jwk n := Ok n; jwk_key_id n := Some "k1"; de_jwk_set _ := Some [7%nat];
  jwt_claims _ := demo_claims;
  signed_by token key alg := token = "good" ∧ key = 7%nat ∧ alg = RS256 |}.
Next Obligation.
  intros token key v w c. simpl. case_decide as H; [|done]. destruct H as (-> & -> & Hw & ->).
  intros _. split; [exists RS256; split; [by left|done]|]. simpl.
  split_and!; [eauto..| | |].
  - intros _ e [= <-]. simpl. lia.
  - intros items l [= <-] [= <-]. exists "fabricd". split; by left.
  - intros items i [= <-] [= <-]. by left.
Qed.
#[export] Program Instance demo_http : JwksHttp Z () () := {|
  fs_read _ _ := Ok ""; from_pem_bundle _ := Ok []; client_build _ := Ok ();
  jwks_send _ url w := (Ok (200, Ok "{}"), w + 1000); jwks_decode_error e := e; status_text _ := "";
  sleep d w := ((), w + d) |}.
Next Obligation. simpl. lia. Qed.
Next Obligation. simpl. lia. Qed.
#[export] Program Instance demo_ct : ConstantTimeEq := {| slice_ct_eq a b := bool_decide (a = b) |}.
Next Obligation. intros l r _. apply bool_decide_eq_true. Qed.

Definition demo_verifier (keys : option (gmap string nat)) : JwksVerifier nat :=
  {| jv_keys := keys; jv_poisoned := false; jv_audience := "fabricd"; jv_issuer := "cluster" |}.
Definition demo_task : RefreshTask () :=
  {| rt_client := (); rt_issuer := "cluster"; rt_jwks_url := Some "https://k/jwks"; rt_interval := 300 |}.
End SaDemo.

Import SaDemo.

(** After one fetch the token is admitted, and before it is not. *)
Lemma sa_token_admits_exactly_witness :
  let cfg := {| sv_issuer := "cluster"; sv_jwks_url := Some "https://k/jwks"; sv_audience := "fabricd";
                sv_ca_cert := None; sv_refresh := 300 |} in
  reached cfg [Ok {["k1" := 7%nat]}] demo_task (demo_verifier (Some {["k1" := 7%nat]})) 1000 ∧
  authenticate (SaTokenAuthenticator (verifier_at (demo_verifier (Some {["k1" := 7%nat]})) 1000))
    (Some "good") = Ok () ∧
  authenticate (SaTokenAuthenticator (verifier_at (demo_verifier None) 1000)) (Some "good") ≠ Ok ().
Proof.
  intros cfg.
  assert (reached cfg [] demo_task (demo_verifier None) 0) as H0 by (by apply reached_spawn).
  assert (reached cfg [Ok {["k1" := 7%nat]}] demo_task (demo_verifier (Some {["k1" := 7%nat]})) 1000) as H1.
  { eapply (reached_turn cfg [] _ _ 0); [exact H0|]. vm_compute. reflexivity. }
  split; [exact H1|]. split.
  - apply (sa_token_admits_exactly cfg _ _ _ _ H1 (Some "good")).
    exists "good", "k1", {["k1" := 7%nat]}, 7%nat, VNull.
    split_and!; try (vm_compute; reflexivity); try done.
    + exists 100. split; [done|]. vm_compute. discriminate.
    + intros l [= <-]. by left.
    + intros i [= <-]. done.
  - assert (reached cfg [] demo_task (demo_verifier None) 1000) as H2
      by (eapply reached_other; [exact H0|vm_compute; discriminate]).
    intros (token & kid & keys & key & c & _ & _ & Hl & _)%(sa_token_admits_exactly cfg _ _ _ _ H2).
    discriminate Hl.
Defined.
