(* ===== verification/Sidecar.v ===== *)
(** * Sidecar: the box's egress client

    Models [runlet/src/sidecar.rs]: transport selection, the QUIC client's cached connection with
    replica failover, the session handshake, and the [Egress] port over a session.  The network
    ([lookup_host], dialling, opening a stream) and hex decoding are parameters; a session
    connection is the writer to the daemon and the reader from it. *)

From Stdlib Require Import Ascii.
From S2P Require Import Prelude Json Errors Wire.
Local Open Scope Z_scope.

(** ** Configuration *)

(** [FabricdQuic] ([runlet/src/config.rs]). *)
Record FabricdQuic := {
  fq_replicas : list string; fq_server_name : string; fq_server_cert_pin : string;
  fq_auth_token : option string; fq_auth_token_file : option string }.

Inductive BoxAuth :=
| BoxNone
| BoxStatic (secret : string)
| BoxServiceAccountFile (path : string).

(** [build_auth]. *)
Definition build_auth (quic : FabricdQuic) : result BoxAuth IoError :=
  match fq_auth_token quic, fq_auth_token_file quic with
  | Some _, Some _ => Err (OtherIo "set only one of fabricd_quic.auth_token / auth_token_file")
  | Some token, None => Ok (BoxStatic token)
  | None, Some path => Ok (BoxServiceAccountFile path)
  | None, None => Ok BoxNone
  end.

(** [BoxAuth::token]; [read_file] is the file system. *)
Definition box_token (read_file : string → result string IoError) (a : BoxAuth)
    : result (option string) IoError :=
  match a with
  | BoxNone => Ok None
  | BoxStatic secret => Ok (Some secret)
  | BoxServiceAccountFile path => let? text := read_file path in Ok (Some (trim text))
  end.

(** [parse_pin]; [hex_decode] is the [hex] crate. *)
Definition parse_pin (hex_decode : string → result (list ascii) string) (hex_pin : string)
    : result (list ascii) IoError :=
  match hex_decode (trim hex_pin) with
  | Err err => Err (OtherIo ("invalid server_cert_pin hex: " +:+ err))
  | Ok bytes => if decide (length bytes = 32%nat) then Ok bytes
                else Err (OtherIo "server_cert_pin must be 32 bytes (64 hex chars)")
  end.

(** ** The QUIC client *)

Section quic.
(** The network: host resolution, one dial with its handshake, opening a stream, liveness. *)
Context {QConn Stream Addr : Type}.
Context (lookup_host : string → result (list Addr) IoError).
Context (dial : Addr → result QConn IoError).
Context (open_bi : QConn → result Stream IoError).
Context (is_closed : QConn → bool).

Record QuicClient := {
  qc_replicas : list string; qc_server_name : string; qc_auth : BoxAuth;
  qc_connection : option QConn }.

Definition set_connection (c : QuicClient) (o : option QConn) : QuicClient :=
  {| qc_replicas := qc_replicas c; qc_server_name := qc_server_name c; qc_auth := qc_auth c;
     qc_connection := o |}.

(** The inner loop of [connect_any]: the first address that answers, or the last error. *)
Fixpoint dial_first (addresses : list Addr) (last_error : option IoError)
    : QConn + option IoError :=
  match addresses with
  | [] => inr last_error
  | a :: rest =>
      match dial a with
      | Ok connection => inl connection
      | Err err => dial_first rest (Some err)
      end
  end.

(** The outer loop of [connect_any]. *)
Fixpoint connect_replicas (replicas : list string) (last_error : option IoError)
    : result QConn IoError :=
  match replicas with
  | [] => Err (default (OtherIo "no fabricd replica addresses to connect to") last_error)
  | replica :: rest =>
      match lookup_host replica with
      | Err err => connect_replicas rest (Some err)
      | Ok addresses =>
          match dial_first addresses last_error with
          | inl connection => Ok connection
          | inr err => connect_replicas rest err
          end
      end
  end.

Definition connect_any (c : QuicClient) : result QConn IoError :=
  connect_replicas (qc_replicas c) None.

(** [live_connection]. *)
Definition live_connection (c : QuicClient) : result QConn IoError * QuicClient :=
  match qc_connection c with
  | Some existing =>
      if is_closed existing then
        match connect_any c with
        | Ok fresh => (Ok fresh, set_connection c (Some fresh))
        | Err e => (Err e, c)
        end
      else (Ok existing, c)
  | None =>
      match connect_any c with
      | Ok fresh => (Ok fresh, set_connection c (Some fresh))
      | Err e => (Err e, c)
      end
  end.

(** [invalidate]. *)
Definition invalidate (c : QuicClient) : QuicClient := set_connection c None.

(** [open_session]: one reconnect if the cached connection has gone stale. *)
Definition quic_open_session (c : QuicClient) : result Stream IoError * QuicClient :=
  match live_connection c with
  | (Err e, c1) => (Err e, c1)
  | (Ok connection, c1) =>
      match open_bi connection with
      | Ok stream => (Ok stream, c1)
      | Err _ =>
          match live_connection (invalidate c1) with
          | (Err e, c2) => (Err e, c2)
          | (Ok reconnected, c2) => (open_bi reconnected, c2)
          end
      end
  end.
End quic.
Arguments QuicClient : clear implicits.

(** ** Transport selection *)

Inductive SidecarTransport (QConn : Type) :=
| TNone
| TUds (path : string)
| TQuic (client : QuicClient QConn).
Arguments TNone {QConn}. Arguments TUds {QConn} path. Arguments TQuic {QConn} client.

(** [QuicClient::from_config]; the client endpoint is built from the pin. *)
Definition QuicClient_from_config {QConn} (hex_decode : string → result (list ascii) string)
    (client_endpoint : list ascii → result unit IoError) (quic : FabricdQuic)
    : result (QuicClient QConn) IoError :=
  let? pin := parse_pin hex_decode (fq_server_cert_pin quic) in
  let? _ := client_endpoint pin in
  let? auth := build_auth quic in
  Ok {| qc_replicas := fq_replicas quic; qc_server_name := fq_server_name quic;
        qc_auth := auth; qc_connection := None |}.

(** [SidecarTransport::from_config]. *)
Definition transport_from_config {QConn} (hex_decode : string → result (list ascii) string)
    (client_endpoint : list ascii → result unit IoError)
    (socket : option string) (quic : option FabricdQuic) : result (SidecarTransport QConn) IoError :=
  match quic with
  | Some quic_cfg =>
      match fq_replicas quic_cfg with
      | [] => Err (OtherIo "fabricd_quic.replicas must not be empty")
      | _ :: _ => let? c := QuicClient_from_config hex_decode client_endpoint quic_cfg in
                  Ok (TQuic c)
      end
  | None => match socket with None => Ok TNone | Some path => Ok (TUds path) end
  end.

(** [SidecarTransport::label]. *)
Definition transport_label {QConn} (t : SidecarTransport QConn) : string :=
  match t with TNone => "none" | TUds _ => "uds" | TQuic _ => "quic" end.

(** ** Sessions *)

Inductive SessionError :=
| Unavailable (message : string)
| Resolve (code message : string)
| Protocol (message : string).

(** One session connection: the half to the daemon and the half from it. *)
Record SessionConn := { sc_send : Writer; sc_recv : Reader }.

(** [io::Error]'s [Display]. *)
Definition io_text (e : IoError) : string :=
  match e with UnexpectedEof m | InvalidData m | OtherIo m => m end.

Section session.
Context `{!Codec WireRequest} `{!Codec WireResponse}.

(** [SessionConn::write] and [SessionConn::read]. *)
Definition conn_write (c : SessionConn) (request : WireRequest) : result unit IoError * SessionConn :=
  let '(res, w) := write_frame (sc_send c) request in
  (res, {| sc_send := w; sc_recv := sc_recv c |}).
Definition conn_read (c : SessionConn) : result (option WireResponse) IoError * SessionConn :=
  match read_frame (sc_recv c) with
  | Ok (o, r) => (Ok o, {| sc_send := sc_send c; sc_recv := r |})
  | Err e => (Err e, c)
  end.

(** [handshake]. *)
Definition handshake (c : SessionConn) (init : WireInit) : result SessionConn SessionError :=
  match conn_write c (ReqInit init) with
  | (Err err, _) => Err (Unavailable ("fabricd write failed: " +:+ io_text err))
  | (Ok _, c1) =>
      match conn_read c1 with
      | (Ok (Some Ack), c2) => Ok c2
      | (Ok (Some (InitError code message)), _) => Err (Resolve code message)
      | (Ok (Some (Reply _ | RespMetrics _ | ProtocolError _)), _) =>
          Err (Protocol "unexpected response to Init")
      | (Ok None, _) => Err (Unavailable "fabricd closed the connection during handshake")
      | (Err err, _) => Err (Unavailable ("fabricd handshake read failed: " +:+ io_text err))
      end
  end.

(** [connect_session]: the outcome, and the transport with its cached connection. *)
Definition connect_session {QConn : Type}
    (uds_connect : string → result SessionConn IoError)
    (quic_open : QuicClient QConn → result SessionConn IoError * QuicClient QConn)
    (read_file : string → result string IoError)
    (transport : SidecarTransport QConn) (init : WireInit)
    : result SessionConn SessionError * SidecarTransport QConn :=
  match transport with
  | TNone => (Err (Unavailable "no fabricd egress sidecar configured"), transport)
  | TUds path =>
      match uds_connect path with
      | Err err => (Err (Unavailable ("fabricd unreachable: " +:+ io_text err)), transport)
      | Ok stream => (handshake stream init, transport)
      end
  | TQuic client =>
      match box_token read_file (qc_auth client) with
      | Err err => (Err (Unavailable ("auth token unreadable: " +:+ io_text err)), transport)
      | Ok token =>
          match quic_open client with
          | (Err err, client1) =>
              (Err (Unavailable ("fabricd unreachable: " +:+ io_text err)), TQuic client1)
          | (Ok stream, client1) => (handshake stream (set_token init token), TQuic client1)
          end
      end
  end.

(** [roundtrip]. *)
Definition roundtrip (c : SessionConn) (request : WireRequest)
    : result WireResponse IoError * SessionConn :=
  match conn_write c request with
  | (Err e, c1) => (Err e, c1)
  | (Ok _, c1) =>
      match conn_read c1 with
      | (Err e, c2) => (Err e, c2)
      | (Ok None, c2) => (Err (UnexpectedEof "fabricd closed the connection"), c2)
      | (Ok (Some a), c2) => (Ok a, c2)
      end
  end.

(** [transport_error]. *)
Definition transport_error (source code message : string) : EgressError :=
  with_owner (with_retryable (EgressError_new source code message)) Operator.

(** How the deadline race of one call ends: the exchange finishes, or the timer does, with [sent]
    bytes of the request frame written and [got] bytes of the reply read ([timeout] drops the
    exchange where it stands; neither half is undone). *)
Inductive Race := Finished | Elapsed (sent got : nat).
Definition cut_short (c : SessionConn) (request : WireRequest) (sent got : nat) : SessionConn :=
  match to_vec request with
  | None => c
  | Some bytes =>
      {| sc_send := (write_all (sc_send c) (take sent (frame_bytes bytes))).2;
         sc_recv := {| r_avail := drop got (r_avail (sc_recv c)); r_tail := r_tail (sc_recv c) |} |}
  end.

(** [Egress::call for SidecarEgress]. *)
Definition sidecar_call (c : SessionConn) (race : Race) (name action payload_json : string)
    : result string EgressError * SessionConn :=
  let request := ReqCall {| wc_name := name; wc_action := action; wc_payload := payload_json |} in
  match race with
  | Elapsed sent got =>
      (Err (transport_error name "IO_TIMEOUT" "fabricd call exceeded the execution deadline"),
       cut_short c request sent got)
  | Finished =>
      match roundtrip c request with
      | (Ok (Reply result), c1) => (result, c1)
      | (Ok (ProtocolError msg), c1) => (Err (transport_error name "IO_PROTOCOL" msg), c1)
      | (Ok (Ack | InitError _ _ | RespMetrics _), c1) =>
          (Err (transport_error name "IO_PROTOCOL" "unexpected daemon response"), c1)
      | (Err err, c1) => (Err (transport_error name "IO_TRANSPORT" (io_text err)), c1)
      end
  end.

(** [MeteredEgress::drain_metrics for SidecarEgress]. *)
Definition sidecar_drain (c : SessionConn) : BackendMetrics * SessionConn :=
  match roundtrip c ReqDrain with
  | (Ok (RespMetrics m), c1) => (m, c1)
  | (Ok (Ack | InitError _ _ | Reply _ | ProtocolError _), c1) | (Err _, c1) =>
      (BackendMetrics_default, c1)
  end.

(** The calls of one execution, all within the deadline. *)
Fixpoint sidecar_calls (c : SessionConn) (calls : list WireCall)
    : list (result string EgressError) * SessionConn :=
  match calls with
  | [] => ([], c)
  | q :: rest =>
      let '(r, c1) := sidecar_call c Finished (wc_name q) (wc_action q) (wc_payload q) in
      let '(rs, c2) := sidecar_calls c1 rest in (r :: rs, c2)
  end.
End session.

(** ** Lemmas *)

Section session_lemmas.
Context `{!Codec WireRequest} `{!Codec WireResponse}.

(** A connection whose peer takes everything and has [bs] waiting. *)
Definition conn_with (sent bs : list ascii) : SessionConn :=
  {| sc_send := {| w_sent := sent; w_room := None; w_flush := None |};
     sc_recv := {| r_avail := bs; r_tail := None |} |}.

Lemma conn_write_ok sent bs q qb :
  frameable q qb → conn_write (conn_with sent bs) q = (Ok (), conn_with (sent ++ frame_bytes qb) bs).
Proof. intros Hq. unfold conn_write, conn_with. by rewrite (write_frame_ok _ q qb). Qed.

Lemma conn_read_ok sent a ab rest :
  frameable a ab →
  conn_read (conn_with sent (frame_bytes ab ++ rest)) = (Ok (Some a), conn_with sent rest).
Proof. intros Ha. unfold conn_read, conn_with. cbn [sc_recv sc_send]. by rewrite read_frame_ok with (v := a). Qed.

Lemma roundtrip_ok sent q qb a ab rest :
  frameable q qb → frameable a ab →
  roundtrip (conn_with sent (frame_bytes ab ++ rest)) q =
  (Ok a, conn_with (sent ++ frame_bytes qb) rest).
Proof. intros Hq Ha. unfold roundtrip. by rewrite (conn_write_ok _ _ q qb), (conn_read_ok _ a ab). Qed.

Lemma handshake_ok sent init qb ab rest :
  frameable (ReqInit init) qb → frameable Ack ab →
  handshake (conn_with sent (frame_bytes ab ++ rest)) init =
  Ok (conn_with (sent ++ frame_bytes qb) rest).
Proof.
  intros Hq Ha. unfold handshake. by rewrite (conn_write_ok _ _ _ qb), (conn_read_ok _ Ack ab).
Qed.

Lemma sidecar_calls_ok sent calls qbs results abs rest :
  Forall2 frameable (ReqCall <$> calls) qbs → Forall2 frameable (Reply <$> results) abs →
  length calls = length results →
  sidecar_calls (conn_with sent (concat (frame_bytes <$> abs) ++ rest)) calls =
  (results, conn_with (sent ++ concat (frame_bytes <$> qbs)) rest).
Proof.
  revert sent qbs results abs.
  induction calls as [|[n a p] calls IH]; intros sent qbs [|r results] abs Hq Ha Hl; try done.
  { inversion Hq. inversion Ha. simpl. by rewrite app_nil_r. }
  inversion Hq as [|? qb ? qbs' Hq1 Hq2]; inversion Ha as [|? ab ? abs' Ha1 Ha2]; subst.
  rewrite !fmap_cons. cbn [sidecar_calls concat wc_name wc_action wc_payload].
  unfold sidecar_call. rewrite <-app_assoc, (roundtrip_ok _ _ qb (Reply r) ab) by done.
  rewrite (IH _ qbs' results abs') by (done || by simplify_eq/=). by rewrite <-app_assoc.
Qed.

Lemma cut_short_sent sent bs q qb :
  frameable q qb →
  cut_short (conn_with sent bs) q (length (frame_bytes qb)) 0 = conn_with (sent ++ frame_bytes qb) bs.
Proof.
  intros (_ & Hv & _). unfold cut_short, conn_with. rewrite Hv. cbn [sc_send sc_recv r_avail r_tail].
  by rewrite take_ge, write_all_unbounded by (done || lia).
Qed.
End session_lemmas.

Section quic_lemmas.
Context {QConn Stream Addr : Type}.
Context (lookup_host : string → result (list Addr) IoError).
Context (dial : Addr → result QConn IoError).

(** The addresses a replica list resolves to, in order. *)
Definition candidates (replicas : list string) : list Addr :=
  concat ((λ r, match lookup_host r with Ok l => l | Err _ => [] end) <$> replicas).

Lemma dial_first_spec addrs last c :
  dial_first dial addrs last = inl c ↔
  ∃ pre a post, addrs = pre ++ a :: post ∧ dial a = Ok c ∧ Forall (λ b, is_ok (dial b) = false) pre.
Proof.
  revert last. induction addrs as [|x addrs IH]; intros last; simpl.
  - split; [done|]. intros (pre & a & post & H & _). by destruct pre.
  - destruct (dial x) as [c'|e] eqn:E.
    + split.
      * intros [= ->]. exists [], x, addrs. eauto.
      * intros ([|y pre] & a & post & H & Hd & Hpre); simplify_eq/=; [congruence|].
        inversion Hpre as [|? ? Hy]; subst. by rewrite E in Hy.
    + rewrite IH. split.
      * intros (pre & a & post & -> & Hd & Hpre). exists (x :: pre), a, post.
        split_and!; [done|done|]. constructor; [by rewrite E|done].
      * intros ([|y pre] & a & post & H & Hd & Hpre); simplify_eq/=; [congruence|].
        inversion Hpre; subst. eauto 10.
Qed.

Lemma dial_first_app addrs addrs' last :
  dial_first dial (addrs ++ addrs') last =
  match dial_first dial addrs last with
  | inl c => inl c
  | inr last' => dial_first dial addrs' last'
  end.
Proof.
  revert last. induction addrs as [|x addrs IH]; intros last; simpl; [done|].
  by destruct (dial x).
Qed.

(** The error remembered so far does not decide whether a dial succeeds. *)
Lemma dial_first_last addrs last last' c :
  dial_first dial addrs last = inl c → dial_first dial addrs last' = inl c.
Proof. by rewrite !dial_first_spec. Qed.

(** The nested loops of [connect_any] are one walk over all resolved addresses. *)
Lemma connect_replicas_walk replicas last c :
  connect_replicas lookup_host dial replicas last = Ok c ↔
  dial_first dial (candidates replicas) last = inl c.
Proof.
  revert last. induction replicas as [|r rs IH]; intros last; [done|].
  cbn [connect_replicas]. unfold candidates. rewrite fmap_cons. cbn [concat].
  destruct (lookup_host r) as [addrs|e].
  - rewrite dial_first_app. destruct (dial_first dial addrs last) as [c'|err]; [|apply IH].
    split; congruence.
  - rewrite IH. split; apply dial_first_last.
Qed.
End quic_lemmas.


(** ** Properties *)

(** Replica failover.  A connection attempt succeeds exactly when some replica address accepts
    the dial, and it then is the first one in configuration and resolution order: every address
    before it was tried and refused. *)
Theorem connect_any_first_reachable {QConn Addr : Type}
    (lookup_host : string → result (list Addr) IoError) (dial : Addr → result QConn IoError)
    (client : QuicClient QConn) (c : QConn) :
  connect_any lookup_host dial client = Ok c ↔
  ∃ pre a post, candidates lookup_host (qc_replicas client) = pre ++ a :: post ∧
    dial a = Ok c ∧ Forall (λ b, is_ok (dial b) = false) pre.
Proof.
  unfold connect_any. by rewrite connect_replicas_walk, dial_first_spec.
Qed.

(** A call that runs into the deadline after its request left leaves the session one answer
    behind: the call reports the operator's IO_TIMEOUT, the next call is handed the reply meant for
    the timed-out one, and a drain at that point reads that reply instead of the metrics, so the
    metrics of the whole execution come back empty. *)
Theorem timed_out_call_shifts_replies `{!Codec WireRequest} `{!Codec WireResponse}
    (sent rest qb qb' db rb : list ascii) (call call' : WireCall) (r : result string EgressError)
    (Hq : frameable (ReqCall call) qb) (Hq' : frameable (ReqCall call') qb')
    (Hd : frameable ReqDrain db) (Hr : frameable (Reply r) rb) :
  let '(e, c1) := sidecar_call (conn_with sent (frame_bytes rb ++ rest))
                    (Elapsed (length (frame_bytes qb)) 0)
                    (wc_name call) (wc_action call) (wc_payload call) in
  e = Err (transport_error (wc_name call) "IO_TIMEOUT"
             "fabricd call exceeded the execution deadline") ∧
  sidecar_call c1 Finished (wc_name call') (wc_action call') (wc_payload call') =
    (r, conn_with ((sent ++ frame_bytes qb) ++ frame_bytes qb') rest) ∧
  sidecar_drain c1 =
    (BackendMetrics_default, conn_with ((sent ++ frame_bytes qb) ++ frame_bytes db) rest).
Proof.
  destruct call as [n a p], call' as [n' a' p']. unfold sidecar_call, sidecar_drain.
  cbn [wc_name wc_action wc_payload]. rewrite (cut_short_sent _ _ _ qb) by done.
  rewrite (roundtrip_ok _ _ qb' (Reply r) rb), (roundtrip_ok _ _ db (Reply r) rb) by done.
  by destruct r.
Qed.
