(* ===== verification/EndToEnd.v ===== *)
(** * EndToEnd: the box's client and the daemon's server, joined

    Joins [runlet/src/sidecar.rs] (the client, [Sidecar]) to [fabricd/src/main.rs] (the server,
    [Fabricd]) over their byte streams: the bytes one writes are the bytes the other reads.  The
    reference is the in-process [BackendSet] ([Backends]) the daemon wraps. *)

From Stdlib Require Import Ascii.
From S2P Require Import Prelude Json Errors Wire Resources Backends Fabricd Sidecar.
Local Open Scope Z_scope.

(** ** The client of one whole execution *)

Section client.
Context `{!Codec WireRequest} `{!Codec WireResponse}.

(** The box's use of a session: handshake, the script's calls, the closing drain. *)
Definition execution (c : SessionConn) (init : WireInit) (calls : list WireCall)
    : result (list (result string EgressError) * BackendMetrics * SessionConn) SessionError :=
  let? c1 := handshake c init in
  let '(results, c2) := sidecar_calls c1 calls in
  let '(m, c3) := sidecar_drain c2 in
  Ok (results, m, c3).

(** The messages it sends. *)
Definition requests (init : WireInit) (calls : list WireCall) : list WireRequest :=
  ReqInit init :: (ReqCall <$> calls) ++ [ReqDrain].
End client.

(** ** Lemmas *)

Section joined.
Context {World DbB MongoB MailB RedisB AuthB AmqB : Type}.
Context `{!JsonText} `{!Drivers World DbB MongoB MailB RedisB AuthB AmqB}.
Context `{!ConstantTimeEq} `{!Codec WireRequest} `{!Codec WireResponse}.
Context (task_panic : WireCall → World → option string).
Local Abbreviation BSet := (@BackendSet DbB MongoB MailB RedisB AuthB AmqB).
Implicit Types (b : BSet) (w : World).

Lemma backend_calls_length b calls w :
  length (backend_calls b calls w).1.1 = length calls.
Proof.
  revert b w. induction calls as [|c calls IH]; intros b w; [done|]. cbn [backend_calls].
  destruct (backend_call b (wc_name c) (wc_action c) (wc_payload c) w) as [[r b1] w1].
  specialize (IH b1 w1). destruct (backend_calls b1 calls w1) as [[rs b2] w2].
  simpl in *. by rewrite IH.
Qed.

(** The daemon's answers to calls that do not panic are the in-process results. *)
Lemma answers_calls b calls w :
  (∀ c w, c ∈ calls → task_panic c w = None) →
  answers task_panic b ((ReqCall <$> calls) ++ [ReqDrain]) w =
  ((Reply <$> (backend_calls b calls w).1.1) ++ [RespMetrics (metrics (backend_calls b calls w).1.2)],
   (backend_calls b calls w).2).
Proof.
  revert b w. induction calls as [|c calls IH]; intros b w Hp; [done|].
  rewrite fmap_cons. cbn [app answers respond backend_calls]. unfold dispatch.
  rewrite Hp by set_solver.
  destruct (backend_call b (wc_name c) (wc_action c) (wc_payload c) w) as [[r b1] w1].
  rewrite IH by set_solver. by destruct (backend_calls b1 calls w1) as [[rs b2] w2].
Qed.

(** The daemon's side of an execution: it consumes the requests and leaves the world as the
    backends do. *)
Lemma serve_calls sh sh1 auth init calls b w results b' w' qbs abs :
  open_session sh auth init = (Ok b, sh1) → (∀ c w, c ∈ calls → task_panic c w = None) →
  backend_calls b calls w = (results, b', w') → Forall2 frameable (requests init calls) qbs →
  Forall2 frameable (Ack :: (Reply <$> results) ++ [RespMetrics (metrics b')]) abs →
  serve task_panic {| r_avail := concat (frame_bytes <$> qbs); r_tail := None |}
    {| w_sent := []; w_room := None; w_flush := None |} sh auth w =
  (Ok (), {| w_sent := concat (frame_bytes <$> abs); w_room := None; w_flush := None |}, sh1, w').
Proof.
  intros Hopen Hpanic Hb Hreq Hans. pose proof (answers_calls b calls w Hpanic) as Hac. rewrite Hb in Hac.
  inversion Hreq as [|? ib ? qbs' Hi Hq]; subst. inversion Hans as [|? kb ? abs' Hk Ha]; subst.
  rewrite (serve_opened task_panic sh sh1 auth init ib
    ((ReqCall <$> calls) ++ [ReqDrain]) qbs' kb abs' b) by (rewrite ?Hac; done).
  by rewrite Hac.
Qed.

(** ** Properties *)

End joined.

(** ** Witnesses *)

#[local] Existing Instances plain_eq log_drivers null_json demo_req_codec demo_resp_codec.


Lemma timed_out_call_shifts_replies_witness :
  sidecar_drain (sidecar_call (conn_with [] (frame_bytes (bytes_of "R"))) (Elapsed 5 0)
    "redis" "get" "k").2 =
  (BackendMetrics_default, conn_with (frame_bytes (bytes_of "C") ++ frame_bytes (bytes_of "D")) []).
Proof.
  apply (timed_out_call_shifts_replies [] [] (bytes_of "C") (bytes_of "C") (bytes_of "D")
    (bytes_of "R") demo_call demo_call (Ok "get"));
    (split; [unfold codec_ok, demo_resp_codec, demo_resp_ok, demo_req_codec, demo_req_ok; tauto|];
     split; [reflexivity|vm_compute; discriminate]).
Defined.
