(* ===== verification/Identity.v ===== *)
(** * Identity: the trusted request identity and the member-capability gate

    Models [runlet/src/identity.rs], [runlet/src/authz.rs] and the header-name table of
    [runlet/src/config.rs].  [axum]'s header map is third-party: the class [Headers] gives the two
    operations the code uses, a lookup and the conversion of a value to text. *)

From Stdlib Require Import Ascii.
From S2P Require Import Prelude.

(** ** Configuration *)

Record TrustedHeaders := {
  th_tenant : string; th_user : string; th_roles : string; th_entitlements : string;
  th_suspended : string; th_anonymous : string; th_plan : string; th_scope : string }.

Definition TrustedHeaders_default : TrustedHeaders :=
  {| th_tenant := "x-tenant-id"; th_user := "x-user-id"; th_roles := "x-user-roles";
     th_entitlements := "x-user-entitlements"; th_suspended := "x-user-suspended";
     th_anonymous := "x-auth-anonymous"; th_plan := "x-tenant-plan"; th_scope := "x-tenant-scope" |}.

(** The names the box reads. *)
Definition trusted_names (n : TrustedHeaders) : list string :=
  [th_tenant n; th_user n; th_roles n; th_entitlements n; th_suspended n; th_anonymous n;
   th_plan n; th_scope n].

(** ** The header map *)

(** [HeaderMap::get] (first value of a name) and [HeaderValue::to_str]. *)
Class Headers (H V : Type) := {
  hm_get : H → string → option V;
  hv_to_str : V → option string
}.

(** ** The identity *)

Record TrustedIdentity := {
  ti_tenant : option string; ti_user : option string;
  ti_roles : list string; ti_entitlements : list string;
  ti_suspended : bool; ti_anonymous : bool;
  ti_plan : option string; ti_scope : option string }.

Definition TrustedIdentity_default : TrustedIdentity :=
  {| ti_tenant := None; ti_user := None; ti_roles := []; ti_entitlements := [];
     ti_suspended := false; ti_anonymous := false; ti_plan := None; ti_scope := None |}.

Section extraction.
Context {H V : Type} `{!Headers H V}.

Definition header_value (headers : H) (name : string) : option string :=
  value ← hm_get headers name;
  text ← hv_to_str value;
  let text := trim text in
  if is_empty text then None else Some text.

Definition header_list (headers : H) (name : string) : list string :=
  match header_value headers name with
  | None => []
  | Some raw => filter (λ item, is_empty item = false) (trim <$> split "," raw)
  end.

Definition header_flag (headers : H) (name : string) : bool :=
  match header_value headers name with
  | None => false
  | Some value =>
      let lowered := to_ascii_lowercase value in
      bool_decide (lowered = "true") || bool_decide (lowered = "1")
  end.

Definition from_headers (headers : H) (names : TrustedHeaders) : TrustedIdentity :=
  {| ti_tenant := header_value headers (th_tenant names);
     ti_user := header_value headers (th_user names);
     ti_roles := header_list headers (th_roles names);
     ti_entitlements := header_list headers (th_entitlements names);
     ti_suspended := header_flag headers (th_suspended names);
     ti_anonymous := header_flag headers (th_anonymous names);
     ti_plan := header_value headers (th_plan names);
     ti_scope := header_value headers (th_scope names) |}.
End extraction.

Definition has_grant (i : TrustedIdentity) (needle : string) : bool :=
  existsb (λ item, bool_decide (item = needle)) (ti_entitlements i) ||
  existsb (λ item, bool_decide (item = needle)) (ti_roles i).

(** ** The capability gate *)

Record CapabilityDenied := { cd_capability : string; cd_required : string }.

Fixpoint authorize_loop (map : gmap string string) (requested : list string)
    (identity : TrustedIdentity) : result unit CapabilityDenied :=
  match requested with
  | [] => Ok ()
  | kind :: rest =>
      match map !! kind with
      | Some required =>
          if has_grant identity required then authorize_loop map rest identity
          else Err {| cd_capability := kind; cd_required := required |}
      | None => authorize_loop map rest identity
      end
  end.

Definition authorize_capabilities (map : gmap string string) (requested : list string)
    (identity : TrustedIdentity) : result unit CapabilityDenied :=
  if decide (map = ∅) then Ok () else authorize_loop map requested identity.

(** ** Lemmas *)

Lemma has_grant_spec i needle :
  has_grant i needle = true ↔ needle ∈ ti_entitlements i ∨ needle ∈ ti_roles i.
Proof.
  unfold has_grant. rewrite orb_true_iff, !existsb_exists.
  setoid_rewrite bool_decide_eq_true. setoid_rewrite <-list_elem_of_In. naive_solver.
Qed.

(** Does the table gate the kind on a grant the caller does not hold? *)
Definition violates (map : gmap string string) (i : TrustedIdentity) (kind : string) : bool :=
  match map !! kind with Some required => negb (has_grant i required) | None => false end.

Lemma authorize_loop_cons map k rest i :
  authorize_loop map (k :: rest) i =
  if violates map i k then Err {| cd_capability := k; cd_required := default EmptyString (map !! k) |}
  else authorize_loop map rest i.
Proof. unfold violates. simpl. destruct (map !! k) as [r|]; [by destruct (has_grant i r)|done]. Qed.

Lemma authorize_loop_spec map requested i :
  match authorize_loop map requested i with
  | Ok _ => Forall (λ k, violates map i k = false) requested
  | Err d => violates map i (cd_capability d) = true ∧
      map !! cd_capability d = Some (cd_required d) ∧
      ∃ pre post, requested = pre ++ cd_capability d :: post ∧
        Forall (λ k, violates map i k = false) pre
  end.
Proof.
  induction requested as [|k rest IH]; [by constructor|]. rewrite authorize_loop_cons.
  destruct (violates map i k) eqn:Hv; simpl.
  - split; [done|]. split; [|by exists [], rest].
    unfold violates in Hv. by destruct (map !! k).
  - destruct (authorize_loop map rest i) as [|d]; [by constructor|].
    destruct IH as (Hd & Hm & pre & post & -> & Hpre). split_and!; [done..|].
    exists (k :: pre), post. split; [done|by constructor].
Qed.

Lemma violates_empty i k : violates ∅ i k = false.
Proof. unfold violates. by rewrite lookup_empty. Qed.

Section header_lemmas.
Context {H V : Type} `{!Headers H V}.

Lemma header_value_agree (h1 h2 : H) name :
  hm_get h1 name = hm_get h2 name → header_value h1 name = header_value h2 name.
Proof. unfold header_value. by intros ->. Qed.

Lemma header_value_normal (h : H) name s :
  header_value h name = Some s → s ≠ EmptyString ∧ trim s = s.
Proof.
  unfold header_value, is_empty. intros Hs. simplify_option_eq.
  destruct (nonempty (trim _)) eqn:Hne; simplify_eq/=.
  split; [|apply trim_idem]. intros Hempty. by rewrite Hempty in Hne.
Qed.

Lemma header_list_normal (h : H) name s :
  s ∈ header_list h name → s ≠ EmptyString ∧ trim s = s.
Proof.
  unfold header_list. destruct (header_value h name); [|set_solver].
  rewrite list_elem_of_filter, list_elem_of_fmap. intros (He & y & -> & _).
  split; [|apply trim_idem]. intros Hs. by rewrite Hs in He.
Qed.
End header_lemmas.

(** ** Properties *)

(** The identity comes from the configured headers alone.  Two requests whose header maps agree
    on the eight configured names get the same identity, whatever else the client sent. *)
Theorem identity_from_trusted_headers {H V : Type} `{!Headers H V} (h1 h2 : H)
    (names : TrustedHeaders)
    (Hagree : Forall (λ n, hm_get h1 n = hm_get h2 n) (trusted_names names)) :
  from_headers h1 names = from_headers h2 names.
Proof.
  unfold trusted_names in Hagree. rewrite !Forall_cons in Hagree. destruct_and! Hagree.
  unfold from_headers, header_list, header_flag.
  by repeat (erewrite (header_value_agree h1 h2); [|eassumption]).
Qed.

(** Every text the identity carries is normalised: a tenant, user, plan or scope that is
    present, and every role and entitlement, is non-empty and has no surrounding white space. *)
Theorem identity_normalised {H V : Type} `{!Headers H V} (h : H) (names : TrustedHeaders)
    (s : string)
    (Hs : let i := from_headers h names in
          ti_tenant i = Some s ∨ ti_user i = Some s ∨ ti_plan i = Some s ∨ ti_scope i = Some s ∨
          s ∈ ti_roles i ∨ s ∈ ti_entitlements i) :
  s ≠ EmptyString ∧ trim s = s.
Proof.
  simpl in Hs. destruct Hs as [Hs|[Hs|[Hs|[Hs|[Hs|Hs]]]]];
    eauto using header_value_normal, header_list_normal.
Qed.

(** The capability gate is exact.  It passes if and only if no requested capability is gated on
    a grant the caller lacks; otherwise it names the first such capability in request order and the
    very grant the table asks for. *)
Theorem authorize_exact (map : gmap string string) (requested : list string)
    (identity : TrustedIdentity) :
  match authorize_capabilities map requested identity with
  | Ok _ => ∀ k required, k ∈ requested → map !! k = Some required →
              required ∈ ti_entitlements identity ∨ required ∈ ti_roles identity
  | Err d => map !! cd_capability d = Some (cd_required d) ∧
      ¬ (cd_required d ∈ ti_entitlements identity ∨ cd_required d ∈ ti_roles identity) ∧
      ∃ pre post, requested = pre ++ cd_capability d :: post ∧
        Forall (λ k, violates map identity k = false) pre
  end.
Proof.
  unfold authorize_capabilities. destruct (decide (map = ∅)) as [->|_]; [set_solver|].
  pose proof (authorize_loop_spec map requested identity) as Hspec.
  destruct (authorize_loop map requested identity) as [[]|d].
  - intros k required Hk Hm. rewrite Forall_forall in Hspec. specialize (Hspec k Hk).
    unfold violates in Hspec. rewrite Hm, negb_false_iff in Hspec. by apply has_grant_spec.
  - destruct Hspec as (Hv & Hm & Hsplit). split_and!; [done| |done].
    unfold violates in Hv. rewrite Hm, negb_true_iff in Hv.
    rewrite <-has_grant_spec. by rewrite Hv.
Qed.

(** ** Witnesses *)

#[local] Instance plain_headers : Headers (list (string * string)) string := {|
  hm_get h n := (λ q, q.2.2) <$> list_find (λ p, p.1 = n) h;
  hv_to_str := Some |}.

Lemma identity_from_trusted_headers_witness :
  from_headers [("x-tenant-id", "acme"); ("x-user-roles", " admin, ,ops ")] TrustedHeaders_default =
  from_headers [("x-role", "root"); ("x-tenant-id", "acme"); ("x-user-roles", " admin, ,ops ")]
    TrustedHeaders_default.
Proof. apply identity_from_trusted_headers. repeat (constructor; [vm_compute; reflexivity|]). constructor. Defined.
