(* ===== verification/Quota.v ===== *)
(** * Quota: per-tenant plan limits

    Models [runlet/src/quota.rs]: the pure [plan → limit] gate and the in-flight accounting with its
    RAII guard.  A guard alive in some request is an element of the live list of a state machine
    whose steps are the admissions and the guard drops, in any interleaving (each runs under the
    table's lock). *)

From S2P Require Import Prelude.
Local Open Scope Z_scope.

(** ** The plan table *)

Record PlanLimit := { max_concurrent : Z }.
Record QuotaExceeded := { qe_plan : string; qe_limit : Z; qe_usage : Z }.
Inductive QuotaDecision := Allowed | Exceeded (detail : QuotaExceeded).

Record PlanLimits := { pl_plans : gmap string PlanLimit }.
Definition PlanLimits_new (plans : gmap string PlanLimit) : PlanLimits := {| pl_plans := plans |}.

(** [Iterator::min] over the values. *)
Fixpoint min_of (l : list Z) : option Z :=
  match l with
  | [] => None
  | z :: rest => Some (match min_of rest with None => z | Some m => Z.min z m end)
  end.

Definition most_restrictive (self : PlanLimits) : Z :=
  default 0 (min_of ((λ kv, max_concurrent kv.2) <$> map_to_list (pl_plans self))).

Definition limit_for (self : PlanLimits) (plan : option string) : Z :=
  match plan ≫= λ name, pl_plans self !! name with
  | None => most_restrictive self
  | Some limit => max_concurrent limit
  end.

Definition check (self : PlanLimits) (plan : option string) (usage : Z) : QuotaDecision :=
  let limit := limit_for self plan in
  if decide (limit ≤ usage) then
    Exceeded {| qe_plan := default "unknown" plan; qe_limit := limit; qe_usage := usage |}
  else Allowed.

(** ** The accountant *)

Record TenantQuota := { tq_limits : PlanLimits; tq_inflight : gmap string Z }.
Record QuotaGuard := { qg_tenant : string }.

Definition TenantQuota_new (plans : gmap string PlanLimit) : TenantQuota :=
  {| tq_limits := PlanLimits_new plans; tq_inflight := ∅ |}.

Definition quota_admit (q : TenantQuota) (tenant : string) (plan : option string)
    : result QuotaGuard QuotaExceeded * TenantQuota :=
  let usage := default 0 (tq_inflight q !! tenant) in
  match check (tq_limits q) plan usage with
  | Allowed =>
      (Ok {| qg_tenant := tenant |},
       {| tq_limits := tq_limits q;
          tq_inflight := <[tenant := sat_add_u64 usage 1]> (tq_inflight q) |})
  | Exceeded detail => (Err detail, q)
  end.

(** [Drop for QuotaGuard]. *)
Definition guard_drop (g : QuotaGuard) (q : TenantQuota) : TenantQuota :=
  match tq_inflight q !! qg_tenant g with
  | None => q
  | Some count =>
      let count := sat_sub count 1 in
      {| tq_limits := tq_limits q;
         tq_inflight := if decide (count = 0) then delete (qg_tenant g) (tq_inflight q)
                        else <[qg_tenant g := count]> (tq_inflight q) |}
  end.

(** ** Interleavings of requests *)

Inductive QuotaOp :=
| QAdmit (tenant : string) (plan : option string)   (* a request asks for its slot *)
| QDrop (i : nat).                                  (* the [i]-th live guard goes out of scope *)

(** The accountant and the guards alive in the process. *)
Record QState := { qs_quota : TenantQuota; qs_live : list QuotaGuard }.

Inductive qstep : QState → QuotaOp → QState → Prop :=
| step_admitted s tenant plan g q :
    quota_admit (qs_quota s) tenant plan = (Ok g, q) →
    qstep s (QAdmit tenant plan) {| qs_quota := q; qs_live := qs_live s ++ [g] |}
| step_refused s tenant plan d q :
    quota_admit (qs_quota s) tenant plan = (Err d, q) →
    qstep s (QAdmit tenant plan) {| qs_quota := q; qs_live := qs_live s |}
| step_drop s i g :
    qs_live s !! i = Some g →
    qstep s (QDrop i) {| qs_quota := guard_drop g (qs_quota s); qs_live := delete i (qs_live s) |}.

(** Runs from a fresh accountant. *)
Inductive qreach (plans : gmap string PlanLimit) : list QuotaOp → QState → Prop :=
| qreach_start : qreach plans [] {| qs_quota := TenantQuota_new plans; qs_live := [] |}
| qreach_step ops s op s' : qreach plans ops s → qstep s op s' → qreach plans (ops ++ [op]) s'.

(** The live executions of a tenant. *)
Definition live (s : QState) (tenant : string) : nat :=
  count_if (λ g, qg_tenant g = tenant) (qs_live s).

(** The limits are [u64]s. *)
Definition plans_wf (self : PlanLimits) : Prop :=
  ∀ name l, pl_plans self !! name = Some l → in_u64 (max_concurrent l).

(** ** Lemmas *)

Lemma min_of_spec l m :
  min_of l = Some m ↔ m ∈ l ∧ Forall (λ z, m ≤ z) l.
Proof.
  revert m. induction l as [|z l IH]; intros m; simpl.
  { split; [done|]. set_solver. }
  destruct (min_of l) as [m'|] eqn:E.
  - destruct (proj1 (IH m') eq_refl) as [Hin Hall]. rewrite Forall_forall in Hall.
    rewrite elem_of_cons, Forall_cons, Forall_forall. split.
    + intros [= <-]. split; [destruct (Z.min_spec z m') as [[? ->]|[? ->]]; auto|].
      split; [lia|]. intros x Hx. specialize (Hall x Hx). lia.
    + intros [[->|Hm] [Hz Hl]]; f_equal; [specialize (Hl m' Hin); lia|].
      specialize (Hl m' Hin). specialize (Hall m Hm). lia.
  - destruct l as [|y l]; [|by simpl in E; case_match].
    rewrite list_elem_of_singleton, Forall_singleton. split; [intros [= ->]|intros [-> _]]; auto with lia.
Qed.

Lemma min_of_none l : min_of l = None ↔ l = [].
Proof. by destruct l. Qed.

Lemma most_restrictive_le self name l :
  pl_plans self !! name = Some l → most_restrictive self ≤ max_concurrent l.
Proof.
  intros Hl. unfold most_restrictive.
  destruct (min_of _) as [m|] eqn:E; simpl.
  - apply min_of_spec in E as [_ Hall]. rewrite Forall_forall in Hall. apply Hall.
    apply list_elem_of_fmap. exists (name, l). split; [done|]. by apply elem_of_map_to_list.
  - apply min_of_none, fmap_nil_inv, map_to_list_empty_iff in E. by rewrite E, lookup_empty in Hl.
Qed.

Lemma most_restrictive_in self :
  pl_plans self ≠ ∅ → ∃ name l, pl_plans self !! name = Some l ∧ most_restrictive self = max_concurrent l.
Proof.
  intros Hne. unfold most_restrictive. destruct (min_of _) as [m|] eqn:E; simpl.
  - apply min_of_spec in E as [Hin _]. apply list_elem_of_fmap in Hin as ([n l] & -> & Hin).
    apply elem_of_map_to_list in Hin. eauto.
  - by apply min_of_none, fmap_nil_inv, map_to_list_empty_iff in E.
Qed.

Lemma limit_for_range self plan : plans_wf self → in_u64 (limit_for self plan).
Proof.
  intros Hwf. unfold limit_for. destruct (plan ≫= _) as [l|] eqn:E.
  - destruct plan as [n|]; simplify_eq/=. by eapply Hwf.
  - destruct (decide (pl_plans self = ∅)) as [Hempty|Hne].
    { unfold most_restrictive. rewrite Hempty, map_to_list_empty. by split. }
    destruct (most_restrictive_in self Hne) as (n & l & Hn & ->). by eapply Hwf.
Qed.

Lemma qstep_limits s op s' : qstep s op s' → tq_limits (qs_quota s') = tq_limits (qs_quota s).
Proof.
  inversion 1 as [? ? ? ? ? Ha|? ? ? ? ? Ha|]; subst; simpl; unfold quota_admit, guard_drop in *;
    destruct_matches; done.
Qed.

Lemma qreach_limits plans ops s : qreach plans ops s → tq_limits (qs_quota s) = PlanLimits_new plans.
Proof. induction 1; [done|]. by erewrite qstep_limits. Qed.

(** The table counts exactly the live guards, and holds no zero. *)
Definition counts (s : QState) : Prop :=
  ∀ t, tq_inflight (qs_quota s) !! t =
       if decide (live s t = 0%nat) then None else Some (Z.of_nat (live s t)).

(** Usage read from an exact table. *)
Lemma counts_usage s t : counts s → default 0 (tq_inflight (qs_quota s) !! t) = Z.of_nat (live s t).
Proof. intros ->. case_decide as H; simpl; lia. Qed.

(** An admission counts its own tenant, below the limit it was checked against. *)
Lemma admit_ok q tenant plan g q' :
  quota_admit q tenant plan = (Ok g, q') →
  let usage := default 0 (tq_inflight q !! tenant) in
  g = {| qg_tenant := tenant |} ∧ usage < limit_for (tq_limits q) plan ∧
  q' = {| tq_limits := tq_limits q; tq_inflight := <[tenant := sat_add_u64 usage 1]> (tq_inflight q) |}.
Proof. unfold quota_admit, check. intros Ha. case_decide; simplify_eq. auto with lia. Qed.

Lemma admit_err q tenant plan d q' :
  quota_admit q tenant plan = (Err d, q') →
  q' = q ∧ limit_for (tq_limits q) plan ≤ default 0 (tq_inflight q !! tenant).
Proof. unfold quota_admit, check. intros Ha. by case_decide; simplify_eq. Qed.

Lemma qstep_counts s op s' :
  plans_wf (tq_limits (qs_quota s)) → counts s → qstep s op s' → counts s'.
Proof.
  intros Hwf Hc Hstep t. destruct Hstep as [s tenant plan g q Ha|s tenant plan d q Ha|s i g Hi].
  - apply admit_ok in Ha as (-> & Hlt & ->). rewrite counts_usage in * by done.
    pose proof (limit_for_range _ plan Hwf) as Hr. unfold in_u64, U64_MAX in Hr.
    unfold live. simpl. rewrite count_if_app, count_if_cons. simpl. rewrite count_if_nil.
    destruct (decide (tenant = t)) as [->|Hne].
    + rewrite lookup_insert_eq, decide_False by lia.
      unfold sat_add_u64, U64_MAX, live in *. f_equal. lia.
    + rewrite lookup_insert_ne, Hc by done. unfold live. by rewrite Nat.add_0_r.
  - apply admit_err in Ha as [-> _]. apply Hc.
  - unfold live. simpl. pose proof (Hc (qg_tenant g)) as Hg. pose proof (Hc t) as Ht.
    unfold live in Hg, Ht. rewrite (count_if_delete _ _ _ _ Hi) in Hg.
    destruct (decide (qg_tenant g = qg_tenant g)); [|done]. rewrite decide_False in Hg by lia.
    rewrite (count_if_delete _ _ _ _ Hi) in Ht.
    unfold guard_drop. rewrite Hg. simpl. unfold sat_sub.
    destruct (decide (qg_tenant g = t)) as [<-|Hne]; repeat case_decide; simpl in *;
      rewrite ?lookup_delete_eq, ?lookup_insert_eq, ?lookup_delete_ne, ?lookup_insert_ne by done;
      rewrite ?Ht; done || (f_equal; lia) || (exfalso; lia).
Qed.

Lemma qreach_counts plans ops s : plans_wf (PlanLimits_new plans) → qreach plans ops s → counts s.
Proof.
  intros Hwf Hr. induction Hr as [|ops s op s' Hr IH Hs].
  - intros t. simpl. by rewrite lookup_empty.
  - eapply qstep_counts; [|done..]. by erewrite qreach_limits.
Qed.

(** An accountant between requests: its limits are [u64]s and it holds no idle tenant. *)
Definition quota_wf (q : TenantQuota) : Prop :=
  plans_wf (tq_limits q) ∧ ∀ t n, tq_inflight q !! t = Some n → 0 < n.

(** A guard dropped right after its admission undoes it. *)
Lemma admit_drop q tenant plan g q' :
  quota_wf q → quota_admit q tenant plan = (Ok g, q') → guard_drop g q' = q.
Proof.
  intros [Hwf Hpos] Ha. apply admit_ok in Ha as (-> & Hlt & ->).
  pose proof (limit_for_range _ plan Hwf) as Hr. unfold in_u64, U64_MAX in Hr.
  unfold guard_drop. simpl. rewrite lookup_insert_eq. destruct q as [limits m]. simpl in *.
  specialize (Hpos tenant).
  destruct (m !! tenant) as [n|] eqn:Em; simpl in *; unfold sat_sub, sat_add_u64, U64_MAX.
  - specialize (Hpos n eq_refl). rewrite decide_False by lia.
    f_equal. rewrite insert_insert_eq. apply insert_id. rewrite Em. f_equal. lia.
  - f_equal. by apply delete_insert_id.
Qed.

Lemma qreach_bound plans ops s t L :
  plans_wf (PlanLimits_new plans) → qreach plans ops s → 0 ≤ L →
  (∀ plan, QAdmit t plan ∈ ops → limit_for (PlanLimits_new plans) plan ≤ L) →
  Z.of_nat (live s t) ≤ L.
Proof.
  intros Hwf Hr HL. induction Hr as [|ops s op s' Hr IH Hs]; intros Hlim; [by unfold live|].
  assert (Z.of_nat (live s t) ≤ L) as Hle by (apply IH; set_solver).
  pose proof (qreach_counts _ _ _ Hwf Hr) as Hc. pose proof (qreach_limits _ _ _ Hr) as Hpl.
  destruct Hs as [s tenant plan g q Ha|s tenant plan d q Ha|s i g Hi]; unfold live in *; simpl.
  - apply admit_ok in Ha as (-> & Hlt & _). rewrite counts_usage, Hpl in Hlt by done.
    rewrite count_if_app, count_if_cons, count_if_nil. simpl. unfold live in Hlt.
    destruct (decide (tenant = t)) as [->|]; [|lia].
    specialize (Hlim plan ltac:(set_solver)). lia.
  - done.
  - rewrite (count_if_delete _ _ _ _ Hi) in Hle. lia.
Qed.

(** ** Properties *)

(** The accounting is exact and bounded.  However admissions and guard drops of all tenants
    interleave, the table counts exactly the live executions of every tenant and keeps no entry for
    an idle one; and a tenant's live executions never exceed the largest limit its admissions were
    made under. *)
Theorem quota_exact (plans : gmap string PlanLimit) (ops : list QuotaOp) (s : QState)
    (Hwf : plans_wf (PlanLimits_new plans)) (Hrun : qreach plans ops s) :
  (∀ t, tq_inflight (qs_quota s) !! t =
        if decide (live s t = 0%nat) then None else Some (Z.of_nat (live s t))) ∧
  (∀ t L, 0 ≤ L →
     (∀ plan, QAdmit t plan ∈ ops → limit_for (PlanLimits_new plans) plan ≤ L) →
     Z.of_nat (live s t) ≤ L) ∧
  (qs_live s = [] → tq_inflight (qs_quota s) = ∅).
Proof.
  pose proof (qreach_counts _ _ _ Hwf Hrun) as Hc. split; [exact Hc|]. split.
  - intros t L HL. by apply qreach_bound with (ops := ops).
  - intros Hnil. apply map_eq. intros t. rewrite Hc, lookup_empty. unfold live. by rewrite Hnil.
Qed.

(** An admission is decided by the tenant's own live executions.  In every reachable state a
    request gets a slot if and only if the tenant has fewer live executions than its plan's limit,
    and a refusal changes nothing and reports the plan, the limit and that very count. *)
Theorem quota_admits_iff (plans : gmap string PlanLimit) (ops : list QuotaOp) (s : QState)
    (tenant : string) (plan : option string)
    (Hwf : plans_wf (PlanLimits_new plans)) (Hrun : qreach plans ops s) :
  let limit := limit_for (PlanLimits_new plans) plan in
  if decide (Z.of_nat (live s tenant) < limit) then
    ∃ q, quota_admit (qs_quota s) tenant plan = (Ok {| qg_tenant := tenant |}, q)
  else quota_admit (qs_quota s) tenant plan =
    (Err {| qe_plan := default "unknown" plan; qe_limit := limit;
            qe_usage := Z.of_nat (live s tenant) |}, qs_quota s).
Proof.
  pose proof (qreach_counts _ _ _ Hwf Hrun) as Hc. pose proof (qreach_limits _ _ _ Hrun) as Hpl.
  unfold quota_admit, check. rewrite counts_usage, Hpl by done. simpl.
  repeat case_decide; eauto; lia.
Qed.

(** The gate fails closed.  A plan the table does not know, or no plan, gets a limit no larger
    than that of any configured plan, and an empty table refuses every request. *)
Theorem quota_fail_closed (limits : PlanLimits) (plan : option string)
    (Hunknown : ∀ name, plan = Some name → pl_plans limits !! name = None) :
  (∀ name l, pl_plans limits !! name = Some l → limit_for limits plan ≤ max_concurrent l) ∧
  (∀ usage, pl_plans limits = ∅ → 0 ≤ usage →
     check limits plan usage =
     Exceeded {| qe_plan := default "unknown" plan; qe_limit := 0; qe_usage := usage |}).
Proof.
  assert (limit_for limits plan = most_restrictive limits) as Heq.
  { unfold limit_for. destruct plan as [n|]; simpl; [|done]. by rewrite Hunknown. }
  split.
  - intros name l Hl. rewrite Heq. by apply (most_restrictive_le _ name).
  - intros usage He Hu. unfold check. rewrite Heq. unfold most_restrictive.
    rewrite He, map_to_list_empty. simpl. by rewrite decide_True.
Qed.

(** ** Witnesses *)

Definition demo_plans : gmap string PlanLimit :=
  {[ "free" := {| max_concurrent := 1 |}; "pro" := {| max_concurrent := 3 |} ]}.

Lemma demo_plans_wf : plans_wf (PlanLimits_new demo_plans).
Proof.
  intros name l. simpl. unfold demo_plans. rewrite lookup_insert_Some, lookup_singleton_Some.
  intros [[_ <-]|[_ [_ <-]]]; by split.
Qed.

Lemma demo_quota_run :
  qreach demo_plans [QAdmit "acme" (Some "free")]
    {| qs_quota := {| tq_limits := PlanLimits_new demo_plans; tq_inflight := {[ "acme" := 1 ]} |};
       qs_live := [{| qg_tenant := "acme" |}] |}.
Proof.
  eapply (qreach_step _ []); [apply qreach_start|].
  refine (step_admitted _ _ _ {| qg_tenant := "acme" |} _ _). reflexivity.
Qed.

Lemma quota_exact_witness :
  ∃ s, qreach demo_plans [QAdmit "acme" (Some "free")] s ∧
    tq_inflight (qs_quota s) !! "acme" = Some 1 ∧ Z.of_nat (live s "acme") ≤ 1.
Proof.
  eexists. split; [exact demo_quota_run|].
  destruct (quota_exact _ _ _ demo_plans_wf demo_quota_run) as (Hc & Hb & _).
  split; [exact (Hc "acme")|]. apply Hb; [done|].
  intros plan Hp. apply list_elem_of_singleton in Hp. injection Hp as ->. reflexivity.
Defined.

Lemma quota_admits_iff_witness :
  ∃ s, qreach demo_plans [QAdmit "acme" (Some "free")] s ∧
    (quota_admit (qs_quota s) "acme" (Some "free")).1 =
    Err {| qe_plan := "free"; qe_limit := 1; qe_usage := 1 |}.
Proof.
  eexists. split; [exact demo_quota_run|].
  pose proof (quota_admits_iff _ _ _ "acme" (Some "free") demo_plans_wf demo_quota_run) as H.
  cbv zeta in H. rewrite decide_False in H by (vm_compute; discriminate). rewrite H. reflexivity.
Defined.

Lemma quota_fail_closed_witness :
  limit_for (PlanLimits_new demo_plans) (Some "gold") ≤ 1.
Proof.
  apply (proj1 (quota_fail_closed (PlanLimits_new demo_plans) (Some "gold")
    ltac:(intros name [= <-]; reflexivity)) "free" {| max_concurrent := 1 |}).
  reflexivity.
Defined.
