(* ===== verification/Partition.v ===== *)
(** * Partition: semaphores and the per-partition concurrency limiter

    Models [runlet-core/src/partition.rs].  [tokio]'s semaphore is third-party: the class
    [Semaphore] states the counting behaviour the code relies on; the standard library's hasher is
    unspecified by its documentation and enters as the class [StdHasher].  Permits held by requests
    are the live list of a state machine, as in [Quota]. *)

From S2P Require Import Prelude.

(** ** Interfaces *)

(** [Semaphore::new], [try_acquire_owned] and the drop of an [OwnedSemaphorePermit], with their
    documented effect on [available_permits]. *)
Class Semaphore (Sem : Type) := {
  sem_new : nat → Sem;
  sem_try_acquire : Sem → option Sem;
  sem_release : Sem → Sem;
  available_permits : Sem → nat;
  available_new n : available_permits (sem_new n) = n;
  available_none s : sem_try_acquire s = None ↔ available_permits s = 0;
  available_some s s' : sem_try_acquire s = Some s' → available_permits s = S (available_permits s');
  available_release s : available_permits (sem_release s) = S (available_permits s)
}.

(** [DefaultHasher::new], [str::hash], [finish]: some function into [u64]. *)
Class StdHasher := {
  hash_str : string → Z;
  hash_str_range s : in_u64 (hash_str s)
}.

(** [usize] is 64 bits wide on the targets the box is built for. *)
Definition USIZE_MAX : Z := U64_MAX.

(** ** The limiter *)

Record PartitionLimiter (Sem : Type) := { buckets : list Sem }.
Arguments buckets {Sem} _.

Section limiter.
Context {hasher : StdHasher} {Sem : Type} {sem : Semaphore Sem}.

Definition PartitionLimiter_new (count per_partition : nat) : option (PartitionLimiter Sem) :=
  if bool_decide (per_partition = 0) || bool_decide (count = 0) then None
  else Some {| buckets := (λ _, sem_new per_partition) <$> seq 0 count |}.

(** [bucket_for]: the index it looks up ([checked_rem] fails on an empty array). *)
Definition bucket_for (l : PartitionLimiter Sem) (partition : string) : nat :=
  let h := hash_str partition in
  let h := if decide (h ≤ USIZE_MAX)%Z then h else 0%Z in
  match buckets l with [] => 0 | _ => Z.to_nat (h mod Z.of_nat (length (buckets l))) end.

(** A permit remembers its semaphore. *)
Record Permit := { permit_bucket : nat }.

Definition try_acquire (l : PartitionLimiter Sem) (partition : string)
    : option (Permit * PartitionLimiter Sem) :=
  let i := bucket_for l partition in
  bucket ← buckets l !! i;
  bucket' ← sem_try_acquire bucket;
  Some ({| permit_bucket := i |}, {| buckets := <[i := bucket']> (buckets l) |}).

(** Dropping the [OwnedSemaphorePermit]. *)
Definition permit_drop (p : Permit) (l : PartitionLimiter Sem) : PartitionLimiter Sem :=
  {| buckets := alter sem_release (permit_bucket p) (buckets l) |}.

(** ** Interleavings of requests *)

Inductive PartitionOp :=
| PAcquire (partition : string)    (* a request asks for a permit *)
| PDrop (i : nat).                 (* the [i]-th request holding one ends *)

(** The limiter, and the requests in it with their keys. *)
Record PState := { ps_limiter : PartitionLimiter Sem; ps_live : list (string * Permit) }.

Inductive pstep : PState → PartitionOp → PState → Prop :=
| step_acquired s k p l :
    try_acquire (ps_limiter s) k = Some (p, l) →
    pstep s (PAcquire k) {| ps_limiter := l; ps_live := ps_live s ++ [(k, p)] |}
| step_shed s k :
    try_acquire (ps_limiter s) k = None → pstep s (PAcquire k) s
| step_permit_drop s i k p :
    ps_live s !! i = Some (k, p) →
    pstep s (PDrop i) {| ps_limiter := permit_drop p (ps_limiter s); ps_live := delete i (ps_live s) |}.

Inductive preach (l : PartitionLimiter Sem) : PState → Prop :=
| preach_start : preach l {| ps_limiter := l; ps_live := [] |}
| preach_step s op s' : preach l s → pstep s op s' → preach l s'.

(** Requests holding a permit of bucket [i], and requests of key [k] holding one. *)
Definition in_bucket (s : PState) (i : nat) : nat :=
  count_if (λ kp, permit_bucket kp.2 = i) (ps_live s).
Definition of_key (s : PState) (k : string) : nat := count_if (λ kp, kp.1 = k) (ps_live s).

(** ** Lemmas *)

Lemma bucket_for_lt l k : buckets l ≠ [] → bucket_for l k < length (buckets l).
Proof.
  intros Hne. unfold bucket_for. destruct (buckets l) as [|b bs] eqn:E; [done|].
  pose proof (Z.mod_pos_bound (if decide (hash_str k ≤ USIZE_MAX)%Z then hash_str k else 0%Z)
                (Z.of_nat (length (b :: bs)))). simpl length in *. lia.
Qed.

(** The key's bucket depends on the number of buckets only. *)
Lemma bucket_for_length l l' k :
  length (buckets l) = length (buckets l') → bucket_for l k = bucket_for l' k.
Proof.
  intros Hl. unfold bucket_for. destruct (buckets l), (buckets l'); simpl in *; try done.
  by injection Hl as ->.
Qed.

(** Every bucket's free and held permits add up, and a request holds its key's bucket. *)
Definition balanced (count per : nat) (s : PState) : Prop :=
  length (buckets (ps_limiter s)) = count ∧
  (∀ i b, buckets (ps_limiter s) !! i = Some b → available_permits b + in_bucket s i = per) ∧
  Forall (λ kp, permit_bucket kp.2 = bucket_for (ps_limiter s) kp.1) (ps_live s).

Lemma new_balanced count per l :
  PartitionLimiter_new count per = Some l →
  0 < count ∧ 0 < per ∧ balanced count per {| ps_limiter := l; ps_live := [] |}.
Proof.
  unfold PartitionLimiter_new. repeat case_bool_decide; simpl; intros [= <-].
  split_and!; [lia|lia|]. split_and!; simpl; [by rewrite length_fmap, length_seq| |done].
  intros i b. rewrite list_lookup_fmap_Some. intros (j & -> & _). rewrite available_new. done.
Qed.

Lemma pstep_balanced count per s op s' :
  balanced count per s → pstep s op s' → balanced count per s'.
Proof.
  intros (Hlen & Hsum & Hkeys) Hstep. destruct Hstep as [s k p l Ha|s k Ha|s i k p Hi].
  - unfold try_acquire in Ha. cbv zeta in Ha.
    destruct (buckets (ps_limiter s) !! bucket_for (ps_limiter s) k) as [b|] eqn:Heqo; [|done].
    simpl in Ha. destruct (sem_try_acquire b) as [b'|] eqn:Heqo0; simplify_eq/=.
    pose proof (available_some _ _ Heqo0) as Hb. pose proof (lookup_lt_Some _ _ _ Heqo) as Hlt.
    split_and!; simpl.
    + by rewrite length_insert.
    + intros j c. unfold in_bucket. simpl. rewrite count_if_app, count_if_cons, count_if_nil. simpl.
      destruct (decide (bucket_for (ps_limiter s) k = j)) as [<-|Hne].
      * rewrite list_lookup_insert_eq by done. intros [= <-]. specialize (Hsum _ _ Heqo).
        unfold in_bucket in Hsum. lia.
      * rewrite list_lookup_insert_ne by done. intros Hc. specialize (Hsum _ _ Hc).
        unfold in_bucket in Hsum. lia.
    + rewrite Forall_app, Forall_singleton. simpl. split.
      * eapply Forall_impl; [done|]. simpl. intros kp ->. apply bucket_for_length. simpl.
        by rewrite length_insert.
      * apply bucket_for_length. simpl. by rewrite length_insert.
  - done.
  - split_and!; simpl.
    + by rewrite length_alter.
    + intros j c Hc. specialize (Hsum j). unfold in_bucket in *. simpl.
      rewrite (count_if_delete _ _ _ _ Hi) in Hsum. simpl in Hsum.
      destruct (decide (permit_bucket p = j)) as [<-|Hne].
      * rewrite list_lookup_alter_eq in Hc. apply fmap_Some in Hc as (b & Hb & ->).
        rewrite available_release. specialize (Hsum _ Hb). lia.
      * rewrite list_lookup_alter_ne in Hc by done. specialize (Hsum _ Hc). lia.
    + apply Forall_delete. eapply Forall_impl; [done|]. simpl. intros kp ->.
      apply bucket_for_length. simpl. by rewrite length_alter.
Qed.

Lemma preach_balanced count per l s :
  PartitionLimiter_new count per = Some l → preach l s → balanced count per s.
Proof.
  intros Hnew Hr. induction Hr; [by apply new_balanced|]. by eapply pstep_balanced.
Qed.

(** A request of key [k] holds a permit of [k]'s bucket. *)
Lemma of_key_le_bucket count per s k :
  balanced count per s → of_key s k ≤ in_bucket s (bucket_for (ps_limiter s) k).
Proof.
  intros (_ & _ & Hkeys). unfold of_key, in_bucket.
  induction Hkeys as [|[k' p] rest Hp Hrest IH]; [done|]. rewrite !count_if_cons. simpl in *.
  destruct (decide (k' = k)) as [->|]; [rewrite decide_True by done; lia|lia].
Qed.
End limiter.
Arguments PState : clear implicits.

(** ** Properties *)

Section properties.
Context {hasher : StdHasher} {Sem : Type} {sem : Semaphore Sem}.

(** The partition cap.  Whatever the interleaving of requests and releases, no partition key
    ever has more than [per_partition] requests inside, and the limiter as a whole never more than
    [count * per_partition]. *)
Theorem partition_cap (count per_partition : nat) (l : PartitionLimiter Sem) (s : PState Sem)
    (Hnew : PartitionLimiter_new count per_partition = Some l) (Hrun : preach l s) :
  (∀ k, of_key s k ≤ per_partition) ∧ length (ps_live s) ≤ count * per_partition.
Proof.
  pose proof (preach_balanced _ _ _ _ Hnew Hrun) as Hbal.
  pose proof (new_balanced _ _ _ Hnew) as (Hc & _ & _).
  pose proof Hbal as (Hlen & Hsum & Hkeys).
  assert (∀ i, i < count → in_bucket s i ≤ per_partition) as Hb.
  { intros i Hi. destruct (lookup_lt_is_Some_2 (buckets (ps_limiter s)) i) as [b Hbi]; [lia|].
    specialize (Hsum _ _ Hbi). lia. }
  assert (buckets (ps_limiter s) ≠ []) as Hne by (intros He; rewrite He in Hlen; simpl in Hlen; lia).
  split.
  - intros k. etrans; [by eapply of_key_le_bucket|]. apply Hb. rewrite <-Hlen. by apply bucket_for_lt.
  - assert (Forall (λ kp, permit_bucket kp.2 < count) (ps_live s)) as Hlt.
    { eapply Forall_impl; [exact Hkeys|]. simpl. intros kp ->. rewrite <-Hlen. by apply bucket_for_lt. }
    clear -Hb Hlt. unfold in_bucket in Hb. by apply pigeon_bound with (f := λ kp, permit_bucket kp.2).
Qed.

(** Shedding is exact and isolated.  A request is refused if and only if the requests holding
    its key's bucket already number [per_partition]; keys hashed elsewhere neither help nor hurt,
    and the lookup never fails for any other reason. *)
Theorem partition_admits_iff (count per_partition : nat) (l : PartitionLimiter Sem) (s : PState Sem)
    (k : string)
    (Hnew : PartitionLimiter_new count per_partition = Some l) (Hrun : preach l s) :
  try_acquire (ps_limiter s) k = None ↔
  count_if (λ kp, bucket_for l kp.1 = bucket_for l k) (ps_live s) = per_partition.
Proof.
  pose proof (preach_balanced _ _ _ _ Hnew Hrun) as (Hlen & Hsum & Hkeys).
  pose proof (new_balanced _ _ _ Hnew) as (Hc & _ & Hl & _).
  assert (∀ k, bucket_for (ps_limiter s) k = bucket_for l k) as Hbf.
  { intros k'. apply bucket_for_length. simpl in Hl. congruence. }
  assert (count_if (λ kp, bucket_for l kp.1 = bucket_for l k) (ps_live s) =
          in_bucket s (bucket_for l k)) as ->.
  { apply count_if_iff. eapply Forall_impl; [exact Hkeys|]. simpl. intros kp ->. by rewrite Hbf. }
  unfold try_acquire. cbv zeta. rewrite Hbf.
  destruct (lookup_lt_is_Some_2 (buckets (ps_limiter s)) (bucket_for l k)) as [b Hb].
  { rewrite <-Hbf. apply bucket_for_lt. intros He. rewrite He in Hlen. simpl in Hlen. lia. }
  rewrite Hb. simpl. specialize (Hsum _ _ Hb).
  destruct (sem_try_acquire b) as [b'|] eqn:Et; simpl.
  - apply available_some in Et. split; [done|lia].
  - apply available_none in Et. split; [lia|done].
Qed.
End properties.

(** ** Witnesses *)

Definition nat_try (n : nat) : option nat := match n with O => None | S m => Some m end.
Lemma nat_try_none n : nat_try n = None ↔ n = 0.
Proof. by destruct n. Qed.
Lemma nat_try_some n m : nat_try n = Some m → n = S m.
Proof. destruct n; simpl; congruence. Qed.
#[local] Instance nat_semaphore : Semaphore nat := {|
  sem_new n := n; sem_try_acquire := nat_try; sem_release := S; available_permits n := n;
  available_new n := eq_refl; available_none := nat_try_none; available_some := nat_try_some;
  available_release n := eq_refl |}.
Lemma length_hash_range s : in_u64 (Z.of_nat (String.length s) mod 2 ^ 64).
Proof. pose proof (Z.mod_pos_bound (Z.of_nat (String.length s)) (2 ^ 64)). unfold in_u64, U64_MAX. lia. Qed.
#[local] Instance length_hasher : StdHasher :=
  {| hash_str s := (Z.of_nat (String.length s) mod 2 ^ 64)%Z; hash_str_range := length_hash_range |}.

Definition demo_limiter : PartitionLimiter nat := {| buckets := [1; 1] |}.
Lemma demo_limiter_new : PartitionLimiter_new 2 1 = Some demo_limiter.
Proof. reflexivity. Qed.
Lemma demo_partition_run :
  preach demo_limiter {| ps_limiter := {| buckets := [1; 0] |};
                         ps_live := [("a", {| permit_bucket := 1 |})] |}.
Proof.
  eapply preach_step; [apply preach_start|].
  refine (step_acquired _ "a" {| permit_bucket := 1 |} {| buckets := [1; 0] |} _). reflexivity.
Qed.

Lemma partition_cap_witness :
  ∃ s : PState nat, preach demo_limiter s ∧ of_key s "a" = 1 ∧ of_key s "a" ≤ 1.
Proof.
  eexists. split; [exact demo_partition_run|]. split; [reflexivity|].
  apply (partition_cap 2 1 demo_limiter _ demo_limiter_new demo_partition_run).
Defined.

Lemma partition_admits_iff_witness :
  ∃ s : PState nat, preach demo_limiter s ∧ try_acquire (ps_limiter s) "c" = None.
Proof.
  eexists. split; [exact demo_partition_run|].
  apply (partition_admits_iff 2 1 demo_limiter _ "c" demo_limiter_new demo_partition_run). reflexivity.
Defined.
