(* ===== verification/Bytecode.v ===== *)
(** * Bytecode: the compiled-script cache

    Models [runlet-core/src/bytecode.rs] and the cached compilation of
    [runlet-core/src/engine.rs] ([obtain_declared], [load_bytecode]).  SHA-256, the bounded cache
    and the JavaScript compiler are third-party: the classes [Sha256], [Moka] and [ModuleCompiler]
    give the operations the code calls.  The cache may evict anything at any time; the compiler's
    serialised modules load back. *)

From Stdlib Require Import Ascii.
From S2P Require Import Prelude Wire.
Local Open Scope Z_scope.

(** ** Interfaces *)

Class Sha256 := { sha256 : list ascii → list ascii }.

(** [moka::sync::Cache]: a lookup finds what was last stored under the key, or nothing. *)
Class Moka (Cache V : Type) := {
  moka_new : Z → Cache;
  moka_get : Cache → list ascii → option V;
  moka_insert : Cache → list ascii → V → Cache;
  moka_entry_count : Cache → Z;
  moka_get_new cap k : moka_get (moka_new cap) k = None;
  moka_get_insert c k v k' w :
    moka_get (moka_insert c k v) k' = Some w → (k' = k ∧ w = v) ∨ moka_get c k' = Some w
}.

(** [Module::declare], [Module::write] and [Module::load]; the error of a failed compilation is the
    exception left pending. *)
Class ModuleCompiler (Mod Exn : Type) := {
  mod_declare : string → result Mod Exn;
  mod_write : Mod → option (list ascii);
  mod_load : list ascii → result Mod Exn;
  mod_load_write m bytes : mod_write m = Some bytes → mod_load bytes = Ok m
}.

(** ** The key *)

Definition DEFAULT_MIN_SOURCE_BYTES : Z := 2048.

(** The bytes [digest] feeds to the hasher. *)
Definition preimage (namespace source : list ascii) : list ascii :=
  let ns_len := to_u64_or_max (Z.of_nat (length namespace)) in
  le_bytes 8 ns_len ++ namespace ++ source.

Definition digest `{!Sha256} (namespace source : list ascii) : list ascii :=
  sha256 (preimage namespace source).

(** ** The cache *)

Record BytecodeCache (Cache : Type) := {
  bc_cache : Cache;
  bc_min_source_bytes : Z;
  bc_hits : Z;
  bc_misses : Z;
  bc_stored : Z
}.
Arguments bc_cache {Cache} _. Arguments bc_min_source_bytes {Cache} _.
Arguments bc_hits {Cache} _. Arguments bc_misses {Cache} _. Arguments bc_stored {Cache} _.

Record BytecodeCacheStats := { st_entries : Z; st_hits : Z; st_misses : Z; st_stored : Z }.

Section cache.
Context {Cache : Type} {moka : Moka Cache (list ascii)}.
Local Abbreviation BC := (BytecodeCache Cache).

Definition BytecodeCache_new (max_capacity min_source_bytes : Z) : BC :=
  {| bc_cache := moka_new max_capacity; bc_min_source_bytes := min_source_bytes;
     bc_hits := 0; bc_misses := 0; bc_stored := 0 |}.

Definition should_store (c : BC) (source_len : Z) : bool :=
  bool_decide (bc_min_source_bytes c ≤ source_len).

Definition bc_get (c : BC) (key : list ascii) : option (list ascii) := moka_get (bc_cache c) key.

Definition bc_insert (c : BC) (key bytecode : list ascii) : BC :=
  {| bc_cache := moka_insert (bc_cache c) key bytecode;
     bc_min_source_bytes := bc_min_source_bytes c; bc_hits := bc_hits c;
     bc_misses := bc_misses c; bc_stored := fetch_add_u64 (bc_stored c) 1 |}.

Definition note_hit (c : BC) : BC :=
  {| bc_cache := bc_cache c; bc_min_source_bytes := bc_min_source_bytes c;
     bc_hits := fetch_add_u64 (bc_hits c) 1; bc_misses := bc_misses c; bc_stored := bc_stored c |}.

Definition note_miss (c : BC) : BC :=
  {| bc_cache := bc_cache c; bc_min_source_bytes := bc_min_source_bytes c;
     bc_hits := bc_hits c; bc_misses := fetch_add_u64 (bc_misses c) 1; bc_stored := bc_stored c |}.

Definition bc_stats (c : BC) : BytecodeCacheStats :=
  {| st_entries := moka_entry_count (bc_cache c); st_hits := bc_hits c;
     st_misses := bc_misses c; st_stored := bc_stored c |}.

(** ** Compiling through the cache *)

Context {sha : Sha256} {Mod Exn : Type} {compiler : ModuleCompiler Mod Exn}.

(** [obtain_declared] ([load_bytecode] is [mod_load]). *)
Definition obtain_declared (cache : option BC) (namespace : option string) (script : string)
    : result Mod Exn * option BC :=
  match cache with
  | None => (mod_declare script, None)
  | Some c =>
      let key := digest (bytes_of (default EmptyString namespace)) (bytes_of script) in
      match bc_get c key with
      | Some bytecode => (mod_load bytecode, Some (note_hit c))
      | None =>
          let c := note_miss c in
          match mod_declare script with
          | Err e => (Err e, Some c)
          | Ok declared =>
              (Ok declared,
               Some (if should_store c (str_len script) then
                       match mod_write declared with
                       | Some bytes => bc_insert c key bytes
                       | None => c
                       end
                     else c))
          end
      end
  end.

(** A script as the cache sees it: its namespace and source. *)
Definition keyed : Type := option string * string.
Definition keyed_preimage (k : keyed) : list ascii :=
  preimage (bytes_of (default EmptyString k.1)) (bytes_of k.2).

(** The compilations of a sequence of invocations through one cache. *)
Fixpoint compile_all (c : BC) (l : list keyed) : list (result Mod Exn) * BC :=
  match l with
  | [] => ([], c)
  | k :: rest =>
      match obtain_declared (Some c) k.1 k.2 with
      | (r, Some c1) => let '(rs, c2) := compile_all c1 rest in (r :: rs, c2)
      | (r, None) => ([r], c)
      end
  end.

(** ** Lemmas *)

Lemma preimage_inj ns1 src1 ns2 src2 :
  Z.of_nat (length ns1) ≤ U64_MAX → Z.of_nat (length ns2) ≤ U64_MAX →
  preimage ns1 src1 = preimage ns2 src2 → ns1 = ns2 ∧ src1 = src2.
Proof.
  unfold preimage, to_u64_or_max. intros H1 H2 Heq. rewrite !decide_True in Heq by done.
  apply app_inj_1 in Heq as [Hlen Hrest]; [|by rewrite !length_le_bytes].
  apply (f_equal from_le) in Hlen. unfold U64_MAX in *.
  rewrite !from_le_le_bytes in Hlen by lia. by apply app_inj_1 in Hrest; [|lia].
Qed.

(** Every entry is the compilation of one of the scripts seen, under its own key. *)
Definition holds (seen : list keyed) (c : BC) : Prop :=
  ∀ key bytes, bc_get c key = Some bytes →
    ∃ k m, k ∈ seen ∧ key = sha256 (keyed_preimage k) ∧ mod_declare k.2 = Ok m ∧
           mod_write m = Some bytes ∧ bc_min_source_bytes c ≤ str_len k.2.

Lemma holds_new seen cap min : holds seen (BytecodeCache_new cap min).
Proof. intros key bytes. unfold bc_get. simpl. by rewrite moka_get_new. Qed.

Lemma holds_mono seen seen' c : seen ⊆ seen' → holds seen c → holds seen' c.
Proof. intros Hsub Hh key bytes Hk. destruct (Hh key bytes Hk) as (k & m & Hin & H). eauto. Qed.

Lemma holds_obtain seen c k :
  holds seen c →
  ∃ c', (obtain_declared (Some c) k.1 k.2).2 = Some c' ∧ holds (seen ++ [k]) c' ∧
        bc_min_source_bytes c' = bc_min_source_bytes c.
Proof.
  intros Hh. apply (holds_mono _ (seen ++ [k])) in Hh; [|set_solver].
  unfold obtain_declared. cbv zeta. destruct (bc_get c _) eqn:Eg; [by eexists|].
  destruct (mod_declare k.2) as [m|e] eqn:Ed; [|by eexists].
  eexists. split; [done|]. unfold should_store. simpl.
  case_bool_decide as Hmin; [|done]. destruct (mod_write m) as [bs|] eqn:Ew; [|done].
  split; [|done]. intros key bytes Hk. unfold bc_get in Hk. simpl in Hk.
  apply moka_get_insert in Hk as [[-> ->]|Hk]; [|by apply Hh].
  exists k, m. split_and!; [set_solver|done..].
Qed.

(** What a lookup that hits found. *)
Lemma hit_inv seen c k bytes :
  holds seen c → bc_get c (sha256 (keyed_preimage k)) = Some bytes →
  ∃ k' m, k' ∈ seen ∧ sha256 (keyed_preimage k) = sha256 (keyed_preimage k') ∧
          mod_declare k'.2 = Ok m ∧ mod_write m = Some bytes ∧ bc_min_source_bytes c ≤ str_len k'.2.
Proof. intros Hh Hk. destruct (Hh _ _ Hk) as (k' & m & H). by exists k', m. Qed.
End cache.

(** No two different inputs of the hasher among these collide. *)
Definition no_collision `{!Sha256} (l : list keyed) : Prop :=
  ∀ k k', k ∈ l → k' ∈ l → sha256 (keyed_preimage k) = sha256 (keyed_preimage k') →
    keyed_preimage k = keyed_preimage k'.

(** Namespaces are Rust strings: their length fits [u64]. *)
Definition keyed_wf (k : keyed) : Prop := str_len (default EmptyString k.1) ≤ U64_MAX.

Lemma keyed_preimage_inj k k' :
  keyed_wf k → keyed_wf k' → keyed_preimage k = keyed_preimage k' →
  default EmptyString k.1 = default EmptyString k'.1 ∧ k.2 = k'.2.
Proof.
  unfold keyed_wf, keyed_preimage. intros H H' Heq.
  apply preimage_inj in Heq as [Hn Hs]; [|by rewrite length_bytes_of..].
  by apply (inj bytes_of) in Hn, Hs.
Qed.

Section transparency.
Context {Cache : Type} {moka : Moka Cache (list ascii)} {sha : Sha256}.
Context {Mod Exn : Type} {compiler : ModuleCompiler Mod Exn}.

Lemma obtain_declared_transparent seen (c : BytecodeCache Cache) k :
  holds seen c → no_collision (seen ++ [k]) → Forall keyed_wf (seen ++ [k]) →
  (obtain_declared (Some c) k.1 k.2).1 = mod_declare k.2.
Proof.
  intros Hh Hnc Hwf. unfold obtain_declared. cbv zeta.
  destruct (bc_get c _) as [bytes|] eqn:Eg; [|by destruct (mod_declare k.2)].
  destruct (hit_inv seen c k bytes Hh Eg) as (k' & m & Hin & Hsha & Hd & Hw & _).
  apply Hnc in Hsha; [|set_solver..]. rewrite Forall_forall in Hwf.
  apply keyed_preimage_inj in Hsha as [_ Hs]; [|apply Hwf; set_solver..].
  simpl. rewrite Hs, Hd. by apply mod_load_write.
Qed.

Lemma compile_all_transparent seen (c : BytecodeCache Cache) l :
  holds seen c → no_collision (seen ++ l) → Forall keyed_wf (seen ++ l) →
  (compile_all c l).1 = (λ k, mod_declare k.2) <$> l ∧ holds (seen ++ l) (compile_all c l).2 ∧
  bc_min_source_bytes (compile_all c l).2 = bc_min_source_bytes c.
Proof.
  revert seen c. induction l as [|k l IH]; intros seen c Hh Hnc Hwf.
  { by rewrite app_nil_r. }
  rewrite cons_middle, app_assoc in Hnc, Hwf |- *. cbn [compile_all].
  destruct (holds_obtain seen c k Hh) as (c' & Hc' & Hh' & Hmin).
  assert ((obtain_declared (Some c) k.1 k.2).1 = mod_declare k.2) as Hr.
  { apply (obtain_declared_transparent seen); [done| |by apply Forall_app in Hwf as [? _]].
    intros k1 k2 H1 H2. apply Hnc; set_solver. }
  destruct (obtain_declared (Some c) k.1 k.2) as [r o]. simpl in Hc', Hr. subst.
  specialize (IH (seen ++ [k]) c' Hh' Hnc Hwf) as (IH1 & IH2 & IH3).
  destruct (compile_all c' l) as [rs c2]. simpl in *. by rewrite IH1, IH3.
Qed.
End transparency.

(** ** Properties *)

(** The bytecode cache is transparent.  Whatever it evicts, every compilation through it gives
    exactly what compiling the source would give, errors included, for any sequence of invocations
    of any tenants whose hashed inputs do not collide under SHA-256. *)
Theorem bytecode_cache_transparent {Cache : Type} {moka : Moka Cache (list ascii)} {sha : Sha256}
    {Mod Exn : Type} {compiler : ModuleCompiler Mod Exn} (cap min : Z) (l : list keyed)
    (Hnc : no_collision l) (Hwf : Forall keyed_wf l) :
  (compile_all (BytecodeCache_new cap min) l).1 = (λ k, mod_declare k.2) <$> l.
Proof. by apply (compile_all_transparent [] _ l (holds_new _ cap min)). Qed.

(** C35: no reuse across tenants.  After any sequence of invocations, a lookup for a namespace and
    source hits only if that very pair, same namespace and same source, was compiled before, and
    only if the source cleared the size floor; so identical source of another tenant is never
    served from the cache. *)
Theorem bytecode_cache_isolated {Cache : Type} {moka : Moka Cache (list ascii)} {sha : Sha256}
    {Mod Exn : Type} {compiler : ModuleCompiler Mod Exn} (cap min : Z) (l : list keyed) (k : keyed)
    (bytes : list ascii)
    (Hnc : no_collision (l ++ [k])) (Hwf : Forall keyed_wf (l ++ [k]))
    (Hhit : bc_get (compile_all (BytecodeCache_new cap min) l).2
              (digest (bytes_of (default EmptyString k.1)) (bytes_of k.2)) = Some bytes) :
  min ≤ str_len k.2 ∧ ∃ ns, (ns, k.2) ∈ l ∧ default EmptyString ns = default EmptyString k.1.
Proof.
  destruct (compile_all_transparent [] _ l (holds_new _ cap min)) as (_ & Hh & Hmin).
  { intros k1 k2 H1 H2. apply Hnc; set_solver. }
  { by apply Forall_app in Hwf as [? _]. }
  simpl app in Hh. destruct (hit_inv l _ k bytes Hh Hhit) as ([ns src] & m & Hin & Hsha & Hd & Hw & Hle).
  apply Hnc in Hsha; [|set_solver..]. rewrite Forall_forall in Hwf.
  apply keyed_preimage_inj in Hsha as [Hn Hs]; [|apply Hwf; set_solver..].
  rewrite Hmin in Hle. simpl in *. rewrite Hs. split; [done|]. by exists ns.
Qed.

(** ** Witnesses *)

#[local] Instance plain_sha : Sha256 := {| sha256 l := l |}.

(** A cache that evicts everything but the last entry. *)
Definition last_get (c : option (list ascii * list ascii)) (k : list ascii) : option (list ascii) :=
  match c with Some (k', v) => if decide (k' = k) then Some v else None | None => None end.
Lemma last_get_insert (c : option (list ascii * list ascii)) k v k' w :
  last_get (Some (k, v)) k' = Some w → (k' = k ∧ w = v) ∨ last_get c k' = Some w.
Proof. simpl. case_decide; intros; simplify_eq. auto. Qed.
#[local] Instance last_cache : Moka (option (list ascii * list ascii)) (list ascii) := {|
  moka_new _ := None; moka_get := last_get; moka_insert _ k v := Some (k, v);
  moka_entry_count c := match c with Some _ => 1 | None => 0 end;
  moka_get_new _ _ := eq_refl; moka_get_insert := last_get_insert |}.

(** A compiler whose bytecode is the source. *)
Definition text_declare (s : string) : result string string :=
  if decide (s = EmptyString) then Err "syntax" else Ok s.
Lemma text_load_write (m : string) bytes :
  Some (bytes_of m) = Some bytes → @Ok string string (string_of bytes) = Ok m.
Proof. intros [= <-]. by rewrite string_of_bytes_of. Qed.
#[local] Instance text_compiler : ModuleCompiler string string := {|
  mod_declare := text_declare; mod_write m := Some (bytes_of m); mod_load b := Ok (string_of b);
  mod_load_write := text_load_write |}.

Definition demo_keyed : list keyed := [(Some "acme", "abc"); (Some "beta", "abc"); (Some "acme", EmptyString)].

Lemma bytecode_cache_transparent_witness :
  (compile_all (BytecodeCache_new 8 2) demo_keyed).1 = [Ok "abc"; Ok "abc"; Err "syntax"].
Proof.
  rewrite (bytecode_cache_transparent 8 2 demo_keyed).
  - reflexivity.
  - intros k k' _ _ H. exact H.
  - repeat constructor; vm_compute; discriminate.
Defined.

Lemma bytecode_cache_isolated_witness :
  ∃ ns, (ns, "abc") ∈ [(Some "acme", "abc")] ∧ default EmptyString ns = "acme".
Proof.
  refine (proj2 (bytecode_cache_isolated (compiler := text_compiler) 8 2 [(Some "acme", "abc")]
    (Some "acme", "abc") (bytes_of "abc") _ _ _)).
  - intros k k' _ _ H. exact H.
  - repeat constructor; vm_compute; discriminate.
  - vm_compute. reflexivity.
Defined.
