(* ===== verification/Quic.v ===== *)
(** * Quic: the pinned QUIC endpoints

    Models [fabric-wire/src/quic.rs]: the TLS material of the daemon, the transport limits both ends
    share, the certificate verifier of the box and the two endpoints.  [rustls] and [quinn] are
    third-party: the class [Rustls] builds their configurations and runs the client's side of a
    handshake, which consults the verifier it was given and checks the peer's signature. *)

From Stdlib Require Import Ascii.
From S2P Require Import Prelude Wire Bytecode Sidecar.
Local Open Scope Z_scope.

Definition ALPN : string := "fabricd/1".
Definition IDLE_TIMEOUT : Z := 30.
Definition KEEP_ALIVE : Z := 10.
Definition MAX_BIDI_STREAMS : Z := 256.

(** [TransportConfig], as far as it is set; times in seconds. *)
Record TransportConfig := {
  tp_max_idle_timeout : option Z; tp_keep_alive : option Z; tp_bidi_streams : Z; tp_uni_streams : Z }.

(** A certificate verifier: what the handshake asks of it. *)
Definition CertVerifier : Type := list ascii → result () string.

(** A client endpoint's settings. *)
Record ClientEndpoint := {
  ce_verifier : CertVerifier; ce_alpn : list string; ce_client_auth : bool; ce_transport : TransportConfig }.
(** A server endpoint's settings. *)
Record ServerEndpoint := {
  se_chain : list (list ascii); se_alpn : list string; se_client_auth : bool; se_transport : TransportConfig }.

(** What a server shows in a handshake: its certificate, whether its signature verifies under that
    certificate, and the protocols it speaks. *)
Record Peer := { pe_cert : list ascii; pe_signed : bool; pe_alpn : list string }.

Class Rustls (Key : Type) := {
  pem_certs : list ascii → result (list (list ascii)) string;
  pem_key : list ascii → result Key string;
  idle_timeout : Z → result Z string;
  protocol_versions : result () string;
  single_cert : list (list ascii) → Key → result () string;
  quic_server_config : result () string;
  quic_client_config : result () string;
  bind_server : string → result () string;
  bind_client : string → result () string;
  tls_connect : ClientEndpoint → Peer → bool;
  tls_connect_spec e p :
    tls_connect e p = true ↔
    is_ok (ce_verifier e (pe_cert p)) = true ∧ pe_signed p = true ∧ (∃ a, a ∈ ce_alpn e ∧ a ∈ pe_alpn p)
}.

Section quic.
Context `{!Sha256} {Key : Type} `{!Rustls Key}.

(** [cert_fingerprint]: the digest, into an array of 32 bytes. *)
Definition cert_fingerprint (cert_der : list ascii) : list ascii := sha256 cert_der.

Record ServerTls := { tls_chain : list (list ascii); tls_key : Key }.

(** [ServerTls::from_pem]. *)
Definition ServerTls_from_pem (cert_pem key_pem : list ascii) : result ServerTls IoError :=
  let? chain := map_err OtherIo (pem_certs cert_pem) in
  match chain with
  | [] => Err (OtherIo "no certificate found in PEM")
  | _ :: _ =>
      let? key := map_err OtherIo (pem_key key_pem) in
      Ok {| tls_chain := chain; tls_key := key |}
  end.

(** [transport_config]. *)
Definition transport_config : result TransportConfig IoError :=
  let? idle := map_err OtherIo (idle_timeout IDLE_TIMEOUT) in
  Ok {| tp_max_idle_timeout := Some idle; tp_keep_alive := Some KEEP_ALIVE;
        tp_bidi_streams := MAX_BIDI_STREAMS; tp_uni_streams := 0 |}.

(** [PinnedServerVerifier::verify_server_cert]. *)
Definition verify_server_cert (pin : list ascii) : CertVerifier := λ end_entity,
  if decide (cert_fingerprint end_entity = pin) then Ok ()
  else Err "fabricd server certificate fingerprint does not match the configured pin".

(** [server_endpoint]. *)
Definition server_endpoint (addr : string) (tls : ServerTls) : result ServerEndpoint IoError :=
  let? _ := map_err OtherIo protocol_versions in
  let? _ := map_err OtherIo (single_cert (tls_chain tls) (tls_key tls)) in
  let? _ := map_err OtherIo quic_server_config in
  let? transport := transport_config in
  let? _ := map_err OtherIo (bind_server addr) in
  Ok {| se_chain := tls_chain tls; se_alpn := [ALPN]; se_client_auth := false; se_transport := transport |}.

(** [client_endpoint]. *)
Definition client_endpoint (bind : string) (server_pin : list ascii) : result ClientEndpoint IoError :=
  let? _ := map_err OtherIo protocol_versions in
  let? _ := map_err OtherIo quic_client_config in
  let? transport := transport_config in
  let? _ := map_err OtherIo (bind_client bind) in
  Ok {| ce_verifier := verify_server_cert server_pin; ce_alpn := [ALPN]; ce_client_auth := false;
        ce_transport := transport |}.

(** The endpoint [QuicClient::from_config] builds from its configuration. *)
Definition box_endpoint (hex_decode : string → result (list ascii) string) (quic : FabricdQuic)
    : result ClientEndpoint IoError :=
  let? pin := parse_pin hex_decode (fq_server_cert_pin quic) in client_endpoint "0.0.0.0:0" pin.

(** ** Properties *)


(** Without colliding fingerprints the pin is one certificate. *)
Lemma pin_one_certificate bind pin e c1 c2 :
  (∀ a b, sha256 a = sha256 b → a = b) → client_endpoint bind pin = Ok e →
  is_ok (ce_verifier e c1) = true → is_ok (ce_verifier e c2) = true → c1 = c2.
Proof.
  intros Hinj He H1 H2. unfold client_endpoint in He. destruct protocol_versions; simplify_eq/=.
  destruct quic_client_config; simplify_eq/=. destruct transport_config; simplify_eq/=.
  destruct (bind_client bind); simplify_eq/=. unfold verify_server_cert in *. do 2 case_decide; try done.
  apply Hinj. unfold cert_fingerprint in *. congruence.
Qed.
End quic.
