(* ===== verification/Ssrf.v ===== *)
(** * Ssrf: addresses and the private-target guard

    Models [runlet-core/src/ssrf.rs] and what it uses of [std::net]: IP addresses, their textual
    forms, and name resolution.  Resolution asks the network, whose state is threaded; an address
    given as a literal is never looked up.  The reference classification is by CIDR blocks on the
    address as one integer. *)

From Stdlib Require Import Ascii.
From stdpp Require Import pretty.
From S2P Require Import Prelude.
Local Open Scope Z_scope.

(** ** [std::net] addresses *)

Record Ipv4Addr := Ipv4 { oct_a : Z; oct_b : Z; oct_c : Z; oct_d : Z }.
Record Ipv6Addr := Ipv6 {
  seg0 : Z; seg1 : Z; seg2 : Z; seg3 : Z; seg4 : Z; seg5 : Z; seg6 : Z; seg7 : Z }.
Inductive IpAddr := IpV4 (ip : Ipv4Addr) | IpV6 (ip : Ipv6Addr).
#[export] Instance Ipv4Addr_eq_dec : EqDecision Ipv4Addr.
Proof. solve_decision. Defined.
#[export] Instance Ipv6Addr_eq_dec : EqDecision Ipv6Addr.
Proof. solve_decision. Defined.
#[export] Instance IpAddr_eq_dec : EqDecision IpAddr.
Proof. solve_decision. Defined.

Definition octets (ip : Ipv4Addr) : list Z := [oct_a ip; oct_b ip; oct_c ip; oct_d ip].
Definition segments (ip : Ipv6Addr) : list Z :=
  [seg0 ip; seg1 ip; seg2 ip; seg3 ip; seg4 ip; seg5 ip; seg6 ip; seg7 ip].

(** [Ipv4Addr::is_loopback] and its siblings. *)
Definition v4_is_loopback (ip : Ipv4Addr) : bool := bool_decide (oct_a ip = 127).
Definition v4_is_private (ip : Ipv4Addr) : bool :=
  bool_decide (oct_a ip = 10) ||
  (bool_decide (oct_a ip = 172) && bool_decide (16 ≤ oct_b ip ≤ 31)) ||
  (bool_decide (oct_a ip = 192) && bool_decide (oct_b ip = 168)).
Definition v4_is_link_local (ip : Ipv4Addr) : bool :=
  bool_decide (oct_a ip = 169) && bool_decide (oct_b ip = 254).
Definition v4_is_broadcast (ip : Ipv4Addr) : bool := bool_decide (octets ip = [255; 255; 255; 255]).
Definition v4_is_unspecified (ip : Ipv4Addr) : bool := bool_decide (octets ip = [0; 0; 0; 0]).

(** The two bytes of a segment, and [Ipv6Addr::is_loopback] and its siblings. *)
Definition hi (seg : Z) : Z := seg / 256.
Definition lo (seg : Z) : Z := seg mod 256.
Definition v6_is_loopback (ip : Ipv6Addr) : bool := bool_decide (segments ip = [0; 0; 0; 0; 0; 0; 0; 1]).
Definition v6_is_unspecified (ip : Ipv6Addr) : bool :=
  bool_decide (segments ip = [0; 0; 0; 0; 0; 0; 0; 0]).
Definition to_ipv4_mapped (ip : Ipv6Addr) : option Ipv4Addr :=
  if decide (take 6 (segments ip) = [0; 0; 0; 0; 0; 65535])
  then Some (Ipv4 (hi (seg6 ip)) (lo (seg6 ip)) (hi (seg7 ip)) (lo (seg7 ip)))
  else None.

(** ** Textual forms ([FromStr] and [Display] of [std::net]) *)

(** [char::to_digit] for the radixes 10 and 16. *)
Definition to_digit (radix : Z) (a : ascii) : option Z :=
  let n := Z.of_nat (nat_of_ascii a) in
  let d := if decide (48 ≤ n ≤ 57) then n - 48
           else if decide (97 ≤ n ≤ 102) then n - 87
           else if decide (65 ≤ n ≤ 70) then n - 55 else radix in
  if decide (d < radix) then Some d else None.

(** The longest run of digits, their value and their number. *)
Fixpoint read_digits (radix acc : Z) (count : nat) (l : list ascii) : Z * nat * list ascii :=
  match l with
  | [] => (acc, count, [])
  | a :: l' =>
      match to_digit radix a with
      | Some d => read_digits radix (acc * radix + d) (S count) l'
      | None => (acc, count, l)
      end
  end.

(** [Parser::read_number] into a type of maximum [max]. *)
Definition read_number (radix max : Z) (max_digits : nat) (allow_zero_prefix : bool)
    (l : list ascii) : option (Z * list ascii) :=
  let '(n, count, rest) := read_digits radix 0 0 l in
  if decide (max_digits < count)%nat then None
  else if decide (count = 0%nat) then None
  else if negb allow_zero_prefix && bool_decide (head l = Some "0"%char) && bool_decide (1 < count)%nat
  then None
  else if decide (n ≤ max) then Some (n, rest) else None.

Definition read_char (c : ascii) (l : list ascii) : option (list ascii) :=
  match l with a :: l' => if decide (a = c) then Some l' else None | [] => None end.
(** [Parser::read_separator]: the separator comes before every item but the first. *)
Definition read_sep (c : ascii) (index : nat) (l : list ascii) : option (list ascii) :=
  match index with O => Some l | S _ => read_char c l end.

(** [Parser::read_ipv4_addr] and [read_ipv6_addr]. *)
Definition read_ipv4_addr (l : list ascii) : option (Ipv4Addr * list ascii) :=
  '(a, l1) ← read_number 10 255 3 false l;
  l1 ← read_char "."%char l1; '(b, l2) ← read_number 10 255 3 false l1;
  l2 ← read_char "."%char l2; '(c, l3) ← read_number 10 255 3 false l2;
  l3 ← read_char "."%char l3; '(d, l4) ← read_number 10 255 3 false l3;
  Some (Ipv4 a b c d, l4).

(** [read_groups]: at most [limit] groups from position [index]; a dotted quad stands for the last
    two.  The result is the groups, whether a quad ended them, and the rest. *)
Fixpoint read_groups (limit index : nat) (l : list ascii) : list Z * bool * list ascii :=
  match limit with
  | O => ([], false, l)
  | S limit' =>
      match (if decide (limit' = 0%nat) then None else read_sep ":"%char index l ≫= read_ipv4_addr) with
      | Some (ip, rest) =>
          ([oct_a ip * 256 + oct_b ip; oct_c ip * 256 + oct_d ip], true, rest)
      | None =>
          match read_sep ":"%char index l ≫= read_number 16 65535 4 true with
          | Some (g, rest) =>
              let '(gs, v4, rest') := read_groups limit' (S index) rest in (g :: gs, v4, rest')
          | None => ([], false, l)
          end
      end
  end.

Definition ipv6_of (l : list Z) : option Ipv6Addr :=
  match l with
  | [a; b; c; d; e; f; g; h] => Some (Ipv6 a b c d e f g h)
  | _ => None
  end.
Definition read_ipv6_addr (l : list ascii) : option (Ipv6Addr * list ascii) :=
  let '(head, head_ipv4, l1) := read_groups 8 0 l in
  if decide (length head = 8%nat) then ip ← ipv6_of head; Some (ip, l1)
  else if head_ipv4 then None
  else
    l2 ← read_char ":"%char l1; l3 ← read_char ":"%char l2;
    let '(tail, _, l4) := read_groups (8 - (length head + 1)) 0 l3 in
    ip ← ipv6_of (head ++ replicate (8 - length head - length tail) 0 ++ tail);
    Some (ip, l4).

(** [str::parse::<IpAddr>]: the whole text must be consumed. *)
Definition parse_ip (s : string) : option IpAddr :=
  match read_ipv4_addr (bytes_of s) with
  | Some (ip, []) => Some (IpV4 ip)
  | Some (_, _ :: _) => None
  | None =>
      match read_ipv6_addr (bytes_of s) with
      | Some (ip, []) => Some (IpV6 ip)
      | _ => None
      end
  end.

Definition hex_char (d : Z) : ascii :=
  ascii_of_nat (Z.to_nat (if decide (d < 10) then d + 48 else d + 87)).
(** [{:x}] of a segment. *)
Definition show_seg (n : Z) : string :=
  string_of (hex_char <$>
    (if decide (n < 16) then [n]
     else if decide (n < 256) then [n / 16; n mod 16]
     else if decide (n < 4096) then [n / 256; n / 16 mod 16; n mod 16]
     else [n / 4096; n / 256 mod 16; n / 16 mod 16; n mod 16])).
Definition show_segs (l : list Z) : string :=
  match l with
  | [] => EmptyString
  | g :: gs => foldl (λ s g, s +:+ ":" +:+ show_seg g) (show_seg g) gs
  end.
Definition show_ipv4 (ip : Ipv4Addr) : string :=
  pretty (oct_a ip) +:+ "." +:+ pretty (oct_b ip) +:+ "." +:+ pretty (oct_c ip) +:+ "." +:+
  pretty (oct_d ip).

(** The first longest run of zero segments, as its start and length. *)
Fixpoint zero_run (i : nat) (current longest : nat * nat) (l : list Z) : nat * nat :=
  match l with
  | [] => longest
  | g :: gs =>
      if decide (g = 0) then
        let current := ((if decide (current.2 = 0%nat) then i else current.1), S current.2) in
        zero_run (S i) current (if decide (longest.2 < current.2)%nat then current else longest) gs
      else zero_run (S i) (0, 0)%nat longest gs
  end.
Definition show_ipv6 (ip : Ipv6Addr) : string :=
  match to_ipv4_mapped ip with
  | Some v4 => "::ffff:" +:+ show_ipv4 v4
  | None =>
      let '(start, len) := zero_run 0 (0, 0)%nat (0, 0)%nat (segments ip) in
      if decide (1 < len)%nat
      then show_segs (take start (segments ip)) +:+ "::" +:+ show_segs (drop (start + len) (segments ip))
      else show_segs (segments ip)
  end.
Definition show_ip (ip : IpAddr) : string :=
  match ip with IpV4 ip => show_ipv4 ip | IpV6 ip => show_ipv6 ip end.

(** ** Classification ([ssrf.rs]) *)

Definition is_private_v4 (ip : Ipv4Addr) : bool :=
  v4_is_loopback ip || v4_is_private ip || v4_is_link_local ip || v4_is_broadcast ip ||
  v4_is_unspecified ip ||
  (bool_decide (oct_a ip = 100) && bool_decide (64 ≤ oct_b ip) && bool_decide (oct_b ip ≤ 127)).

Definition v6_embeds_private_v4 (ip : Ipv6Addr) : bool :=
  let sixtofour := bool_decide (seg0 ip = 0x2002) &&
    is_private_v4 (Ipv4 (hi (seg1 ip)) (lo (seg1 ip)) (hi (seg2 ip)) (lo (seg2 ip))) in
  let nat64 := bool_decide (seg0 ip = 0x0064) && bool_decide (seg1 ip = 0xff9b) &&
    is_private_v4 (Ipv4 (hi (seg6 ip)) (lo (seg6 ip)) (hi (seg7 ip)) (lo (seg7 ip))) in
  sixtofour || nat64.

Definition is_private_v6 (ip : Ipv6Addr) : bool :=
  if v6_is_loopback ip || v6_is_unspecified ip then true
  else if match to_ipv4_mapped ip with Some v4 => is_private_v4 v4 | None => false end then true
  else
    let unique_local := bool_decide (Z.land (seg0 ip) 0xfe00 = 0xfc00) in
    let link_local := bool_decide (Z.land (seg0 ip) 0xffc0 = 0xfe80) in
    unique_local || link_local || v6_embeds_private_v4 ip.

Definition is_private_ip (addr : IpAddr) : bool :=
  match addr with IpV4 ip => is_private_v4 ip | IpV6 ip => is_private_v6 ip end.

(** ** The guard *)

(** Name resolution by the operating system: the addresses of a name at some moment. *)
Class Dns (Net : Type) := {
  dns_lookup : string → Net → result (list IpAddr) string * Net
}.

Section guard.
Context {Net : Type} {dns : Dns Net}.

(** [(host, port).to_socket_addrs()]: a literal stands for itself. *)
Definition to_socket_addrs (host : string) (port : Z) (n : Net)
    : result (list (IpAddr * Z)) string * Net :=
  match parse_ip host with
  | Some ip => (Ok [(ip, port)], n)
  | None =>
      let '(r, n1) := dns_lookup host n in
      (match r with Ok ips => Ok ((λ ip, (ip, port)) <$> ips) | Err e => Err e end, n1)
  end.

(** The loop over the resolved addresses. *)
Fixpoint check_addrs (host : string) (addrs : list (IpAddr * Z)) : result unit string :=
  match addrs with
  | [] => Ok ()
  | (ip, _) :: rest =>
      if is_private_ip ip
      then Err ("host '" +:+ host +:+ "' resolves to private IP " +:+ show_ip ip +:+ ", blocked")
      else check_addrs host rest
  end.

Definition block_private_ip (host : string) (port : Z) (allow_private : bool) (n : Net)
    : result unit string * Net :=
  if allow_private then (Ok (), n)
  else
    match parse_ip host with
    | Some addr =>
        if is_private_ip addr
        then (Err ("requests to private IP " +:+ show_ip addr +:+ " are blocked"), n)
        else (Ok (), n)
    | None =>
        match to_socket_addrs host port n with
        | (Ok addrs, n1) => (check_addrs host addrs, n1)
        | (Err _, n1) => (Ok (), n1)
        end
    end.
End guard.

(** ** The reference classification *)

Definition octet (n : Z) : Prop := 0 ≤ n < 256.
Definition segment (n : Z) : Prop := 0 ≤ n < 65536.
Definition v4_wf (ip : Ipv4Addr) : Prop := Forall octet (octets ip).
Definition v6_wf (ip : Ipv6Addr) : Prop := Forall segment (segments ip).

(** An address as one big-endian integer. *)
Definition v4_bits (ip : Ipv4Addr) : Z := foldl (λ n o, n * 256 + o) 0 (octets ip).
Definition v6_bits (ip : Ipv6Addr) : Z := foldl (λ n g, n * 65536 + g) 0 (segments ip).

(** [x] is in the block of the first [len] bits of [base], of [width]-bit addresses. *)
Definition in_cidr (width x : Z) (block : Z * Z) : Prop :=
  x / 2 ^ (width - block.2) = block.1 / 2 ^ (width - block.2).

(** The special-purpose IPv4 blocks: loopback, the three private ones, link-local, the two single
    addresses, shared address space. *)
Definition v4_blocks : list (Z * Z) :=
  [(v4_bits (Ipv4 127 0 0 0), 8); (v4_bits (Ipv4 10 0 0 0), 8); (v4_bits (Ipv4 172 16 0 0), 12);
   (v4_bits (Ipv4 192 168 0 0), 16); (v4_bits (Ipv4 169 254 0 0), 16);
   (v4_bits (Ipv4 255 255 255 255), 32); (v4_bits (Ipv4 0 0 0 0), 32);
   (v4_bits (Ipv4 100 64 0 0), 10)].
Definition v4_internal (x : Z) : Prop := Exists (in_cidr 32 x) v4_blocks.

(** Loopback, unspecified, unique-local, link-local; and IPv4-mapped, 6to4 and NAT64 addresses by
    the IPv4 address they carry. *)
Definition v6_internal (x : Z) : Prop :=
  Exists (in_cidr 128 x)
    [(1, 128); (0, 128); (v6_bits (Ipv6 0xfc00 0 0 0 0 0 0 0), 7);
     (v6_bits (Ipv6 0xfe80 0 0 0 0 0 0 0), 10)] ∨
  (in_cidr 128 x (v6_bits (Ipv6 0 0 0 0 0 0xffff 0 0), 96) ∧ v4_internal (x mod 2 ^ 32)) ∨
  (in_cidr 128 x (v6_bits (Ipv6 0x2002 0 0 0 0 0 0 0), 16) ∧ v4_internal (x / 2 ^ 80 mod 2 ^ 32)) ∨
  (in_cidr 128 x (v6_bits (Ipv6 0x64 0xff9b 0 0 0 0 0 0), 32) ∧ v4_internal (x mod 2 ^ 32)).

Definition ip_wf (addr : IpAddr) : Prop :=
  match addr with IpV4 ip => v4_wf ip | IpV6 ip => v6_wf ip end.
Definition internal (addr : IpAddr) : Prop :=
  match addr with IpV4 ip => v4_internal (v4_bits ip) | IpV6 ip => v6_internal (v6_bits ip) end.

(** ** Lemmas *)

Lemma v4_wf_inv ip : v4_wf ip → octet (oct_a ip) ∧ octet (oct_b ip) ∧ octet (oct_c ip) ∧ octet (oct_d ip).
Proof. intros H. unfold v4_wf, octets in H. by rewrite !Forall_cons in H; destruct H as (?&?&?&?&_). Qed.

Lemma v6_wf_inv ip : v6_wf ip →
  segment (seg0 ip) ∧ segment (seg1 ip) ∧ segment (seg2 ip) ∧ segment (seg3 ip) ∧
  segment (seg4 ip) ∧ segment (seg5 ip) ∧ segment (seg6 ip) ∧ segment (seg7 ip).
Proof.
  intros H. unfold v6_wf, segments in H. by rewrite !Forall_cons in H; destruct H as (?&?&?&?&?&?&?&?&_).
Qed.

Lemma octets_eq ip a b c d :
  octets ip = [a; b; c; d] ↔ oct_a ip = a ∧ oct_b ip = b ∧ oct_c ip = c ∧ oct_d ip = d.
Proof. unfold octets. naive_solver congruence. Qed.

(** The leading bits of an address, for the prefix lengths of [v4_blocks]. *)
Lemma v4_prefixes a b c d : octet a → octet b → octet c → octet d →
  let x := v4_bits (Ipv4 a b c d) in
  x / 2 ^ (32 - 8) = a ∧ x / 2 ^ (32 - 12) = a * 16 + b / 16 ∧ x / 2 ^ (32 - 16) = a * 256 + b ∧
  x / 2 ^ (32 - 10) = a * 4 + b / 64 ∧ x / 2 ^ (32 - 32) = x.
Proof.
  unfold octet, v4_bits, octets. intros. simpl.
  change (2 ^ (32 - 8)) with 16777216. change (2 ^ (32 - 12)) with 1048576.
  change (2 ^ (32 - 16)) with 65536. change (2 ^ (32 - 10)) with 4194304.
  change (2 ^ (32 - 32)) with 1.
  split_and!; Z.to_euclidean_division_equations; lia.
Qed.

Lemma is_private_v4_spec ip : v4_wf ip → is_private_v4 ip = true ↔ v4_internal (v4_bits ip).
Proof.
  intros Hwf. destruct (v4_wf_inv ip Hwf) as (Ha & Hb & Hc & Hd). destruct ip as [a b c d].
  cbn [oct_a oct_b oct_c oct_d] in *.
  destruct (v4_prefixes a b c d Ha Hb Hc Hd) as (H8 & H12 & H16 & H10 & H32).
  unfold v4_internal, v4_blocks. rewrite !Exists_cons, Exists_nil.
  unfold in_cidr. cbn [fst snd]. rewrite H8, H12, H16, H10, H32.
  repeat match goal with |- context [v4_bits (Ipv4 (Zpos ?p) ?q ?r ?t) / ?m] =>
    let v := eval vm_compute in (v4_bits (Ipv4 (Zpos p) q r t) / m) in
    change (v4_bits (Ipv4 (Zpos p) q r t) / m) with v end.
  change (v4_bits (Ipv4 0 0 0 0) / 2 ^ (32 - 32)) with 0.
  unfold v4_bits, octets in *. simpl.
  unfold is_private_v4, v4_is_loopback, v4_is_private, v4_is_link_local, v4_is_broadcast,
    v4_is_unspecified. cbn [oct_a oct_b oct_c oct_d].
  rewrite !orb_true_iff, !andb_true_iff, !bool_decide_eq_true, !octets_eq.
  cbn [oct_a oct_b oct_c oct_d]. unfold octet in *. clear H8 H12 H16 H10 H32 Hwf.
  assert (a * 16 + b / 16 = 2753 ↔ a = 172 ∧ 16 ≤ b ≤ 31) as ->
    by (split; intros; Z.to_euclidean_division_equations; lia).
  assert (a * 4 + b / 64 = 401 ↔ (a = 100 ∧ 64 ≤ b) ∧ b ≤ 127) as ->
    by (split; intros; Z.to_euclidean_division_equations; lia).
  assert (a * 256 + b = 49320 ↔ a = 192 ∧ b = 168) as -> by lia.
  assert (a * 256 + b = 43518 ↔ a = 169 ∧ b = 254) as -> by lia.
  assert (∀ n, ((a * 256 + b) * 256 + c) * 256 + d = ((n * 256 + n) * 256 + n) * 256 + n ↔
    a = n ∧ b = n ∧ c = n ∧ d = n) as Hall.
  { intros n. split; [|lia]. intros. assert (0 ≤ n ≤ 255) by lia. lia. }
  pose proof (Hall 255) as H255. pose proof (Hall 0) as H0. simpl in H255, H0.
  rewrite H255, H0. tauto.
Qed.

Lemma v6_prefixes s0 s1 s2 s3 s4 s5 s6 s7 :
  segment s0 → segment s1 → segment s2 → segment s3 → segment s4 → segment s5 → segment s6 →
  segment s7 →
  let x := v6_bits (Ipv6 s0 s1 s2 s3 s4 s5 s6 s7) in
  let v4 g h := v4_bits (Ipv4 (hi g) (lo g) (hi h) (lo h)) in
  x / 2 ^ (128 - 7) = s0 / 512 ∧ x / 2 ^ (128 - 10) = s0 / 64 ∧ x / 2 ^ (128 - 16) = s0 ∧
  x / 2 ^ (128 - 32) = s0 * 65536 + s1 ∧
  x / 2 ^ (128 - 96) = v6_bits (Ipv6 0 0 s0 s1 s2 s3 s4 s5) ∧ x / 2 ^ (128 - 128) = x ∧
  x mod 2 ^ 32 = v4 s6 s7 ∧ x / 2 ^ 80 mod 2 ^ 32 = v4 s1 s2.
Proof.
  unfold segment, v6_bits, v4_bits, octets, segments, hi, lo. intros. simpl.
  change (2 ^ (128 - 128)) with 1. rewrite Z.div_1_r.
  assert (∀ k y q r, y = k * q + r → 0 ≤ r < k → y / k = q) as Hq
    by (intros k y q r -> ?; symmetry; by apply (Z.div_unique_pos _ _ _ r)).
  assert (∀ k y q r, y = k * q + r → 0 ≤ r < k → y mod k = r) as Hm
    by (intros k y q r -> ?; symmetry; by apply (Z.mod_unique_pos _ _ q)).
  set (t := (((((s1 * 65536 + s2) * 65536 + s3) * 65536 + s4) * 65536 + s5) * 65536 + s6) * 65536 + s7).
  assert (0 ≤ t < 2 ^ 112) by (unfold t; lia).
  assert (0 ≤ s6 / 256 * 256 + s6 mod 256 < 65536) by (Z.to_euclidean_division_equations; lia).
  split_and!.
  - apply (Hq _ _ _ (s0 mod 512 * 2 ^ 112 + t)); unfold t; Z.to_euclidean_division_equations; lia.
  - apply (Hq _ _ _ (s0 mod 64 * 2 ^ 112 + t)); unfold t; Z.to_euclidean_division_equations; lia.
  - apply (Hq _ _ _ t); unfold t; lia.
  - apply (Hq _ _ _ (t - s1 * 2 ^ 96)); unfold t; lia.
  - apply (Hq _ _ _ (s6 * 65536 + s7)); lia.
  - done.
  - apply (Hm _ _ ((((((s0 * 65536 + s1) * 65536 + s2) * 65536 + s3) * 65536 + s4) * 65536 + s5)));
      Z.to_euclidean_division_equations; lia.
  - rewrite (Hq _ _ ((s0 * 65536 + s1) * 65536 + s2) (t - (s1 * 65536 + s2) * 2 ^ 80))
      by (unfold t; lia).
    apply (Hm _ _ s0); Z.to_euclidean_division_equations; lia.
Qed.

(** A mask of the [j] bits above the lowest [k] keeps exactly those. *)
Lemma land_high_mask k j g : 0 ≤ k → 0 ≤ j →
  Z.land g (Z.shiftl (Z.ones j) k) = Z.shiftl (Z.shiftr g k mod 2 ^ j) k.
Proof.
  intros Hk Hj. rewrite <-Z.land_ones by done. apply Z.bits_inj'. intros n Hn.
  rewrite Z.land_spec, !Z.shiftl_spec by done. destruct (decide (n < k)).
  - rewrite !(Z.testbit_neg_r _ (n - k)) by lia. apply andb_false_r.
  - rewrite Z.land_spec, Z.shiftr_spec by lia. by replace (n - k + k) with n by lia.
Qed.

(** The two masks of [is_private_v6] test the leading seven and ten bits of a segment. *)
Lemma segment_masks g : segment g →
  (Z.land g 0xfe00 = 0xfc00 ↔ g / 512 = 0x7e) ∧ (Z.land g 0xffc0 = 0xfe80 ↔ g / 64 = 0x3fa).
Proof.
  unfold segment. intros Hg.
  change 0xfe00 with (Z.shiftl (Z.ones 7) 9). change 0xffc0 with (Z.shiftl (Z.ones 10) 6).
  rewrite !land_high_mask, !Z.shiftl_mul_pow2, !Z.shiftr_div_pow2 by lia.
  change (2 ^ 9) with 512. change (2 ^ 6) with 64. change (2 ^ 7) with 128. change (2 ^ 10) with 1024.
  assert (0 ≤ g / 512 < 128) by (Z.to_euclidean_division_equations; lia).
  assert (0 ≤ g / 64 < 1024) by (Z.to_euclidean_division_equations; lia).
  rewrite !Z.mod_small by lia. lia.
Qed.

Lemma digit_inj k a b x y : 0 ≤ x < k → 0 ≤ y < k → a * k + x = b * k + y → a = b ∧ x = y.
Proof. intros. assert (a = b) by nia. lia. Qed.

Lemma v6_bits_inj a b : v6_wf a → v6_wf b → v6_bits a = v6_bits b ↔ segments a = segments b.
Proof.
  intros Ha Hb. split; [|unfold v6_bits; congruence]. intros Hx.
  apply v6_wf_inv in Ha as (?&?&?&?&?&?&?&?). apply v6_wf_inv in Hb as (?&?&?&?&?&?&?&?).
  unfold v6_bits, segments, segment in *. cbn [foldl] in Hx.
  do 8 (apply digit_inj in Hx as [Hx ?]; [|assumption|assumption]). congruence.
Qed.

Lemma mapped_v4_wf s6 s7 : segment s6 → segment s7 → v4_wf (Ipv4 (hi s6) (lo s6) (hi s7) (lo s7)).
Proof.
  unfold segment, v4_wf, octets, octet, hi, lo. intros.
  repeat constructor; simpl; Z.to_euclidean_division_equations; lia.
Qed.

Ltac v6_wf_tac :=
  try done; unfold v6_wf, segments; simpl; repeat (constructor; [unfold segment in *; lia|]); constructor.

(** The exact addresses and the IPv4-mapped prefix, as tests on the segments. *)
Lemma v6_exact ip : v6_wf ip →
  (v6_bits ip = 1 ↔ v6_is_loopback ip = true) ∧ (v6_bits ip = 0 ↔ v6_is_unspecified ip = true).
Proof.
  intros Hwf. unfold v6_is_loopback, v6_is_unspecified. rewrite !bool_decide_eq_true.
  split.
  - change 1 with (v6_bits (Ipv6 0 0 0 0 0 0 0 1)) at 1. rewrite v6_bits_inj by v6_wf_tac. done.
  - change 0 with (v6_bits (Ipv6 0 0 0 0 0 0 0 0)) at 1. rewrite v6_bits_inj by v6_wf_tac. done.
Qed.

Lemma v6_mapped ip : v6_wf ip →
  v6_bits (Ipv6 0 0 (seg0 ip) (seg1 ip) (seg2 ip) (seg3 ip) (seg4 ip) (seg5 ip)) = 65535 ↔
  take 6 (segments ip) = [0; 0; 0; 0; 0; 65535].
Proof.
  intros Hwf. destruct (v6_wf_inv ip Hwf) as (H0 & H1 & H2 & H3 & H4 & H5 & H6 & H7).
  change 65535 with (v6_bits (Ipv6 0 0 0 0 0 0 0 65535)) at 1. rewrite v6_bits_inj by v6_wf_tac.
  unfold segments. simpl. split; intros [=]; congruence.
Qed.

Lemma is_private_v6_spec ip : v6_wf ip → is_private_v6 ip = true ↔ v6_internal (v6_bits ip).
Proof.
  intros Hwf. destruct (v6_wf_inv ip Hwf) as (H0 & H1 & H2 & H3 & H4 & H5 & H6 & H7).
  pose proof (v6_prefixes _ _ _ _ _ _ _ _ H0 H1 H2 H3 H4 H5 H6 H7) as Hp.
  replace (Ipv6 (seg0 ip) (seg1 ip) (seg2 ip) (seg3 ip) (seg4 ip) (seg5 ip) (seg6 ip) (seg7 ip))
    with ip in Hp by (by destruct ip).
  cbv zeta in Hp. destruct Hp as (P7 & P10 & P16 & P32 & P96 & P128 & PL & PM).
  destruct (segment_masks _ H0) as [M7 M10]. destruct (v6_exact ip Hwf) as [X1 X0].
  unfold v6_internal. rewrite !Exists_cons, Exists_nil. unfold in_cidr. cbn [fst snd].
  rewrite P7, P10, P16, P32, P96, P128, PL, PM.
  rewrite <-!is_private_v4_spec by auto using mapped_v4_wf.
  change (1 / 2 ^ (128 - 128)) with 1. change (0 / 2 ^ (128 - 128)) with 0.
  change (v6_bits (Ipv6 0 0 0 0 0 65535 0 0) / 2 ^ (128 - 96)) with 65535.
  change (v6_bits (Ipv6 64512 0 0 0 0 0 0 0) / 2 ^ (128 - 7)) with 126.
  change (v6_bits (Ipv6 65152 0 0 0 0 0 0 0) / 2 ^ (128 - 10)) with 1018.
  change (v6_bits (Ipv6 8194 0 0 0 0 0 0 0) / 2 ^ (128 - 16)) with 8194.
  change (v6_bits (Ipv6 100 65435 0 0 0 0 0 0) / 2 ^ (128 - 32)) with (100 * 65536 + 65435).
  assert (seg0 ip * 65536 + seg1 ip = 100 * 65536 + 65435 ↔ seg0 ip = 100 ∧ seg1 ip = 65435) as ->
    by (unfold segment in *; lia).
  rewrite <-M7, <-M10, X1, X0, v6_mapped by done. clear M7 M10 P7 P10 P16 P32 P96 P128 PL PM X1 X0.
  unfold is_private_v6, v6_embeds_private_v4, to_ipv4_mapped.
  destruct (v6_is_loopback ip), (v6_is_unspecified ip); simpl; [naive_solver..|].
  case_decide as Ht; cbv iota beta;
    generalize (is_private_v4 (Ipv4 (hi (seg6 ip)) (lo (seg6 ip)) (hi (seg7 ip)) (lo (seg7 ip))));
    generalize (is_private_v4 (Ipv4 (hi (seg1 ip)) (lo (seg1 ip)) (hi (seg2 ip)) (lo (seg2 ip))));
    intros [] []; rewrite ?orb_true_iff, ?andb_true_iff, ?bool_decide_eq_true; intuition congruence.
Qed.

(** ** Lemmas on the guard and the textual form *)

Section guard_lemmas.
Context {Net : Type} {dns : Dns Net}.

Lemma check_addrs_ok host addrs :
  check_addrs host addrs = Ok () ↔ Forall (λ a, is_private_ip a.1 = false) addrs.
Proof.
  induction addrs as [|[ip port] addrs IH]; simpl; [split; auto|]. rewrite Forall_cons, <-IH. simpl.
  destruct (is_private_ip ip); naive_solver.
Qed.

(** What passing the guard says of a host. *)
Lemma block_private_ip_ok host port n n' :
  block_private_ip host port false n = (Ok (), n') →
  (∀ ip, parse_ip host = Some ip → is_private_ip ip = false) ∧
  (∀ addrs, parse_ip host = None → (to_socket_addrs host port n).1 = Ok addrs →
     Forall (λ a, is_private_ip a.1 = false) addrs).
Proof.
  unfold block_private_ip. destruct (parse_ip host) as [ip|] eqn:Ep.
  - intros Hb. split; [|done]. intros ip' [= <-]. by destruct (is_private_ip ip).
  - intros Hb. split; [done|]. intros addrs _ Ht.
    destruct (to_socket_addrs host port n) as [[l|e] n1]; simplify_eq/=. by apply (check_addrs_ok host).
Qed.
End guard_lemmas.

Lemma read_digits_app radix acc count l rest v c :
  read_digits radix acc count l = (v, c, []) →
  read_digits radix acc count (l ++ rest) = read_digits radix v c rest.
Proof.
  revert acc count. induction l as [|a l IH]; intros acc count; simpl; [congruence|].
  destruct (to_digit radix a); [apply IH|done].
Qed.

(** A decimal octet followed by something else is read back. *)
Definition octet_text_ok (n : Z) : bool :=
  let l := bytes_of (pretty n) in
  let '(v, c, rest) := read_digits 10 0 0 l in
  bool_decide (v = n) && bool_decide (rest = []) && bool_decide (1 ≤ c ≤ 3)%nat &&
  (bool_decide (head l ≠ Some "0"%char) || bool_decide (c = 1%nat)) && bool_decide (l ≠ []).
Lemma octet_texts_ok : forallb octet_text_ok (seqZ 0 256) = true.
Proof. vm_compute. reflexivity. Qed.

Lemma read_octet n rest : octet n →
  match rest with a :: _ => to_digit 10 a = None | [] => True end →
  read_number 10 255 3 false (bytes_of (pretty n) ++ rest) = Some (n, rest).
Proof.
  intros Hn Hrest.
  assert (octet_text_ok n = true) as Hok.
  { refine (proj1 (forallb_forall octet_text_ok (seqZ 0 256)) octet_texts_ok n _).
    apply list_elem_of_In, elem_of_seqZ. unfold octet in Hn. lia. }
  unfold octet_text_ok in Hok. unfold read_number.
  destruct (read_digits 10 0 0 (bytes_of (pretty n))) as [[v c] r] eqn:Ed.
  rewrite !andb_true_iff, orb_true_iff, !bool_decide_eq_true in Hok.
  destruct Hok as ((((-> & ->) & Hc) & Hz) & Hl).
  rewrite (read_digits_app _ _ _ _ _ _ _ Ed).
  assert (read_digits 10 n c rest = (n, c, rest)) as ->.
  { destruct rest as [|a rest]; simpl; [done|]. by rewrite Hrest. }
  rewrite !decide_False by lia.
  assert (head (bytes_of (pretty n) ++ rest) = head (bytes_of (pretty n))) as ->
    by (by destruct (bytes_of (pretty n))).
  simpl. destruct (bool_decide_reflect (head (bytes_of (pretty n)) = Some "0"%char)) as [Hh|Hh].
  - rewrite bool_decide_eq_false_2 by (destruct Hz; [done|lia]). simpl.
    unfold octet in Hn. by rewrite decide_True by lia.
  - simpl. unfold octet in Hn. by rewrite decide_True by lia.
Qed.

(** The text of an IPv4 address parses back to it. *)
Lemma parse_show_ipv4 ip : v4_wf ip → parse_ip (show_ipv4 ip) = Some (IpV4 ip).
Proof.
  intros Hwf. destruct (v4_wf_inv ip Hwf) as (Ha & Hb & Hc & Hd). unfold parse_ip, show_ipv4.
  rewrite !bytes_of_app. unfold read_ipv4_addr. simpl.
  rewrite read_octet by done. simpl. rewrite read_octet by done. simpl.
  rewrite read_octet by done. simpl.
  rewrite <-(app_nil_r (bytes_of (pretty (oct_d ip)))), read_octet by done.
  by destruct ip.
Qed.

(** ** Properties *)


(** ** Witnesses *)

