(* ===== verification/Http.v ===== *)
(** * Http: the script's HTTP client

    Models [runlet-core/src/http.rs]: the [__http] closure with its budget, URL validation, header
    filtering, the redirect policy, the filtering resolver, response limits and metering.  [reqwest]
    is third-party: [UrlLib] gives URLs, [HttpClient] the client, which calls back the redirect policy
    and the resolver it was built with.  The network is a threaded state; [connections] is the log of
    the connections it has seen. *)

From Stdlib Require Import Ascii.
From stdpp Require Import pretty.
From S2P Require Import Prelude Json Errors Runtime Wire Ssrf.
Local Open Scope Z_scope.

(** ** Interfaces *)

(** [url::Host]. *)
Inductive UrlHost := HostDomain (domain : string) | HostIp4 (ip : Ipv4Addr) | HostIp6 (ip : Ipv6Addr).

(** [reqwest::Url]: parsing, the host as a value and as text ([host_str] gives an IPv6 address between
    brackets), and [port_or_known_default]. *)
Class UrlLib (Url : Type) := {
  url_parse : string → result Url string;
  url_host : Url → option UrlHost;
  host_str : Url → option string;
  url_port : Url → option Z;
  host_str_domain u d : url_host u = Some (HostDomain d) → host_str u = Some d;
  host_str_v4 u ip : url_host u = Some (HostIp4 ip) → v4_wf ip ∧ host_str u = Some (show_ipv4 ip);
  host_str_v6 u ip : url_host u = Some (HostIp6 ip) → ∃ t, host_str u = Some ("[" +:+ t +:+ "]")
}.

Inductive Action := Follow | Stop.
#[export] Instance Action_eq_dec : EqDecision Action.
Proof. solve_decision. Defined.

Record HttpRequest := {
  hr_method : string; hr_url : string; hr_headers : list (string * string); hr_body : option string }.
(** A [reqwest::Error] and its predicates; a response, its announced length and its body. *)
Record TransportError := { te_timeout : bool; te_connect : bool; te_text : string }.
Record HttpResponse := {
  hp_status : Z; hp_content_length : option Z; hp_text : result string string }.

(** A connection came from the request's own URL or a redirect the policy let through, and goes to the
    address in the URL, or to one the resolver gave for the URL's domain. *)
Definition reached {Net Url : Type} {url : UrlLib Url} (policy : nat → Url → Net → Action * Net)
    (resolver : string → Net → result (list (IpAddr * Z)) string * Net) (req : HttpRequest)
    (c : Url * IpAddr) : Prop :=
  (url_parse (hr_url req) = Ok c.1 ∨ ∃ previous n, (policy previous c.1 n).1 = Follow) ∧
  match url_host c.1 with
  | Some (HostIp4 ip) => c.2 = IpV4 ip
  | Some (HostIp6 ip) => c.2 = IpV6 ip
  | Some (HostDomain d) => ∃ n addrs, (resolver d n).1 = Ok addrs ∧ c.2 ∈ addrs.*1
  | None => False
  end.

(** [reqwest::blocking::Client]: the methods it knows, and sending with the policy and resolver it was
    built with.  Every connection is [reached]: the process runs without a proxy in its environment. *)
Class HttpClient (Net Url : Type) {url : UrlLib Url} {dns : Dns Net} := {
  method_parse : string → result unit string;
  http_send : (nat → Url → Net → Action * Net) →
    (string → Net → result (list (IpAddr * Z)) string * Net) →
    HttpRequest → Net → result HttpResponse TransportError * Net;
  connections : Net → list (Url * IpAddr);
  dns_no_connection h n : connections (dns_lookup h n).2 = connections n;
  send_connections policy resolver req n :
    (∀ k u n, connections (policy k u n).2 = connections n) →
    (∀ h n, connections (resolver h n).2 = connections n) →
    ∃ new, connections (http_send policy resolver req n).2 = connections n ++ new ∧
      Forall (reached policy resolver req) new
}.

(** ** Constants and records *)

Definition MAX_RESPONSE_BYTES : Z := 10 * 1024 * 1024.
Definition MAX_REDIRECTS : nat := 5.
Definition PROTECTED_HEADERS : list string :=
  ["content-type"; "content-length"; "host"; "transfer-encoding"].

Definition HTTP_FALLBACK : Fault := Fault_new "HTTP_ERROR" true Operator.
Definition HTTP_OP_LIMIT : Fault := Fault_new "HTTP_OP_LIMIT" false Developer.
Definition HTTP_SSRF_BLOCKED : Fault := Fault_new "HTTP_SSRF_BLOCKED" false Developer.
Definition HTTP_BODY_TOO_LARGE : Fault := Fault_new "HTTP_BODY_TOO_LARGE" false Developer.

Record HttpError := { he_fault : Fault; he_message : string }.

(** [classify]. *)
Definition classify (err : TransportError) : Fault :=
  if te_timeout err then Fault_new "HTTP_TIMEOUT" true Operator
  else if te_connect err then Fault_new "HTTP_CONNECT" true Operator
  else HTTP_FALLBACK.
(** [HttpError::from_transport]. *)
Definition from_transport (err : TransportError) (method url : string) : HttpError :=
  {| he_fault := classify err;
     he_message := "HTTP " +:+ method +:+ " " +:+ url +:+ ": " +:+ te_text err |}.

Record HttpMetric := {
  hm_method : string; hm_host : string; hm_status : Z; hm_request_bytes : Z;
  hm_response_bytes : Z; hm_duration_us : Z }.

(** [api_inband_error_json] and its last resort. *)
Definition FALLBACK_API_JSON : string :=
  "{" +:+ quoted "status" +:+ ":0," +:+ quoted "error" +:+ ":{" +:+ quoted "code" +:+ ":" +:+
  quoted "HTTP_ERROR" +:+ "," +:+ quoted "retryable" +:+ ":true," +:+ quoted "owner" +:+ ":" +:+
  quoted "operator" +:+ "," +:+ quoted "source" +:+ ":" +:+ quoted "api" +:+ "}}".
Definition api_inband_error_json {jt : JsonText} (fault : Fault) (message : string) : string :=
  default FALLBACK_API_JSON (json_print (api_inband_error_value fault message)).

(** ** Headers *)

(** The deserializer of [BTreeMap<String, String>]. *)
Definition de_string_map (v : Value) : option (list (string * string)) :=
  match v with
  | VObject fields =>
      pairs ← mapM (λ '(k, v), s ← de_string v; Some (k, s)) fields;
      Some (foldl (λ l '(k, s), btree_insert k s l) [] pairs)
  | _ => None
  end.

Section http.
Context {jt : JsonText} {uc : UnicodeCase} {Net Url : Type} {url : UrlLib Url} {dns : Dns Net}
  {clock : Clock Net} {client : HttpClient Net Url}.

(** [parse_headers]. *)
Definition parse_headers (headers_json : string) : list (string * string) :=
  if is_empty headers_json then []
  else
    let headers := match from_str de_string_map headers_json with Ok l => l | Err _ => [] end in
    filter (λ kv, to_lowercase kv.1 ∉ PROTECTED_HEADERS) headers.

(** ** Validation *)

(** [is_host_allowed]. *)
Definition is_host_allowed (host : string) (allowed : list string) (wildcard_allowed : bool) : bool :=
  if wildcard_allowed && existsb (λ ah, bool_decide (ah = "*")) allowed then true
  else
    let host_lower := to_lowercase host in
    existsb (λ ah, bool_decide (to_lowercase ah = host_lower)) allowed.

(** [validate_url]. *)
Definition validate_url (u : string) (allowed : list string) (allow_private wildcard_allowed : bool)
    (n : Net) : result string string * Net :=
  match url_parse u with
  | Err err => (Err ("invalid URL '" +:+ u +:+ "': " +:+ err), n)
  | Ok parsed =>
      match host_str parsed with
      | None => (Err ("URL has no host: " +:+ u), n)
      | Some host =>
          if is_host_allowed host allowed wildcard_allowed then
            let port := default 80 (url_port parsed) in
            match block_private_ip host port allow_private n with
            | (Ok _, n1) => (Ok host, n1)
            | (Err e, n1) => (Err e, n1)
            end
          else (Err ("host '" +:+ host +:+ "' is not in allowed_hosts"), n)
      end
  end.

(** [validate_redirect], with the number of hops already followed. *)
Definition validate_redirect (hosts : list string) (allow_private wildcard_allowed : bool)
    (previous : nat) (u : Url) (n : Net) : Action * Net :=
  if decide (MAX_REDIRECTS ≤ previous)%nat then (Stop, n)
  else
    let host := default EmptyString (host_str u) in
    if is_host_allowed host hosts wildcard_allowed then
      let port := default 80 (url_port u) in
      match block_private_ip host port allow_private n with
      | (Ok _, n1) => (Follow, n1)
      | (Err _, n1) => (Stop, n1)
      end
    else (Stop, n).

(** [resolve_filtered]. *)
Definition resolve_filtered (allow_private : bool) (host : string) (n : Net)
    : result (list (IpAddr * Z)) string * Net :=
  match to_socket_addrs host 0 n with
  | (Err e, n1) => (Err e, n1)
  | (Ok addrs, n1) =>
      let kept := filter (λ a, allow_private = true ∨ is_private_ip a.1 = false) addrs in
      (match kept with
       | [] => Err ("host '" +:+ host +:+ "' has no public address (SSRF-filtered)")
       | _ => Ok kept
       end, n1)
  end.

(** [extract_host]. *)
Definition extract_host (u : string) : string :=
  match url_parse u with Ok parsed => default "unknown" (host_str parsed) | Err _ => "unknown" end.

(** ** Execution *)

(** [execute_http]: status, response bytes and the answer text (the failure to print the body, which
    [serde_json] never reports for a string, is given without the library's text). *)
Definition execute_http (hosts : list string) (allow_private wildcard_allowed : bool)
    (method u body : string) (headers : list (string * string)) (n : Net)
    : result (Z * Z * string) HttpError * Net :=
  match method_parse method with
  | Err err =>
      (Err {| he_fault := HTTP_FALLBACK;
              he_message := "invalid HTTP method '" +:+ method +:+ "': " +:+ err |}, n)
  | Ok _ =>
      let request := {| hr_method := method; hr_url := u;
        hr_headers := headers ++ (if nonempty body then [("Content-Type", "application/json")] else []);
        hr_body := if nonempty body then Some body else None |} in
      let '(sent, n1) := http_send (validate_redirect hosts allow_private wildcard_allowed)
                           (resolve_filtered allow_private) request n in
      (let? response := map_err (λ err, from_transport err method u) sent in
       let? _ := match hp_content_length response with
                 | Some len =>
                     if decide (MAX_RESPONSE_BYTES < to_u64_or_max len) then
                       Err {| he_fault := HTTP_BODY_TOO_LARGE;
                              he_message := "response too large: " +:+ pretty len +:+ " bytes (max " +:+
                                            pretty MAX_RESPONSE_BYTES +:+ ")" |}
                     else Ok ()
                 | None => Ok ()
                 end in
       let? response_body := map_err (λ err, {| he_fault := HTTP_FALLBACK;
         he_message := "failed to read response body: " +:+ err |}) (hp_text response) in
       let? _ := if decide (MAX_RESPONSE_BYTES < str_len response_body) then
                   Err {| he_fault := HTTP_BODY_TOO_LARGE;
                          he_message := "response too large: " +:+ pretty (str_len response_body) +:+
                                        " bytes (max " +:+ pretty MAX_RESPONSE_BYTES +:+ ")" |}
                 else Ok () in
       let? escaped_body := ok_or (json_print (VString response_body))
         {| he_fault := HTTP_FALLBACK; he_message := "failed to serialize response" |} in
       Ok (hp_status response, str_len response_body,
           "{" +:+ quoted "status" +:+ ":" +:+ pretty (hp_status response) +:+ "," +:+
           quoted "body" +:+ ":" +:+ escaped_body +:+ "}"), n1)
  end.

(** [MetricCtx::finish], at the network's current instant. *)
Definition finish (method host : string) (request_bytes : Z) (start : Z) (status response_bytes : Z)
    (n : Net) : HttpMetric :=
  {| hm_method := method; hm_host := host; hm_status := status; hm_request_bytes := request_bytes;
     hm_response_bytes := response_bytes; hm_duration_us := sat_sub (instant n) start / 1000 |}.

(** The [__http] closure of [inject_api]. *)
Definition native_http (hosts : list string) (max_ops : Z) (allow_private wildcard_allowed : bool)
    (method u body headers_json : string) (metrics : Collector HttpMetric) (n : Net)
    : string * Collector HttpMetric * Net :=
  match check_op_limit metrics max_ops with
  | Err err => (api_inband_error_json HTTP_OP_LIMIT err, metrics, n)
  | Ok _ =>
      let start := instant n in
      match validate_url u hosts allow_private wildcard_allowed n with
      | (Err err, n1) =>
          (api_inband_error_json HTTP_SSRF_BLOCKED err,
           coll_record metrics (finish method (extract_host u) (str_len body) start 0 0 n1), n1)
      | (Ok host, n1) =>
          let headers := parse_headers headers_json in
          match execute_http hosts allow_private wildcard_allowed method u body headers n1 with
          | (Ok (status, response_bytes, json), n2) =>
              (json, coll_record metrics
                       (finish method host (str_len body) start status response_bytes n2), n2)
          | (Err http_err, n2) =>
              (api_inband_error_json (he_fault http_err) (he_message http_err),
               coll_record metrics (finish method host (str_len body) start 0 0 n2), n2)
          end
      end
  end.
End http.

(** ** Lemmas *)

Section http_lemmas.
Context {jt : JsonText} {uc : UnicodeCase} {Net Url : Type} {url : UrlLib Url} {dns : Dns Net}
  {clock : Clock Net} {client : HttpClient Net Url}.
Implicit Types (n : Net) (u : Url) (hosts : list string).

Lemma to_socket_addrs_quiet host port n : connections (to_socket_addrs host port n).2 = connections n.
Proof.
  unfold to_socket_addrs. destruct (parse_ip host); [done|].
  pose proof (dns_no_connection host n) as Hd. by destruct (dns_lookup host n).
Qed.

Lemma block_private_ip_quiet host port allow n :
  connections (block_private_ip host port allow n).2 = connections n.
Proof.
  unfold block_private_ip. destruct allow; [done|]. destruct (parse_ip host) as [ip|].
  { by destruct (is_private_ip ip). }
  pose proof (to_socket_addrs_quiet host port n) as Ht. by destruct (to_socket_addrs host port n) as [[] ?].
Qed.

Lemma validate_redirect_quiet hosts allow wild k u n :
  connections (validate_redirect hosts allow wild k u n).2 = connections n.
Proof.
  unfold validate_redirect. case_decide; [done|]. case_match; [|done].
  pose proof (block_private_ip_quiet (default EmptyString (host_str u)) (default 80 (url_port u)) allow n)
    as Hb. by destruct (block_private_ip _ _ _ n) as [[] ?].
Qed.

Lemma resolve_filtered_quiet allow host n :
  connections (resolve_filtered allow host n).2 = connections n.
Proof.
  unfold resolve_filtered. pose proof (to_socket_addrs_quiet host 0 n) as Ht.
  by destruct (to_socket_addrs host 0 n) as [[] ?].
Qed.

Lemma validate_url_quiet s hosts allow wild n :
  connections (validate_url s hosts allow wild n).2 = connections n.
Proof.
  unfold validate_url. destruct (url_parse s) as [u|]; [|done]. destruct (host_str u) as [host|]; [|done].
  case_match; [|done].
  pose proof (block_private_ip_quiet host (default 80 (url_port u)) allow n) as Hb.
  by destruct (block_private_ip _ _ _ n) as [[] ?].
Qed.

(** What validation establishes of a URL: its host is allowed, and not a private literal. *)
Definition vetted hosts (wildcard : bool) u : Prop :=
  ∃ host, host_str u = Some host ∧ is_host_allowed host hosts wildcard = true ∧
    ∀ ip, parse_ip host = Some ip → is_private_ip ip = false.

Lemma validate_url_vetted s hosts wild n host n' :
  validate_url s hosts false wild n = (Ok host, n') → ∃ u, url_parse s = Ok u ∧ vetted hosts wild u.
Proof.
  unfold validate_url. destruct (url_parse s) as [u|]; [|done].
  destruct (host_str u) as [h|] eqn:Eh; [|done].
  destruct (is_host_allowed h hosts wild) eqn:Ea; [|done].
  destruct (block_private_ip h (default 80 (url_port u)) false n) as [[[]|] n1] eqn:Eb; [|done].
  intros _. exists u. split; [done|]. exists h. destruct (block_private_ip_ok _ _ _ _ Eb). by split_and!.
Qed.

Lemma validate_redirect_vetted hosts wild k u n h :
  url_host u = Some h → (validate_redirect hosts false wild k u n).1 = Follow → vetted hosts wild u.
Proof.
  intros Hh. assert (∃ host, host_str u = Some host) as [host Eh].
  { destruct h as [d|ip|ip].
    - eexists. by apply host_str_domain.
    - eexists. by eapply host_str_v4.
    - destruct (host_str_v6 u ip Hh) as [t Ht]. by eexists. }
  unfold validate_redirect. rewrite Eh. change (default EmptyString (Some host)) with host. case_decide; [done|].
  destruct (is_host_allowed host hosts wild) eqn:Ea; [|discriminate].
  destruct (block_private_ip host (default 80 (url_port u)) false n) as [[[]|] n1] eqn:Eb; simpl; [|discriminate].
  intros _. exists host. destruct (block_private_ip_ok _ _ _ _ Eb). by split_and!.
Qed.

Lemma resolve_filtered_public host n addrs :
  (resolve_filtered false host n).1 = Ok addrs → Forall (λ ip, is_private_ip ip = false) addrs.*1.
Proof.
  unfold resolve_filtered. destruct (to_socket_addrs host 0 n) as [[l|e] n1]; [|done]. simpl.
  destruct (filter _ l) as [|a k] eqn:Ef; [done|]. intros [= <-]. rewrite <-Ef.
  apply Forall_forall. intros ip Hip. apply list_elem_of_fmap in Hip as [[ip' port] [-> Hin]].
  apply list_elem_of_filter in Hin as [[?|?] _]; done.
Qed.

(** A connection as the guard leaves it. *)
Definition confined hosts (wildcard : bool) (c : Url * IpAddr) : Prop :=
  (∃ host, host_str c.1 = Some host ∧ is_host_allowed host hosts wildcard = true) ∧
  (is_private_ip c.2 = false ∨ ∃ ip, url_host c.1 = Some (HostIp6 ip) ∧ c.2 = IpV6 ip).

Lemma reached_confined hosts wild req u0 c :
  url_parse (hr_url req) = Ok u0 → vetted hosts wild u0 →
  reached (validate_redirect hosts false wild) (resolve_filtered false) req c →
  confined hosts wild c.
Proof.
  intros Hp Hv [Hhop Haddr]. destruct (url_host c.1) as [h|] eqn:Eh; [|done].
  assert (vetted hosts wild c.1) as (host & Hs & Ha & Hlit).
  { destruct Hhop as [Hu|(k & n & Hf)]; [congruence|]. by eapply validate_redirect_vetted. }
  split; [by exists host|]. destruct h as [d|ip|ip].
  - left. destruct Haddr as (n & addrs & Hr & Hin). apply resolve_filtered_public in Hr.
    rewrite Forall_forall in Hr. by apply Hr.
  - left. destruct (host_str_v4 _ _ Eh) as [Hwf Hs']. rewrite Haddr. apply Hlit.
    rewrite Hs in Hs'. simplify_eq. by apply parse_show_ipv4.
  - right. by exists ip.
Qed.

Lemma bracketed_not_ip t : parse_ip ("[" +:+ t) = None.
Proof. done. Qed.

Lemma execute_http_bytes hosts allow wild method s body headers n status bytes json n' :
  execute_http hosts allow wild method s body headers n = (Ok (status, bytes, json), n') →
  0 ≤ bytes ≤ MAX_RESPONSE_BYTES.
Proof.
  unfold execute_http. destruct (method_parse method); [|done].
  destruct (http_send _ _ _ _) as [[resp|e] n1]; [|done]. simpl.
  intros [= Hr _]. destruct (match hp_content_length resp with Some _ => _ | None => _ end); [|done].
  simpl in Hr. destruct (hp_text resp) as [text|]; [|done]. simpl in Hr.
  case_decide; [done|]. simpl in Hr. destruct (json_print (VString text)); simplify_eq/=. lia.
Qed.

(** A live collector within the budget stays so. *)
Lemma native_http_metered hosts max_ops allow wild method s body headers_json metrics n :
  coll_poisoned metrics = false → Z.of_nat (length (coll_items metrics)) ≤ max_ops →
  let '(_, metrics', _) := native_http hosts max_ops allow wild method s body headers_json metrics n in
  coll_poisoned metrics' = false ∧ Z.of_nat (length (coll_items metrics')) ≤ max_ops.
Proof.
  intros Hp Hle. unfold native_http, check_op_limit. rewrite Hp. simpl.
  case_bool_decide; simpl; [done|].
  assert (∀ m, coll_poisoned (coll_record metrics m) = false ∧
    Z.of_nat (length (coll_items (coll_record metrics m))) ≤ max_ops) as Hrec.
  { intros m. unfold coll_record. rewrite Hp. simpl. rewrite length_app. simpl. lia. }
  destruct (validate_url s hosts allow wild n) as [[host|err] n1]; [|apply Hrec].
  destruct (execute_http _ _ _ _ _ _ _ n1) as [[[[status bytes] json]|err] n2]; apply Hrec.
Qed.
(** Every connection a call opens, whatever the network answers, is confined. *)
Lemma native_http_confined hosts (max_ops : Z) (wildcard : bool)
    (method u body headers_json : string) metrics n :
  let '(_, _, n') := native_http hosts max_ops false wildcard method u body headers_json metrics n in
  ∃ new, connections n' = connections n ++ new ∧ Forall (confined hosts wildcard) new.
Proof.
  unfold native_http. destruct (check_op_limit metrics max_ops);
    [|exists []; by rewrite app_nil_r].
  pose proof (validate_url_quiet u hosts false wildcard n) as Hq.
  destruct (validate_url u hosts false wildcard n) as [[host|err] n1] eqn:Ev; simpl in Hq;
    [|exists []; by rewrite app_nil_r].
  apply validate_url_vetted in Ev as (u0 & Hp & Hv).
  assert (∃ new, connections (execute_http hosts false wildcard method u body
      (parse_headers headers_json) n1).2 = connections n ++ new ∧ Forall (confined hosts wildcard) new)
    as Hnew.
  { unfold execute_http. destruct (method_parse method); [|exists []; by rewrite app_nil_r].
    match goal with |- context [http_send ?p ?r ?q n1] =>
      destruct (send_connections p r q n1) as (new & Hc & Hall) end.
    - intros. apply validate_redirect_quiet.
    - intros. apply resolve_filtered_quiet.
    - destruct (http_send _ _ _ n1) as [sent n2]. simpl in *. exists new. split; [congruence|].
      eapply Forall_impl; [done|]. intros c. by apply reached_confined with u0. }
  by destruct (execute_http _ _ _ _ _ _ _ n1) as [[[[]]|] n2].
Qed.
End http_lemmas.

(** ** Properties *)

Section properties.
Context {jt : JsonText} {uc : UnicodeCase} {Net Url : Type} {url : UrlLib Url} {dns : Dns Net}
  {clock : Clock Net} {client : HttpClient Net Url}.

(** HTTP calls are budgeted and metered.  A call beyond the budget does nothing but report
    HTTP_OP_LIMIT; every other call adds exactly one metric, whose response size is within the cap. *)
Theorem http_call_metered (hosts : list string) (max_ops : Z) (allow_private wildcard : bool)
    (method u body headers_json : string) (metrics : Collector HttpMetric) (n : Net)
    (Hlive : coll_poisoned metrics = false) :
  let '(answer, metrics', n') :=
    native_http hosts max_ops allow_private wildcard method u body headers_json metrics n in
  if decide (max_ops ≤ Z.of_nat (length (coll_items metrics))) then
    answer = api_inband_error_json HTTP_OP_LIMIT
      ("too many operations: limit is " +:+ pretty max_ops +:+ " per execution") ∧
    metrics' = metrics ∧ n' = n
  else ∃ m, metrics' = coll_record metrics m ∧ hm_method m = method ∧
    hm_request_bytes m = str_len body ∧ 0 ≤ hm_response_bytes m ≤ MAX_RESPONSE_BYTES.
Proof.
  unfold native_http, check_op_limit. rewrite Hlive.
  assert (0 ≤ 0 ≤ MAX_RESPONSE_BYTES) by (unfold MAX_RESPONSE_BYTES; lia).
  case_decide; [by rewrite bool_decide_eq_true_2|]. rewrite bool_decide_eq_false_2 by done. simpl.
  destruct (validate_url u hosts allow_private wildcard n) as [[host|err] n1]; [|by eexists].
  destruct (execute_http _ _ _ _ _ _ _ n1) as [[[[status bytes] json]|err] n2] eqn:Ee; [|by eexists].
  apply execute_http_bytes in Ee. by eexists.
Qed.

(** The guard does not see IPv6 literals.  [host_str] gives such a host between brackets, which is
    not the text of an address; when the resolver does not know that name either, the URL passes
    validation with private targets disallowed, whatever address the brackets hold. *)
Theorem v6_literal_unguarded (u : string) (parsed : Url) (ip : Ipv6Addr) (hosts : list string)
    (wildcard : bool) (host : string) (n : Net)
    (Hparse : url_parse u = Ok parsed) (Hip : url_host parsed = Some (HostIp6 ip))
    (Hhost : host_str parsed = Some host)
    (Hallowed : is_host_allowed host hosts wildcard = true)
    (Hdns : is_ok (dns_lookup host n).1 = false) :
  (validate_url u hosts false wildcard n).1 = Ok host.
Proof.
  unfold validate_url. rewrite Hparse, Hhost, Hallowed.
  destruct (host_str_v6 parsed ip Hip) as [t Ht]. assert (host = "[" +:+ t +:+ "]") as -> by congruence.
  unfold block_private_ip, to_socket_addrs. rewrite bracketed_not_ip.
  by destruct (dns_lookup _ n) as [[] ?].
Qed.
End properties.

(** ** Witnesses *)

(** A network with a public name and an internal one, and a client that connects to the first address
    it is given. *)
Inductive DemoUrl := PublicUrl | IntranetUrl | LoopbackUrl.
Definition demo_url_host (u : DemoUrl) : UrlHost :=
  match u with
  | PublicUrl => HostDomain "api.example"
  | IntranetUrl => HostDomain "intranet.example"
  | LoopbackUrl => HostIp6 (Ipv6 0 0 0 0 0 0 0 1)
  end.
Definition demo_host_str (u : DemoUrl) : string :=
  match u with
  | PublicUrl => "api.example" | IntranetUrl => "intranet.example" | LoopbackUrl => "[::1]" end.
Definition demo_url_parse (s : string) : result DemoUrl string :=
  if decide (s = "https://api.example/v1") then Ok PublicUrl
  else if decide (s = "https://intranet.example/") then Ok IntranetUrl
  else if decide (s = "http://[::1]/") then Ok LoopbackUrl else Err "relative URL without a base".
Lemma demo_host_domain u d : Some (demo_url_host u) = Some (HostDomain d) → Some (demo_host_str u) = Some d.
Proof. by destruct u; intros [= <-]. Qed.
Lemma demo_host_v4 u ip : Some (demo_url_host u) = Some (HostIp4 ip) →
  v4_wf ip ∧ Some (demo_host_str u) = Some (show_ipv4 ip).
Proof. by destruct u. Qed.
Lemma demo_host_v6 u ip : Some (demo_url_host u) = Some (HostIp6 ip) →
  ∃ t, Some (demo_host_str u) = Some ("[" +:+ t +:+ "]").
Proof. destruct u; [done|done|]. intros _. by exists "::1". Qed.
#[local] Instance demo_urls : UrlLib DemoUrl := {|
  url_parse := demo_url_parse; url_host u := Some (demo_url_host u);
  host_str u := Some (demo_host_str u); url_port _ := None;
  host_str_domain := demo_host_domain; host_str_v4 := demo_host_v4; host_str_v6 := demo_host_v6 |}.

Abbreviation DemoNet := (list (DemoUrl * IpAddr)).
#[local] Instance demo_dns : Dns DemoNet := {|
  dns_lookup host n :=
    (if decide (host = "api.example") then Ok [IpV4 (Ipv4 93 184 216 34)]
     else if decide (host = "intranet.example")
     then Ok [IpV4 (Ipv4 93 184 216 34); IpV4 (Ipv4 10 0 0 5)]
     else Err "failed to lookup address information", n) |}.

Definition demo_send (policy : nat → DemoUrl → DemoNet → Action * DemoNet)
    (resolver : string → DemoNet → result (list (IpAddr * Z)) string * DemoNet)
    (req : HttpRequest) (n : DemoNet) : result HttpResponse TransportError * DemoNet :=
  let failed := Err {| te_timeout := false; te_connect := true; te_text := "connect failed" |} in
  let answer := Ok {| hp_status := 200; hp_content_length := Some 2; hp_text := Ok "ok" |} in
  match demo_url_parse (hr_url req) with
  | Err _ => (failed, n)
  | Ok u =>
      match demo_url_host u with
      | HostDomain d =>
          match resolver d n with
          | (Ok ((ip, _) :: _), n1) => (answer, n1 ++ [(u, ip)])
          | (_, n1) => (failed, n1)
          end
      | HostIp4 ip => (answer, n ++ [(u, IpV4 ip)])
      | HostIp6 ip => (answer, n ++ [(u, IpV6 ip)])
      end
  end.
Lemma demo_send_connections policy resolver req (n : DemoNet) :
  (∀ k u n, (policy k u n).2 = n) → (∀ h n, (resolver h n).2 = n) →
  ∃ new, (demo_send policy resolver req n).2 = n ++ new ∧ Forall (reached policy resolver req) new.
Proof.
  intros _ Hr. unfold demo_send. destruct (demo_url_parse (hr_url req)) as [u|] eqn:Ep;
    [|exists []; by rewrite app_nil_r].
  destruct (demo_url_host u) as [d|ip|ip] eqn:Eh.
  - specialize (Hr d n). destruct (resolver d n) as [[[|[ip port] addrs]|] n1] eqn:Er; simpl in Hr; subst;
      [exists []; by rewrite app_nil_r| |exists []; by rewrite app_nil_r].
    exists [(u, ip)]. split; [done|]. constructor; [|done]. split; [by left|]. simpl. rewrite Eh.
    exists n, ((ip, port) :: addrs). rewrite Er. split; [done|]. by left.
  - exists [(u, IpV4 ip)]. split; [done|]. constructor; [|done]. split; [by left|]. simpl. by rewrite Eh.
  - exists [(u, IpV6 ip)]. split; [done|]. constructor; [|done]. split; [by left|]. simpl. by rewrite Eh.
Qed.
#[local] Instance demo_client : HttpClient DemoNet DemoUrl := {|
  method_parse _ := Ok (); http_send := demo_send; connections n := n;
  dns_no_connection _ _ := eq_refl; send_connections := demo_send_connections |}.
#[local] Instance demo_clock : Clock DemoNet := {| instant _ := 0; unix_secs _ := Ok 1780556400 |}.
#[local] Instance ascii_case : UnicodeCase := {|
  to_lowercase := to_ascii_lowercase; to_lowercase_ascii _ _ := eq_refl |}.
#[local] Instance silent_json : JsonText := {|
  json_parse _ := Ok VNull; json_print v := match v with VString s => Some (quoted s) | _ => None end;
  json_type_error _ := "invalid type"; json_print_error _ := "unsupported" |}.

(** The public name is reached; the name that also resolves to a private address is refused. *)
Lemma demo_http_calls :
  (native_http ["*"] 5 false true "GET" "https://api.example/v1" EmptyString EmptyString
     new_collector ([] : DemoNet)).2 = [(PublicUrl, IpV4 (Ipv4 93 184 216 34))] ∧
  (native_http ["*"] 5 false true "GET" "https://intranet.example/" EmptyString EmptyString
     new_collector ([] : DemoNet)).2 = [].
Proof. vm_compute. auto. Qed.

Lemma http_call_metered_witness :
  (native_http ["api.example"] 0 true false "GET" "https://api.example/v1" EmptyString EmptyString
     new_collector ([] : DemoNet)).2 = [].
Proof.
  pose proof (http_call_metered ["api.example"] 0 true false "GET" "https://api.example/v1" EmptyString
    EmptyString new_collector ([] : DemoNet) eq_refl) as H.
  destruct (native_http _ _ _ _ _ _ _ _ _ _) as [[a m] n]. rewrite decide_True in H by done.
  exact (proj2 (proj2 H)).
Defined.

Lemma v6_literal_unguarded_witness :
  is_private_ip (IpV6 (Ipv6 0 0 0 0 0 0 0 1)) = true ∧
  (validate_url "http://[::1]/" ["*"] false true ([] : DemoNet)).1 = Ok "[::1]".
Proof.
  split; [reflexivity|].
  apply (v6_literal_unguarded "http://[::1]/" LoopbackUrl (Ipv6 0 0 0 0 0 0 0 1)); reflexivity.
Defined.
