(* ===== verification/S3.v ===== *)
(** * S3: presigned object links, usage and deletion

    Models [runlet-core/src/s3.rs]: the [__s3] closure with its budget, the SigV4 signing of links,
    forms, listings and deletions, the endpoint guard, and the paged usage scan.  Hashing, HMAC,
    encodings, date formatting and the HTTP client are third-party: [PercentEncoding] and [S3Lib] give
    the operations the code calls.  The network is a threaded state.  A failure to print a JSON value,
    which [serde_json] never reports for these values, is given without the library's text. *)

From Stdlib Require Import Ascii.
From stdpp Require Import pretty.
From S2P Require Import Prelude Json Errors Runtime Wire Bytecode Ssrf Http.
Local Open Scope Z_scope.

(** ** Interfaces *)

(** A response of the object store. *)
Record S3Response := { sr_status : Z; sr_text : result string string }.

(** HMAC-SHA-256, hex and base64; [chrono]'s formatting of a UTC timestamp ([None] out of its range);
    the blocking client, which follows no redirect, and a request through it. *)
Class S3Lib (Net : Type) := {
  hmac_new : list ascii → list ascii → result (list ascii) string;
  hex_encode : list ascii → string;
  base64_encode : list ascii → string;
  chrono_format : string → Z → option string;
  s3_client : result unit string;
  s3_send : string → string → Net → result S3Response string * Net
}.

(** ** Data *)

Record S3Config := {
  s3_endpoint : string; s3_region : string; s3_bucket : string; s3_access_key : string;
  s3_secret_key : string; s3_path_style : bool; s3_expires : Z; s3_max_expires : Z;
  s3_max_upload_size : Z; s3_allow_delete : bool }.

Record S3Metric := {
  sm_action : string; sm_method : string; sm_duration_us : Z; sm_expires : Z;
  sm_bytes : option Z; sm_objects : option Z }.

Record S3Error := { s3e_fault : Fault; s3e_message : string; s3e_details : option Value }.
Definition S3_FALLBACK : Fault := Fault_new "S3_ERROR" false Developer.
Definition S3_UPSTREAM : Fault := Fault_new "S3_UPSTREAM" true Operator.
Definition S3_OP_LIMIT : Fault := Fault_new "S3_OP_LIMIT" false Developer.
Definition S3_FORBIDDEN : Fault := Fault_new "S3_FORBIDDEN" false Operator.
Definition signing (message : string) : S3Error :=
  {| s3e_fault := S3_FALLBACK; s3e_message := message; s3e_details := None |}.
Definition upstream (message : string) : S3Error :=
  {| s3e_fault := S3_UPSTREAM; s3e_message := message; s3e_details := None |}.
Definition upstream_status (message : string) (status : Z) : S3Error :=
  {| s3e_fault := S3_UPSTREAM; s3e_message := message;
     s3e_details := Some (VObject [("http_status", VNumber (pretty status))]) |}.
Definition forbidden (message : string) : S3Error :=
  {| s3e_fault := S3_FORBIDDEN; s3e_message := message; s3e_details := None |}.

(** [capability_fault_json] and its last resort. *)
Definition FALLBACK_FAULT_JSON : string :=
  "{" +:+ quoted "error" +:+ ":" +:+ quoted "internal error" +:+ "," +:+
  quoted "code" +:+ ":" +:+ quoted "INTERNAL" +:+ "," +:+ quoted "retryable" +:+ ":true," +:+
  quoted "owner" +:+ ":" +:+ quoted "operator" +:+ "," +:+
  quoted "source" +:+ ":" +:+ quoted "engine" +:+ "}".
Definition capability_fault_json {jt : JsonText} (source : ErrorSource) (fault : Fault)
    (message : string) (details : option Value) : string :=
  default FALLBACK_FAULT_JSON (json_print (capability_fault_value source fault message details)).
Definition s3_error_json {jt : JsonText} (err : S3Error) : string :=
  capability_fault_json SrcS3 (s3e_fault err) (s3e_message err) (s3e_details err).

(** The payloads, with the derived deserializers: every field defaults. *)
Record PresignPayload := { pp_method : string; pp_key : string; pp_expires : Z }.
Definition de_presign (v : Value) : option PresignPayload :=
  let mk m k e := m ← defaulted EmptyString de_string m; k ← defaulted EmptyString de_string k;
                  e ← defaulted 0 de_u64 e;
                  Some {| pp_method := m; pp_key := k; pp_expires := e |} in
  match v with
  | VObject l => m ← field "method" l; k ← field "key" l; e ← field "expires" l; mk m k e
  | VArray [] => mk None None None
  | VArray [m] => mk (Some m) None None
  | VArray [m; k] => mk (Some m) (Some k) None
  | VArray [m; k; e] => mk (Some m) (Some k) (Some e)
  | _ => None
  end.
Definition de_presign_post (v : Value) : option (string * Z) :=
  let mk k e := k ← defaulted EmptyString de_string k; e ← defaulted 0 de_u64 e; Some (k, e) in
  match v with
  | VObject l => k ← field "key" l; e ← field "expires" l; mk k e
  | VArray [] => mk None None
  | VArray [k] => mk (Some k) None
  | VArray [k; e] => mk (Some k) (Some e)
  | _ => None
  end.
(** [UsagePayload] and [DeletePayload]: one defaulted text. *)
Definition de_one_text (name : string) (v : Value) : option string :=
  match v with
  | VObject l => k ← field name l; defaulted EmptyString de_string k
  | VArray [] => Some EmptyString
  | VArray [k] => de_string k
  | _ => None
  end.

Record PresignOutcome := { po_json : string; po_method : string; po_expires : Z }.

(** ** Inputs *)

(** [normalize_method]. *)
Definition normalize_method (raw : string) : result string string :=
  let up := to_ascii_uppercase raw in
  if decide (up ∈ [EmptyString; "PUT"]) then Ok "PUT"
  else if decide (up ∈ ["GET"; "HEAD"; "DELETE"]) then Ok up
  else Err ("unsupported s3 method: " +:+ up).

(** [clamp_expires]. *)
Definition clamp_expires (requested : Z) (config : S3Config) : Z :=
  let base := if decide (requested = 0) then s3_expires config else requested in
  Z.min (Z.max base 1) (Z.max (s3_max_expires config) 1).

(** ** URL and host *)

Definition is_alphanumeric (a : ascii) : bool :=
  let n := nat_of_ascii a in bool_decide ((48 ≤ n ≤ 57) ∨ (65 ≤ n ≤ 90) ∨ (97 ≤ n ≤ 122))%nat.
Definition SEGMENT_SET (a : ascii) : bool :=
  negb (is_alphanumeric a) && bool_decide (a ∉ ["-"; "_"; "."; "~"]%char).
Definition PATH_SET (a : ascii) : bool :=
  negb (is_alphanumeric a) && bool_decide (a ∉ ["-"; "_"; "."; "~"; "/"]%char).

(** [split_host_port]. *)
Definition split_host_port (authority : string) : string * string :=
  match rsplit_once_char ":"%char authority with
  | Some (host_part, port_part) =>
      if nonempty port_part && forallb is_ascii_digit (bytes_of port_part)
      then (host_part, ":" +:+ port_part) else (authority, EmptyString)
  | None => (authority, EmptyString)
  end.

(** [endpoint_port]. *)
Definition endpoint_port (scheme port_suffix : string) : result Z string :=
  match strip_prefix ":" port_suffix with
  | Some port_str =>
      ok_or (parse_unsigned U16_MAX port_str) ("invalid s3 endpoint port '" +:+ port_str +:+ "'")
  | None => Ok (if eq_ignore_ascii_case scheme "https" then 443 else 80)
  end.

(** [trim_start_matches('[')] and [trim_end_matches(']')]. *)
Fixpoint drop_while_char (c : ascii) (l : list ascii) : list ascii :=
  match l with
  | a :: l' => if decide (a = c) then drop_while_char c l' else l
  | [] => []
  end.
Definition unbracket (s : string) : string :=
  string_of (rev (drop_while_char "]"%char (rev (drop_while_char "["%char (bytes_of s))))).

Section s3.
Context {jt : JsonText} {pe : PercentEncoding} {sha : Sha256}.
Context {Net : Type} {dns : Dns Net} {clock : Clock Net} {lib : S3Lib Net}.

(** [resolve_host]. *)
Definition resolve_host (config : S3Config) (allow_private : bool) (n : Net)
    : result (string * string) string * Net :=
  match split_once "://" (s3_endpoint config) with
  | None => (Err "s3 endpoint must include a scheme (http:// or https://)", n)
  | Some (scheme, authority) =>
      if negb (eq_ignore_ascii_case scheme "http") && negb (eq_ignore_ascii_case scheme "https")
      then (Err ("s3 endpoint scheme must be http or https, got '" +:+ scheme +:+ "'"), n)
      else
        let authority_clean := default authority (head (split "/"%char authority)) in
        if is_empty authority_clean then (Err "s3 endpoint host is empty", n)
        else
          let '(host_only, port_suffix) := split_host_port authority_clean in
          match endpoint_port scheme port_suffix with
          | Err e => (Err e, n)
          | Ok port =>
              match block_private_ip (unbracket host_only) port allow_private n with
              | (Err e, n1) => (Err e, n1)
              | (Ok _, n1) =>
                  (Ok (scheme, if s3_path_style config then authority_clean
                               else s3_bucket config +:+ "." +:+ host_only +:+ port_suffix), n1)
              end
          end
  end.

(** [encode_token], [uri_encode_path], [build_uri], [list_uri] and [post_url]. *)
Definition encode_token (value : string) : string := utf8_percent_encode SEGMENT_SET value.
Definition uri_encode_path (key : string) : string :=
  "/" +:+ utf8_percent_encode PATH_SET (default key (strip_prefix "/" key)).
Definition build_uri (config : S3Config) (key : string) : string :=
  if s3_path_style config
  then "/" +:+ utf8_percent_encode SEGMENT_SET (s3_bucket config) +:+ uri_encode_path key
  else uri_encode_path key.
Definition list_uri (config : S3Config) : string :=
  if s3_path_style config then "/" +:+ utf8_percent_encode SEGMENT_SET (s3_bucket config) else "/".
Definition post_url (scheme host : string) (config : S3Config) : string :=
  if s3_path_style config
  then scheme +:+ "://" +:+ host +:+ "/" +:+ utf8_percent_encode SEGMENT_SET (s3_bucket config)
  else scheme +:+ "://" +:+ host +:+ "/".

(** [build_canonical_query]: the keys written out in sorted order. *)
Definition build_canonical_query (access_key scope amz_date : string) (expires : Z) : string :=
  let credential := encode_token (access_key +:+ "/" +:+ scope) in
  let date := encode_token amz_date in
  "X-Amz-Algorithm=AWS4-HMAC-SHA256" +:+ "&X-Amz-Credential=" +:+ credential +:+
  "&X-Amz-Date=" +:+ date +:+ "&X-Amz-Expires=" +:+ pretty expires +:+ "&X-Amz-SignedHeaders=host".

(** [canonical_query_from_pairs]: encoded, sorted by key (stable), joined. *)
Fixpoint insert_pair (p : string * string) (l : list (string * string)) : list (string * string) :=
  match l with
  | [] => [p]
  | q :: l' => match String.compare p.1 q.1 with
               | Gt => q :: insert_pair p l'
               | Lt | Eq => p :: l
               end
  end.
Definition sort_pairs (l : list (string * string)) : list (string * string) := foldr insert_pair [] l.
Fixpoint join (sep : string) (l : list string) : string :=
  match l with
  | [] => EmptyString
  | [s] => s
  | s :: l' => s +:+ sep +:+ join sep l'
  end.
Definition canonical_query_from_pairs (pairs : list (string * string)) : string :=
  join "&" ((λ kv, kv.1 +:+ "=" +:+ kv.2) <$>
            sort_pairs ((λ kv, (encode_token kv.1, encode_token kv.2)) <$> pairs)).

(** ** Crypto and time *)

Definition hmac_sha256 (key data : list ascii) : result (list ascii) string :=
  map_err (λ err, "hmac key error: " +:+ err) (hmac_new key data).
Definition sha256_hex (data : list ascii) : string := hex_encode (sha256 data).

(** [derive_signing_key]. *)
Definition derive_signing_key (secret_key datestamp region : string) : result (list ascii) string :=
  let? k_date := hmac_sha256 (bytes_of ("AWS4" +:+ secret_key)) (bytes_of datestamp) in
  let? k_region := hmac_sha256 k_date (bytes_of region) in
  let? k_service := hmac_sha256 k_region (bytes_of "s3") in
  hmac_sha256 k_service (bytes_of "aws4_request").

(** [current_timestamps] and [iso8601_expiration]. *)
Definition I64_MAX : Z := 9223372036854775807.
Definition out_of_range : string := "out of range integral type conversion attempted".
Definition current_timestamps (n : Net) : result (string * string * Z) string :=
  let? since_epoch := map_err (λ err, "clock error: " +:+ err) (unix_secs n) in
  let? secs := if decide (since_epoch ≤ I64_MAX) then Ok since_epoch
               else Err ("timestamp out of range: " +:+ out_of_range) in
  let? amz_date := ok_or (chrono_format "%Y%m%dT%H%M%SZ" secs) "invalid timestamp" in
  let? datestamp := ok_or (chrono_format "%Y%m%d" secs) "invalid timestamp" in
  Ok (amz_date, datestamp, secs).
Definition iso8601_expiration (now_secs expires : Z) : result string string :=
  let? delta := if decide (expires ≤ I64_MAX) then Ok expires
                else Err ("expires out of range: " +:+ out_of_range) in
  let? exp_secs := if decide (now_secs + delta ≤ I64_MAX) then Ok (now_secs + delta)
                   else Err "expiration overflow" in
  ok_or (chrono_format "%Y-%m-%dT%H:%M:%S%.3fZ" exp_secs) "invalid expiration timestamp".

(** [sign], on its [SignInput]. *)
Record SignInput := {
  si_secret_key : string; si_region : string; si_datestamp : string; si_amz_date : string;
  si_scope : string; si_method : string; si_canonical_uri : string; si_query : string;
  si_host : string }.
Definition newline : string := String "010"%char EmptyString.
Definition canonical_request (input : SignInput) : string :=
  si_method input +:+ newline +:+ si_canonical_uri input +:+ newline +:+ si_query input +:+ newline +:+
  "host:" +:+ si_host input +:+ newline +:+ newline +:+ "host" +:+ newline +:+ "UNSIGNED-PAYLOAD".
Definition sign (input : SignInput) : result string string :=
  let hashed_request := sha256_hex (bytes_of (canonical_request input)) in
  let string_to_sign := "AWS4-HMAC-SHA256" +:+ newline +:+ si_amz_date input +:+ newline +:+
    si_scope input +:+ newline +:+ hashed_request in
  let? signing_key := derive_signing_key (si_secret_key input) (si_datestamp input) (si_region input) in
  let? signature_bytes := hmac_sha256 signing_key (bytes_of string_to_sign) in
  Ok (hex_encode signature_bytes).

Definition scope_of (config : S3Config) (datestamp : string) : string :=
  datestamp +:+ "/" +:+ s3_region config +:+ "/s3/aws4_request".
Definition sign_input (config : S3Config) (amz_date datestamp method uri query host : string) : SignInput :=
  {| si_secret_key := s3_secret_key config; si_region := s3_region config;
     si_datestamp := datestamp; si_amz_date := amz_date; si_scope := scope_of config datestamp;
     si_method := method; si_canonical_uri := uri; si_query := query; si_host := host |}.

(** ** Presigning *)

Definition invalid_payload (err : string) : S3Error := signing ("invalid s3 payload: " +:+ err).

(** [do_presign]. *)
Definition do_presign (config : S3Config) (payload_json : string) (allow_private : bool) (n : Net)
    : result PresignOutcome S3Error * Net :=
  match (let? payload := map_err invalid_payload (from_str de_presign payload_json) in
         let? method := map_err signing (normalize_method (pp_method payload)) in
         if bool_decide (method = "DELETE") && negb (s3_allow_delete config) then
           Err (forbidden "s3 DELETE is disabled (set config.s3.allow_delete = true to enable)")
         else if is_empty (trim (pp_key payload)) then
           Err (signing "s3 sign_url requires a non-empty key")
         else
           let? stamps := map_err signing (current_timestamps n) in
           Ok (payload, method, stamps)) with
  | Err e => (Err e, n)
  | Ok (payload, method, (amz_date, datestamp, _)) =>
      let expires := clamp_expires (pp_expires payload) config in
      let '(resolved, n1) := resolve_host config allow_private n in
      (let? sh := map_err signing resolved in
       let '(scheme, host) := sh in
       let canonical_uri := build_uri config (pp_key payload) in
       let scope := scope_of config datestamp in
       let query := build_canonical_query (s3_access_key config) scope amz_date expires in
       let? signature := map_err signing
         (sign (sign_input config amz_date datestamp method canonical_uri query host)) in
       let url := scheme +:+ "://" +:+ host +:+ canonical_uri +:+ "?" +:+ query +:+
                  "&X-Amz-Signature=" +:+ signature in
       let? escaped_url := ok_or (json_print (VString url)) (signing "failed to encode url") in
       Ok {| po_json := "{" +:+ quoted "url" +:+ ":" +:+ escaped_url +:+ "," +:+
                        quoted "method" +:+ ":" +:+ quoted method +:+ "," +:+
                        quoted "expires" +:+ ":" +:+ pretty expires +:+ "}";
             po_method := method; po_expires := expires |}, n1)
  end.

(** The signed policy of an upload form. *)
Definition post_policy (config : S3Config) (key expiration credential amz_date : string) : Value :=
  VObject [("conditions", VArray
              [VObject [("bucket", VString (s3_bucket config))];
               VObject [("key", VString key)];
               VObject [("x-amz-algorithm", VString "AWS4-HMAC-SHA256")];
               VObject [("x-amz-credential", VString credential)];
               VObject [("x-amz-date", VString amz_date)];
               VArray [VString "content-length-range"; VNumber "0";
                       VNumber (pretty (s3_max_upload_size config))]]);
           ("expiration", VString expiration)].

(** [do_presign_post]. *)
Definition do_presign_post (config : S3Config) (payload_json : string) (allow_private : bool) (n : Net)
    : result PresignOutcome S3Error * Net :=
  match (let? payload := map_err invalid_payload (from_str de_presign_post payload_json) in
         if is_empty (trim payload.1) then Err (signing "s3 upload_form requires a non-empty key")
         else if decide (s3_max_upload_size config = 0) then
           Err (signing "config.s3.max_upload_size is required for upload_form")
         else
           let? stamps := map_err signing (current_timestamps n) in
           Ok (payload, stamps)) with
  | Err e => (Err e, n)
  | Ok ((key, requested), (amz_date, datestamp, now_secs)) =>
      let expires := clamp_expires requested config in
      let '(resolved, n1) := resolve_host config allow_private n in
      (let? sh := map_err signing resolved in
       let '(scheme, host) := sh in
       let? expiration := map_err signing (iso8601_expiration now_secs expires) in
       let credential := s3_access_key config +:+ "/" +:+ scope_of config datestamp in
       let? policy_str := ok_or (json_print (post_policy config key expiration credential amz_date))
                            (signing "failed to encode policy") in
       let policy_b64 := base64_encode (bytes_of policy_str) in
       let? signing_key := map_err signing
         (derive_signing_key (s3_secret_key config) datestamp (s3_region config)) in
       let? mac := map_err signing (hmac_sha256 signing_key (bytes_of policy_b64)) in
       let? json_out := ok_or (json_print (VObject
         [("expires", VNumber (pretty expires));
          ("fields", VObject
             [("Policy", VString policy_b64); ("X-Amz-Algorithm", VString "AWS4-HMAC-SHA256");
              ("X-Amz-Credential", VString credential); ("X-Amz-Date", VString amz_date);
              ("X-Amz-Signature", VString (hex_encode mac)); ("key", VString key)]);
          ("max_bytes", VNumber (pretty (s3_max_upload_size config)));
          ("url", VString (post_url scheme host config))])) (signing "failed to encode response") in
       Ok {| po_json := json_out; po_method := "POST"; po_expires := expires |}, n1)
  end.

(** [dispatch]. *)
Definition s3_dispatch (config : S3Config) (action payload_json : string) (allow_private : bool) (n : Net)
    : result PresignOutcome S3Error * Net :=
  if decide (action = "presign") then do_presign config payload_json allow_private n
  else if decide (action = "presign_post") then do_presign_post config payload_json allow_private n
  else (Err (signing ("unknown s3 action: " +:+ action)), n).

(** ** Usage *)

(** The signed URL of a server-side request, from its query pairs. *)
Definition server_pairs (config : S3Config) (amz_date datestamp : string) : list (string * string) :=
  [("X-Amz-Algorithm", "AWS4-HMAC-SHA256");
   ("X-Amz-Credential", s3_access_key config +:+ "/" +:+ scope_of config datestamp);
   ("X-Amz-Date", amz_date); ("X-Amz-Expires", "60"); ("X-Amz-SignedHeaders", "host")].
Definition signed_url (config : S3Config) (scheme host amz_date datestamp method uri : string)
    (pairs : list (string * string)) : result string string :=
  let query := canonical_query_from_pairs pairs in
  let? signature := sign (sign_input config amz_date datestamp method uri query host) in
  Ok (scheme +:+ "://" +:+ host +:+ uri +:+ "?" +:+ query +:+ "&X-Amz-Signature=" +:+ signature).

(** [build_list_url]. *)
Definition build_list_url (config : S3Config) (scheme host prefix : string) (token : option string)
    (n : Net) : result string string :=
  let? stamps := current_timestamps n in
  let '(amz_date, datestamp, _) := stamps in
  signed_url config scheme host amz_date datestamp "GET" (list_uri config)
    (server_pairs config amz_date datestamp ++ [("list-type", "2"); ("max-keys", "1000")] ++
     (if nonempty prefix then [("prefix", prefix)] else []) ++
     (match token with Some t => [("continuation-token", t)] | None => [] end)).

(** [sum_sizes]: the loop over the segments after each [<Size>]. *)
Fixpoint sum_segments (total count : Z) (segments : list string) : result (Z * Z) string :=
  match segments with
  | [] => Ok (total, count)
  | segment :: rest =>
      let raw := trim (default EmptyString (head (split_text "</Size>" segment))) in
      let? value := ok_or (parse_unsigned U64_MAX raw) ("malformed S3 <Size> value: " +:+ raw) in
      let? total := if decide (total + value ≤ U64_MAX) then Ok (total + value)
                    else Err "size sum overflow" in
      let? count := if decide (count + 1 ≤ U64_MAX) then Ok (count + 1)
                    else Err "object count overflow" in
      sum_segments total count rest
  end.
Definition sum_sizes (xml : string) : result (Z * Z) string :=
  sum_segments 0 0 (drop 1 (split_text "<Size>" xml)).

(** [extract_tag]. *)
Definition extract_tag (xml open close : string) : option string :=
  rest ← split_text open xml !! 1%nat; inner ← head (split_text close rest); Some (trim inner).

(** [StatusCode::is_success]. *)
Definition is_success (status : Z) : bool := bool_decide (200 ≤ status < 300).

(** [fetch_list_page]. *)
Definition fetch_list_page (config : S3Config) (scheme host prefix : string) (token : option string)
    (n : Net) : result (Z * Z * option string) string * Net :=
  match build_list_url config scheme host prefix token n with
  | Err e => (Err e, n)
  | Ok url =>
      let '(sent, n1) := s3_send "GET" url n in
      (let? response := map_err (λ err, "s3 list request failed: " +:+ err) sent in
       let? body := map_err (λ err, "s3 list read failed: " +:+ err) (sr_text response) in
       if is_success (sr_status response) then
         let? sums := sum_sizes body in
         let next := match extract_tag body "<NextContinuationToken>" "</NextContinuationToken>" with
                     | Some tok => if nonempty tok then Some tok else None
                     | None => None end in
         Ok (sums.1, sums.2, next)
       else Err ("s3 list returned HTTP " +:+ pretty (sr_status response) +:+ ": " +:+
                 take_chars 200 body), n1)
  end.

Definition elapsed_us (start : Z) (n : Net) : Z := sat_sub (instant n) start / 1000.

(** The page loop of [do_usage]; the budget bounds the pages, see [usage_pages_fuel]. *)
Fixpoint usage_pages (fuel : nat) (config : S3Config) (scheme host prefix : string) (max_ops : Z)
    (token : option string) (total_bytes total_objects : Z) (metrics : Collector S3Metric) (n : Net)
    : result (Z * Z) S3Error * Collector S3Metric * Net :=
  match check_op_limit metrics max_ops with
  | Err err => (Err {| s3e_fault := S3_OP_LIMIT; s3e_message := err; s3e_details := None |}, metrics, n)
  | Ok _ =>
      match fuel with
      | O => (Ok (total_bytes, total_objects), metrics, n)
      | S fuel' =>
          match fetch_list_page config scheme host prefix token n with
          | (Err e, n1) => (Err (upstream e), metrics, n1)
          | (Ok (page_bytes, page_objects, next), n1) =>
              let metrics1 := coll_record metrics
                {| sm_action := "usage"; sm_method := "GET";
                   sm_duration_us := elapsed_us (instant n) n1; sm_expires := 0;
                   sm_bytes := Some page_bytes; sm_objects := Some page_objects |} in
              if decide (U64_MAX < total_bytes + page_bytes) then
                (Err (signing "usage byte total overflow"), metrics1, n1)
              else if decide (U64_MAX < total_objects + page_objects) then
                (Err (signing "usage object total overflow"), metrics1, n1)
              else
                match next with
                | Some next_token =>
                    usage_pages fuel' config scheme host prefix max_ops (Some next_token)
                      (total_bytes + page_bytes) (total_objects + page_objects) metrics1 n1
                | None => (Ok (total_bytes + page_bytes, total_objects + page_objects), metrics1, n1)
                end
          end
      end
  end.

(** [do_usage]. *)
Definition do_usage (config : S3Config) (payload_json : string) (allow_private : bool)
    (metrics : Collector S3Metric) (max_ops : Z) (n : Net)
    : result string S3Error * Collector S3Metric * Net :=
  match map_err invalid_payload (from_str (de_one_text "prefix") payload_json) with
  | Err e => (Err e, metrics, n)
  | Ok prefix =>
      match resolve_host config allow_private n with
      | (Err e, n1) => (Err (signing e), metrics, n1)
      | (Ok (scheme, host), n1) =>
          match s3_client with
          | Err err => (Err (signing ("failed to build s3 client: " +:+ err)), metrics, n1)
          | Ok _ =>
              let '(pages, metrics1, n2) :=
                usage_pages (S (Z.to_nat max_ops)) config scheme host prefix max_ops None 0 0 metrics n1 in
              (let? totals := pages in
               ok_or (json_print (VObject [("bytes", VNumber (pretty totals.1));
                                           ("objects", VNumber (pretty totals.2));
                                           ("prefix", VString prefix)]))
                 (signing "failed to encode usage response"), metrics1, n2)
          end
      end
  end.

(** ** Deletion *)

(** [build_delete_url]. *)
Definition build_delete_url (config : S3Config) (scheme host key : string) (n : Net)
    : result string string :=
  let? stamps := current_timestamps n in
  let '(amz_date, datestamp, _) := stamps in
  signed_url config scheme host amz_date datestamp "DELETE" (build_uri config key)
    (server_pairs config amz_date datestamp).

(** [do_delete]. *)
Definition do_delete (config : S3Config) (payload_json : string) (allow_private : bool)
    (metrics : Collector S3Metric) (n : Net) : result string S3Error * Collector S3Metric * Net :=
  if negb (s3_allow_delete config) then
    (Err (forbidden "s3 delete is disabled (set config.s3.allow_delete = true to enable)"), metrics, n)
  else
    match map_err invalid_payload (from_str (de_one_text "key") payload_json) with
    | Err e => (Err e, metrics, n)
    | Ok key =>
        if is_empty (trim key) then (Err (signing "s3 delete requires a non-empty key"), metrics, n)
        else
          match resolve_host config allow_private n with
          | (Err e, n1) => (Err (signing e), metrics, n1)
          | (Ok (scheme, host), n1) =>
              match (let? url := build_delete_url config scheme host key n1 in
                     let? _ := map_err (λ err, "failed to build s3 client: " +:+ err) s3_client in
                     Ok url) with
              | Err e => (Err (signing e), metrics, n1)
              | Ok url =>
                  match s3_send "DELETE" url n1 with
                  | (Err err, n2) => (Err (upstream ("s3 delete request failed: " +:+ err)), metrics, n2)
                  | (Ok response, n2) =>
                      let metrics1 := coll_record metrics
                        {| sm_action := "delete"; sm_method := "DELETE";
                           sm_duration_us := elapsed_us (instant n1) n2; sm_expires := 0;
                           sm_bytes := None; sm_objects := None |} in
                      (if is_success (sr_status response) then
                         ok_or (json_print (VObject [("deleted", VBool true); ("key", VString key)]))
                           (signing "failed to encode delete response")
                       else
                         let? body := map_err (λ err, upstream ("s3 delete read failed: " +:+ err))
                                        (sr_text response) in
                         Err (upstream_status ("s3 delete returned HTTP " +:+
                                pretty (sr_status response) +:+ ": " +:+ take_chars 200 body)
                                (sr_status response)), metrics1, n2)
                  end
              end
          end
    end.

(** [build_metric]. *)
Definition build_metric (action : string) (outcome : option PresignOutcome) (duration_us : Z) : S3Metric :=
  {| sm_action := action; sm_method := default EmptyString (po_method <$> outcome);
     sm_duration_us := duration_us; sm_expires := default 0 (po_expires <$> outcome);
     sm_bytes := None; sm_objects := None |}.

(** The [__s3] closure of [inject_s3]. *)
Definition native_s3 (config : S3Config) (max_ops : Z) (allow_private : bool) (action payload_json : string)
    (metrics : Collector S3Metric) (n : Net) : string * Collector S3Metric * Net :=
  let render (r : result string S3Error) := match r with Ok json => json | Err err => s3_error_json err end in
  match check_op_limit metrics max_ops with
  | Err err => (capability_fault_json SrcS3 S3_OP_LIMIT err None, metrics, n)
  | Ok _ =>
      if decide (action = "usage") then
        let '(r, metrics1, n1) := do_usage config payload_json allow_private metrics max_ops n in
        (render r, metrics1, n1)
      else if decide (action = "delete") then
        let '(r, metrics1, n1) := do_delete config payload_json allow_private metrics n in
        (render r, metrics1, n1)
      else
        let '(r, n1) := s3_dispatch config action payload_json allow_private n in
        let outcome := match r with Ok o => Some o | Err _ => None end in
        (render (let? o := r in Ok (po_json o)),
         coll_record metrics (build_metric action outcome (elapsed_us (instant n) n1)), n1)
  end.
End s3.

(** ** Lemmas *)

Section s3_lemmas.
Context {jt : JsonText} {pe : PercentEncoding} {sha : Sha256}.
Context {Net : Type} {dns : Dns Net} {clock : Clock Net} {lib : S3Lib Net}.
Implicit Types (config : S3Config) (metrics : Collector S3Metric) (n : Net).

(** Tokens of unreserved characters are their own encoding. *)
Definition unreserved (a : ascii) : bool := negb (SEGMENT_SET a) && bool_decide (nat_of_ascii a < 128)%nat.

Lemma encode_token_id s : forallb unreserved (bytes_of s) = true → encode_token s = s.
Proof.
  intros Hs. unfold encode_token. rewrite utf8_percent_encode_spec.
  enough (bytes_of s ≫= encode_byte SEGMENT_SET = bytes_of s) as -> by apply string_of_bytes_of.
  induction (bytes_of s) as [|a l IH]; [done|]. cbn [forallb] in Hs.
  apply andb_true_iff in Hs as [Ha Hl]. apply andb_true_iff in Ha as [Ha H128].
  rewrite bind_cons, IH by done. unfold encode_byte.
  apply negb_true_iff in Ha. apply bool_decide_eq_true in H128.
  rewrite decide_False; [done|]. intros [?|?]; [congruence|lia].
Qed.

Lemma pretty_N_char_unreserved x : unreserved (pretty_N_char x) = true.
Proof. unfold pretty_N_char. by repeat case_match. Qed.

Lemma pretty_N_go_unreserved x s :
  forallb unreserved (bytes_of s) = true → forallb unreserved (bytes_of (pretty_N_go x s)) = true.
Proof.
  revert s. induction (N.lt_wf_0 x) as [x _ IH]; intros s Hs.
  destruct (decide (x = 0)%N) as [->|Hx]; [done|].
  rewrite pretty_N_go_step by lia. apply IH; [apply N.div_lt; lia|].
  simpl. by rewrite pretty_N_char_unreserved.
Qed.

Lemma pretty_unreserved z : 0 ≤ z → forallb unreserved (bytes_of (pretty z)) = true.
Proof.
  intros Hz. destruct z as [|p|p]; [done| |lia].
  change (pretty (Z.pos p)) with (pretty (N.pos p)). unfold pretty, pretty_N.
  rewrite decide_False by done. by apply pretty_N_go_unreserved.
Qed.

Lemma check_op_limit_live {T} (c : Collector T) max_ops : coll_poisoned c = false →
  is_ok (check_op_limit c max_ops) = bool_decide (Z.of_nat (length (coll_items c)) < max_ops).
Proof.
  intros Hp. unfold check_op_limit. rewrite Hp. simpl.
  case_bool_decide; case_bool_decide; simpl; done || lia.
Qed.

Lemma coll_record_live {T} (c : Collector T) m : coll_poisoned c = false →
  coll_poisoned (coll_record c m) = false ∧ coll_items (coll_record c m) = coll_items c ++ [m].
Proof. intros Hp. unfold coll_record. by rewrite Hp. Qed.

(** Enough fuel: the budget stops the page loop before the fuel does. *)
Lemma usage_pages_fuel f1 f2 config scheme host prefix max_ops token tb to metrics n :
  coll_poisoned metrics = false →
  (Z.to_nat max_ops < f1 + length (coll_items metrics))%nat →
  (Z.to_nat max_ops < f2 + length (coll_items metrics))%nat →
  usage_pages f1 config scheme host prefix max_ops token tb to metrics n =
  usage_pages f2 config scheme host prefix max_ops token tb to metrics n.
Proof.
  revert f2 token tb to metrics n.
  induction f1 as [|f1 IH]; intros f2 token tb to metrics n Hp H1 H2;
    destruct f2 as [|f2]; cbn [usage_pages];
    pose proof (check_op_limit_live metrics max_ops Hp) as Hl;
    destruct (check_op_limit metrics max_ops) as [[]|err]; try done;
    symmetry in Hl; apply bool_decide_eq_true in Hl; [lia|lia|].
  destruct (fetch_list_page config scheme host prefix token n) as [[[[pb po] next]|e] n1]; [|done].
  cbv zeta. repeat (case_decide; [done|]). destruct next as [tok|]; [|done].
  destruct (coll_record_live metrics {| sm_action := "usage"; sm_method := "GET";
    sm_duration_us := elapsed_us (instant n) n1; sm_expires := 0; sm_bytes := Some pb;
    sm_objects := Some po |} Hp) as [Hp' Hi].
  apply IH; [done|rewrite Hi, length_app; simpl; lia..].
Qed.

(** The host of the endpoint, without brackets and port. *)
Definition endpoint_host config : option string :=
  '(_, authority) ← split_once "://" (s3_endpoint config);
  Some (unbracket (split_host_port (default authority (head (split "/"%char authority)))).1).

Lemma resolve_host_guarded config n sh n' host ip :
  resolve_host config false n = (Ok sh, n') → endpoint_host config = Some host →
  parse_ip host = Some ip → is_private_ip ip = false.
Proof.
  unfold resolve_host, endpoint_host.
  destruct (split_once "://" (s3_endpoint config)) as [[scheme authority]|]; [|done].
  case_match; [done|]. cbv zeta. case_match; [done|]. intros Hr [= <-] Hip.
  destruct (split_host_port _) as [host_only suffix]. cbn [fst] in *.
  destruct (endpoint_port scheme suffix) as [port|]; [|done].
  destruct (block_private_ip (unbracket host_only) port false n) as [[[]|] n1] eqn:Eb; [|done].
  by destruct (block_private_ip_ok _ _ _ _ Eb) as [Hlit _]; apply Hlit.
Qed.

Lemma clamp_expires_bounds requested config :
  1 ≤ clamp_expires requested config ≤ Z.max 1 (s3_max_expires config).
Proof. unfold clamp_expires. lia. Qed.

Lemma normalize_method_ok raw method :
  normalize_method raw = Ok method → method ∈ ["PUT"; "GET"; "HEAD"; "DELETE"].
Proof. unfold normalize_method. repeat case_decide; intros; simplify_eq; set_solver. Qed.

Lemma do_presign_ok config payload allow n o n' : do_presign config payload allow n = (Ok o, n') →
  1 ≤ po_expires o ≤ Z.max 1 (s3_max_expires config) ∧
  po_method o ∈ ["PUT"; "GET"; "HEAD"; "DELETE"; "POST"] ∧
  (po_method o = "DELETE" → s3_allow_delete config = true) ∧
  is_ok (resolve_host config allow n).1 = true.
Proof.
  unfold do_presign. destruct (from_str de_presign payload) as [pp|]; [|done]. simpl.
  destruct (normalize_method (pp_method pp)) as [method|] eqn:Em; [|done]. simpl.
  apply normalize_method_ok in Em.
  destruct (bool_decide (method = "DELETE") && negb (s3_allow_delete config)) eqn:Ed; [done|].
  destruct (is_empty (trim (pp_key pp))); [done|].
  destruct (current_timestamps n) as [[[d1 d2] d3]|]; [|done]. simpl.
  destruct (resolve_host config allow n) as [[[scheme host]|] n1]; [|done]. simpl.
  destruct (sign _) as [sg|]; [|done]. simpl. destruct (json_print _); [|done]. simpl.
  intros [= <- _]. simpl. pose proof (clamp_expires_bounds (pp_expires pp) config).
  split_and!; [lia|lia|set_solver| |done].
  intros ->. apply andb_false_iff in Ed as [Ed|Ed]; [by apply bool_decide_eq_false in Ed|].
  by apply negb_false_iff in Ed.
Qed.

Lemma do_presign_post_ok config payload allow n o n' : do_presign_post config payload allow n = (Ok o, n') →
  1 ≤ po_expires o ≤ Z.max 1 (s3_max_expires config) ∧
  po_method o ∈ ["PUT"; "GET"; "HEAD"; "DELETE"; "POST"] ∧
  (po_method o = "DELETE" → s3_allow_delete config = true) ∧
  is_ok (resolve_host config allow n).1 = true.
Proof.
  unfold do_presign_post. destruct (from_str de_presign_post payload) as [[key requested]|]; [|done]. simpl.
  destruct (is_empty (trim key)); [done|]. case_decide; [done|].
  destruct (current_timestamps n) as [[[d1 d2] d3]|]; [|done]. simpl.
  destruct (resolve_host config allow n) as [[[scheme host]|] n1]; [|done]. simpl.
  destruct (iso8601_expiration _ _); [|done]. simpl. destruct (json_print _); [|done]. simpl.
  destruct (derive_signing_key _ _ _); [|done]. simpl. destruct (hmac_sha256 _ _); [|done]. simpl.
  destruct (json_print _); [|done]. simpl. intros [= <- _]. simpl.
  pose proof (clamp_expires_bounds requested config). split_and!; [lia|lia|set_solver|done|done].
Qed.

(** The totals of a scan are those of the metrics it recorded, one per page. *)
Definition sum_bytes (l : list S3Metric) : Z := foldr (λ m z, default 0 (sm_bytes m) + z) 0 l.
Definition sum_objects (l : list S3Metric) : Z := foldr (λ m z, default 0 (sm_objects m) + z) 0 l.

Lemma usage_pages_totals fuel config scheme host prefix max_ops token tb to metrics n b o metrics' n' :
  coll_poisoned metrics = false →
  usage_pages fuel config scheme host prefix max_ops token tb to metrics n = (Ok (b, o), metrics', n') →
  (Z.to_nat max_ops < fuel + length (coll_items metrics))%nat →
  ∃ pages, coll_items metrics' = coll_items metrics ++ pages ∧ pages ≠ [] ∧
    b = tb + sum_bytes pages ∧ o = to + sum_objects pages ∧
    Z.of_nat (length (coll_items metrics')) ≤ max_ops.
Proof.
  revert token tb to metrics n. induction fuel as [|fuel IH]; intros token tb to metrics n Hp Hu Hf;
    cbn [usage_pages] in Hu; pose proof (check_op_limit_live metrics max_ops Hp) as Hl;
    destruct (check_op_limit metrics max_ops) as [[]|err]; try done;
    symmetry in Hl; apply bool_decide_eq_true in Hl; [lia|].
  destruct (fetch_list_page config scheme host prefix token n) as [[[[pb po] next]|e] n1]; [|done].
  cbv zeta in Hu. repeat (case_decide; [done|]).
  match type of Hu with context [coll_record metrics ?m] =>
    destruct (coll_record_live metrics m Hp) as [Hp' Hi]; set (page := m) in * end.
  destruct next as [tok|].
  - apply IH in Hu as (pages & Hitems & _ & -> & -> & Hle); [|done|rewrite Hi, length_app; simpl; lia].
    exists (page :: pages). rewrite Hitems, Hi, <-app_assoc. split_and!; [done|done|simpl; lia..|].
    rewrite Hitems, Hi in Hle. by rewrite <-app_assoc in Hle.
  - simplify_eq. exists [page]. rewrite Hi, length_app. simpl. split_and!; [done|done|lia..].
Qed.

Lemma usage_pages_live fuel config scheme host prefix max_ops token tb to metrics n :
  coll_poisoned metrics = false →
  coll_poisoned (usage_pages fuel config scheme host prefix max_ops token tb to metrics n).1.2 = false.
Proof.
  revert token tb to metrics n. induction fuel as [|fuel IH]; intros token tb to metrics n Hp;
    cbn [usage_pages]; destruct (check_op_limit metrics max_ops); try done.
  destruct (fetch_list_page config scheme host prefix token n) as [[[[pb po] next]|e] n1]; [|done].
  cbv zeta. match goal with |- context [coll_record metrics ?m] =>
    destruct (coll_record_live metrics m Hp) as [Hp' _]; set (page := m) in * end.
  repeat (case_decide; [done|]). destruct next as [tok|]; [|done]. by apply IH.
Qed.

Lemma usage_pages_budget fuel config scheme host prefix max_ops token tb to metrics n :
  coll_poisoned metrics = false → Z.of_nat (length (coll_items metrics)) ≤ max_ops →
  Z.of_nat (length (coll_items
    (usage_pages fuel config scheme host prefix max_ops token tb to metrics n).1.2)) ≤ max_ops.
Proof.
  revert token tb to metrics n. induction fuel as [|fuel IH]; intros token tb to metrics n Hp Hle;
    cbn [usage_pages]; pose proof (check_op_limit_live metrics max_ops Hp) as Hl;
    destruct (check_op_limit metrics max_ops) as [[]|err]; try done.
  symmetry in Hl; apply bool_decide_eq_true in Hl.
  destruct (fetch_list_page config scheme host prefix token n) as [[[[pb po] next]|e] n1]; [|done].
  cbv zeta. match goal with |- context [coll_record metrics ?m] =>
    destruct (coll_record_live metrics m Hp) as [Hp' Hi]; set (page := m) in * end.
  assert (Z.of_nat (length (coll_items (coll_record metrics page))) ≤ max_ops)
    by (rewrite Hi, length_app; simpl; lia).
  repeat (case_decide; [done|]). destruct next as [tok|]; [|done]. by apply IH.
Qed.


(** A live collector within the budget stays so, whatever the call does. *)
Lemma native_s3_metered config max_ops allow action payload metrics n :
  coll_poisoned metrics = false → Z.of_nat (length (coll_items metrics)) ≤ max_ops →
  let '(_, metrics', _) := native_s3 config max_ops allow action payload metrics n in
  coll_poisoned metrics' = false ∧ Z.of_nat (length (coll_items metrics')) ≤ max_ops.
Proof.
  intros Hp Hle. unfold native_s3. pose proof (check_op_limit_live metrics max_ops Hp) as Hl.
  destruct (check_op_limit metrics max_ops) as [[]|err]; [|done].
  symmetry in Hl. apply bool_decide_eq_true in Hl.
  assert (∀ m, coll_poisoned (coll_record metrics m) = false ∧
    Z.of_nat (length (coll_items (coll_record metrics m))) ≤ max_ops) as Hrec.
  { intros m. destruct (coll_record_live metrics m Hp) as [Hp' Hi].
    rewrite Hi, length_app. simpl. split; [done|lia]. }
  case_decide; [|case_decide; [|destruct (s3_dispatch _ _ _ _ n); apply Hrec]].
  - unfold do_usage. destruct (map_err invalid_payload _); [|done].
    destruct (resolve_host config allow n) as [[[scheme host]|] n1]; [|done].
    destruct s3_client; [|done]. set (fuel := S (Z.to_nat max_ops)).
    pose proof (usage_pages_budget fuel config scheme host a max_ops None 0 0 metrics n1 Hp Hle) as Hb.
    pose proof (usage_pages_live fuel config scheme host a max_ops None 0 0 metrics n1 Hp) as Hv.
    by destruct (usage_pages fuel _ _ _ _ _ _ _ _ _ n1) as [[r m'] n2].
  - unfold do_delete. repeat case_match; simplify_eq; try done; apply Hrec.
Qed.
End s3_lemmas.

(** ** The requests sent to the store *)

(** A network that also logs the method of every request sent to the object store. *)
Section logged.
Context {Net : Type} {dns : Dns Net} {clock : Clock Net} {lib : S3Lib Net}.
Abbreviation Logged := (Net * list string)%type.

#[local] Instance logged_dns : Dns Logged := {|
  dns_lookup host nl := let '(r, n1) := dns_lookup host nl.1 in (r, (n1, nl.2)) |}.
#[local] Instance logged_clock : Clock Logged := {|
  instant nl := instant nl.1; unix_secs nl := unix_secs nl.1 |}.
#[local] Instance logged_lib : S3Lib Logged := {|
  hmac_new := hmac_new; hex_encode := hex_encode; base64_encode := base64_encode;
  chrono_format := chrono_format; s3_client := s3_client;
  s3_send method url nl :=
    let '(r, n1) := s3_send method url nl.1 in (r, (n1, nl.2 ++ [method])) |}.

Context {jt : JsonText} {pe : PercentEncoding} {sha : Sha256}.
Implicit Types (config : S3Config) (metrics : Collector S3Metric) (nl : Logged).

Lemma block_private_ip_log host port allow nl : (block_private_ip host port allow nl).2.2 = nl.2.
Proof.
  unfold block_private_ip, to_socket_addrs. destruct allow; [done|].
  destruct (parse_ip host) as [ip|]; [by destruct (is_private_ip ip)|]. simpl.
  by destruct (dns_lookup host nl.1) as [[] ?].
Qed.

Lemma resolve_host_log config allow nl : (resolve_host config allow nl).2.2 = nl.2.
Proof.
  unfold resolve_host. destruct (split_once "://" (s3_endpoint config)) as [[scheme authority]|]; [|done].
  case_match; [done|]. cbv zeta. case_match; [done|].
  destruct (split_host_port _) as [host suffix]. destruct (endpoint_port scheme suffix) as [port|]; [|done].
  pose proof (block_private_ip_log (unbracket host) port allow nl) as Hb.
  by destruct (block_private_ip (unbracket host) port allow nl) as [[] nl1].
Qed.

(** What an operation may add to the log and to the metrics. *)
Definition sends (ok : string → Prop) metrics nl metrics' nl' : Prop :=
  ∃ sent recorded, nl'.2 = nl.2 ++ sent ∧ coll_items metrics' = coll_items metrics ++ recorded ∧
    Forall ok sent ∧ (length sent ≤ length recorded + 1)%nat ∧ coll_poisoned metrics' = false.

Lemma sends_none ok metrics nl nl' :
  coll_poisoned metrics = false → nl'.2 = nl.2 → sends ok metrics nl metrics nl'.
Proof. intros Hp Hn. exists [], []. rewrite !app_nil_r. split_and!; simpl; auto with lia. Qed.

Lemma fetch_list_page_log config scheme host prefix token nl :
  ∃ sent, (fetch_list_page config scheme host prefix token nl).2.2 = nl.2 ++ sent ∧
    Forall (λ m, m = "GET") sent ∧ (length sent ≤ 1)%nat.
Proof.
  unfold fetch_list_page. destruct (build_list_url config scheme host prefix token nl) as [url|].
  - simpl. destruct (s3_send "GET" url nl.1) as [r n1]. exists ["GET"]. split_and!; simpl; auto.
  - exists []. rewrite app_nil_r. split_and!; simpl; auto.
Qed.

Lemma usage_pages_sends fuel config scheme host prefix max_ops token tb to metrics nl :
  coll_poisoned metrics = false →
  let '(_, metrics', nl') := usage_pages fuel config scheme host prefix max_ops token tb to metrics nl in
  sends (λ m, m = "GET") metrics nl metrics' nl'.
Proof.
  revert token tb to metrics nl. induction fuel as [|fuel IH]; intros token tb to metrics nl Hp;
    cbn [usage_pages]; destruct (check_op_limit metrics max_ops); try by apply sends_none.
  destruct (fetch_list_page_log config scheme host prefix token nl) as (sent & Hlog & Hget & Hlen).
  destruct (fetch_list_page config scheme host prefix token nl) as [[[[pb po] next]|e] nl1]; simpl in Hlog.
  2: { exists sent, []. rewrite app_nil_r. split_and!; simpl; auto with lia. }
  cbv zeta. match goal with |- context [coll_record metrics ?m] =>
    destruct (coll_record_live metrics m Hp) as [Hp' Hi]; set (page := m) in * end.
  assert (sends (λ m, m = "GET") metrics nl (coll_record metrics page) nl1) as Hone.
  { exists sent, [page]. split_and!; simpl; auto with lia. }
  repeat (case_decide; [done|]). destruct next as [tok|]; [|done].
  specialize (IH (Some tok) (tb + pb) (to + po) (coll_record metrics page) nl1 Hp').
  destruct (usage_pages fuel _ _ _ _ _ _ _ _ _ nl1) as [[r m'] nl'].
  destruct IH as (sent' & rec' & Hlog' & Hi' & Hget' & Hlen' & Hp'').
  exists (sent ++ sent'), (page :: rec'). rewrite Hlog', Hlog, Hi', Hi, <-!app_assoc, length_app.
  split_and!; [done|done|by apply Forall_app|simpl; lia|done].
Qed.

(** The two operations that reach the store. *)
Definition gated config (method : string) : Prop :=
  method = "GET" ∨ (method = "DELETE" ∧ s3_allow_delete config = true).

Lemma sends_from ok metrics nl nl1 metrics' nl' :
  nl1.2 = nl.2 → sends ok metrics nl1 metrics' nl' → sends ok metrics nl metrics' nl'.
Proof. unfold sends. by intros ->. Qed.

Lemma do_usage_sends config payload allow metrics max_ops nl :
  coll_poisoned metrics = false → Z.of_nat (length (coll_items metrics)) ≤ max_ops →
  let '(_, metrics', nl') := do_usage config payload allow metrics max_ops nl in
  sends (gated config) metrics nl metrics' nl' ∧ Z.of_nat (length (coll_items metrics')) ≤ max_ops.
Proof.
  intros Hp Hle. unfold do_usage.
  destruct (map_err invalid_payload _) as [prefix|e]; [|split; [by apply sends_none|done]].
  pose proof (resolve_host_log config allow nl) as Hr.
  destruct (resolve_host config allow nl) as [[[scheme host]|e] nl1]; simpl in Hr;
    [|split; [by apply sends_none|done]].
  destruct s3_client; [|split; [by apply sends_none|done]].
  set (fuel := S (Z.to_nat max_ops)).
  pose proof (usage_pages_sends fuel config scheme host prefix max_ops None 0 0 metrics nl1 Hp) as Hs.
  pose proof (usage_pages_budget fuel config scheme host prefix max_ops None 0 0 metrics nl1 Hp Hle) as Hb.
  destruct (usage_pages fuel _ _ _ _ _ _ _ _ _ nl1) as [[r m'] nl']. split; [|done].
  apply (sends_from _ _ _ nl1); [done|]. destruct Hs as (sent & rec & Hl & Hi & Hget & Hlen & Hp').
  exists sent, rec. split_and!; try done. eapply Forall_impl; [done|]. intros m ->. by left.
Qed.

Lemma do_delete_sends config payload allow metrics max_ops nl :
  coll_poisoned metrics = false → Z.of_nat (length (coll_items metrics)) < max_ops →
  let '(_, metrics', nl') := do_delete config payload allow metrics nl in
  sends (gated config) metrics nl metrics' nl' ∧ Z.of_nat (length (coll_items metrics')) ≤ max_ops.
Proof.
  intros Hp Hlt. unfold do_delete.
  assert (Z.of_nat (length (coll_items metrics)) ≤ max_ops) by lia.
  destruct (s3_allow_delete config) eqn:Ea; simpl; [|split; [by apply sends_none|done]].
  destruct (map_err invalid_payload _) as [key|e]; [|split; [by apply sends_none|done]].
  destruct (is_empty (trim key)); [split; [by apply sends_none|done]|].
  pose proof (resolve_host_log config allow nl) as Hr.
  destruct (resolve_host config allow nl) as [[[scheme host]|e] nl1]; simpl in Hr;
    [|split; [by apply sends_none|done]].
  destruct (result_bind (build_delete_url _ _ _ _ nl1) _) as [url|e]; [|split; [by apply sends_none|done]].
  simpl. destruct (s3_send "DELETE" url nl1.1) as [[response|err] n2]; simpl.
  - match goal with |- context [coll_record metrics ?m] =>
      destruct (coll_record_live metrics m Hp) as [Hp' Hi]; set (page := m) in * end.
    split; [|rewrite Hi, length_app; simpl; lia].
    exists ["DELETE"], [page]. rewrite Hr. split_and!; simpl; auto. constructor; [by right|done].
  - split; [|done]. exists ["DELETE"], []. rewrite Hr, app_nil_r. split_and!; simpl; auto.
    constructor; [by right|done].
Qed.

Lemma s3_dispatch_log config action payload allow nl :
  (s3_dispatch config action payload allow nl).2.2 = nl.2.
Proof.
  unfold s3_dispatch, do_presign, do_presign_post. pose proof (resolve_host_log config allow nl) as Hr.
  destruct (decide (action = "presign")); [|destruct (decide (action = "presign_post")); [|done]].
  - destruct (result_bind _ _) as [[[payload' method] [[d1 d2] d3]]|]; [|done].
    by destruct (resolve_host config allow nl) as [r nl1].
  - destruct (result_bind _ _) as [[[key requested] [[d1 d2] d3]]|]; [|done].
    by destruct (resolve_host config allow nl) as [r nl1].
Qed.

(** What an [s3] call sends.  Within its budget a call sends only listings, and deletions when the
    operator allows them, never more than one request beyond the metrics it records (a request that
    fails is not metered); the metrics of an execution stay within the budget. *)
Theorem s3_requests_gated (config : S3Config) (max_ops : Z) (allow_private : bool)
    (action payload_json : string) (metrics : Collector S3Metric) (nl : Net * list string)
    (Hlive : coll_poisoned metrics = false)
    (Hbudget : Z.of_nat (length (coll_items metrics)) ≤ max_ops) :
  let '(_, metrics', nl') := native_s3 config max_ops allow_private action payload_json metrics nl in
  sends (gated config) metrics nl metrics' nl' ∧ Z.of_nat (length (coll_items metrics')) ≤ max_ops.
Proof.
  unfold native_s3. pose proof (check_op_limit_live metrics max_ops Hlive) as Hl.
  destruct (check_op_limit metrics max_ops) as [[]|err]; [|split; [by apply sends_none|done]].
  symmetry in Hl. apply bool_decide_eq_true in Hl. case_decide.
  { pose proof (do_usage_sends config payload_json allow_private metrics max_ops nl Hlive Hbudget) as Hu.
    by destruct (do_usage _ _ _ _ _ nl) as [[r m'] nl']. }
  case_decide.
  { pose proof (do_delete_sends config payload_json allow_private metrics max_ops nl Hlive Hl) as Hd.
    by destruct (do_delete _ _ _ _ nl) as [[r m'] nl']. }
  pose proof (s3_dispatch_log config action payload_json allow_private nl) as Hlog.
  destruct (s3_dispatch _ _ _ _ nl) as [r nl']. simpl in Hlog.
  match goal with |- context [coll_record metrics ?m] =>
    destruct (coll_record_live metrics m Hlive) as [Hp' Hi]; set (page := m) in * end.
  split; [|rewrite Hi, length_app; simpl; lia].
  exists [], [page]. rewrite app_nil_r. split_and!; simpl; auto with lia.
Qed.
End logged.

(** ** Properties *)

Section properties.
Context {jt : JsonText} {pe : PercentEncoding} {sha : Sha256}.
Context {Net : Type} {dns : Dns Net} {clock : Clock Net} {lib : S3Lib Net}.

(** The two ways of building a canonical query agree.  The hand-sorted query of a presigned link
    is the one the general routine (encode, sort, join) gives for the same parameters. *)
Theorem canonical_query_agrees (access_key scope amz_date : string) (expires : Z)
    (Hexpires : 0 ≤ expires) :
  build_canonical_query access_key scope amz_date expires =
  canonical_query_from_pairs
    [("X-Amz-SignedHeaders", "host"); ("X-Amz-Expires", pretty expires); ("X-Amz-Date", amz_date);
     ("X-Amz-Credential", access_key +:+ "/" +:+ scope); ("X-Amz-Algorithm", "AWS4-HMAC-SHA256")].
Proof.
  unfold canonical_query_from_pairs, build_canonical_query. cbn [fmap list_fmap fst snd].
  rewrite (encode_token_id (pretty expires)) by (by apply pretty_unreserved).
  rewrite !(encode_token_id "X-Amz-Algorithm"), !(encode_token_id "AWS4-HMAC-SHA256"),
    !(encode_token_id "X-Amz-Credential"), !(encode_token_id "X-Amz-Date"),
    !(encode_token_id "X-Amz-Expires"), !(encode_token_id "X-Amz-SignedHeaders"),
    !(encode_token_id "host") by (vm_compute; reflexivity).
  generalize (encode_token (access_key +:+ "/" +:+ scope)) as cred.
  generalize (encode_token amz_date) as date. generalize (pretty expires) as exp. intros exp date cred.
  reflexivity.
Qed.

(** Every link handed out is bounded.  A presigned URL or form lives between one second and the
    operator's cap, is signed for one of the supported methods, for DELETE only when deletion is
    allowed, and with private targets disallowed its endpoint is not a private address literal. *)
Theorem s3_links_bounded (config : S3Config) (action payload_json : string) (allow_private : bool)
    (n n' : Net) (o : PresignOutcome)
    (Hok : s3_dispatch config action payload_json allow_private n = (Ok o, n')) :
  1 ≤ po_expires o ≤ Z.max 1 (s3_max_expires config) ∧
  po_method o ∈ ["PUT"; "GET"; "HEAD"; "DELETE"; "POST"] ∧
  (po_method o = "DELETE" → s3_allow_delete config = true) ∧
  ∀ host ip, allow_private = false → endpoint_host config = Some host → parse_ip host = Some ip →
    is_private_ip ip = false.
Proof.
  assert (1 ≤ po_expires o ≤ Z.max 1 (s3_max_expires config) ∧
    po_method o ∈ ["PUT"; "GET"; "HEAD"; "DELETE"; "POST"] ∧
    (po_method o = "DELETE" → s3_allow_delete config = true) ∧
    is_ok (resolve_host config allow_private n).1 = true) as (He & Hm & Hd & Hr).
  { unfold s3_dispatch in Hok. case_decide; [by apply do_presign_ok in Hok|].
    case_decide; [|done]. by apply do_presign_post_ok in Hok. }
  split_and!; [lia|lia|done|done|]. intros host ip ->.
  destruct (resolve_host config false n) as [[sh|] n1] eqn:Er; [|done]. by eapply resolve_host_guarded.
Qed.

(** A usage scan ends and reports what it saw.  More fuel never changes its result; a successful
    scan made at least one page request, recorded one metric per page within the budget, and its totals
    are the sums over those pages. *)
Theorem usage_scan_totals (config : S3Config) (scheme host prefix : string) (max_ops : Z) (fuel : nat)
    (metrics : Collector S3Metric) (n : Net) (Hlive : coll_poisoned metrics = false)
    (Hfuel : (S (Z.to_nat max_ops) ≤ fuel)%nat) :
  let '(r, metrics', n') :=
    usage_pages (S (Z.to_nat max_ops)) config scheme host prefix max_ops None 0 0 metrics n in
  usage_pages fuel config scheme host prefix max_ops None 0 0 metrics n = (r, metrics', n') ∧
  ∀ bytes objects, r = Ok (bytes, objects) →
    ∃ pages, coll_items metrics' = coll_items metrics ++ pages ∧ pages ≠ [] ∧
      bytes = sum_bytes pages ∧ objects = sum_objects pages ∧
      Z.of_nat (length (coll_items metrics')) ≤ max_ops.
Proof.
  rewrite (usage_pages_fuel fuel (S (Z.to_nat max_ops))) by (done || lia).
  destruct (usage_pages _ _ _ _ _ _ _ _ _ _ n) as [[r metrics'] n'] eqn:Eu. split; [done|].
  intros bytes objects ->. by apply usage_pages_totals in Eu; [|done|lia].
Qed.
End properties.

(** ** Witnesses *)

(** A store that answers every listing with one page of two objects. *)
#[local] Instance reference_encoding : PercentEncoding := {|
  utf8_percent_encode set s := string_of (bytes_of s ≫= encode_byte set);
  utf8_percent_encode_spec _ _ := eq_refl |}.
#[local] Instance store_dns : Dns unit := {| dns_lookup _ n := (Ok [IpV4 (Ipv4 52 216 0 1)], n) |}.
#[local] Instance store_clock : Clock unit := {| instant _ := 0; unix_secs _ := Ok 1780556400 |}.
#[local] Instance store_lib : S3Lib unit := {|
  hmac_new key data := Ok (key ++ data); hex_encode := string_of; base64_encode := string_of;
  chrono_format fmt secs := Some fmt; s3_client := Ok ();
  s3_send _ _ n := (Ok {| sr_status := 200; sr_text := Ok "<Size>5</Size><Size> 7 </Size>" |}, n) |}.
#[local] Instance store_sha : Sha256 := {| sha256 l := l |}.
#[local] Instance store_json : JsonText := {|
  json_parse s := Ok (VObject [("key", VString s); ("prefix", VString s)]);
  json_print _ := Some "{}"; json_type_error _ := "invalid type"; json_print_error _ := "unsupported" |}.
Definition demo_s3 : S3Config := {|
  s3_endpoint := "https://s3.example.com:443/x"; s3_region := "auto"; s3_bucket := "b";
  s3_access_key := "AK"; s3_secret_key := "SK"; s3_path_style := false; s3_expires := 900;
  s3_max_expires := 604800; s3_max_upload_size := 0; s3_allow_delete := false |}.

Lemma demo_listing : sum_sizes "<Size>5</Size><Size> 7 </Size>" = Ok (12, 2).
Proof. vm_compute. reflexivity. Qed.

Lemma s3_requests_gated_witness :
  let r := native_s3 (dns := logged_dns) (clock := logged_clock) (lib := logged_lib)
    demo_s3 3 false "usage" "docs/" new_collector ((), []) in
  sends (gated demo_s3) new_collector ((), []) r.1.2 r.2.
Proof.
  pose proof (s3_requests_gated demo_s3 3 false "usage" "docs/" new_collector ((), []) eq_refl
    ltac:(vm_compute; discriminate)) as H.
  destruct (native_s3 _ _ _ _ _ _ _) as [[a m] nl]. exact (proj1 H).
Defined.

Lemma canonical_query_agrees_witness :
  build_canonical_query "AK" "20260604/auto/s3/aws4_request" "20260604T070000Z" 900 =
  canonical_query_from_pairs
    [("X-Amz-SignedHeaders", "host"); ("X-Amz-Expires", "900"); ("X-Amz-Date", "20260604T070000Z");
     ("X-Amz-Credential", "AK/20260604/auto/s3/aws4_request"); ("X-Amz-Algorithm", "AWS4-HMAC-SHA256")].
Proof. apply canonical_query_agrees. lia. Defined.

Lemma s3_links_bounded_witness :
  ∃ o, (s3_dispatch demo_s3 "presign" "a b.txt" false tt).1 = Ok o ∧ 1 ≤ po_expires o ≤ 604800.
Proof.
  destruct (s3_dispatch demo_s3 "presign" "a b.txt" false tt) as [[o|e] n'] eqn:E;
    [|vm_compute in E; discriminate].
  exists o. split; [reflexivity|].
  exact (proj1 (s3_links_bounded demo_s3 "presign" "a b.txt" false tt n' o E)).
Defined.

Lemma usage_scan_totals_witness :
  (usage_pages 9 demo_s3 "https" "b.s3.example.com" "docs/" 3 None 0 0 new_collector tt).1.1 = Ok (12, 2).
Proof.
  pose proof (usage_scan_totals demo_s3 "https" "b.s3.example.com" "docs/" 3 9 new_collector tt eq_refl
    ltac:(vm_compute; lia)) as H.
  destruct (usage_pages (S (Z.to_nat 3)) _ _ _ _ _ _ _ _ _ _) as [[r m] n] eqn:E.
  rewrite (proj1 H). vm_compute in E. injection E as <- _ _. reflexivity.
Defined.
