(* ===== verification/Sys.v ===== *)
(** * Sys: the always-on natives of a script

    Models [runlet-core/src/sys.rs] ([__sys]: hashing, HMAC, encodings, dates, and the secrets that can
    be used but not read), [runlet-core/src/decimal.rs] ([__decimal]), [error_json] of [sandbox.rs] and
    the byte sizes of [runlet-core/src/bytesize.rs].  The hash, encoding, date and decimal libraries
    enter as the classes [SysLib] and [RustDecimal], the Unicode table [bytesize] consults as
    [UnicodeAlphabetic]. *)

From Stdlib Require Import Ascii.
From stdpp Require Import pretty.
From S2P Require Import Prelude Json Runtime Bytecode.
Local Open Scope Z_scope.

(** [error_json] ([sandbox.rs]). *)
Definition error_json `{!JsonText} (message : string) : string :=
  "{" +:+ quoted "error" +:+ ":" +:+
  default (quoted "internal error") (json_print (VString message)) +:+ "}".

(** ** Configuration and secrets *)

(** [SysConfig]: the operator's plain values and secrets. *)
Record SysConfig := { sys_env : list (string * Value); sys_secrets : list (string * Value) }.

(** [SecretStore]. *)
Abbreviation SecretStore := (gmap string string).

(** [SysConfig::secret_store] and [SysConfig::secret_names]: strings only. *)
Definition secret_store (c : SysConfig) : SecretStore :=
  list_to_map (omap (λ '(name, v), (λ plain, (name, plain)) <$> as_str v) (sys_secrets c)).
Definition secret_names (c : SysConfig) : list string :=
  omap (λ '(name, v), (λ _, name) <$> as_str v) (sys_secrets c).

(** What [inject_context] puts into the script's heap: the plain values and the secrets' names. *)
Record SysView := { sv_env : list (string * Value); sv_names : list string }.
Definition sys_view (c : SysConfig) : SysView :=
  {| sv_env := sys_env c; sv_names := secret_names c |}.

(** ** Libraries *)

(** [sha2], [hmac], [hex], [base64], [String::from_utf8], [percent_encoding], [chrono], the wall clock
    and [uuid].  The [n]th UUID of an execution is random. *)
Class SysLib (Net : Type) := {
  sha512 : list ascii → list ascii;
  hmac_sha256_mac : list ascii → list ascii → result (list ascii) string;
  hmac_sha512_mac : list ascii → list ascii → result (list ascii) string;
  hex_text : list ascii → string;
  hex_decode : string → result (list ascii) string;
  b64_text : list ascii → string;
  b64_decode : string → result (list ascii) string;
  b64url_text : list ascii → string;
  b64url_decode : string → result (list ascii) string;
  utf8_decode : list ascii → result string string;
  percent_decode : string → result string string;
  parse_rfc3339 : string → option Z;
  parse_ymd : string → option Z;
  show_rfc3339 : Z → option string;
  unix_millis : Net → result Z string;
  uuid_v4 : Net → nat → string
}.

Definition in_i64 (z : Z) : bool := bool_decide (I64_MIN ≤ z ≤ I64_MAX).
(** [i64::checked_add], [checked_sub]; [checked_div] by a positive constant truncates. *)
Definition checked_i64 (z : Z) : option Z := if in_i64 z then Some z else None.

(** Units. *)
Definition MILLIS_PER_SECOND : Z := 1000.
Definition SECONDS_PER_MINUTE : Z := 60.
Definition SECONDS_PER_HOUR : Z := 3600.
Definition SECONDS_PER_DAY : Z := 86400.

(** [divmod] (the units are not zero) and [split_duration]. *)
Definition divmod (value unit : Z) : result (Z * Z) string :=
  if decide (unit = 0) then Err "duration overflow" else Ok (value / unit, value mod unit).
Definition split_duration (total_seconds : Z) : result (Z * Z * Z * Z) string :=
  let? (days, after_days) := divmod total_seconds SECONDS_PER_DAY in
  let? (hours, after_hours) := divmod after_days SECONDS_PER_HOUR in
  let? (minutes, seconds) := divmod after_hours SECONDS_PER_MINUTE in
  Ok (days, hours, minutes, seconds).

Section sys.
Context {Net : Type} `{!JsonText} `{!Sha256} `{!PercentEncoding} `{!SysLib Net}.

(** [field_str] and [field_i64]. *)
Definition field_str (payload : Value) (key : string) : result string string :=
  ok_or (value_get key payload ≫= as_str) ("missing string field '" +:+ key +:+ "'").
Definition field_i64 (payload : Value) (key : string) : result Z string :=
  ok_or (value_get key payload ≫= de_i64) ("missing integer field '" +:+ key +:+ "'").

(** ** crypto *)

(** [sha256_hex] and [sha512_hex]. *)
Definition sha256_hex (data : string) : string := hex_text (sha256 (bytes_of data)).
Definition sha512_hex (data : string) : string := hex_text (sha512 (bytes_of data)).

(** [hmac_sha256] and [hmac_sha512]. *)
Definition hmac_sha256 (key msg : string) : result (list ascii) string :=
  map_err (λ err, "hmac key error: " +:+ err) (hmac_sha256_mac (bytes_of key) (bytes_of msg)).
Definition hmac_sha512 (key msg : string) : result (list ascii) string :=
  map_err (λ err, "hmac key error: " +:+ err) (hmac_sha512_mac (bytes_of key) (bytes_of msg)).

(** [resolve_key]: the one place a secret's plaintext is read. *)
Definition resolve_key (payload : Value) (secrets : SecretStore) : result string string :=
  match value_get "key_ref" payload ≫= as_str with
  | Some name => ok_or (secrets !! name) ("unknown secret: '" +:+ name +:+ "'")
  | None => field_str payload "key"
  end.

(** [encode_bytes]. *)
Definition encode_bytes (bytes : list ascii) (encoding : string) : result string string :=
  if decide (encoding = "hex") then Ok (hex_text bytes)
  else if decide (encoding = "base64") then Ok (b64_text bytes)
  else if decide (encoding = "base64url") then Ok (b64url_text bytes)
  else Err ("unsupported encoding: '" +:+ encoding +:+ "'").

(** [hmac_op]. *)
Definition hmac_op (payload : Value) (secrets : SecretStore) : result Value string :=
  let? algo := field_str payload "algo" in
  let? key := resolve_key payload secrets in
  let? msg := field_str payload "msg" in
  let encoding := default "hex" (value_get "encoding" payload ≫= as_str) in
  let? bytes := if decide (algo = "sha256") then hmac_sha256 key msg
                else if decide (algo = "sha512") then hmac_sha512 key msg
                else Err ("unsupported hmac algorithm: '" +:+ algo +:+ "'") in
  let? text := encode_bytes bytes encoding in Ok (VString text).

(** [base64_decode] with an engine, [decode_utf8], [url_decode]. *)
Definition base64_decode (decode : string → result (list ascii) string) (data : string)
    : result (list ascii) string :=
  map_err (λ err, "invalid base64: " +:+ err) (decode data).
Definition decode_utf8 (bytes : list ascii) : result Value string :=
  match utf8_decode bytes with
  | Ok s => Ok (VString s)
  | Err err => Err ("decoded bytes are not valid utf-8: " +:+ err)
  end.
Definition url_decode (data : string) : result Value string :=
  match percent_decode data with
  | Ok s => Ok (VString s)
  | Err err => Err ("invalid percent-encoding: " +:+ err)
  end.

(** [encoding_dispatch]. *)
Definition encoding_dispatch (op : string) (payload : Value) : result Value string :=
  let? data := field_str payload "data" in
  if decide (op = "base64_encode") then Ok (VString (b64_text (bytes_of data)))
  else if decide (op = "base64_decode") then
    let? bytes := base64_decode b64_decode data in decode_utf8 bytes
  else if decide (op = "base64url_encode") then Ok (VString (b64url_text (bytes_of data)))
  else if decide (op = "base64url_decode") then
    let? bytes := base64_decode b64url_decode data in decode_utf8 bytes
  else if decide (op = "hex_encode") then Ok (VString (hex_text (bytes_of data)))
  else if decide (op = "hex_decode") then
    let? bytes := map_err (λ err, "invalid hex: " +:+ err) (hex_decode data) in decode_utf8 bytes
  else if decide (op = "url_encode") then Ok (VString (utf8_percent_encode NON_ALPHANUMERIC data))
  else if decide (op = "url_decode") then url_decode data
  else Err ("unknown encoding op: '" +:+ op +:+ "'").

(** [crypto_dispatch]; the second component is the number of UUIDs drawn. *)
Definition crypto_dispatch (op : string) (payload : Value) (secrets : SecretStore) (uuids : nat)
    (n : Net) : result Value string * nat :=
  if decide (op = "sha256") then
    (let? data := field_str payload "data" in Ok (VString (sha256_hex data)), uuids)
  else if decide (op = "sha512") then
    (let? data := field_str payload "data" in Ok (VString (sha512_hex data)), uuids)
  else if decide (op = "hmac") then (hmac_op payload secrets, uuids)
  else if decide (op = "uuid") then (Ok (VString (uuid_v4 n uuids)), S uuids)
  else if decide (op ∈ ["base64_encode"; "base64_decode"; "base64url_encode"; "base64url_decode";
                        "hex_encode"; "hex_decode"; "url_encode"; "url_decode"])
  then (encoding_dispatch op payload, uuids)
  else (Err ("unknown crypto op: '" +:+ op +:+ "'"), uuids).

(** ** date *)

(** [now_millis]. *)
Definition now_millis (n : Net) : result Z string :=
  let? ms := map_err (λ err, "system clock error: " +:+ err) (unix_millis n) in
  ok_or (checked_i64 ms) "timestamp overflow: out of range integral type conversion attempted".

(** [parse_date_str], [parse_input] and [date_parse]. *)
Definition parse_date_str (text : string) : result Z string :=
  let trimmed := trim text in
  match parse_rfc3339 trimmed with
  | Some ms => Ok ms
  | None =>
      match parse_ymd trimmed with
      | Some ms => Ok ms
      | None => Err ("cannot parse date: '" +:+ text +:+ "'")
      end
  end.
Definition parse_input (input : Value) : result Z string :=
  match input with
  | VNumber num => ok_or (number_i64 num) "epoch millis must be an integer"
  | VString text => parse_date_str text
  | VNull | VBool _ | VArray _ | VObject _ => Err "date input must be an ISO string or epoch millis"
  end.
Definition date_parse (payload : Value) : result Value string :=
  let? input := ok_or (value_get "input" payload) "missing 'input'" in
  let? ms := parse_input input in Ok (VNumber (pretty ms)).

(** [date_add]. *)
Definition date_add (payload : Value) : result Value string :=
  let? base := field_i64 payload "ms" in
  let? delta := field_i64 payload "delta_ms" in
  let? out := ok_or (checked_i64 (base + delta)) "date arithmetic overflow" in
  Ok (VNumber (pretty out)).

(** [date_iso] and [date_unix]. *)
Definition date_iso (payload : Value) : result Value string :=
  let? millis := field_i64 payload "ms" in
  let? text := ok_or (show_rfc3339 millis) "timestamp out of range" in Ok (VString text).
Definition date_unix (payload : Value) : result Value string :=
  let? millis := field_i64 payload "ms" in
  Ok (VNumber (pretty (Z.quot millis MILLIS_PER_SECOND))).

(** [date_diff]. *)
Definition date_diff (payload : Value) : result Value string :=
  let? first := field_i64 payload "a" in
  let? second := field_i64 payload "b" in
  let? total_ms := ok_or (checked_i64 (first - second)) "date diff overflow" in
  let total_seconds := Z.quot total_ms MILLIS_PER_SECOND in
  let? (days, hours, minutes, seconds) := split_duration (Z.abs total_seconds) in
  Ok (VObject [("total_ms", VNumber (pretty total_ms));
               ("total_seconds", VNumber (pretty total_seconds)); ("days", VNumber (pretty days));
               ("hours", VNumber (pretty hours)); ("minutes", VNumber (pretty minutes));
               ("seconds", VNumber (pretty seconds))]).

(** [date_dispatch]. *)
Definition date_dispatch (op : string) (payload : Value) (n : Net) : result Value string :=
  if decide (op = "now") then let? ms := now_millis n in Ok (VNumber (pretty ms))
  else if decide (op = "parse") then date_parse payload
  else if decide (op = "add") then date_add payload
  else if decide (op = "diff") then date_diff payload
  else if decide (op = "iso") then date_iso payload
  else if decide (op = "unix") then date_unix payload
  else Err ("unknown date op: '" +:+ op +:+ "'").

(** ** The native *)

(** [dispatch]. *)
Definition sys_dispatch (domain op payload : string) (secrets : SecretStore) (uuids : nat) (n : Net)
    : result Value string * nat :=
  match json_parse payload with
  | Err err => (Err ("invalid payload: " +:+ err), uuids)
  | Ok v =>
      let parsed := norm v in
      if decide (domain = "crypto") then crypto_dispatch op parsed secrets uuids n
      else if decide (domain = "date") then (date_dispatch op parsed n, uuids)
      else (Err ("unknown sys domain: '" +:+ domain +:+ "'"), uuids)
  end.

(** [value_json] of [sys.rs]. *)
Definition sys_value_json (value : Value) : string :=
  match json_print value with
  | Some inner => "{" +:+ quoted "v" +:+ ":" +:+ inner +:+ "}"
  | None => "{" +:+ quoted "error" +:+ ":" +:+ quoted "failed to encode result" +:+ "}"
  end.

(** The [__sys] closure of [inject_sys]. *)
Definition native_sys (secrets : SecretStore) (domain op payload : string) (uuids : nat) (n : Net)
    : string * nat :=
  let '(r, uuids') := sys_dispatch domain op payload secrets uuids n in
  (match r with Ok value => sys_value_json value | Err err => error_json err end, uuids').

(** Calls that read the wall clock or draw a random UUID. *)
Definition ambient (domain op : string) : bool :=
  (bool_decide (domain = "date") && bool_decide (op = "now")) ||
  (bool_decide (domain = "crypto") && bool_decide (op = "uuid")).
End sys.

(** ** Decimals ([decimal.rs]) *)

(** [rust_decimal]: parsing and printing, the checked operations, absolute value, comparison, and
    rounding half away from zero. *)
Class RustDecimal (D : Type) := {
  dec_from_str : string → result D string;
  dec_to_string : D → string;
  dec_zero : D;
  dec_of_u64 : Z → D;
  dec_abs : D → D;
  dec_checked_add : D → D → option D;
  dec_checked_sub : D → D → option D;
  dec_checked_mul : D → D → option D;
  dec_checked_div : D → D → option D;
  dec_cmp : D → D → comparison;
  dec_round_half_up : D → Z → D
}.

Section decimal.
Context {D : Type} `{!JsonText} `{!RustDecimal D}.

(** [parse_decimal]. *)
Definition parse_decimal (value : string) : result D string :=
  map_err (λ err, "invalid decimal '" +:+ value +:+ "': " +:+ err) (dec_from_str (trim value)).

(** [negate]. *)
Definition negate (value : D) : result string string :=
  let? out := ok_or (dec_checked_sub dec_zero value) "decimal overflow" in Ok (dec_to_string out).

(** [round]. *)
Definition dec_round (value : D) (places_str : string) : result string string :=
  let? places := ok_or (parse_unsigned U32_MAX (trim places_str))
                   ("invalid round places: '" +:+ places_str +:+ "'") in
  Ok (dec_to_string (dec_round_half_up value places)).

(** [minor_places]. *)
Definition minor_places (places_str : string) : result Z string :=
  let trimmed := trim places_str in
  if is_empty trimmed then Ok 2 else
  let? places := ok_or (parse_unsigned U32_MAX trimmed)
                   ("invalid minor-unit places: '" +:+ places_str +:+ "'") in
  if decide (18 < places)
  then Err ("minor-unit places too large: " +:+ pretty places +:+ " (max 18)") else Ok places.

(** [scale_factor]: [10_u64.checked_pow]. *)
Definition scale_factor (places : Z) : result D string :=
  if decide (10 ^ places ≤ U64_MAX) then Ok (dec_of_u64 (10 ^ places))
  else Err "minor-unit scale overflow".

(** [to_minor] and [from_minor]. *)
Definition to_minor (value : D) (places_str : string) : result string string :=
  let? places := minor_places places_str in
  let? factor := scale_factor places in
  let? scaled := ok_or (dec_checked_mul value factor) "decimal overflow" in
  Ok (dec_to_string (dec_round_half_up scaled 0)).
Definition from_minor (value : D) (places_str : string) : result string string :=
  let? places := minor_places places_str in
  let? factor := scale_factor places in
  let? major := ok_or (dec_checked_div value factor) "decimal overflow" in
  Ok (dec_to_string (dec_round_half_up major places)).

(** [compare]. *)
Definition dec_compare (lhs : D) (rhs : string) : result string string :=
  let? other := parse_decimal rhs in
  Ok match dec_cmp lhs other with Lt => "-1" | Eq => "0" | Gt => "1" end.

(** [arithmetic]. *)
Definition arithmetic (op : string) (lhs : D) (rhs : string) : result string string :=
  let? other := parse_decimal rhs in
  let? out :=
    if decide (op = "add") then Ok (dec_checked_add lhs other)
    else if decide (op = "sub") then Ok (dec_checked_sub lhs other)
    else if decide (op = "mul") then Ok (dec_checked_mul lhs other)
    else if decide (op = "div") then
      match dec_cmp other dec_zero with
      | Eq => Err "division by zero"
      | _ => Ok (dec_checked_div lhs other)
      end
    else Err ("unknown decimal op: " +:+ op) in
  let? value := ok_or out "decimal overflow" in Ok (dec_to_string value).

(** [dispatch]. *)
Definition decimal_dispatch (op lhs rhs : string) : result string string :=
  let? value := parse_decimal lhs in
  if decide (op = "parse") then Ok (dec_to_string value)
  else if decide (op = "neg") then negate value
  else if decide (op = "abs") then Ok (dec_to_string (dec_abs value))
  else if decide (op = "round") then dec_round value rhs
  else if decide (op = "to_cents") then to_minor value rhs
  else if decide (op = "from_cents") then from_minor value rhs
  else if decide (op = "cmp") then dec_compare value rhs
  else if decide (op ∈ ["add"; "sub"; "mul"; "div"]) then arithmetic op value rhs
  else Err ("unknown decimal op: " +:+ op).

(** [value_json] of [decimal.rs], and the [__decimal] closure of [inject_decimal]. *)
Definition decimal_value_json (value : string) : string :=
  "{" +:+ quoted "v" +:+ ":" +:+ default (quoted "0") (json_print (VString value)) +:+ "}".
Definition native_decimal (op lhs rhs : string) : string :=
  match decimal_dispatch op lhs rhs with
  | Ok value => decimal_value_json value
  | Err err => error_json err
  end.
End decimal.

(** ** Byte sizes ([bytesize.rs]) *)

(** [char::is_alphabetic]: the byte offset of the first alphabetic character; on ASCII text the
    letters. *)
Definition ascii_letter (a : ascii) : bool :=
  let n := nat_of_ascii a in bool_decide (65 ≤ n ≤ 90 ∨ 97 ≤ n ≤ 122)%nat.
Fixpoint find_byte (P : ascii → bool) (l : list ascii) : option nat :=
  match l with
  | [] => None
  | a :: l' => if P a then Some O else S <$> find_byte P l'
  end.
Class UnicodeAlphabetic := {
  find_alphabetic : string → option nat;
  find_alphabetic_ascii s :
    Forall (λ a, (nat_of_ascii a < 128)%nat) (bytes_of s) →
    find_alphabetic s = find_byte ascii_letter (bytes_of s)
}.

Section bytesize.
Context `{!UnicodeCase} `{!UnicodeAlphabetic}.

(** The multiplier of a unit. *)
Definition unit_multiplier (unit : string) : option Z :=
  if decide (unit = "" ∨ unit = "b") then Some 1
  else if decide (unit = "kb" ∨ unit = "k") then Some 1024
  else if decide (unit = "mb" ∨ unit = "m") then Some (1024 * 1024)
  else if decide (unit = "gb" ∨ unit = "g") then Some (1024 * 1024 * 1024)
  else None.

(** [parse_byte_size], on a 64-bit [usize]. *)
Definition parse_byte_size (input : string) : result Z string :=
  let lower := to_lowercase (trim input) in
  let boundary := default (String.length lower) (find_alphabetic lower) in
  let num_str := string_of (take boundary (bytes_of lower)) in
  let unit_str := string_of (drop boundary (bytes_of lower)) in
  let? number := ok_or (parse_unsigned U64_MAX (trim num_str))
    (if contains "." num_str
     then "decimal values are not supported for byte sizes: " +:+ quoted input +:+
          " — use whole numbers (e.g. " +:+ quoted "1536kb" +:+ " instead of " +:+ quoted "1.5mb" +:+ ")"
     else "invalid number in byte size: " +:+ quoted input) in
  let? multiplier := ok_or (unit_multiplier (trim unit_str))
    ("unknown size unit '" +:+ trim unit_str +:+ "' in: " +:+ input) in
  if decide (number * multiplier ≤ U64_MAX) then Ok (number * multiplier)
  else Err ("byte size overflow: " +:+ input).

(** [deserialize_byte_size]: the visitor's three methods. *)
Definition de_byte_size (v : Value) : option Z :=
  match v with
  | VNumber _ => de_u64 v
  | VString s => match parse_byte_size s with Ok n => Some n | Err _ => None end
  | _ => None
  end.
End bytesize.

(** ** Specification vocabulary *)

(** Two stores no HMAC tells apart: the same names, and under each name keys with the same digests. *)
Section hmac_equiv.
Context {Net : Type} `{!SysLib Net}.

Definition same_digests (k1 k2 : string) : Prop :=
  ∀ msg, hmac_sha256 k1 msg = hmac_sha256 k2 msg ∧ hmac_sha512 k1 msg = hmac_sha512 k2 msg.
Definition hmac_equiv : relation SecretStore := λ s1 s2, ∀ name, option_Forall2 same_digests (s1 !! name) (s2 !! name).

#[export] Instance same_digests_equivalence : Equivalence same_digests.
Proof.
  split.
  - by intros k msg.
  - intros k1 k2 Hk msg. by destruct (Hk msg).
  - intros k1 k2 k3 H12 H23 msg. destruct (H12 msg), (H23 msg). split; congruence.
Qed.
#[export] Instance hmac_equiv_equivalence : Equivalence hmac_equiv.
Proof.
  split.
  - intros s name. reflexivity.
  - intros s1 s2 Hs name. symmetry. apply Hs.
  - intros s1 s2 s3 H12 H23 name. etrans; [apply H12|apply H23].
Qed.
End hmac_equiv.

(** ** Lemmas *)

Section sys_lemmas.
Context {Net : Type} `{!JsonText} `{!Sha256} `{!PercentEncoding} `{!SysLib Net}.
Implicit Types (n : Net).

(** A digest is all a script gets of a secret. *)
#[export] Instance hmac_op_proper payload : Proper (hmac_equiv ==> (=)) (hmac_op payload).
Proof.
  intros s1 s2 Hs. unfold hmac_op, resolve_key. destruct (field_str payload "algo") as [algo|]; [|done].
  simpl. destruct (value_get "key_ref" payload ≫= as_str) as [name|]; [|done].
  specialize (Hs name). destruct Hs as [k1 k2 Hk|]; simpl; [|done].
  destruct (field_str payload "msg") as [msg|]; [|done]. simpl.
  destruct (Hk msg) as [-> ->]. done.
Qed.

#[export] Instance native_sys_proper : Proper (hmac_equiv ==> (=) ==> (=) ==> (=) ==> (=) ==> (=) ==> (=))
  (native_sys (Net:=Net)).
Proof.
  intros s1 s2 Hs domain ? <- op ? <- payload ? <- uuids ? <- n ? <-.
  unfold native_sys, sys_dispatch. destruct (json_parse payload) as [v|]; [|done].
  case_decide; [|done]. unfold crypto_dispatch. by rewrite (hmac_op_proper _ s1 s2 Hs).
Qed.

(** Without the clock and the random source an answer depends on the call alone. *)
Lemma native_sys_pure secrets domain op payload u1 u2 n1 n2 :
  ambient domain op = false →
  (native_sys secrets domain op payload u1 n1).1 = (native_sys secrets domain op payload u2 n2).1 ∧
  (native_sys secrets domain op payload u1 n1).2 = u1.
Proof.
  unfold ambient. rewrite orb_false_iff, !andb_false_iff, !bool_decide_eq_false. intros [Hd Hc].
  unfold native_sys, sys_dispatch. destruct (json_parse payload) as [v|]; [|done].
  case_decide as E1; [|case_decide as E2; [|done]].
  - unfold crypto_dispatch. repeat (case_decide; [naive_solver|]).
    by repeat case_decide.
  - unfold date_dispatch. case_decide; [naive_solver|]. done.
Qed.

(** A span is cut into days, hours, minutes and seconds without loss. *)
Lemma split_duration_exact s : 0 ≤ s →
  ∃ d h m r, split_duration s = Ok (d, h, m, r) ∧
    s = ((d * 24 + h) * 60 + m) * 60 + r ∧ 0 ≤ d ∧ 0 ≤ h < 24 ∧ 0 ≤ m < 60 ∧ 0 ≤ r < 60.
Proof.
  intros Hs. unfold split_duration, divmod, SECONDS_PER_DAY, SECONDS_PER_HOUR, SECONDS_PER_MINUTE.
  rewrite !decide_False by done. simpl. do 4 eexists. split; [reflexivity|].
  Z.div_mod_to_equations. lia.
Qed.
End sys_lemmas.

(** [10^places] fits for every number of places [minor_places] lets through. *)
Lemma scale_factor_total {D} `{!RustDecimal D} places_str places :
  minor_places places_str = Ok places → scale_factor places = Ok (dec_of_u64 (10 ^ places)).
Proof.
  unfold minor_places, scale_factor. intros Hp. rewrite decide_True; [done|].
  assert (0 ≤ places ≤ 18) as Hb.
  { destruct (is_empty (trim places_str)); simplify_eq/=; [lia|].
    destruct (parse_unsigned U32_MAX (trim places_str)) as [z|] eqn:E; simpl in Hp; [|done].
    apply parse_unsigned_range in E. case_decide; simplify_eq. lia. }
  trans (10 ^ 18); [|done]. apply Z.pow_le_mono_r; lia.
Qed.

Section bytesize_lemmas.
Context `{!UnicodeCase} `{!UnicodeAlphabetic}.

Lemma find_byte_app (P : ascii → bool) l k :
  Forall (λ a, P a = false) l → find_byte P (l ++ k) = (λ i, (length l + i)%nat) <$> find_byte P k.
Proof.
  induction l as [|a l IH]; intros Hl; simpl; [by destruct (find_byte P k)|].
  rewrite Forall_cons in Hl. destruct Hl as [-> Hl]. rewrite IH by done.
  by destruct (find_byte P k).
Qed.

(** A number and a unit are read as their product, and as an error when it is too big. *)
Lemma parse_byte_size_spec (n : Z) unit m :
  0 ≤ n ≤ U64_MAX → unit_multiplier unit = Some m →
  parse_byte_size (pretty n +:+ unit) =
    if decide (n * m ≤ U64_MAX) then Ok (n * m)
    else Err ("byte size overflow: " +:+ pretty n +:+ unit).
Proof.
  intros Hn Hu. destruct (pretty_Z_digits n) as (Hd & Hne & Hv); [lia|].
  set (digits := bytes_of (pretty n)) in *.
  assert (unit ∈ [""; "b"; "kb"; "k"; "mb"; "m"; "gb"; "g"]) as Hin.
  { unfold unit_multiplier in Hu. repeat case_decide; simplify_eq; destruct_or?; subst unit; set_solver. }
  assert (Forall (λ a, is_ascii_digit a = true) digits) as Hdig.
  { apply Forall_forall. intros a Ha. rewrite forallb_forall in Hd. apply Hd. by apply list_elem_of_In. }
  assert (∀ a, is_ascii_digit a = true → plain_ascii a ∧ lower_ascii a = a ∧ ascii_letter a = false)
    as Hone.
  { intros a Ha. destruct a as [[] [] [] [] [] [] [] []]; try done; split_and!; try done;
      vm_compute; lia. }
  assert (Forall plain_ascii (bytes_of unit) ∧ lower_ascii <$> bytes_of unit = bytes_of unit ∧
          (unit = "" ∨ find_byte ascii_letter (bytes_of unit) = Some O)) as (Hup & Hul & Huf).
  { rewrite !elem_of_cons, elem_of_nil in Hin. destruct_or?; subst unit; try done;
      (split_and!; [repeat constructor; vm_compute; lia|done|by auto]). }
  assert (Forall plain_ascii (bytes_of (pretty n +:+ unit))) as Hplain.
  { rewrite bytes_of_app. apply Forall_app. split; [|done]. eapply Forall_impl; [exact Hdig|].
    intros a Ha. by apply Hone. }
  assert (Forall (λ a, (nat_of_ascii a < 128)%nat) (bytes_of (pretty n +:+ unit))) as Hascii.
  { eapply Forall_impl; [exact Hplain|]. unfold plain_ascii. simpl. lia. }
  assert (lower_ascii <$> digits = digits) as Hdl.
  { clearbody digits. clear -Hdig Hone. induction Hdig as [|a l Ha Hl IH]; [done|]. rewrite fmap_cons, IH.
    by destruct (Hone a Ha) as (_ & -> & _). }
  unfold parse_byte_size. rewrite (trim_plain (pretty n +:+ unit)) by done.
  rewrite to_lowercase_ascii by done. unfold to_ascii_lowercase.
  rewrite bytes_of_app, fmap_app. fold digits. rewrite Hdl, Hul. cbv zeta.
  rewrite bytes_of_string_of.
  assert (string_of (digits ++ bytes_of unit) = pretty n +:+ unit) as ->.
  { apply (inj bytes_of). by rewrite bytes_of_string_of, bytes_of_app. }
  rewrite find_alphabetic_ascii by done. rewrite bytes_of_app. fold digits.
  rewrite find_byte_app.
  2: { eapply Forall_impl; [exact Hdig|]. intros a Ha. by apply Hone. }
  assert (default (String.length (pretty n +:+ unit))
            ((λ i, (length digits + i)%nat) <$> find_byte ascii_letter (bytes_of unit)) = length digits)
    as ->.
  { destruct Huf as [-> | ->]; [|apply Nat.add_0_r].
    change (String.length (pretty n +:+ "") = length digits).
    rewrite <-length_bytes_of, bytes_of_app, app_nil_r. done. }
  rewrite take_app_length, drop_app_length. unfold digits. rewrite !string_of_bytes_of.
  rewrite !trim_plain; [|done|].
  2: { eapply Forall_impl; [exact Hdig|]. intros a Ha. by apply Hone. }
  assert (parse_unsigned U64_MAX (pretty n) = Some n) as ->.
  { pose proof (as_u64_pretty n Hn) as Ha. unfold as_u64, de_u64 in Ha.
    fold digits in Ha. by rewrite Hd in Ha. }
  rewrite Hu. simpl. by case_decide.
Qed.

(** What a size parses to fits the machine word. *)
Lemma parse_byte_size_in input n : parse_byte_size input = Ok n → in_u64 n.
Proof.
  unfold parse_byte_size. cbv zeta.
  destruct (parse_unsigned U64_MAX _) as [m|] eqn:Em; [|done]. apply parse_unsigned_range in Em. simpl.
  destruct (unit_multiplier _) as [k|] eqn:Ek; [|done]. simpl. case_decide; [|done]. intros [= <-].
  assert (0 ≤ k) by (unfold unit_multiplier in Ek; repeat case_decide; simplify_eq; lia).
  unfold in_u64. nia.
Qed.
End bytesize_lemmas.

(** ** Properties *)

(** Date arithmetic never wraps.  The difference of two instants is the exact number of milliseconds,
    with the seconds truncated towards zero and cut into days, hours, minutes and seconds that add up to
    them, or an error when it does not fit 64 bits; a sum is exact or an error alike. *)
Theorem date_arithmetic_exact (payload : Value) :
  (∀ a b, field_i64 payload "a" = Ok a → field_i64 payload "b" = Ok b →
     if in_i64 (a - b) then
       ∃ d h m s, date_diff payload = Ok (VObject
         [("total_ms", VNumber (pretty (a - b)));
          ("total_seconds", VNumber (pretty (Z.quot (a - b) 1000))); ("days", VNumber (pretty d));
          ("hours", VNumber (pretty h)); ("minutes", VNumber (pretty m));
          ("seconds", VNumber (pretty s))]) ∧
         Z.abs (Z.quot (a - b) 1000) = ((d * 24 + h) * 60 + m) * 60 + s ∧
         0 ≤ d ∧ 0 ≤ h < 24 ∧ 0 ≤ m < 60 ∧ 0 ≤ s < 60
     else date_diff payload = Err "date diff overflow") ∧
  (∀ ms delta, field_i64 payload "ms" = Ok ms → field_i64 payload "delta_ms" = Ok delta →
     date_add payload = if in_i64 (ms + delta) then Ok (VNumber (pretty (ms + delta)))
                        else Err "date arithmetic overflow").
Proof.
  split.
  - intros a b Ha Hb. unfold date_diff. rewrite Ha, Hb. unfold checked_i64. cbn [result_bind].
    destruct (in_i64 (a - b)); [|done]. cbn [ok_or result_bind].
    destruct (split_duration_exact (Z.abs (Z.quot (a - b) MILLIS_PER_SECOND)))
      as (d & h & m & r & Hs & Heq & Hr); [lia|].
    rewrite Hs. simpl. exists d, h, m, r. done.
  - intros ms delta Hm Hd. unfold date_add. rewrite Hm, Hd. unfold checked_i64. simpl.
    by destruct (in_i64 (ms + delta)).
Qed.
