(* ===== verification/EngineConfig.v ===== *)
(** * EngineConfig: the sandbox limits

    Models [runlet-core/src/config.rs] (the limits, their derived values and the load-time check)
    and the input-size validation of [runlet-core/src/sandbox.rs].  Sizes are [usize] values. *)

From stdpp Require Import pretty.
From S2P Require Import Prelude.
Local Open Scope Z_scope.

Definition PARSE_HEAP_FACTOR : Z := 4.
Definition CONTEXT_LIMIT_DIVISOR : Z := 8.
Definition AUTO_CONCURRENCY_FACTOR : Z := 16.
Definition DEFAULT_PARTITION_BUCKETS : Z := 256.
Definition DEFAULT_BREAKER_COOLDOWN_MS : Z := 5000.

Record EngineConfig := {
  memory_limit : Z; max_stack_size : Z; timeout_ms : Z; pool_size : Z; max_script_size : Z;
  max_context_size : Z; max_ops : Z; max_output_size : Z; max_concurrent_executions : Z;
  max_concurrent_per_partition : Z; partition_buckets : Z; max_statement_timeout_ms : Z;
  db_breaker_threshold : Z; db_breaker_cooldown_ms : Z; allow_wildcard_hosts : bool }.

Definition EngineConfig_default : EngineConfig :=
  {| memory_limit := 32 * 1024 * 1024; max_stack_size := 512 * 1024; timeout_ms := 4000;
     pool_size := 0; max_script_size := 1024 * 1024; max_context_size := 0; max_ops := 1500;
     max_output_size := 0; max_concurrent_executions := 0; max_statement_timeout_ms := 0;
     max_concurrent_per_partition := 0; partition_buckets := 0; db_breaker_threshold := 0;
     db_breaker_cooldown_ms := 0; allow_wildcard_hosts := false |}.

(** [usize::saturating_mul] on a 64-bit [usize]. *)
Definition sat_mul_usize (a b : Z) : Z := Z.min U64_MAX (a * b).

Definition resolved_max_concurrent (c : EngineConfig) (pool_size : Z) : Z :=
  if decide (0 < max_concurrent_executions c) then max_concurrent_executions c
  else
    let auto := sat_mul_usize pool_size AUTO_CONCURRENCY_FACTOR in
    if decide (0 < auto) then auto else 1.

Definition resolved_partition_buckets (c : EngineConfig) : Z :=
  if decide (0 < partition_buckets c) then partition_buckets c else DEFAULT_PARTITION_BUCKETS.

Definition resolved_breaker_cooldown_ms (c : EngineConfig) : Z :=
  if decide (0 < db_breaker_cooldown_ms c) then db_breaker_cooldown_ms c
  else DEFAULT_BREAKER_COOLDOWN_MS.

Definition max_body_size (c : EngineConfig) : Z :=
  sat_add_u64 (sat_add_u64 (max_script_size c) (max_context_size c)) (64 * 1024).

(** The assignment of [max_context_size]. *)
Definition set_max_context_size (c : EngineConfig) (n : Z) : EngineConfig :=
  {| memory_limit := memory_limit c; max_stack_size := max_stack_size c;
     timeout_ms := timeout_ms c; pool_size := pool_size c; max_script_size := max_script_size c;
     max_context_size := n; max_ops := max_ops c; max_output_size := max_output_size c;
     max_concurrent_executions := max_concurrent_executions c;
     max_concurrent_per_partition := max_concurrent_per_partition c;
     partition_buckets := partition_buckets c;
     max_statement_timeout_ms := max_statement_timeout_ms c;
     db_breaker_threshold := db_breaker_threshold c;
     db_breaker_cooldown_ms := db_breaker_cooldown_ms c;
     allow_wildcard_hosts := allow_wildcard_hosts c |}.

(** [resolve_limits]; the error carries the offending size and the ceiling of its message. *)
Definition resolve_limits (c : EngineConfig) : result EngineConfig (Z * Z) :=
  let c := if decide (max_context_size c = 0)
           then set_max_context_size c (memory_limit c / CONTEXT_LIMIT_DIVISOR) else c in
  let parse_ceiling := memory_limit c / PARSE_HEAP_FACTOR in
  if decide (parse_ceiling < max_context_size c) then Err (max_context_size c, parse_ceiling)
  else Ok c.

(** [validate_input_sizes]. *)
Definition validate_input_sizes (script_bytes context_bytes max_script max_context : Z)
    : result unit (string * string) :=
  if decide (max_script < script_bytes) then
    Err ("SCRIPT_TOO_LARGE",
         "script too large: " +:+ pretty script_bytes +:+ " bytes (max " +:+ pretty max_script +:+ ")")
  else if decide (max_context < context_bytes) then
    Err ("CONTEXT_TOO_LARGE",
         "context too large: " +:+ pretty context_bytes +:+ " bytes (max " +:+ pretty max_context +:+ ")")
  else Ok ().

(** ** Properties *)

(** The field values of a configuration are [usize]s. *)
Definition config_wf (c : EngineConfig) : Prop :=
  in_u64 (memory_limit c) ∧ in_u64 (max_script_size c) ∧ in_u64 (max_context_size c).

(** A configuration that loads leaves room to parse every context it admits.  The resolved
    context limit, quadrupled (the measured cost of parsing), fits the memory limit; leaving the
    limit at zero always loads; and every script and context the size check admits together fit the
    body limit unless that limit saturates. *)
Theorem resolve_limits_headroom (c : EngineConfig) (Hwf : config_wf c) :
  (max_context_size c = 0 → is_ok (resolve_limits c) = true) ∧
  ∀ c', resolve_limits c = Ok c' →
    max_context_size c' * PARSE_HEAP_FACTOR ≤ memory_limit c' ∧ memory_limit c' = memory_limit c ∧
    (max_context_size c ≠ 0 → c' = c) ∧
    ∀ script_bytes context_bytes, 0 ≤ script_bytes → 0 ≤ context_bytes →
      validate_input_sizes script_bytes context_bytes (max_script_size c') (max_context_size c') = Ok () →
      script_bytes + context_bytes ≤ max_body_size c' ∨ max_body_size c' = U64_MAX.
Proof.
  destruct Hwf as (Hm & Hs & Hc). unfold in_u64 in *. unfold resolve_limits. cbv zeta.
  assert (∀ m, 0 ≤ m → m / CONTEXT_LIMIT_DIVISOR ≤ m / PARSE_HEAP_FACTOR) as Hdiv.
  { intros m Hpos. unfold CONTEXT_LIMIT_DIVISOR, PARSE_HEAP_FACTOR. apply Z.div_le_compat_l; lia. }
  split.
  - intros Hz. rewrite (decide_True (P := max_context_size c = 0)) by done. simpl.
    specialize (Hdiv (memory_limit c) ltac:(lia)).
    destruct (decide _) as [Hlt|]; [|done]. lia.
  - intros c' Hr.
    set (auto := set_max_context_size c (memory_limit c / CONTEXT_LIMIT_DIVISOR)) in Hr.
    set (c1 := if decide (max_context_size c = 0) then auto else c) in Hr.
    assert (memory_limit c1 = memory_limit c ∧ max_script_size c1 = max_script_size c) as [Hm1 Hs1]
      by (unfold c1; by destruct (decide (max_context_size c = 0))).
    destruct (decide (_ < max_context_size c1)) as [|Hle]; [done|]. injection Hr as <-.
    split_and!; [|done| |].
    + rewrite Hm1 in *. unfold PARSE_HEAP_FACTOR in *.
      pose proof (Z.mul_div_le (memory_limit c) 4). lia.
    + intros Hne. unfold c1. by rewrite decide_False.
    + intros sb cb Hsb Hcb Hv. unfold validate_input_sizes in Hv. repeat case_decide; simplify_eq.
      unfold max_body_size, sat_add_u64, U64_MAX in *. lia.
Qed.

(** ** Witnesses *)

Lemma resolve_limits_headroom_witness :
  is_ok (resolve_limits EngineConfig_default) = true ∧
  ∀ c', resolve_limits EngineConfig_default = Ok c' →
    max_context_size c' * PARSE_HEAP_FACTOR ≤ memory_limit c'.
Proof.
  destruct (resolve_limits_headroom EngineConfig_default) as [H1 H2].
  - repeat split; vm_compute; discriminate.
  - split; [by apply H1|]. intros c' Hc. by apply H2.
Defined.
