(* ===== verification/BoxConfig.v ===== *)
(** * BoxConfig: the box's configuration file and its start gates

    Models [runlet/src/config.rs] and the derived deserializers it pulls in ([EngineConfig] of
    [runlet-core/src/config.rs], [PlanLimit] of [runlet/src/quota.rs]): the blocks of [config.json]
    with their defaults, the load with its limit check, and the two checks that refuse an exposed
    bind.  A sampling ratio keeps its decimal text; it only feeds the tracer. *)

From S2P Require Import Prelude Json Runtime Ssrf Identity Quota Sidecar Sys EngineConfig.
Local Open Scope Z_scope.

(** ** The blocks *)

Record ServerConfig := { sc_host : IpAddr; sc_port : Z }.
Record EventsConfig := { ec_enabled : bool; ec_buffer : Z }.
Record TelemetryConfig := {
  tc_otlp_endpoint : option string; tc_sample_ratio : string; tc_service_name : string }.
Record QuotaConfig := { qt_enabled : bool; qt_plans : gmap string PlanLimit }.
Record TrustedConfig := {
  tc_enabled : bool; tc_assert_network_isolation : bool; tc_headers : TrustedHeaders;
  tc_capability_entitlements : gmap string string; tc_quota : QuotaConfig }.
Record Config := {
  cf_debug : bool; cf_error_debug : bool; cf_server : ServerConfig; cf_engine : EngineConfig;
  cf_scripts_dir : option string; cf_modules_dir : option string; cf_access_token : option string;
  cf_allow_unauthenticated : bool; cf_fabricd_socket : option string;
  cf_fabricd_quic : option FabricdQuic; cf_trusted : TrustedConfig; cf_telemetry : TelemetryConfig;
  cf_events : EventsConfig }.

(** The [Default]s, written and derived. *)
Definition ServerConfig_default : ServerConfig :=
  {| sc_host := IpV4 (Ipv4 127 0 0 1); sc_port := 3000 |}.
Definition EventsConfig_default : EventsConfig := {| ec_enabled := false; ec_buffer := 4096 |}.
Definition TelemetryConfig_default : TelemetryConfig :=
  {| tc_otlp_endpoint := None; tc_sample_ratio := "1.0"; tc_service_name := "runlet" |}.
Definition QuotaConfig_default : QuotaConfig := {| qt_enabled := false; qt_plans := ∅ |}.
Definition TrustedConfig_default : TrustedConfig :=
  {| tc_enabled := false; tc_assert_network_isolation := false; tc_headers := TrustedHeaders_default;
     tc_capability_entitlements := ∅; tc_quota := QuotaConfig_default |}.
Definition Config_default : Config :=
  {| cf_debug := false; cf_error_debug := false; cf_server := ServerConfig_default;
     cf_engine := EngineConfig_default; cf_scripts_dir := None; cf_modules_dir := None;
     cf_access_token := None; cf_allow_unauthenticated := false; cf_fabricd_socket := None;
     cf_fabricd_quic := None; cf_trusted := TrustedConfig_default;
     cf_telemetry := TelemetryConfig_default; cf_events := EventsConfig_default |}.

(** [ServerConfig::addr]. *)
Definition server_addr (c : ServerConfig) : IpAddr * Z := (sc_host c, sc_port c).

(** ** Derived deserializers *)

(** An unsigned integer of a narrower width. *)
Definition de_uint (max : Z) (v : Value) : option Z :=
  n ← de_u64 v; if decide (n ≤ max) then Some n else None.
(** An [f64], as its text. *)
Definition de_ratio (v : Value) : option string :=
  match v with VNumber lexeme => Some lexeme | _ => None end.
(** An [IpAddr], from its text. *)
Definition de_ip (v : Value) : option IpAddr := s ← de_string v; parse_ip s.
(** A [HashMap]: a repeated key takes its last value. *)
Definition de_hash_map {T} (de : Value → option T) (v : Value) : option (gmap string T) :=
  match v with
  | VObject l => foldl (λ acc kv, m ← acc; x ← de kv.2; Some (<[kv.1 := x]> m)) (Some ∅) l
  | _ => None
  end.
(** [#[serde(deny_unknown_fields)]]. *)
Definition known_fields (names : list string) (v : Value) : bool :=
  match v with VObject l => forallb (λ kv, bool_decide (kv.1 ∈ names)) l | _ => true end.

(** Inversion of a chain of optional binds, and of a derived deserializer that succeeded. *)
Ltac inv_binds H :=
  repeat match type of H with
  | (_ ≫= _) = Some _ => let x := fresh "x" in let Hx := fresh "Hx" in
      apply bind_Some in H as (x & Hx & H)
  end.
Ltac inv_struct H :=
  apply bind_Some in H as (? & ? & H);
  repeat match type of H with (match ?l with [] => _ | _ :: _ => _ end) = Some _ => destruct l; [try done|..] end;
  try done; inv_binds H; injection H as <-.

Section config.
Context `{!JsonText} `{!UnicodeCase} `{!UnicodeAlphabetic}.

Definition de_PlanLimit (v : Value) : option PlanLimit :=
  fs ← fields_of ["max_concurrent"] v;
  match fs with [o1] => n ← required de_u64 o1; Some {| max_concurrent := n |} | _ => None end.

Definition de_ServerConfig (v : Value) : option ServerConfig :=
  let d := ServerConfig_default in
  fs ← fields_of ["host"; "port"] v;
  match fs with
  | [o1; o2] =>
      host ← defaulted (sc_host d) de_ip o1; port ← defaulted (sc_port d) (de_uint U16_MAX) o2;
      Some {| sc_host := host; sc_port := port |}
  | _ => None
  end.

Definition de_EventsConfig (v : Value) : option EventsConfig :=
  let d := EventsConfig_default in
  fs ← fields_of ["enabled"; "buffer"] v;
  match fs with
  | [o1; o2] =>
      enabled ← defaulted (ec_enabled d) de_bool o1; buffer ← defaulted (ec_buffer d) de_u64 o2;
      Some {| ec_enabled := enabled; ec_buffer := buffer |}
  | _ => None
  end.

Definition de_TelemetryConfig (v : Value) : option TelemetryConfig :=
  let d := TelemetryConfig_default in
  fs ← fields_of ["otlp_endpoint"; "sample_ratio"; "service_name"] v;
  match fs with
  | [o1; o2; o3] =>
      endpoint ← defaulted (tc_otlp_endpoint d) (de_option de_string) o1;
      ratio ← defaulted (tc_sample_ratio d) de_ratio o2;
      name ← defaulted (tc_service_name d) de_string o3;
      Some {| tc_otlp_endpoint := endpoint; tc_sample_ratio := ratio; tc_service_name := name |}
  | _ => None
  end.

Definition de_TrustedHeaders (v : Value) : option TrustedHeaders :=
  let d := TrustedHeaders_default in
  fs ← fields_of ["tenant"; "user"; "roles"; "entitlements"; "suspended"; "anonymous"; "plan"; "scope"] v;
  match fs with
  | [o1; o2; o3; o4; o5; o6; o7; o8] =>
      tenant ← defaulted (th_tenant d) de_string o1; user ← defaulted (th_user d) de_string o2;
      roles ← defaulted (th_roles d) de_string o3;
      entitlements ← defaulted (th_entitlements d) de_string o4;
      suspended ← defaulted (th_suspended d) de_string o5;
      anonymous ← defaulted (th_anonymous d) de_string o6;
      plan ← defaulted (th_plan d) de_string o7; scope ← defaulted (th_scope d) de_string o8;
      Some {| th_tenant := tenant; th_user := user; th_roles := roles; th_entitlements := entitlements;
              th_suspended := suspended; th_anonymous := anonymous; th_plan := plan; th_scope := scope |}
  | _ => None
  end.

Definition de_QuotaConfig (v : Value) : option QuotaConfig :=
  let d := QuotaConfig_default in
  fs ← fields_of ["enabled"; "plans"] v;
  match fs with
  | [o1; o2] =>
      enabled ← defaulted (qt_enabled d) de_bool o1;
      plans ← defaulted (qt_plans d) (de_hash_map de_PlanLimit) o2;
      Some {| qt_enabled := enabled; qt_plans := plans |}
  | _ => None
  end.

Definition de_TrustedConfig (v : Value) : option TrustedConfig :=
  let d := TrustedConfig_default in
  fs ← fields_of ["enabled"; "assert_network_isolation"; "headers"; "capability_entitlements"; "quota"] v;
  match fs with
  | [o1; o2; o3; o4; o5] =>
      enabled ← defaulted (tc_enabled d) de_bool o1;
      isolation ← defaulted (tc_assert_network_isolation d) de_bool o2;
      headers ← defaulted (tc_headers d) de_TrustedHeaders o3;
      entitlements ← defaulted (tc_capability_entitlements d) (de_hash_map de_string) o4;
      quota ← defaulted (tc_quota d) de_QuotaConfig o5;
      Some {| tc_enabled := enabled; tc_assert_network_isolation := isolation; tc_headers := headers;
              tc_capability_entitlements := entitlements; tc_quota := quota |}
  | _ => None
  end.

Definition quic_fields : list string :=
  ["replicas"; "server_name"; "server_cert_pin"; "auth_token"; "auth_token_file"].
Definition de_FabricdQuic (v : Value) : option FabricdQuic :=
  if negb (known_fields quic_fields v) then None else
  fs ← fields_of quic_fields v;
  match fs with
  | [o1; o2; o3; o4; o5] =>
      replicas ← required de_strings o1; server_name ← required de_string o2;
      pin ← required de_string o3; token ← defaulted None (de_option de_string) o4;
      token_file ← defaulted None (de_option de_string) o5;
      Some {| fq_replicas := replicas; fq_server_name := server_name; fq_server_cert_pin := pin;
              fq_auth_token := token; fq_auth_token_file := token_file |}
  | _ => None
  end.

Definition de_EngineConfig (v : Value) : option EngineConfig :=
  let d := EngineConfig_default in
  fs ← fields_of ["memory_limit"; "max_stack_size"; "timeout_ms"; "pool_size"; "max_script_size";
                  "max_context_size"; "max_ops"; "max_output_size"; "max_concurrent_executions";
                  "max_concurrent_per_partition"; "partition_buckets"; "max_statement_timeout_ms";
                  "db_breaker_threshold"; "db_breaker_cooldown_ms"; "allow_wildcard_hosts"] v;
  match fs with
  | [o1; o2; o3; o4; o5; o6; o7; o8; o9; o10; o11; o12; o13; o14; o15] =>
      memory ← defaulted (memory_limit d) de_byte_size o1;
      stack ← defaulted (max_stack_size d) de_byte_size o2;
      timeout ← defaulted (timeout_ms d) de_u64 o3; pool ← defaulted (pool_size d) de_u64 o4;
      script ← defaulted (max_script_size d) de_byte_size o5;
      context ← defaulted (max_context_size d) de_byte_size o6;
      ops ← defaulted (max_ops d) de_u64 o7; output ← defaulted (max_output_size d) de_byte_size o8;
      executions ← defaulted (max_concurrent_executions d) de_u64 o9;
      per_partition ← defaulted (max_concurrent_per_partition d) de_u64 o10;
      bucket_count ← defaulted (partition_buckets d) de_u64 o11;
      statement ← defaulted (max_statement_timeout_ms d) de_u64 o12;
      threshold ← defaulted (db_breaker_threshold d) (de_uint U32_MAX) o13;
      cooldown ← defaulted (db_breaker_cooldown_ms d) de_u64 o14;
      wildcard ← defaulted (allow_wildcard_hosts d) de_bool o15;
      Some {| memory_limit := memory; max_stack_size := stack; timeout_ms := timeout; pool_size := pool;
              max_script_size := script; max_context_size := context; max_ops := ops;
              max_output_size := output; max_concurrent_executions := executions;
              max_concurrent_per_partition := per_partition; partition_buckets := bucket_count;
              max_statement_timeout_ms := statement; db_breaker_threshold := threshold;
              db_breaker_cooldown_ms := cooldown; allow_wildcard_hosts := wildcard |}
  | _ => None
  end.

Definition de_Config (v : Value) : option Config :=
  let d := Config_default in
  fs ← fields_of ["debug"; "error_debug"; "server"; "engine"; "scripts_dir"; "modules_dir";
                  "access_token"; "allow_unauthenticated"; "fabricd_socket"; "fabricd_quic"; "trusted";
                  "telemetry"; "events"] v;
  match fs with
  | [o1; o2; o3; o4; o5; o6; o7; o8; o9; o10; o11; o12; o13] =>
      debug ← defaulted (cf_debug d) de_bool o1; error_debug ← defaulted (cf_error_debug d) de_bool o2;
      server ← defaulted (cf_server d) de_ServerConfig o3;
      engine ← defaulted (cf_engine d) de_EngineConfig o4;
      scripts ← defaulted (cf_scripts_dir d) (de_option de_string) o5;
      modules ← defaulted (cf_modules_dir d) (de_option de_string) o6;
      token ← defaulted (cf_access_token d) (de_option de_string) o7;
      unauthenticated ← defaulted false de_bool o8;
      socket ← defaulted None (de_option de_string) o9;
      quic ← defaulted None (de_option de_FabricdQuic) o10;
      trusted ← defaulted TrustedConfig_default de_TrustedConfig o11;
      telemetry ← defaulted TelemetryConfig_default de_TelemetryConfig o12;
      events ← defaulted EventsConfig_default de_EventsConfig o13;
      Some {| cf_debug := debug; cf_error_debug := error_debug; cf_server := server; cf_engine := engine;
              cf_scripts_dir := scripts; cf_modules_dir := modules; cf_access_token := token;
              cf_allow_unauthenticated := unauthenticated; cf_fabricd_socket := socket;
              cf_fabricd_quic := quic; cf_trusted := trusted; cf_telemetry := telemetry;
              cf_events := events |}
  | _ => None
  end.

(** ** The gates *)

Inductive ConfigError :=
  | ConfigUnreadable (e : string)
  | ConfigMalformed (e : string)
  | ContextAboveCeiling (max_context ceiling : Z)
  | ExposedWithoutAuth (host : string)
  | ExposedTrusted (host : string).

(** [IpAddr::is_loopback]. *)
Definition is_loopback (ip : IpAddr) : bool :=
  match ip with IpV4 ip => v4_is_loopback ip | IpV6 ip => v6_is_loopback ip end.

(** [Config::check_trusted_isolation]; the message names the host. *)
Definition check_trusted_isolation (c : Config) (exposed : bool) : result () ConfigError :=
  if tc_enabled (cf_trusted c) && exposed && negb (tc_assert_network_isolation (cf_trusted c))
  then Err (ExposedTrusted (show_ip (sc_host (cf_server c)))) else Ok ().

(** [Config::check_exposure]. *)
Definition check_exposure (c : Config) : result () ConfigError :=
  let exposed := negb (is_loopback (sc_host (cf_server c))) in
  if exposed && bool_decide (cf_access_token c = None) && negb (cf_allow_unauthenticated c)
  then Err (ExposedWithoutAuth (show_ip (sc_host (cf_server c))))
  else let? _ := check_trusted_isolation c exposed in Ok ().

Definition set_engine (c : Config) (e : EngineConfig) : Config :=
  {| cf_debug := cf_debug c; cf_error_debug := cf_error_debug c; cf_server := cf_server c;
     cf_engine := e; cf_scripts_dir := cf_scripts_dir c; cf_modules_dir := cf_modules_dir c;
     cf_access_token := cf_access_token c; cf_allow_unauthenticated := cf_allow_unauthenticated c;
     cf_fabricd_socket := cf_fabricd_socket c; cf_fabricd_quic := cf_fabricd_quic c;
     cf_trusted := cf_trusted c; cf_telemetry := cf_telemetry c; cf_events := cf_events c |}.

(** [Config::load]: the file's contents when it exists. *)
Definition Config_load (file : option (result string string)) : result Config ConfigError :=
  let? config := match file with
    | None => Ok Config_default
    | Some read =>
        let? contents := map_err ConfigUnreadable read in
        map_err ConfigMalformed (from_str de_Config contents)
    end in
  let? engine := map_err (λ e, ContextAboveCeiling e.1 e.2) (resolve_limits (cf_engine config)) in
  Ok (set_engine config engine).

(** ** What a loaded configuration satisfies *)

(** Every field within its machine type, and room to parse every admitted context. *)
Definition engine_wf (e : EngineConfig) : Prop :=
  Forall in_u64 [memory_limit e; max_stack_size e; timeout_ms e; pool_size e; max_script_size e;
                 max_context_size e; max_ops e; max_output_size e; max_concurrent_executions e;
                 max_concurrent_per_partition e; partition_buckets e; max_statement_timeout_ms e;
                 db_breaker_cooldown_ms e] ∧
  in_u32 (db_breaker_threshold e).
Definition fields_wf (c : Config) : Prop :=
  engine_wf (cf_engine c) ∧ 0 ≤ sc_port (cf_server c) ≤ U16_MAX ∧
  plans_wf (PlanLimits_new (qt_plans (tc_quota (cf_trusted c)))) ∧ in_u64 (ec_buffer (cf_events c)).
Definition loaded_config (c : Config) : Prop :=
  fields_wf c ∧ max_context_size (cf_engine c) * PARSE_HEAP_FACTOR ≤ memory_limit (cf_engine c).

Lemma defaulted_inv {T} (P : T → Prop) d (de : Value → option T) o x :
  P d → (∀ v y, de v = Some y → P y) → defaulted d de o = Some x → P x.
Proof. intros Hd Hde. destruct o as [v|]; simpl; [apply Hde|by intros [= <-]]. Qed.

Lemma de_u64_in v n : de_u64 v = Some n → in_u64 n.
Proof.
  unfold de_u64. destruct v; try done. destruct (forallb _ _); [|done]. apply parse_unsigned_range.
Qed.
Lemma de_uint_in max v n : de_uint max v = Some n → 0 ≤ n ≤ max.
Proof.
  unfold de_uint. intros (m & Hm%de_u64_in & Hn)%bind_Some. case_decide; simplify_eq. unfold in_u64 in Hm. lia.
Qed.
Lemma de_byte_size_in v n : de_byte_size v = Some n → in_u64 n.
Proof.
  destruct v as [| |lexeme|s| |]; try done; [apply (de_u64_in (VNumber lexeme))|].
  simpl. destruct (parse_byte_size s) as [m|] eqn:Hp; [|done]. intros [= <-].
  by apply parse_byte_size_in in Hp.
Qed.

Lemma de_hash_map_Forall {T} (P : T → Prop) (de : Value → option T) v m :
  (∀ v y, de v = Some y → P y) → de_hash_map de v = Some m → map_Forall (λ _, P) m.
Proof.
  intros Hde. unfold de_hash_map. destruct v as [| | | | |l]; try done.
  revert m. induction l as [|[k x] l IH] using rev_ind; intros m; [by intros [= <-]|].
  rewrite foldl_snoc. intros (m' & Hm' & (y & Hy & [= <-])%bind_Some)%bind_Some.
  apply map_Forall_insert_2; [by eapply Hde|by apply IH].
Qed.

Lemma de_EngineConfig_wf v e : de_EngineConfig v = Some e → engine_wf e.
Proof.
  intros He. unfold de_EngineConfig in He. cbv zeta in He. inv_struct He.
  unfold engine_wf, in_u32. simpl. rewrite !Forall_cons, Forall_nil.
  repeat match goal with
  | Hx : defaulted ?d de_byte_size _ = Some ?x |- _ =>
      apply (defaulted_inv in_u64) in Hx; [|by split|apply de_byte_size_in]
  | Hx : defaulted ?d de_u64 _ = Some ?x |- _ =>
      apply (defaulted_inv in_u64) in Hx; [|by split|apply de_u64_in]
  | Hx : defaulted ?d (de_uint U32_MAX) _ = Some ?x |- _ =>
      apply (defaulted_inv (λ n, 0 ≤ n ≤ U32_MAX)) in Hx; [|by split|apply de_uint_in]
  end.
  split_and!; done || lia.
Qed.

Lemma de_PlanLimit_wf v p : de_PlanLimit v = Some p → in_u64 (max_concurrent p).
Proof.
  intros Hp. unfold de_PlanLimit in Hp. inv_struct Hp. simpl.
  match goal with Hx : required de_u64 _ = Some _ |- _ => apply bind_Some in Hx as (? & _ & Hx) end.
  by eapply de_u64_in.
Qed.

Lemma resolve_limits_wf e e' :
  engine_wf e → resolve_limits e = Ok e' →
  engine_wf e' ∧ max_context_size e' * PARSE_HEAP_FACTOR ≤ memory_limit e'.
Proof.
  unfold engine_wf. rewrite !Forall_cons. intros (Hf & Hb) Hr. destruct_and!.
  unfold resolve_limits in Hr. cbv zeta in Hr.
  assert (in_u64 (memory_limit e / CONTEXT_LIMIT_DIVISOR)) as Hdiv.
  { unfold in_u64, CONTEXT_LIMIT_DIVISOR in *. split; [apply Z.div_pos; lia|].
    pose proof (Z.div_le_upper_bound (memory_limit e) 8 U64_MAX). lia. }
  assert (∀ m c, ¬ (m / PARSE_HEAP_FACTOR < c) → c * PARSE_HEAP_FACTOR ≤ m) as Hle.
  { unfold PARSE_HEAP_FACTOR. intros m c Hc. pose proof (Z.mul_div_le m 4). lia. }
  destruct (decide (max_context_size e = 0)); simpl in Hr; case_decide as Hd; simplify_eq/=;
    by split_and!; try apply Hle.
Qed.

Lemma Config_default_wf : fields_wf Config_default.
Proof.
  split; [|split; [|split]].
  - split; [|split; vm_compute; discriminate]. repeat constructor; vm_compute; discriminate.
  - split; vm_compute; discriminate.
  - intros name l Hl. cbn in Hl. by rewrite lookup_empty in Hl.
  - split; vm_compute; discriminate.
Qed.

Lemma de_Config_wf v c : de_Config v = Some c → fields_wf c.
Proof.
  intros Hc. unfold de_Config in Hc. cbv zeta in Hc. inv_struct Hc. unfold fields_wf. simpl.
  destruct Config_default_wf as (De & Dp & Dq & Db). split; [|split; [|split]].
  - match goal with Hx : defaulted _ de_EngineConfig _ = Some ?x |- engine_wf ?x =>
      by apply (defaulted_inv engine_wf) in Hx; [..|apply de_EngineConfig_wf] end.
  - match goal with Hx : defaulted _ de_ServerConfig _ = Some ?x |- _ =>
      apply (defaulted_inv (λ s, 0 ≤ sc_port s ≤ U16_MAX)) in Hx; [apply Hx|done|] end.
    intros w s Hs. unfold de_ServerConfig in Hs. cbv zeta in Hs. inv_struct Hs. simpl.
    by eapply (defaulted_inv (λ n, 0 ≤ n ≤ U16_MAX)); [| |eassumption]; [done|apply de_uint_in].
  - match goal with Hx : defaulted _ de_TrustedConfig _ = Some ?x |- _ =>
      apply (defaulted_inv (λ t, plans_wf (PlanLimits_new (qt_plans (tc_quota t))))) in Hx;
        [apply Hx|done|] end.
    intros w t Ht. unfold de_TrustedConfig in Ht. cbv zeta in Ht. inv_struct Ht. simpl.
    match goal with Hx : defaulted _ de_QuotaConfig _ = Some ?x |- _ =>
      apply (defaulted_inv (λ t, plans_wf (PlanLimits_new (qt_plans t)))) in Hx; [apply Hx|done|] end.
    intros w' q Hq. unfold de_QuotaConfig in Hq. cbv zeta in Hq. inv_struct Hq. simpl.
    match goal with Hx : defaulted _ (de_hash_map de_PlanLimit) _ = Some ?x |- _ =>
      apply (defaulted_inv (map_Forall (λ _ p, in_u64 (max_concurrent p)))) in Hx end;
      [|apply map_Forall_empty|intros; eapply de_hash_map_Forall; [apply de_PlanLimit_wf|done]].
    done.
  - match goal with Hx : defaulted _ de_EventsConfig _ = Some ?x |- _ =>
      apply (defaulted_inv (λ e, in_u64 (ec_buffer e))) in Hx; [apply Hx|done|] end.
    intros w e He. unfold de_EventsConfig in He. cbv zeta in He. inv_struct He. simpl.
    by eapply (defaulted_inv in_u64); [| |eassumption]; [split|apply de_u64_in].
Qed.

Lemma Config_load_wf file c : Config_load file = Ok c → loaded_config c.
Proof.
  unfold Config_load. intros Hload.
  destruct (match file with None => Ok Config_default | Some _ => _ end) as [c0|] eqn:Hfile; [|done].
  simpl in Hload. destruct (resolve_limits (cf_engine c0)) as [e|] eqn:He; simplify_eq/=.
  assert (fields_wf c0) as (Hwf & Hrest).
  { destruct file as [[text|]|]; simplify_eq/=; [|apply Config_default_wf].
    unfold from_str in Hfile. destruct (json_parse text) as [v|]; [|done].
    destruct (de_Config v) as [c|] eqn:Ec; simplify_eq/=. by eapply de_Config_wf. }
  by destruct (resolve_limits_wf _ _ Hwf He) as [Hwf' Hctx].
Qed.

(** ** Properties *)

(** A configuration that loads is well formed.  Whatever the file holds, every number of the loaded
    configuration fits its machine type (sizes written with units included), the context limit times
    the parse factor fits the memory limit, and without a file the box gets its secure defaults: a
    loopback bind, no private targets, no debug detail, no trusted headers. *)
Theorem config_load_wf (file : option (result string string)) (c : Config)
    (Hload : Config_load file = Ok c) :
  loaded_config c ∧
  (file = None →
     is_loopback (sc_host (cf_server c)) = true ∧ cf_debug c = false ∧ cf_error_debug c = false ∧
     tc_enabled (cf_trusted c) = false ∧ allow_wildcard_hosts (cf_engine c) = false ∧
     check_exposure c = Ok ()).
Proof.
  split; [by eapply Config_load_wf|]. intros ->. unfold Config_load in Hload. simpl in Hload.
  destruct (resolve_limits EngineConfig_default) as [e|] eqn:He; simplify_eq/=.
  vm_compute in He. by injection He as <-.
Qed.
End config.

(** ** Witness *)

#[local] Existing Instance reference_json.
#[local] Instance config_case : UnicodeCase :=
  {| to_lowercase := to_ascii_lowercase; to_lowercase_ascii _ _ := eq_refl |}.
#[local] Instance config_letters : UnicodeAlphabetic :=
  {| find_alphabetic s := find_byte ascii_letter (bytes_of s); find_alphabetic_ascii _ _ := eq_refl |}.

(** An exposed bind with a token, a plan and sizes written with units. *)
Definition demo_config_text : string :=
  default "" (json_print (VObject
    [("server", VObject [("host", VString "0.0.0.0")]); ("access_token", VString "edge");
     ("engine", VObject [("memory_limit", VString "8MB"); ("pool_size", VNumber "2");
                         ("max_concurrent_per_partition", VNumber "1"); ("partition_buckets", VNumber "2")]);
     ("trusted", VObject [("enabled", VBool true); ("assert_network_isolation", VBool true);
       ("quota", VObject [("enabled", VBool true);
                          ("plans", VObject [("free", VObject [("max_concurrent", VNumber "2")])])])])])).
Definition demo_loaded : result Config ConfigError := Config_load (Some (Ok demo_config_text)).

Lemma demo_loaded_ok :
  match demo_loaded with
  | Ok c => memory_limit (cf_engine c) = 8388608 ∧ max_context_size (cf_engine c) = 1048576 ∧
            check_exposure c = Ok ()
  | Err _ => False
  end.
Proof. vm_compute. by split_and!. Qed.

(** Without the token the same bind is refused. *)
Lemma exposed_bind_refused :
  check_exposure {| cf_debug := false; cf_error_debug := false;
    cf_server := {| sc_host := IpV4 (Ipv4 0 0 0 0); sc_port := 3000 |}; cf_engine := EngineConfig_default;
    cf_scripts_dir := None; cf_modules_dir := None; cf_access_token := None;
    cf_allow_unauthenticated := false; cf_fabricd_socket := None; cf_fabricd_quic := None;
    cf_trusted := TrustedConfig_default; cf_telemetry := TelemetryConfig_default;
    cf_events := EventsConfig_default |} = Err (ExposedWithoutAuth "0.0.0.0").
Proof. vm_compute. reflexivity. Qed.

Lemma config_load_wf_witness :
  match demo_loaded with Ok c => loaded_config c | Err _ => False end.
Proof.
  destruct demo_loaded as [c|e] eqn:Hl; [|vm_compute in Hl; discriminate].
  apply (config_load_wf (Some (Ok demo_config_text)) c Hl).
Defined.
