(* ===== verification/FabricdBoot.v ===== *)
(** * FabricdBoot: the daemon's configuration file and its listeners

    Models the start-up of [fabricd/src/main.rs]: the configuration blocks, the derived deserializers
    of the operator table ([fabric-backends/src/resources.rs]) and of the six driver configurations
    with their defaults, the choice of listeners, the construction of their authenticators, and the
    accept loop of the QUIC listener with its cap on connections.  A table entry is an internally
    tagged enum flattened into a struct: its own fields are what is left of the object once [tenant]
    and the [kind] tag are taken out. *)

From S2P Require Import Prelude Json Errors Wire Runtime Resources Backends Fabricd Partition BoxConfig.
Local Open Scope Z_scope.

(** ** Deserializers of enums *)

(** The variant of a name. *)
Fixpoint variant {T} (variants : list (string * T)) (name : string) : option T :=
  match variants with
  | [] => None
  | (n, x) :: rest => if decide (n = name) then Some x else variant rest name
  end.

(** A fieldless variant: its name, or an object of that one key with a unit value.  A buffered value
    also takes an empty object for the unit. *)
Definition de_variant {T} (buffered : bool) (variants : list (string * T)) (v : Value) : option T :=
  match v with
  | VString n | VObject [(n, VNull)] => variant variants n
  | VObject [(n, VObject [])] => if buffered then variant variants n else None
  | _ => None
  end.
Definition de_TlsMode : Value → option TlsMode :=
  de_variant true [("starttls", Starttls); ("wrapper", Wrapper); ("none", TlsNone)].
Definition de_AmqBackend : Value → option AmqBackend :=
  de_variant true [("rabbitmq", Rabbitmq); ("nats", Nats)].
Definition de_AuthMode : Value → option AuthMode :=
  de_variant false [("none", ModeNone); ("static", ModeStatic); ("sa-token", ModeSaToken)].

(** ** Driver configurations *)

Definition de_text : Value → option (option string) := de_option de_string.

Definition de_DbConfig (v : Value) : option DbConfig :=
  fs ← fields_of ["host"; "port"; "user"; "password"; "database"; "ssl"; "statement_timeout_ms";
                  "max_rows"] v;
  match fs with
  | [o1; o2; o3; o4; o5; o6; o7; o8] =>
      host ← required de_string o1; port ← defaulted 5432 (de_uint U16_MAX) o2;
      user ← required de_string o3; password ← required de_string o4; database ← required de_string o5;
      ssl ← defaulted false de_bool o6; timeout ← defaulted 5000 de_u64 o7;
      rows ← defaulted 1000 de_u64 o8;
      Some {| db_host := host; db_port := port; db_user := user; db_password := password;
              db_database := database; db_ssl := ssl; statement_timeout_ms := timeout; db_max_rows := rows |}
  | _ => None
  end.

Definition de_MongoConfig (v : Value) : option MongoConfig :=
  fs ← fields_of ["host"; "port"; "username"; "password"; "database"; "auth_source"; "tls"; "ca_cert";
                  "op_timeout_ms"; "max_docs"] v;
  match fs with
  | [o1; o2; o3; o4; o5; o6; o7; o8; o9; o10] =>
      host ← required de_string o1; port ← defaulted 27017 (de_uint U16_MAX) o2;
      username ← defaulted None de_text o3; password ← defaulted None de_text o4;
      database ← required de_string o5; source ← defaulted "admin" de_string o6;
      tls ← defaulted false de_bool o7; ca ← defaulted None de_text o8;
      timeout ← defaulted 5000 de_u64 o9; docs ← defaulted 1000 de_u64 o10;
      Some {| mongo_host := host; mongo_port := port; mongo_username := username;
              mongo_password := password; mongo_database := database; mongo_auth_source := source;
              mongo_tls := tls; mongo_ca_cert := ca; mongo_op_timeout_ms := timeout; mongo_max_docs := docs |}
  | _ => None
  end.

Definition de_MailConfig (v : Value) : option MailConfig :=
  fs ← fields_of ["host"; "port"; "user"; "password"; "tls"; "from"; "max_recipients";
                  "allowed_recipient_domains"; "max_sends"; "timeout_ms"] v;
  match fs with
  | [o1; o2; o3; o4; o5; o6; o7; o8; o9; o10] =>
      host ← required de_string o1; port ← defaulted 587 (de_uint U16_MAX) o2;
      user ← defaulted "" de_string o3; password ← defaulted "" de_string o4;
      tls ← defaulted Starttls de_TlsMode o5; from ← required de_string o6;
      recipients ← defaulted 50 de_u64 o7; domains ← defaulted [] de_strings o8;
      sends ← defaulted 0 de_u64 o9; timeout ← defaulted 10000 de_u64 o10;
      Some {| mail_host := host; mail_port := port; mail_user := user; mail_password := password;
              mail_tls := tls; mail_from := from; mail_max_recipients := recipients;
              mail_allowed_recipient_domains := domains; mail_max_sends := sends;
              mail_timeout_ms := timeout |}
  | _ => None
  end.

Definition de_RedisConfig (v : Value) : option RedisConfig :=
  fs ← fields_of ["url"; "timeout_ms"] v;
  match fs with
  | [o1; o2] =>
      url ← required de_string o1; timeout ← defaulted 5000 de_u64 o2;
      Some {| redis_url := url; redis_timeout_ms := timeout |}
  | _ => None
  end.

Definition de_AmqConfig (v : Value) : option AmqConfig :=
  fs ← fields_of ["backend"; "host"; "port"; "username"; "password"; "token"; "vhost"; "exchange";
                  "max_batch"; "request_timeout_ms"; "tls"; "ca_cert"] v;
  match fs with
  | [o1; o2; o3; o4; o5; o6; o7; o8; o9; o10; o11; o12] =>
      backend ← defaulted Rabbitmq de_AmqBackend o1; host ← required de_string o2;
      port ← defaulted None (de_option (de_uint U16_MAX)) o3; username ← defaulted None de_text o4;
      password ← defaulted None de_text o5; token ← defaulted None de_text o6;
      vhost ← defaulted "/" de_string o7; exchange ← defaulted "" de_string o8;
      batch ← defaulted 100 de_u64 o9; timeout ← defaulted 5000 de_u64 o10;
      tls ← defaulted false de_bool o11; ca ← defaulted None de_text o12;
      Some {| amq_backend := backend; amq_host := host; amq_port := port; amq_username := username;
              amq_password := password; amq_token := token; amq_vhost := vhost; amq_exchange := exchange;
              amq_max_batch := batch; amq_request_timeout_ms := timeout; amq_tls := tls;
              amq_ca_cert := ca |}
  | _ => None
  end.

Definition de_AuthConfig (v : Value) : option AuthConfig :=
  fs ← fields_of ["issuer"; "userinfo_url"; "introspect_url"; "client_id"; "client_secret";
                  "timeout_ms"] v;
  match fs with
  | [o1; o2; o3; o4; o5; o6] =>
      issuer ← required de_string o1; userinfo ← defaulted None de_text o2;
      introspect ← defaulted None de_text o3; id ← defaulted "" de_string o4;
      secret ← defaulted "" de_string o5; timeout ← defaulted 10000 de_u64 o6;
      Some {| auth_issuer := issuer; auth_userinfo_url := userinfo; auth_introspect_url := introspect;
              auth_client_id := id; auth_client_secret := secret; auth_timeout_ms := timeout |}
  | _ => None
  end.

(** ** The operator table *)

(** [ResourceBinding]'s tag, a variant name or a variant index, and the configuration it selects. *)
Definition binding_variants : list (string * (Value → option ResourceBinding)) :=
  [("db", λ v, BDb <$> de_DbConfig v); ("mongo", λ v, BMongo <$> de_MongoConfig v);
   ("mail", λ v, BMail <$> de_MailConfig v); ("redis", λ v, BRedis <$> de_RedisConfig v);
   ("amq", λ v, BAmq <$> de_AmqConfig v); ("auth", λ v, BAuth <$> de_AuthConfig v)].
Definition de_kind (v : Value) : option (Value → option ResourceBinding) :=
  match v with
  | VString n => variant binding_variants n
  | VNumber _ => i ← de_u64 v; snd <$> binding_variants !! Z.to_nat i
  | _ => None
  end.
Definition without (k : string) (l : list (string * Value)) : list (string * Value) :=
  filter (λ kv, kv.1 ≠ k) l.

(** [TenantResourceBinding]: the tenant, then the flattened binding. *)
Definition de_TenantResourceBinding (v : Value) : option TenantResourceBinding :=
  match v with
  | VObject l =>
      o ← field "tenant" l; tenant ← defaulted None de_text o;
      let rest := without "tenant" l in
      tag ← field "kind" rest; kind ← tag; de ← de_kind kind;
      binding ← de (VObject (without "kind" rest));
      Some {| trb_tenant := tenant; trb_binding := binding |}
  | _ => None
  end.

(** ** The daemon's blocks *)

Definition default_max_connections : Z := 1024.
Definition DEFAULT_SOCKET : string := "/tmp/fabricd.sock".

Record QuicListenerConfig := {
  ql_listen : string; ql_server_cert : string; ql_server_key : string; ql_max_connections : Z;
  ql_auth : ClientAuthConfig }.
Record FabricdConfig := {
  fc_socket : option string; fc_resources : gmap string TenantResourceBinding;
  fc_max_statement_timeout_ms : Z; fc_quic : option QuicListenerConfig }.
Definition FabricdConfig_default : FabricdConfig :=
  {| fc_socket := None; fc_resources := ∅; fc_max_statement_timeout_ms := 0; fc_quic := None |}.

Definition de_ClientAuthConfig (v : Value) : option ClientAuthConfig :=
  fs ← fields_of ["mode"; "static_token"; "previous_token"; "audience"; "issuer"; "jwks_url"; "ca_cert";
                  "jwks_refresh_secs"] v;
  match fs with
  | [o1; o2; o3; o4; o5; o6; o7; o8] =>
      mode ← defaulted ModeNone de_AuthMode o1; static ← defaulted None de_text o2;
      previous ← defaulted None de_text o3; audience ← defaulted None de_text o4;
      issuer ← defaulted None de_text o5; jwks ← defaulted None de_text o6;
      ca ← defaulted None de_text o7; refresh ← defaulted None (de_option de_u64) o8;
      Some {| ca_mode := mode; ca_static_token := static; ca_previous_token := previous;
              ca_audience := audience; ca_issuer := issuer; ca_jwks_url := jwks; ca_ca_cert := ca;
              ca_jwks_refresh_secs := refresh |}
  | _ => None
  end.
Definition de_QuicListenerConfig (v : Value) : option QuicListenerConfig :=
  fs ← fields_of ["listen"; "server_cert"; "server_key"; "max_connections"; "auth"] v;
  match fs with
  | [o1; o2; o3; o4; o5] =>
      listen ← required de_string o1; cert ← required de_string o2; key ← required de_string o3;
      max ← defaulted default_max_connections de_u64 o4;
      auth ← defaulted ClientAuthConfig_default de_ClientAuthConfig o5;
      Some {| ql_listen := listen; ql_server_cert := cert; ql_server_key := key;
              ql_max_connections := max; ql_auth := auth |}
  | _ => None
  end.
Definition de_FabricdConfig (v : Value) : option FabricdConfig :=
  fs ← fields_of ["socket"; "resources"; "max_statement_timeout_ms"; "quic"] v;
  match fs with
  | [o1; o2; o3; o4] =>
      socket ← defaulted None de_text o1;
      resources ← defaulted ∅ (de_hash_map de_TenantResourceBinding) o2;
      ceiling ← defaulted 0 de_u64 o3; quic ← defaulted None (de_option de_QuicListenerConfig) o4;
      Some {| fc_socket := socket; fc_resources := resources; fc_max_statement_timeout_ms := ceiling;
              fc_quic := quic |}
  | _ => None
  end.

(** ** Start-up *)

(** What the daemon finds on its machine: its environment and files, the sockets it binds, the TLS
    material, and the spawning of a token verifier. *)
Record DaemonMachine (Tls : Type) := {
  dm_config_file : option (result string string);
  dm_socket_env : option string;
  dm_bind_uds : string → result () string;
  dm_parse_addr : string → result (string * Z) string;
  dm_read : string → result string string;
  dm_from_pem : string → string → result Tls string;
  dm_server_endpoint : string * Z → Tls → result () string;
  dm_spawn : SaTokenVerifyConfig → result Verifier string }.
Arguments dm_config_file {Tls} _. Arguments dm_socket_env {Tls} _. Arguments dm_bind_uds {Tls} _.
Arguments dm_parse_addr {Tls} _. Arguments dm_read {Tls} _. Arguments dm_from_pem {Tls} _.
Arguments dm_server_endpoint {Tls} _. Arguments dm_spawn {Tls} _.

(** The running daemon: its shared state, and a listener per transport with its authenticator; the
    QUIC one has the permits of its connection cap. *)
Record Daemon (Sem : Type) := {
  dn_shared : Shared; dn_uds : option string; dn_uds_auth : Authenticator;
  dn_quic : option (Authenticator * Sem) }.
Arguments dn_shared {Sem} _. Arguments dn_uds {Sem} _. Arguments dn_uds_auth {Sem} _.
Arguments dn_quic {Sem} _.

Section daemon.
Context `{!JsonText} `{!ConstantTimeEq} {Sem : Type} `{!Semaphore Sem} {Tls : Type}.
Implicit Types (m : DaemonMachine Tls).

(** [load_config]. *)
Definition load_config m : result FabricdConfig string :=
  match dm_config_file m with
  | None => Ok FabricdConfig_default
  | Some read => let? text := read in from_str de_FabricdConfig text
  end.

(** The socket path: the environment, the configuration, or the default when there is no QUIC. *)
Definition uds_path m (c : FabricdConfig) : option string :=
  let explicit := match dm_socket_env m with Some p => Some p | None => fc_socket c end in
  match explicit with
  | Some p => Some p
  | None => if decide (fc_quic c = None) then Some DEFAULT_SOCKET else None
  end.

(** [build_quic_endpoint]. *)
Definition build_quic_endpoint m (q : QuicListenerConfig) : result () string :=
  let? addr := dm_parse_addr m (ql_listen q) in
  let? cert_pem := dm_read m (ql_server_cert q) in
  let? key_pem := dm_read m (ql_server_key q) in
  let? tls := dm_from_pem m cert_pem key_pem in
  dm_server_endpoint m addr tls.

Definition NO_LISTENER : string := "no listener configured: set `socket` (UDS) and/or `quic` (remote)".

(** [main] up to [run_listeners]. *)
Definition daemon_boot m : result (Daemon Sem) string :=
  let? c := load_config m in
  let shared := {| sh_table := fc_resources c;
                   sh_max_statement_timeout_ms := fc_max_statement_timeout_ms c; sh_auth_failures := 0 |} in
  let uds := uds_path m c in
  if bool_decide (uds = None) && bool_decide (fc_quic c = None) then Err NO_LISTENER
  else
    let? _ := match uds with Some path => dm_bind_uds m path | None => Ok () end in
    let? uds_auth := build (dm_spawn m) ClientAuthConfig_default in
    let? quic := match fc_quic c with
      | None => Ok None
      | Some q =>
          let? _ := build_quic_endpoint m q in
          let? authenticator := build (dm_spawn m) (ql_auth q) in
          Ok (Some (authenticator, sem_new (Z.to_nat (ql_max_connections q))))
      end in
    Ok {| dn_shared := shared; dn_uds := uds; dn_uds_auth := uds_auth; dn_quic := quic |}.

(** ** The accept loop *)

(** [quic_accept_loop]: the permits, the connections being served, and whether an accepted peer waits
    for a permit. *)
Record Accepting := { ac_limit : Sem; ac_live : nat; ac_waiting : bool }.
Inductive astep : Accepting → Accepting → Prop :=
  | a_incoming s : ac_waiting s = false →
      astep s {| ac_limit := ac_limit s; ac_live := ac_live s; ac_waiting := true |}
  | a_admit s l : ac_waiting s = true → sem_try_acquire (ac_limit s) = Some l →
      astep s {| ac_limit := l; ac_live := S (ac_live s); ac_waiting := false |}
  | a_end s n : ac_live s = S n →
      astep s {| ac_limit := sem_release (ac_limit s); ac_live := n; ac_waiting := ac_waiting s |}.
Inductive areach (max : nat) : Accepting → Prop :=
  | areach_start : areach max {| ac_limit := sem_new max; ac_live := 0; ac_waiting := false |}
  | areach_step s s' : areach max s → astep s s' → areach max s'.

(** ** Lemmas *)

Lemma areach_count max s : areach max s → (available_permits (ac_limit s) + ac_live s = max)%nat.
Proof.
  induction 1 as [|s s' _ IH Hs]; simpl; [rewrite available_new; lia|].
  destruct Hs as [s|s l _ Hl|s n Hn]; simpl; [done|apply available_some in Hl; lia|].
  rewrite available_release. lia.
Qed.

(** The cap holds, and a waiting peer is held back only by a full house. *)
Lemma quic_connections_bounded max s :
  areach max s →
  (ac_live s ≤ max)%nat ∧ (ac_waiting s = true → (ac_live s < max)%nat → ∃ s', astep s s' ∧ ac_live s' = S (ac_live s)).
Proof.
  intros Hr%areach_count. split; [lia|]. intros Hw Hlt.
  destruct (sem_try_acquire (ac_limit s)) as [l|] eqn:El; [|apply available_none in El; lia].
  eexists. split; [by eapply a_admit|done].
Qed.

(** Every number of a binding fits its machine type. *)
Definition port_wf (p : Z) : Prop := 0 ≤ p ≤ U16_MAX.
Definition binding_wf (b : ResourceBinding) : Prop :=
  match b with
  | BDb c => port_wf (db_port c) ∧ in_u64 (statement_timeout_ms c) ∧ in_u64 (db_max_rows c)
  | BMongo c => port_wf (mongo_port c) ∧ in_u64 (mongo_op_timeout_ms c) ∧ in_u64 (mongo_max_docs c)
  | BMail c => port_wf (mail_port c) ∧ in_u64 (mail_max_recipients c) ∧ in_u64 (mail_max_sends c) ∧
               in_u64 (mail_timeout_ms c)
  | BRedis c => in_u64 (redis_timeout_ms c)
  | BAmq c => (∀ p, amq_port c = Some p → port_wf p) ∧ in_u64 (amq_max_batch c) ∧
              in_u64 (amq_request_timeout_ms c)
  | BAuth c => in_u64 (auth_timeout_ms c)
  end.

Lemma defaulted_u64 d o x : in_u64 d → defaulted d de_u64 o = Some x → in_u64 x.
Proof. intros Hd. apply defaulted_inv; [done|apply de_u64_in]. Qed.
Lemma defaulted_port d o x : port_wf d → defaulted d (de_uint U16_MAX) o = Some x → port_wf x.
Proof. intros Hd. apply defaulted_inv; [done|apply de_uint_in]. Qed.
Lemma defaulted_opt_port o x p :
  defaulted None (de_option (de_uint U16_MAX)) o = Some x → x = Some p → port_wf p.
Proof.
  intros Hx ->. destruct o as [v|]; simplify_eq/=. destruct v; simplify_eq/=;
    apply fmap_Some in Hx as (? & Hx & [= <-]); by apply de_uint_in in Hx.
Qed.
Ltac width :=
  first [ eapply defaulted_port; [|eassumption] | eapply defaulted_u64; [|eassumption] ];
  split; vm_compute; discriminate.

Lemma de_binding_wf v b : de_TenantResourceBinding v = Some b → binding_wf (trb_binding b).
Proof.
  intros Hb. destruct v as [| | | | |l]; try done. cbn -[field without] in Hb. inv_binds Hb. simplify_eq. simpl.
  match goal with Hk : de_kind _ = Some ?de, Hd : ?de _ = Some ?x |- binding_wf ?x =>
    assert (∃ n, (n, de) ∈ binding_variants) as [n Hin];
      [|unfold binding_variants in Hin; rewrite !elem_of_cons, elem_of_nil in Hin] end.
  { match goal with Hk : de_kind ?k = Some ?de |- _ => destruct k as [| |lex|name| |]; simplify_eq/= end.
    - match goal with Hk : context [binding_variants] |- _ => inv_binds Hk;
        apply fmap_Some in Hk as ([n d] & Hk & ->); exists n; by eapply list_elem_of_lookup_2 end.
    - exists name. repeat case_decide; simplify_eq; set_solver. }
  destruct_or?; simplify_eq/=; try done;
    (match goal with Hd : _ <$> _ = Some _ |- _ => apply fmap_Some in Hd as (c & Hd & ->);
       unfold de_DbConfig, de_MongoConfig, de_MailConfig, de_RedisConfig, de_AmqConfig, de_AuthConfig in Hd;
       inv_struct Hd end);
    simpl; repeat (split; [solve [width | intros p Hp; eapply defaulted_opt_port; eassumption]|]); width.
Qed.

Lemma load_config_wf m c :
  load_config m = Ok c → map_Forall (λ _ b, binding_wf (trb_binding b)) (fc_resources c).
Proof.
  unfold load_config. destruct (dm_config_file m) as [[text|]|]; simpl; [|done|].
  - unfold from_str. destruct (json_parse text) as [v|]; [|done].
    destruct (de_FabricdConfig v) as [c'|] eqn:Hc; [|done]. intros [= <-].
    unfold de_FabricdConfig in Hc. inv_struct Hc. simpl.
    match goal with Hx : defaulted ∅ _ _ = Some ?r |- map_Forall ?P ?r =>
      apply (defaulted_inv (map_Forall P)) in Hx; [exact Hx|apply map_Forall_empty|] end.
    intros w r. apply de_hash_map_Forall. apply de_binding_wf.
  - intros [= <-]. apply map_Forall_empty.
Qed.

(** What [build] hands out for each mode. *)
Definition auth_for_mode (spawn : SaTokenVerifyConfig → result Verifier string) (cfg : ClientAuthConfig)
    (a : Authenticator) : Prop :=
  match ca_mode cfg with
  | ModeNone => a = NoneAuthenticator
  | ModeStatic => ∃ current previous, a = StaticAuthenticator current previous ∧
      ca_static_token cfg = Some current ∧ nonempty current = true ∧
      (∀ p, previous = Some p → nonempty p = true) ∧
      authenticate a None ≠ Ok () ∧ authenticate a (Some "") ≠ Ok ()
  | ModeSaToken => ∃ vcfg verifier, a = SaTokenAuthenticator verifier ∧ spawn vcfg = Ok verifier ∧
      ca_issuer cfg = Some (sv_issuer vcfg) ∧ nonempty (sv_issuer vcfg) = true ∧
      ca_audience cfg = Some (sv_audience vcfg) ∧ nonempty (sv_audience vcfg) = true ∧
      authenticate a None ≠ Ok ()
  end.

Lemma non_empty_inv o s : non_empty o = Some s → o = Some s ∧ nonempty s = true.
Proof. unfold non_empty. destruct o as [t|]; [|done]. destruct (nonempty t) eqn:E; [|done]. by intros [= <-]. Qed.

Lemma build_for_mode spawn cfg a : build spawn cfg = Ok a → auth_for_mode spawn cfg a.
Proof.
  assert (∀ t, nonempty t = true → ct_eq [] (bytes_of t) = false) as Hct.
  { intros [|x t] Ht; [done|]. unfold ct_eq. by rewrite decide_True. }
  unfold build, auth_for_mode. destruct (ca_mode cfg).
  - by intros [= <-].
  - destruct (non_empty (ca_static_token cfg)) as [cur|] eqn:Ec; simpl; [|done]. intros [= <-].
    apply non_empty_inv in Ec as [Ec Hc]. exists cur, (non_empty (ca_previous_token cfg)).
    split_and!; try done.
    + intros p Hp. by apply non_empty_inv in Hp as [_ Hp].
    + simpl. rewrite (Hct _ Hc). destruct (non_empty _) as [p|] eqn:Ep; [|done].
      apply non_empty_inv in Ep as [_ Ep]. by rewrite (Hct _ Ep).
  - unfold build_sa_token. destruct (non_empty (ca_issuer cfg)) as [iss|] eqn:Ei; simpl; [|done].
    destruct (non_empty (ca_audience cfg)) as [aud|] eqn:Ea; simpl; [|done].
    destruct (spawn _) as [v|] eqn:Es; simpl; [|done]. intros [= <-].
    apply non_empty_inv in Ei as [Ei Hi]. apply non_empty_inv in Ea as [Ea Ha].
    eexists _, v. split; [done|]. split; [exact Es|]. by split_and!.
Qed.

(** ** Properties *)

(** C32: the daemon starts closed.  A daemon that starts listens somewhere: on the socket that was asked
    for, or on the default one when there is no QUIC listener, never both unasked.  Its QUIC listener
    has the provider of the configured mode: a static secret is not empty, and neither a missing nor an
    empty token passes it; a token verifier has an issuer and an audience.  The connection cap starts
    full, and every number of the operator table fits its machine type. *)
Theorem daemon_starts_closed m (d : Daemon Sem) (Hboot : daemon_boot m = Ok d) :
  ∃ c, load_config m = Ok c ∧
    (dn_uds d ≠ None ∨ dn_quic d ≠ None) ∧ dn_uds_auth d = NoneAuthenticator ∧
    (dm_socket_env m = None → fc_socket c = None → (dn_uds d ≠ None ↔ dn_quic d = None)) ∧
    (∀ a limit, dn_quic d = Some (a, limit) → ∃ q, fc_quic c = Some q ∧
       auth_for_mode (dm_spawn m) (ql_auth q) a ∧
       available_permits limit = Z.to_nat (ql_max_connections q)) ∧
    (∀ name b, sh_table (dn_shared d) !! name = Some b → binding_wf (trb_binding b)) ∧
    sh_auth_failures (dn_shared d) = 0.
Proof.
  unfold daemon_boot in Hboot. destruct (load_config m) as [c|] eqn:Hc; [|done]. simpl in Hboot.
  pose proof (load_config_wf _ _ Hc) as Hwf.
  destruct (bool_decide (uds_path m c = None) && bool_decide (fc_quic c = None)) eqn:Hnone; [done|].
  apply andb_false_iff in Hnone. rewrite !bool_decide_eq_false in Hnone.
  destruct (match uds_path m c with Some _ => _ | None => _ end); [|done]. simpl in Hboot.
  exists c. split; [done|].
  destruct (fc_quic c) as [q|] eqn:Hq.
  - destruct (build_quic_endpoint m q); [|done]. simpl in Hboot.
    destruct (build (dm_spawn m) (ql_auth q)) as [auth|] eqn:Hauth; [|done]. simplify_eq/=.
    split; [by right|]. split; [done|]. split; [|split; [|by split]].
    + intros He Hs. unfold uds_path. rewrite He, Hs, Hq, decide_False by done. naive_solver.
    + intros a' limit [= <- <-]. exists q. split_and!; [done|by apply build_for_mode|apply available_new].
  - simplify_eq/=. split; [naive_solver|]. split; [done|]. split; [|by split].
    intros He Hs. unfold uds_path. rewrite He, Hs, Hq, decide_True by done. naive_solver.
Qed.
End daemon.

(** ** Witness *)

#[local] Existing Instances reference_json plain_eq nat_semaphore.

Definition demo_daemon_text : string :=
  default "" (json_print (VObject
    [("resources", VObject [("orders", VObject
       [("tenant", VString "acme"); ("kind", VString "db"); ("host", VString "pg");
        ("user", VString "u"); ("password", VString "p"); ("database", VString "d")])]);
     ("quic", VObject [("listen", VString "0.0.0.0:7000"); ("server_cert", VString "c");
        ("server_key", VString "k"); ("max_connections", VNumber "3");
        ("auth", VObject [("mode", VString "static"); ("static_token", VString "s3cret")])])])).
Definition demo_daemon : DaemonMachine unit :=
  {| dm_config_file := Some (Ok demo_daemon_text); dm_socket_env := None; dm_bind_uds _ := Ok tt;
     dm_parse_addr s := Ok (s, 7000); dm_read := Ok; dm_from_pem _ _ := Ok tt;
     dm_server_endpoint _ _ := Ok tt; dm_spawn _ := Err "unused" |}.

(** A table entry with its defaults filled in. *)
Lemma demo_binding :
  match load_config demo_daemon with
  | Ok c => trb_binding <$> fc_resources c !! "orders" = Some (BDb
      {| db_host := "pg"; db_port := 5432; db_user := "u"; db_password := "p"; db_database := "d";
         db_ssl := false; statement_timeout_ms := 5000; db_max_rows := 1000 |})
  | Err _ => False
  end.
Proof. vm_compute. reflexivity. Qed.

Lemma daemon_starts_closed_witness :
  match daemon_boot (Sem := nat) demo_daemon with
  | Ok d => dn_uds d = None ∧ (dn_uds d ≠ None ∨ dn_quic d ≠ None)
  | Err _ => False
  end.
Proof.
  destruct (daemon_boot demo_daemon) as [d|] eqn:Hd; [|vm_compute in Hd; discriminate].
  destruct (daemon_starts_closed demo_daemon d Hd) as (c & _ & Hl & _).
  split; [|exact Hl]. vm_compute in Hd. by injection Hd as <-.
Defined.
