(* ===== verification/Daemon.v ===== *)
(** * Daemon: the running daemon

    Models [run_listeners], [uds_accept_loop], [quic_accept_loop] and [handle_quic_connection] of
    [fabricd/src/main.rs], and with them what [main] does after start-up: any number of sessions, of
    both transports, served at once over one shared state and one outside world.

    A session here takes one request at a time ([session_turn]), so requests of different sessions
    interleave in any order; [turns_session] shows that a session left alone is the session of
    [Fabricd].  One backend call is one step.  The verifier behind a token authenticator refreshes its
    keys in the background, so a turn may find it in any state. *)

From S2P Require Import Prelude Json Errors Wire Runtime Resources Backends Fabricd Partition BoxConfig FabricdBoot.
Local Open Scope Z_scope.

(** The transport a session came in by. *)
Inductive Origin := OverUds | OverQuic.
#[export] Instance Origin_eq_dec : EqDecision Origin.
Proof. solve_decision. Defined.

Section running.
Context {World DbB MongoB MailB RedisB AuthB AmqB : Type}.
Context `{!JsonText} `{!Drivers World DbB MongoB MailB RedisB AuthB AmqB}.
Context `{!ConstantTimeEq} {Sem : Type} `{!Semaphore Sem}.
Context (task_panic : WireCall → World → option string).

Local Abbreviation BSet := (@BackendSet DbB MongoB MailB RedisB AuthB AmqB).

(** A session waits for its [Init], serves requests on its backends, or is over. *)
Inductive Phase :=
| Opening
| Serving (init : WireInit) (b : BSet)
| Over.

(** A session task, with the answers it has computed so far. *)
Record Session := { se_origin : Origin; se_phase : Phase; se_answers : list WireResponse }.

(** One request of a session, through the code of [serve]. *)
Definition session_turn (sh : Shared) (auth : Authenticator) (ph : Phase) (q : WireRequest) (w : World)
    : WireResponse * Phase * Shared * World :=
  match ph, q with
  | Opening, ReqInit init =>
      match open_session sh auth init with
      | (Err (code, message), sh1) => (InitError code message, Over, sh1, w)
      | (Ok b, sh1) => (Ack, Serving init b, sh1, w)
      end
  | Serving init b, _ =>
      let '(a, b1, w1) := respond task_panic b q w in (a, Serving init b1, sh, w1)
  | _, _ => (ProtocolError "expected Init as the first frame", Over, sh, w)
  end.

(** The requests of a session that is left alone; nothing is read once it is over. *)
Fixpoint turns (sh : Shared) (auth : Authenticator) (ph : Phase) (qs : list WireRequest) (w : World)
    : list WireResponse * Shared * World :=
  match ph, qs with
  | Over, _ | _, [] => ([], sh, w)
  | _, q :: rest =>
      let '(a, ph1, sh1, w1) := session_turn sh auth ph q w in
      let '(l, sh2, w2) := turns sh1 auth ph1 rest w1 in (a :: l, sh2, w2)
  end.

(** ** The listeners *)

(** The daemon at work: its shared state, the QUIC accept loop, the session tasks, whether
    [run_listeners] is still running, the socket file, and the outside world. *)
Record Running := {
  rn_shared : Shared; rn_quic : option (Accepting (Sem := Sem)); rn_sessions : list Session;
  rn_open : bool; rn_socket : option string; rn_world : World }.

Definition auth_of (d : Daemon Sem) (o : Origin) : option Authenticator :=
  match o with
  | OverUds => (λ _, dn_uds_auth d) <$> dn_uds d
  | OverQuic => fst <$> dn_quic d
  end.

(** [main] entering [run_listeners]. *)
Definition start_listeners (d : Daemon Sem) (w : World) : Running :=
  {| rn_shared := dn_shared d;
     rn_quic := (λ q, {| ac_limit := q.2; ac_live := 0; ac_waiting := false |}) <$> dn_quic d;
     rn_sessions := []; rn_open := true; rn_socket := dn_uds d; rn_world := w |}.

(** [task::spawn(serve(..))] for an accepted stream. *)
Definition spawn_session (o : Origin) (s : Running) : Running :=
  {| rn_shared := rn_shared s; rn_quic := rn_quic s;
     rn_sessions := rn_sessions s ++ [{| se_origin := o; se_phase := Opening; se_answers := [] |}];
     rn_open := rn_open s; rn_socket := rn_socket s; rn_world := rn_world s |}.

Definition set_quic (s : Running) (a : Accepting) : Running :=
  {| rn_shared := rn_shared s; rn_quic := Some a; rn_sessions := rn_sessions s;
     rn_open := rn_open s; rn_socket := rn_socket s; rn_world := rn_world s |}.

Definition set_session (s : Running) (i : nat) (se : Session) (sh : Shared) (w : World) : Running :=
  {| rn_shared := sh; rn_quic := rn_quic s; rn_sessions := <[i := se]> (rn_sessions s);
     rn_open := rn_open s; rn_socket := rn_socket s; rn_world := w |}.

(** [run_listeners] returns: [main] removes the socket file and ends, and the session tasks with it. *)
Definition shut_down (s : Running) : Running :=
  {| rn_shared := rn_shared s; rn_quic := rn_quic s;
     rn_sessions := (λ se, {| se_origin := se_origin se; se_phase := Over; se_answers := se_answers se |})
                      <$> rn_sessions s;
     rn_open := false; rn_socket := None; rn_world := rn_world s |}.

(** The same provider, a token verifier in any state of its keys. *)
Definition same_provider (a a' : Authenticator) : Prop :=
  match a, a' with
  | SaTokenAuthenticator _, SaTokenAuthenticator _ => True
  | _, _ => a = a'
  end.

(** A session task answers a request. *)
Definition answer (s : Running) (auth : Authenticator) (i : nat) (se : Session) (q : WireRequest) : Running :=
  let '(a, ph, sh, w) := session_turn (rn_shared s) auth (se_phase se) q (rn_world s) in
  set_session s i {| se_origin := se_origin se; se_phase := ph; se_answers := se_answers se ++ [a] |} sh w.

Inductive dstep (d : Daemon Sem) (s : Running) : Running → Prop :=
  (** [uds_accept_loop]: a connection, or an error, which ends the loop. *)
  | d_uds_accept : rn_open s = true → dn_uds d ≠ None → dstep d s (spawn_session OverUds s)
  | d_uds_error : rn_open s = true → dn_uds d ≠ None → dstep d s (shut_down s)
  (** [quic_accept_loop]: a peer comes, gets its permit, or its connection ends. *)
  | d_quic_loop a a' : rn_open s = true → rn_quic s = Some a → astep a a' → dstep d s (set_quic s a')
  (** [handle_quic_connection]: a stream of a live connection. *)
  | d_quic_stream a : rn_open s = true → rn_quic s = Some a → (0 < ac_live a)%nat →
      dstep d s (spawn_session OverQuic s)
  | d_quic_closed a : rn_open s = true → rn_quic s = Some a → dstep d s (shut_down s)
  (** A session task answers, or ends: end of stream, read or write error. *)
  | d_request i se auth auth' q : rn_open s = true →
      rn_sessions s !! i = Some se → se_phase se ≠ Over →
      auth_of d (se_origin se) = Some auth → same_provider auth auth' →
      dstep d s (answer s auth' i se q)
  | d_hangup i se : rn_open s = true → rn_sessions s !! i = Some se →
      dstep d s (set_session s i {| se_origin := se_origin se; se_phase := Over;
                                    se_answers := se_answers se |} (rn_shared s) (rn_world s))
  | d_signal : rn_open s = true → dstep d s (shut_down s).

Inductive dreach (d : Daemon Sem) (w : World) : Running → Prop :=
  | dreach_start : dreach d w (start_listeners d w)
  | dreach_step s s' : dreach d w s → dstep d s s' → dreach d w s'.
End running.

(** ** Lemmas *)

(** A slot keeps its configuration whatever is called on it. *)
Lemma slot_call_config {World Cfg Args B M : Type} `{!Backend World Cfg Args B M}
    (sl : Slot Cfg B) parse action payload (w : World) r sl' w' :
  slot_call sl parse action payload w = (r, sl', w') → slot_config sl' = slot_config sl.
Proof.
  unfold slot_call, slot_backend. intros Hc. by repeat (case_match; simplify_eq/=).
Qed.

Section running_lemmas.
Context {World DbB MongoB MailB RedisB AuthB AmqB : Type}.
Context `{!JsonText} `{!Drivers World DbB MongoB MailB RedisB AuthB AmqB}.
Context `{!ConstantTimeEq} {Sem : Type} `{!Semaphore Sem}.
Context (task_panic : WireCall → World → option string).
Local Abbreviation BSet := (@BackendSet DbB MongoB MailB RedisB AuthB AmqB).
Local Abbreviation Running := (@Running World DbB MongoB MailB RedisB AuthB AmqB Sem).
Local Abbreviation Session := (@Session DbB MongoB MailB RedisB AuthB AmqB).
Local Abbreviation dstep := (dstep (Sem := Sem) task_panic).
Local Abbreviation dreach := (dreach (Sem := Sem) task_panic).
Implicit Types (b : BSet) (w : World) (s : Running) (se : Session) (d : Daemon Sem).

(** A session left alone behaves as the session of [Fabricd]. *)
Lemma turns_answers sh auth init b qs w :
  turns task_panic sh auth (Serving init b) qs w =
  let '(l, w') := answers task_panic b qs w in (l, sh, w').
Proof.
  revert b w. induction qs as [|q qs IH]; intros b w; [done|]. simpl.
  destruct (respond task_panic b q w) as [[a b1] w1]. rewrite IH. by destruct (answers _ _ _ _).
Qed.
Lemma turns_session sh auth qs w :
  turns task_panic sh auth Opening qs w = session task_panic sh auth qs w.
Proof.
  destruct qs as [|q qs]; [done|]. simpl. destruct q as [init|c|]; [|by destruct qs..].
  destruct (open_session sh auth init) as [[b|[code message]] sh1]; [|by destruct qs].
  rewrite turns_answers. by destruct (answers _ _ _ _).
Qed.

(** What a backend set was configured with: each capability's configuration, and for the broker,
    which keeps its own, whether it is there. *)
Definition holds b (rc : ResolvedConfigs) : Prop :=
  slot_config <$> bs_db b = rc_db rc ∧ slot_config <$> bs_mongo b = rc_mongo rc ∧
  slot_config <$> bs_mail b = rc_mail rc ∧ slot_config <$> bs_redis b = rc_redis rc ∧
  slot_config <$> bs_auth b = rc_auth rc ∧ (bs_amq b = None ↔ rc_amq rc = None).

Lemma from_configs_holds rc deps : holds (from_configs rc deps) rc.
Proof.
  destruct rc as [o1 o2 o3 o4 o5 o6]. unfold holds, from_configs; simpl.
  by destruct o1, o2, o3, o4, o5, o6.
Qed.

Lemma backend_call_holds b rc name action payload w :
  holds b rc → holds (backend_call b name action payload w).1.2 rc.
Proof.
  destruct b as [o1 o2 o3 o4 o5 o6]. intros (H1 & H2 & H3 & H4 & H5 & H6).
  unfold backend_call, call_db, call_mongo, call_mail, call_redis, call_amq, call_auth, holds.
  simpl in *. repeat case_match; simplify_eq/=;
    repeat match goal with Hc : slot_call _ _ _ _ _ = _ |- _ => apply slot_call_config in Hc end;
    split_and!; first [done|congruence|naive_solver].
Qed.

Lemma respond_holds b rc q w a b' w' :
  respond task_panic b q w = (a, b', w') → holds b rc → holds b' rc.
Proof.
  intros Hr Hb. destruct q as [init|c|]; simpl in Hr; [by simplify_eq| |by simplify_eq].
  unfold dispatch in Hr. destruct (task_panic c w); [by simplify_eq|].
  pose proof (backend_call_holds b rc (wc_name c) (wc_action c) (wc_payload c) w Hb) as Hc.
  destruct (backend_call _ _ _ _ _) as [[r b1] w1]. by simplify_eq.
Qed.

(** The answer to a rejected token. *)
Definition unauthenticated (a : WireResponse) : bool :=
  match a with InitError code _ => bool_decide (code = "UNAUTHENTICATED") | _ => false end.
Definition rejections se : nat := length (List.filter unauthenticated (se_answers se)).

Lemma open_session_spec sh auth init r sh' :
  open_session (World:=World) sh auth init = (r, sh') →
  sh_table sh' = sh_table sh ∧ sh_max_statement_timeout_ms sh' = sh_max_statement_timeout_ms sh ∧
  match r with
  | Ok b => sh' = sh ∧ authenticate auth (wi_token init) = Ok () ∧ ∃ rc, resolve (sh_table sh) init = Ok rc ∧
      holds b (clamp_db_statement_timeout rc (sh_max_statement_timeout_ms sh))
  | Err (code, _) => sh_auth_failures sh' =
      if decide (code = "UNAUTHENTICATED") then fetch_add_u64 (sh_auth_failures sh) 1 else sh_auth_failures sh
  end.
Proof.
  unfold open_session. destruct (authenticate auth (wi_token init)) as [[]|reject] eqn:Ha.
  - destruct (resolve (sh_table sh) init) as [rc|[]] eqn:Hr; intros [= <- <-]; split_and!; try done.
    exists rc. split; [done|]. apply from_configs_holds.
  - intros [= <- <-]. rewrite (authenticate_code _ _ _ Ha). done.
Qed.

Lemma session_turn_spec sh auth ph q w a ph' sh' w' :
  session_turn task_panic sh auth ph q w = (a, ph', sh', w') →
  sh_table sh' = sh_table sh ∧ sh_max_statement_timeout_ms sh' = sh_max_statement_timeout_ms sh ∧
  sh_auth_failures sh' =
    (if unauthenticated a then fetch_add_u64 (sh_auth_failures sh) 1 else sh_auth_failures sh) ∧
  match ph, ph' with
  | Opening, Serving init b => w' = w ∧ a = Ack ∧ authenticate auth (wi_token init) = Ok () ∧
      ∃ rc, resolve (sh_table sh) init = Ok rc ∧
        holds b (clamp_db_statement_timeout rc (sh_max_statement_timeout_ms sh))
  | Serving init b, Serving init' b' => init' = init ∧ ∀ rc, holds b rc → holds b' rc
  | Serving _ _, _ => False
  | Opening, Over | Over, Over => w' = w
  | _, _ => False
  end.
Proof.
  destruct ph as [|init b|]; simpl.
  - destruct q as [init|c|]; [|by intros [= <- <- <- <-]..].
    destruct (open_session sh auth init) as [[b|[code message]] sh1] eqn:Ho;
      apply open_session_spec in Ho as (H1 & H2 & Ho); intros [= <- <- <- <-]; simpl.
    + destruct Ho as (-> & Ha & Hrc). by split_and!.
    + split_and!; try done. rewrite Ho. unfold bool_decide. by destruct (decide_rel _ _ _).
  - destruct (respond task_panic b q w) as [[a1 b1] w1] eqn:Hr. intros [= <- <- <- <-].
    split_and!; try done; [|intros rc; by eapply respond_holds].
    destruct q as [i|c|]; simpl in Hr; simplify_eq/=; [done| |done].
    unfold dispatch in Hr. by repeat (case_match; simplify_eq/=).
  - by destruct q; intros [= <- <- <- <-].
Qed.

(** A session of daemon [d]: its listener exists; while it serves, its token passed that listener's
    provider, and its backends hold what the operator table binds for its tenant. *)
Definition session_ok d se : Prop :=
  auth_of d (se_origin se) ≠ None ∧
  match se_phase se with
  | Serving init b =>
      Ack ∈ se_answers se ∧
      (∃ auth auth', auth_of d (se_origin se) = Some auth ∧ same_provider auth auth' ∧
         authenticate auth' (wi_token init) = Ok ()) ∧
      ∃ rc, resolve (sh_table (dn_shared d)) init = Ok rc ∧
        holds b (clamp_db_statement_timeout rc (sh_max_statement_timeout_ms (dn_shared d)))
  | _ => True
  end.

(** The shared state after [n] rejections. *)
Definition shared_after (sh0 : Shared) (n : nat) (sh : Shared) : Prop :=
  sh_table sh = sh_table sh0 ∧ sh_max_statement_timeout_ms sh = sh_max_statement_timeout_ms sh0 ∧
  sh_auth_failures sh = (sh_auth_failures sh0 + Z.of_nat n) mod 2 ^ 64.

Record daemon_inv d (w0 : World) s : Prop := {
  di_shared : shared_after (dn_shared d) (sum_list_with rejections (rn_sessions s)) (rn_shared s);
  di_sessions : Forall (session_ok d) (rn_sessions s);
  di_quic : match rn_quic s, dn_quic d with
            | Some a, Some (_, limit) =>
                (available_permits (ac_limit a) + ac_live a = available_permits limit)%nat
            | None, None => True
            | _, _ => False
            end;
  di_socket : rn_socket s = if rn_open s then dn_uds d else None;
  di_over : rn_open s = false → Forall (λ se, se_phase se = Over) (rn_sessions s);
  di_quiet : Forall (λ se, Ack ∉ se_answers se) (rn_sessions s) → rn_world s = w0 }.

Lemma shared_after_more sh0 n sh sh' (rejected : bool) :
  shared_after sh0 n sh → sh_table sh' = sh_table sh →
  sh_max_statement_timeout_ms sh' = sh_max_statement_timeout_ms sh →
  sh_auth_failures sh' =
    (if rejected then fetch_add_u64 (sh_auth_failures sh) 1 else sh_auth_failures sh) →
  shared_after sh0 (n + if rejected then 1 else 0) sh'.
Proof.
  intros (H1 & H2 & H3) E1 E2 E3. unfold shared_after. rewrite E1, E2, E3. split_and!; [done..|].
  destruct rejected.
  - unfold fetch_add_u64. rewrite H3, Zplus_mod_idemp_l. f_equal. lia.
  - by rewrite Nat.add_0_r.
Qed.

Lemma set_session_inv d w0 s i se se' sh w (rejected : bool) :
  daemon_inv d w0 s → rn_open s = true → rn_sessions s !! i = Some se → session_ok d se' →
  se_answers se ⊆ se_answers se' →
  rejections se' = (rejections se + if rejected then 1 else 0)%nat →
  sh_table sh = sh_table (rn_shared s) →
  sh_max_statement_timeout_ms sh = sh_max_statement_timeout_ms (rn_shared s) →
  sh_auth_failures sh = (if rejected then fetch_add_u64 (sh_auth_failures (rn_shared s)) 1
                         else sh_auth_failures (rn_shared s)) →
  (Ack ∉ se_answers se' → w = rn_world s) →
  daemon_inv d w0 (set_session s i se' sh w).
Proof.
  intros [Hsh Hse Hq Hso Hov Hqu] Hopen Hi Hok Hsub Hrej T1 T2 T3 Hw.
  constructor; simpl; try done.
  - replace (sum_list_with rejections (<[i:=se']> (rn_sessions s)))
      with (sum_list_with rejections (rn_sessions s) + if rejected then 1 else 0)%nat
      by (pose proof (sum_list_with_insert rejections _ _ _ se' Hi); lia).
    by eapply shared_after_more.
  - by apply Forall_insert.
  - congruence.
  - intros Hno. pose proof (Forall_lookup_1 _ _ i se' Hno) as Hn.
    rewrite list_lookup_insert_eq in Hn by (by eapply lookup_lt_Some). specialize (Hn eq_refl).
    rewrite Hw by done. apply Hqu. apply Forall_lookup_2. intros j se2 Hj.
    destruct (decide (i = j)) as [<-|Hne]; [simplify_eq; set_solver|].
    apply (Forall_lookup_1 _ _ j se2 Hno). by rewrite list_lookup_insert_ne.
Qed.

(** A session's answer leaves the listeners and every other session as they are. *)
Lemma answer_frame s auth i se q :
  rn_open (answer task_panic s auth i se q) = rn_open s ∧
  rn_quic (answer task_panic s auth i se q) = rn_quic s ∧
  ∀ j, j ≠ i → rn_sessions (answer task_panic s auth i se q) !! j = rn_sessions s !! j.
Proof.
  unfold answer. destruct (session_turn _ _ _ _ _ _) as [[[a ph] sh] w]. split_and!; [done..|].
  intros j Hj. simpl. by rewrite list_lookup_insert_ne.
Qed.

Lemma answer_inv d w0 s i se auth auth' q :
  daemon_inv d w0 s → rn_open s = true → rn_sessions s !! i = Some se → se_phase se ≠ Over →
  auth_of d (se_origin se) = Some auth → same_provider auth auth' →
  daemon_inv d w0 (answer task_panic s auth' i se q).
Proof.
  intros Hinv Hopen Hi Hph Hauth Hsame. unfold answer.
  destruct (session_turn _ _ _ _ _ _) as [[[a ph] sh] w] eqn:Ht.
  apply session_turn_spec in Ht as (T1 & T2 & T3 & T4).
  pose proof (Forall_lookup_1 _ _ _ _ (di_sessions _ _ _ Hinv) Hi) as [Hl Hold].
  destruct (di_shared _ _ _ Hinv) as (S1 & S2 & _).
  eapply (set_session_inv _ _ _ _ _ _ _ _ (unauthenticated a)); try done; simpl; [|set_solver|..].
  - split; [done|]. simpl. destruct (se_phase se) as [|init b|], ph as [|init' b'|]; try done.
    + destruct T4 as (_ & -> & Ha & Hrc). split; [set_solver|]. split; [by eauto 10|].
      by rewrite <- S1, <- S2.
    + destruct T4 as [-> Hh]. destruct Hold as (Hack & Hau & rc & Hrc & Hb).
      split; [set_solver|]. split; [done|]. exists rc. by auto.
  - unfold rejections. simpl. rewrite List.filter_app, length_app. simpl. by destruct (unauthenticated a).
  - intros Hno. destruct (se_phase se) as [|init b|], ph; try done; [by destruct T4|].
    destruct Hold. set_solver.
Qed.

Lemma dreach_inv d w0 s : dreach d w0 s → in_u64 (sh_auth_failures (dn_shared d)) → daemon_inv d w0 s.
Proof.
  intros Hr Hu. induction Hr as [|s s' _ IH Hs].
  - constructor; simpl; try done.
    + split_and!; [done..|]. rewrite Z.add_0_r. symmetry. apply Z.mod_small. unfold in_u64, U64_MAX in Hu. lia.
    + destruct (dn_quic d) as [[a limit]|]; simpl; [lia|done].
  - destruct IH as [Hsh Hse Hq Hso Hov Hqu].
    assert (∀ o, auth_of d o ≠ None → rn_open s = true → daemon_inv d w0 (spawn_session o s)) as Hspawn.
    { intros o Ho Hopen. constructor; simpl; try done.
      - rewrite sum_list_with_app. simpl. by rewrite Nat.add_0_r.
      - apply Forall_app. split; [done|]. by apply Forall_singleton.
      - congruence.
      - rewrite Forall_app. naive_solver. }
    assert (daemon_inv d w0 (shut_down s)) as Hshut.
    { constructor; simpl; try done.
      - by rewrite sum_list_with_fmap.
      - apply Forall_fmap. eapply Forall_impl; [exact Hse|]. by intros se [? _].
      - intros _. apply Forall_fmap. by apply Forall_true.
      - rewrite Forall_fmap. done. }
    destruct Hs as [Hopen Hu'|?|a a' Hopen Ha Hstep|a Hopen Ha Hlive|?|i se auth auth' q Hopen Hi Hph Hauth Hsame
                   |i se Hopen Hi|?]; try done.
    + apply Hspawn; [|done]. simpl. by destruct (dn_uds d).
    + rewrite Ha in Hq. destruct (dn_quic d) as [[au limit]|] eqn:Ed; [|done].
      constructor; simpl; try done. rewrite Ed. rewrite <- Hq.
      destruct Hstep as [a|a l _ Hl|a n Hn]; simpl; [done|apply available_some in Hl; lia|].
      rewrite available_release. lia.
    + apply Hspawn; [|done]. simpl. rewrite Ha in Hq. by destruct (dn_quic d) as [[]|].
    + by eapply answer_inv.
    + pose proof (Forall_lookup_1 _ _ _ _ Hse Hi) as [Hl _].
      eapply (set_session_inv _ _ _ _ _ _ _ _ false); [by constructor|try done..].
Qed.

(** What a session's backends are configured with is what the operator table binds, for the names it
    asked for, to its own tenant; the database with its timeout clamped. *)
Definition own_backends (c : FabricdConfig) (init : WireInit) b : Prop :=
  let table := fc_resources c in
  let tenant := wi_tenant init in
  ∃ rc, holds b (clamp_db_statement_timeout rc (fc_max_statement_timeout_ms c)) ∧
    granted table tenant (wi_db init) as_db (rc_db rc) ∧
    granted table tenant (wi_mongo init) as_mongo (rc_mongo rc) ∧
    granted table tenant (wi_mail init) as_mail (rc_mail rc) ∧
    granted table tenant (wi_redis init) as_redis (rc_redis rc) ∧
    granted table tenant (wi_amq init) as_amq (rc_amq rc) ∧
    granted table tenant (wi_auth init) as_auth (rc_auth rc).

(** What start-up leaves of the configuration. *)
Lemma daemon_boot_shared {Tls} (m : DaemonMachine Tls) d :
  daemon_boot m = Ok d → ∃ c, load_config m = Ok c ∧
    sh_table (dn_shared d) = fc_resources c ∧
    sh_max_statement_timeout_ms (dn_shared d) = fc_max_statement_timeout_ms c ∧
    sh_auth_failures (dn_shared d) = 0 ∧
    ∀ auth limit q, dn_quic d = Some (auth, limit) → fc_quic c = Some q →
      available_permits limit = Z.to_nat (ql_max_connections q).
Proof.
  unfold daemon_boot. destruct (load_config m) as [c|]; [|done]. simpl. intros Hb. exists c.
  destruct (_ && _); [done|]. destruct (match uds_path m c with Some _ => _ | None => _ end); [|done].
  simpl in Hb. destruct (fc_quic c) as [q|].
  - destruct (build_quic_endpoint m q); [|done]. simpl in Hb.
    destruct (build (dm_spawn m) (ql_auth q)) as [au|]; [|done]. simplify_eq/=.
    split_and!; try done. intros ? ? ? [= <- <-] [= <-]. apply available_new.
  - by simplify_eq/=.
Qed.

(** ** Properties *)

(** An error of the socket's accept loop ends the daemon: the QUIC listener, the connections and the
    sessions go with it. *)
Lemma uds_error_ends_daemon d s s' :
  rn_open s = true → dn_uds d ≠ None → s' = shut_down s →
  dstep d s s' ∧ ∀ s'', dstep d s' s'' → False.
Proof. intros Ho Hu ->. split; [by apply d_uds_error|]. intros s'' Hs. by inversion Hs. Qed.

(** A running daemon does not wedge: a session that is not over answers whatever it is sent, and a
    waiting peer is let in as long as the connection cap is not reached. *)
Lemma daemon_progress d w0 s :
  dreach d w0 s → in_u64 (sh_auth_failures (dn_shared d)) → rn_open s = true →
  (∀ i se q, rn_sessions s !! i = Some se → se_phase se ≠ Over →
     ∃ auth se' a, auth_of d (se_origin se) = Some auth ∧ dstep d s (answer task_panic s auth i se q) ∧
       rn_sessions (answer task_panic s auth i se q) !! i = Some se' ∧
       se_answers se' = se_answers se ++ [a]) ∧
  (∀ a auth limit, rn_quic s = Some a → dn_quic d = Some (auth, limit) → ac_waiting a = true →
     (ac_live a < available_permits limit)%nat →
     ∃ a', dstep d s (set_quic s a') ∧ ac_live a' = S (ac_live a)).
Proof.
  intros Hr Hu Hopen. pose proof (dreach_inv _ _ _ Hr Hu) as Hinv. split.
  - intros i se q Hi Hph.
    pose proof (Forall_lookup_1 _ _ _ _ (di_sessions _ _ _ Hinv) Hi) as [Hl _].
    destruct (auth_of d (se_origin se)) as [auth|] eqn:Ha; [|done].
    destruct (session_turn task_panic (rn_shared s) auth (se_phase se) q (rn_world s))
      as [[[a ph] sh] w] eqn:Ht.
    exists auth. eexists. exists a. split; [done|]. split.
    + eapply d_request; [done|exact Hi|done|exact Ha|by destruct auth].
    + unfold answer. rewrite Ht. simpl. rewrite list_lookup_insert_eq by (by eapply lookup_lt_Some).
      by split.
  - intros a auth limit Hq Hd Hw Hlt. pose proof (di_quic _ _ _ Hinv) as Hc. rewrite Hq, Hd in Hc.
    destruct (sem_try_acquire (ac_limit a)) as [l|] eqn:El; [|apply available_none in El; lia].
    eexists. split; [eapply d_quic_loop; [done|exact Hq|by eapply a_admit]|done].
Qed.

(** C13: a daemon serving many sessions at once.  Whatever boxes connect over the socket and over QUIC,
    and however their requests interleave: a session that serves calls presented a token its own
    listener's provider accepts, and its backends are configured with nothing but what the operator
    table binds to its own tenant; the table never changes; the failure counter counts the rejections
    sent; until some session was accepted nothing reached the outside world; the live QUIC connections
    stay within the cap; and once the listeners have stopped the socket file and every session are
    gone. *)
Theorem daemon_sessions_isolated {Tls} (m : DaemonMachine Tls) d (w0 : World) s
    (Hboot : daemon_boot m = Ok d) (Hreach : dreach d w0 s) :
  ∃ c, load_config m = Ok c ∧ sh_table (rn_shared s) = fc_resources c ∧
    (∀ i se init b, rn_sessions s !! i = Some se → se_phase se = Serving init b →
       (∃ auth auth', auth_of d (se_origin se) = Some auth ∧ same_provider auth auth' ∧
          authenticate auth' (wi_token init) = Ok ()) ∧ own_backends c init b) ∧
    sh_auth_failures (rn_shared s) = Z.of_nat (sum_list_with rejections (rn_sessions s)) mod 2 ^ 64 ∧
    (Forall (λ se, Ack ∉ se_answers se) (rn_sessions s) → rn_world s = w0) ∧
    (∀ a q, rn_quic s = Some a → fc_quic c = Some q → (ac_live a ≤ Z.to_nat (ql_max_connections q))%nat) ∧
    (rn_open s = false → rn_socket s = None ∧ Forall (λ se, se_phase se = Over) (rn_sessions s)).
Proof.
  destruct (daemon_boot_shared m d Hboot) as (c & Hc & Ht & Hm & Hz & Hlim). exists c.
  apply dreach_inv in Hreach as [(S1 & S2 & S3) Hse Hq Hso Hov Hqu]; [|by rewrite Hz].
  split; [done|]. split; [congruence|]. split; [|split; [by rewrite S3, Hz|]].
  - intros i se init b Hi Hph. pose proof (Forall_lookup_1 _ _ _ _ Hse Hi) as [_ Hok].
    rewrite Hph in Hok. destruct Hok as (_ & Hau & rc & Hrc & Hh). split; [done|].
    rewrite Ht in Hrc. rewrite Hm in Hh. apply resolve_inv in Hrc. open_all.
    exists rc. split_and!; first [done|by eapply pick_ok].
  - split; [done|]. split.
    + intros a q Ha Hcq. rewrite Ha in Hq. destruct (dn_quic d) as [[au limit]|] eqn:Ed; [|done].
      rewrite (Hlim au limit q eq_refl Hcq) in Hq. lia.
    + intros Hno. rewrite Hno in Hso. by auto.
Qed.
End running_lemmas.

(** ** Witness *)

#[local] Existing Instances reference_json plain_eq nat_semaphore log_drivers.

Definition demo_box_init : WireInit :=
  {| wi_tenant := Some "acme"; wi_db := Some "orders"; wi_mongo := None; wi_mail := None;
     wi_redis := None; wi_amq := None; wi_auth := None; wi_timeout_ms := 1000;
     wi_token := Some "s3cret" |}.

(** A box connects over QUIC and opens a session, a second one presents the wrong token. *)
Definition demo_running (d : Daemon nat) : Running :=
  let auth := StaticAuthenticator "s3cret" None in
  let accept n := {| ac_limit := n; ac_live := 0; ac_waiting := true |} in
  let s := start_listeners d [] in
  let s := set_quic s (accept 3%nat) in
  let s := set_quic s {| ac_limit := 2%nat; ac_live := 1; ac_waiting := false |} in
  let s := spawn_session OverQuic (spawn_session OverQuic s) in
  let fresh := {| se_origin := OverQuic; se_phase := Opening; se_answers := [] |} in
  let s := answer demo_panic s auth 0 fresh (ReqInit demo_box_init) in
  answer demo_panic s auth 1 fresh (ReqInit (set_token demo_box_init (Some "guess"))).

Lemma daemon_sessions_isolated_witness :
  match daemon_boot (Sem := nat) demo_daemon with
  | Ok d => ∃ b, se_phase <$> rn_sessions (demo_running d) !! 0%nat = Some (Serving demo_box_init b) ∧
      (∃ c, load_config demo_daemon = Ok c ∧ own_backends c demo_box_init b) ∧
      sh_auth_failures (rn_shared (demo_running d)) = 1
  | Err _ => False
  end.
Proof.
  destruct (daemon_boot demo_daemon) as [d|] eqn:Hd; [|vm_compute in Hd; discriminate].
  assert (dreach demo_panic d [] (demo_running d)) as Hr.
  { assert (dn_quic d = Some (StaticAuthenticator "s3cret" None, 3%nat)) as Hq
      by (vm_compute in Hd; injection Hd as <-; reflexivity).
    unfold demo_running.
    eapply dreach_step; [|eapply d_request; [by rewrite (proj1 (answer_frame _ _ _ _ _ _))|
      by rewrite (proj2 (proj2 (answer_frame _ _ _ _ _ _)))|discriminate|simpl; by rewrite Hq|done]].
    eapply dreach_step; [|by eapply d_request; [reflexivity..|discriminate|simpl; by rewrite Hq|]].
    do 2 (eapply dreach_step; [|eapply d_quic_stream; [reflexivity..|simpl; lia]]).
    eapply dreach_step; [|eapply d_quic_loop; [reflexivity..|by apply (a_admit {| ac_limit := 3%nat |})]].
    eapply dreach_step; [apply dreach_start|].
    eapply d_quic_loop; [reflexivity|simpl; by rewrite Hq|by apply (a_incoming {| ac_limit := 3%nat |})]. }
  destruct (daemon_sessions_isolated demo_panic demo_daemon d [] (demo_running d) Hd Hr)
    as (c & Hc & _ & Hs & _).
  vm_compute in Hd. injection Hd as <-.
  eexists. split; [vm_compute; reflexivity|]. split; [|vm_compute; reflexivity].
  exists c. split; [exact Hc|]. eapply (Hs 0%nat); vm_compute; reflexivity.
Defined.
