(* ===== verification/Engine.v ===== *)
(** * Engine: one sandboxed execution

    Models [runlet-core/src/engine.rs]: what is injected into a script's context under which
    profile, the native functions a script can call and their budgets, the classification of every
    way an execution can end, and the assembly of the error envelope.  QuickJS is third-party: the
    class [QuickJs] gives its operations over an opaque context.  A run of user code is a [Prog],
    the sequence of native calls it makes and how it ends; each call's answer is fed back to it.
    The world behind the egress port and the network of the HTTP and S3 clients are threaded states. *)

From Stdlib Require Import Ascii.
From stdpp Require Import pretty.
From S2P Require Import Prelude Json Errors Runtime Wire Bytecode Ssrf Http S3 Sys.
Local Open Scope Z_scope.

(** ** Parameters of an execution *)

Inductive Profile := Full | Deterministic.
#[export] Instance Profile_eq_dec : EqDecision Profile.
Proof. solve_decision. Defined.

Inductive Gate := Off | On.
Definition from_enabled (enabled : bool) : Gate := if enabled then On else Off.
Definition is_on (g : Gate) : bool := match g with On => true | Off => false end.

(** [CapabilitySet] ([host.rs]): what a request asks for. *)
Record CapabilitySet := {
  cs_allowed_hosts : list string;
  cs_db : Gate; cs_mongo : Gate; cs_mail : Gate; cs_s3 : option S3Config;
  cs_redis : Gate; cs_amq : Gate; cs_auth : Gate; cs_sys : option SysConfig
}.
Definition CapabilitySet_NONE : CapabilitySet :=
  {| cs_allowed_hosts := []; cs_db := Off; cs_mongo := Off; cs_mail := Off; cs_s3 := None;
     cs_redis := Off; cs_amq := Off; cs_auth := Off; cs_sys := None |}.

(** ** Errors *)

Record CapabilityErr := {
  ce_source : ErrorSource; ce_code : string; ce_retryable : bool; ce_owner : ErrorOwner;
  ce_raw : option string; ce_stack : option string; ce_details : option Value
}.

Inductive EngineError :=
| Syntax (message : string)
| ScriptNotFound (message : string)
| ModuleNotFound (message : string)
| HandlerNotDefined
| Timeout (limit_ms : Z)
| MemoryLimit
| Malformed (message : string)
| OutputTooLarge (size limit : Z)
| Internal (raw : string)
| ShuttingDown
| Script (message : string) (stack : option string)
| Capability (cap : CapabilityErr).

Inductive ExecOutcome := Success (json : string) | Error (e : EngineError).

Definition HANDLER_MISSING_MSG : string := "script must define a `handler(context)` function".
Definition MEMORY_MSG : string := "memory limit exceeded".
Definition UNRESOLVED_MARKER : string := "module not in registry".

(** [EngineError::http_status]. *)
Definition http_status (e : EngineError) : Z :=
  match e with
  | Internal _ => 500
  | ShuttingDown => 503
  | Script _ _ | Capability _ => 200
  | ScriptNotFound _ => 404
  | Syntax _ | ModuleNotFound _ | HandlerNotDefined | Timeout _ | MemoryLimit | Malformed _
  | OutputTooLarge _ _ => 422
  end.

Definition runtime_envelope (code : string) (retryable : bool) (owner : ErrorOwner)
    (message : string) : ErrorEnvelope :=
  with_message (ErrorEnvelope_new CatRuntime SrcEngine code retryable owner) message.

Definition attach_debug (envelope : ErrorEnvelope) (stack raw : option string) (error_debug : bool)
    : ErrorEnvelope :=
  if error_debug then with_debug envelope {| dbg_stack := stack; dbg_raw := raw |} else envelope.

Definition script_envelope (message : string) (stack : option string) (error_debug : bool)
    : ErrorEnvelope :=
  let envelope := with_message
    (ErrorEnvelope_new CatScript SrcHandler "SCRIPT_ERROR" false Developer) message in
  attach_debug envelope stack None error_debug.

Definition capability_message (source : ErrorSource) : string :=
  match source with
  | SrcDb | SrcMongo => "database request failed"
  | SrcMail => "mail delivery failed"
  | SrcS3 => "object storage request failed"
  | SrcApi => "upstream request failed"
  | SrcRedis => "redis request failed"
  | SrcAmq => "message broker request failed"
  | SrcAuth => "identity request failed"
  | SrcRequest | SrcEngine | SrcHandler => "capability request failed"
  end.

(** [CapabilityErr::into_envelope]. *)
Definition cap_into_envelope (c : CapabilityErr) (error_debug : bool) : ErrorEnvelope :=
  let envelope := with_details
    (with_message
       (ErrorEnvelope_new CatCapability (ce_source c) (ce_code c) (ce_retryable c) (ce_owner c))
       (capability_message (ce_source c)))
    (ce_details c) in
  attach_debug envelope (ce_stack c) (ce_raw c) error_debug.

(** [EngineError::into_envelope]. *)
Definition into_envelope (e : EngineError) (error_debug : bool) : ErrorEnvelope :=
  match e with
  | Syntax message => runtime_envelope "SYNTAX_ERROR" false Developer message
  | ScriptNotFound message =>
      with_message (ErrorEnvelope_new CatRequest SrcRequest "SCRIPT_NOT_FOUND" false Caller) message
  | ModuleNotFound message => runtime_envelope "MODULE_NOT_FOUND" false Developer message
  | HandlerNotDefined =>
      runtime_envelope "HANDLER_NOT_DEFINED" false Developer HANDLER_MISSING_MSG
  | Timeout limit_ms =>
      runtime_envelope "TIMEOUT" false Developer
        ("execution timed out (" +:+ pretty limit_ms +:+ "ms limit)")
  | MemoryLimit => runtime_envelope "MEMORY_LIMIT" false Developer MEMORY_MSG
  | Malformed message => runtime_envelope "MALFORMED_RESPONSE" false Developer message
  | OutputTooLarge size limit =>
      runtime_envelope "OUTPUT_TOO_LARGE" false Developer
        ("handler output too large: " +:+ pretty size +:+ " bytes (max " +:+ pretty limit +:+ ")")
  | Internal raw =>
      attach_debug (runtime_envelope "INTERNAL" true Operator "internal error") None (Some raw)
        error_debug
  | ShuttingDown => runtime_envelope "SHUTTING_DOWN" true Operator "service is shutting down"
  | Script message stack => script_envelope message stack error_debug
  | Capability cap => cap_into_envelope cap error_debug
  end.

(** [enforce_output_cap]. *)
Definition enforce_output_cap (outcome : ExecOutcome) (max_output_size : Z) : ExecOutcome :=
  if decide (max_output_size = 0) then outcome
  else match outcome with
       | Success json =>
           let size := str_len json in
           if decide (max_output_size < size) then Error (OutputTooLarge size max_output_size)
           else outcome
       | Error _ => outcome
       end.

(** ** Exceptions *)

(** The [__runlet] property: not readable, undefined or null, or a value with the text its
    [JSON.stringify] gives, if any. *)
Inductive JsTag := TagUnreadable | TagNullish | TagText (json : option string).

(** A caught exception: an object with its string properties, or another value with its text. *)
Inductive Caught :=
| CaughtObject (message stack : option string) (tag : JsTag)
| CaughtValue (text : option string).

(** [read_str_prop]: a non-empty string property. *)
Definition read_str_prop (prop : option string) : option string :=
  text ← prop; if is_empty text then None else Some text.

(** [stringify_value]. *)
Definition stringify_value (text : option string) : string := default "script error" text.

Record CapabilityTag := {
  tag_error : option string; tag_code : string; tag_retryable : bool; tag_source : string;
  tag_owner : option string; tag_details : option Value
}.

(** Field values to a tag: [code] and [source] are required. *)
Definition tag_of_fields (error code retryable source owner details : option Value)
    : option CapabilityTag :=
  e ← defaulted None (de_option de_string) error;
  c ← required de_string code;
  r ← defaulted false de_bool retryable;
  s ← required de_string source;
  o ← defaulted None (de_option de_string) owner;
  d ← defaulted None (de_option de_value) details;
  Some {| tag_error := e; tag_code := c; tag_retryable := r; tag_source := s; tag_owner := o;
          tag_details := d |}.

(** The derived deserializer of [CapabilityTag]. *)
Definition de_capability_tag (v : Value) : option CapabilityTag :=
  match v with
  | VObject l =>
      e ← field "error" l; c ← field "code" l; r ← field "retryable" l; s ← field "source" l;
      o ← field "owner" l; d ← field "details" l;
      tag_of_fields e c r s o d
  | VArray [e; c; r; s] => tag_of_fields (Some e) (Some c) (Some r) (Some s) None None
  | VArray [e; c; r; s; o] => tag_of_fields (Some e) (Some c) (Some r) (Some s) (Some o) None
  | VArray [e; c; r; s; o; d] =>
      tag_of_fields (Some e) (Some c) (Some r) (Some s) (Some o) (Some d)
  | _ => None
  end.

Section classify.
Context {jt : JsonText}.

(** [read_capability_tag]. *)
Definition read_capability_tag (tag : JsTag) (stack : option string) : option CapabilityErr :=
  match tag with
  | TagUnreadable | TagNullish | TagText None => None
  | TagText (Some json) =>
      match from_str de_capability_tag json with
      | Err _ => None
      | Ok t =>
          source ← source_parse (tag_source t);
          Some {| ce_source := source; ce_code := tag_code t; ce_retryable := tag_retryable t;
                  ce_owner := default Operator (tag_owner t ≫= owner_parse);
                  ce_raw := tag_error t; ce_stack := stack; ce_details := tag_details t |}
      end
  end.

(** [classify_throw]. *)
Definition classify_throw (caught : Caught) (timed_out : bool) (timeout_ms : Z) : EngineError :=
  if timed_out then Timeout timeout_ms
  else match caught with
       | CaughtValue text => Script (stringify_value text) None
       | CaughtObject message stack tag =>
           let stack := read_str_prop stack in
           match read_capability_tag tag stack with
           | Some cap => Capability cap
           | None => Script (default EmptyString (read_str_prop message)) stack
           end
       end.
End classify.

(** The message of a caught object. *)
Definition caught_message (caught : Caught) : option string :=
  match caught with CaughtObject message _ _ => read_str_prop message | CaughtValue _ => None end.

(** [classify_eval_error]. *)
Definition classify_eval_error (caught : Caught) : EngineError :=
  Syntax (default "syntax error" (caught_message caught)).

(** [classify_module_error]. *)
Definition classify_module_error (caught : Caught) : EngineError :=
  match caught_message caught with
  | Some msg => if contains UNRESOLVED_MARKER msg then ModuleNotFound msg else Syntax msg
  | None => Syntax "syntax error"
  end.

(** ** Module detection *)

(** [str::lines]: the pieces a line feed ends, each without the carriage return before it, and a
    last piece if it is not empty. *)
Definition strip_cr (l : list ascii) : list ascii :=
  match rev l with
  | a :: rest => if decide (a = "013"%char) then rev rest else l
  | [] => []
  end.
Fixpoint lines_of (pieces : list (list ascii)) : list (list ascii) :=
  match pieces with
  | [] => []
  | [last] => match last with [] => [] | _ => [last] end
  | piece :: rest => strip_cr piece :: lines_of rest
  end.
Definition lines (s : string) : list string :=
  string_of <$> lines_of (split_bytes "010"%char [] (bytes_of s)).

(** [is_es_module]. *)
Definition is_es_module (script : string) : bool :=
  existsb (λ line,
    match strip_prefix "export" (trim_start line) with
    | Some (String c _) =>
        bool_decide (c = " "%char) || bool_decide (c = "009"%char) || bool_decide (c = "{"%char) ||
        bool_decide (c = "*"%char)
    | _ => false
    end) (lines script).

(** ** User code and the native functions *)

(** What the in-engine capabilities need of the network and of third-party code. *)
Class NetLib (Net : Type) := {
  NetUrl : Type;
  net_url :: UrlLib NetUrl; net_dns :: Dns Net; net_clock :: Clock Net;
  net_client :: HttpClient Net NetUrl; net_case :: UnicodeCase;
  net_percent :: PercentEncoding; net_s3 :: S3Lib Net; net_sys :: SysLib Net;
  NetDecimal : Type; net_decimal :: RustDecimal NetDecimal
}.

(** The natives a script can reach: [__emit], [__read], [__io], [__http], [__s3], [__sys] and
    [__decimal]. *)
Inductive HostCall :=
| CallEmit (value : string)
| CallRead (arg : string)
| CallIo (name action payload : string)
| CallHttp (method url body headers_json : string)
| CallS3 (action payload_json : string)
| CallSys (domain op payload : string)
| CallDecimal (op lhs rhs : string).

(** A run of user code: an end, or a native call and the rest given its answer; [None] answers a
    call to a native the context does not have (a [ReferenceError] in the script). *)
Inductive Prog (R : Type) : Type :=
| Ret (r : R)
| Host (c : HostCall) (k : option string → Prog R).
Arguments Ret {R} r. Arguments Host {R} c k.

(** What the natives of one execution are bound to. *)
Record HostEnv (World : Type) := {
  he_max_ops : nat;
  he_read : option (string → result string string);
  he_egress : option (string → string → string → World → result string EgressError * World);
  he_http : option (list string * bool * bool);
  he_s3 : option (S3Config * bool);
  he_secrets : SecretStore
}.
Arguments he_max_ops {World} _. Arguments he_read {World} _. Arguments he_egress {World} _.
Arguments he_http {World} _. Arguments he_s3 {World} _. Arguments he_secrets {World} _.

(** The state they share: the [emit] buffer, the [io] counter, the world behind the egress, the two
    metric collectors, the network, and the number of UUIDs drawn. *)
Record HostState (World Net : Type) := {
  hs_effects : list string;
  hs_used : nat;
  hs_world : World;
  hs_http : Collector HttpMetric;
  hs_s3 : Collector S3Metric;
  hs_net : Net;
  hs_uuids : nat
}.
Arguments hs_effects {World Net} _. Arguments hs_used {World Net} _. Arguments hs_world {World Net} _.
Arguments hs_http {World Net} _. Arguments hs_s3 {World Net} _. Arguments hs_net {World Net} _.
Arguments hs_uuids {World Net} _.

(** The constant [FALLBACK_DYNAMIC_FAULT_JSON]. *)
Definition FALLBACK_DYNAMIC_FAULT_JSON : string :=
  "{" +:+ quoted "error" +:+ ":" +:+ quoted "internal error" +:+ "," +:+
  quoted "code" +:+ ":" +:+ quoted "INTERNAL" +:+ "," +:+ quoted "retryable" +:+ ":true," +:+
  quoted "owner" +:+ ":" +:+ quoted "operator" +:+ "," +:+
  quoted "source" +:+ ":" +:+ quoted "engine" +:+ "}".

Section natives.
Context {jt : JsonText} {sha : Sha256} {World Net : Type} {net : NetLib Net}.

(** [dynamic_fault_json] and [EgressError::to_tag_json]. *)
Definition dynamic_fault_json (f : DynamicFault) : string :=
  default FALLBACK_DYNAMIC_FAULT_JSON (json_print (dynamic_fault_value f)).
Definition to_tag_json (e : EgressError) : string :=
  default FALLBACK_DYNAMIC_FAULT_JSON (json_print (to_tag e)).

(** The [__emit] closure of [inject_emit]; the answer is an error text or empty. *)
Definition native_emit (env : HostEnv World) (value : string) (st : HostState World Net)
    : string * HostState World Net :=
  if decide (he_max_ops env ≤ length (hs_effects st))%nat then
    ("too many emit() calls: limit is " +:+ pretty (he_max_ops env) +:+ " per execution", st)
  else
    (EmptyString, {| hs_effects := hs_effects st ++ [value]; hs_used := hs_used st;
                     hs_world := hs_world st; hs_http := hs_http st; hs_s3 := hs_s3 st;
                     hs_net := hs_net st; hs_uuids := hs_uuids st |}).

(** The [__read] closure of [inject_read]: the two object texts, built by splicing. *)
Definition native_read (hook : string → result string string) (arg : string) : string :=
  match hook arg with
  | Ok value_json => "{" +:+ quoted "value" +:+ ":" +:+ value_json +:+ "}"
  | Err message =>
      let escaped := default (quoted "read hook error") (json_print (VString message)) in
      "{" +:+ quoted "__readError" +:+ ":" +:+ escaped +:+ "}"
  end.

(** The [__io] closure of [inject_egress]. *)
Definition native_io (env : HostEnv World)
    (egress : string → string → string → World → result string EgressError * World)
    (name action payload : string) (st : HostState World Net) : string * HostState World Net :=
  if decide (he_max_ops env ≤ hs_used st)%nat then
    (dynamic_fault_json
       {| df_error := "too many operations: limit is " +:+ pretty (he_max_ops env) +:+ " per execution";
          df_code := "IO_OP_LIMIT"; df_retryable := false; df_owner := Developer;
          df_source := "engine"; df_details := None |}, st)
  else
    let '(res, w) := egress name action payload (hs_world st) in
    (match res with Ok json => json | Err err => to_tag_json err end,
     {| hs_effects := hs_effects st; hs_used := S (hs_used st); hs_world := w;
        hs_http := hs_http st; hs_s3 := hs_s3 st; hs_net := hs_net st; hs_uuids := hs_uuids st |}).

(** The [__http] and [__s3] closures on the shared state. *)
Definition set_http (st : HostState World Net) (metrics : Collector HttpMetric) (n : Net)
    : HostState World Net :=
  {| hs_effects := hs_effects st; hs_used := hs_used st; hs_world := hs_world st;
     hs_http := metrics; hs_s3 := hs_s3 st; hs_net := n; hs_uuids := hs_uuids st |}.
Definition set_s3 (st : HostState World Net) (metrics : Collector S3Metric) (n : Net)
    : HostState World Net :=
  {| hs_effects := hs_effects st; hs_used := hs_used st; hs_world := hs_world st;
     hs_http := hs_http st; hs_s3 := metrics; hs_net := n; hs_uuids := hs_uuids st |}.

(** The [__sys] closure counts the UUIDs it draws. *)
Definition set_uuids (st : HostState World Net) (uuids : nat) : HostState World Net :=
  {| hs_effects := hs_effects st; hs_used := hs_used st; hs_world := hs_world st;
     hs_http := hs_http st; hs_s3 := hs_s3 st; hs_net := hs_net st; hs_uuids := uuids |}.

(** One native call. *)
Definition host_call (env : HostEnv World) (c : HostCall) (st : HostState World Net)
    : option string * HostState World Net :=
  match c with
  | CallEmit value => let '(a, st') := native_emit env value st in (Some a, st')
  | CallRead arg =>
      match he_read env with
      | Some hook => (Some (native_read hook arg), st)
      | None => (None, st)
      end
  | CallIo name action payload =>
      match he_egress env with
      | Some egress => let '(a, st') := native_io env egress name action payload st in (Some a, st')
      | None => (None, st)
      end
  | CallHttp method url body headers_json =>
      match he_http env with
      | Some (hosts, allow_private, wildcard) =>
          let '(a, metrics, n) := native_http hosts (Z.of_nat (he_max_ops env)) allow_private wildcard
            method url body headers_json (hs_http st) (hs_net st) in
          (Some a, set_http st metrics n)
      | None => (None, st)
      end
  | CallS3 action payload_json =>
      match he_s3 env with
      | Some (config, allow_private) =>
          let '(a, metrics, n) := native_s3 config (Z.of_nat (he_max_ops env)) allow_private
            action payload_json (hs_s3 st) (hs_net st) in
          (Some a, set_s3 st metrics n)
      | None => (None, st)
      end
  | CallSys domain op payload =>
      let '(a, uuids) := native_sys (he_secrets env) domain op payload (hs_uuids st) (hs_net st) in
      (Some a, set_uuids st uuids)
  | CallDecimal op lhs rhs => (Some (native_decimal (D := NetDecimal) op lhs rhs), st)
  end.

(** Running user code against the natives. *)
Fixpoint interp {R} (env : HostEnv World) (p : Prog R) (st : HostState World Net)
    : R * HostState World Net :=
  match p with
  | Ret r => (r, st)
  | Host c k => let '(a, st') := host_call env c st in interp env (k a) st'
  end.

(** [drain_effects]. *)
Definition drain_effects (effects : list string) : list string :=
  filter (λ json, is_ok (json_parse json) = true) effects.
End natives.

(** ** The JavaScript engine *)

(** What the box adds to a fresh context, in the order [run] adds it. *)
Inductive Injection :=
| InjBridge | InjDecimal | InjSys (view : option SysView) | InjEmit | InjRead | InjEgress
| InjApi (allowed_hosts : list string) (allow_private_targets wildcard_hosts_allowed : bool)
| InjDb | InjMongo | InjMail | InjS3 (config : S3Config) (allow_private_targets : bool)
| InjRedis | InjAmq | InjAuth.

(** The end of an evaluation, with the interrupt flag at that time. *)
Inductive EvalEnd := Evaluated | EvalThrew (caught : Caught) (timed_out : bool).

(** A returned value as [extract_json_string] sees it: a string with its conversion, or another
    value with its [JSON.stringify] and the conversion of that. *)
Inductive Returned :=
| ReturnedString (text : result string string)
| ReturnedOther (stringified : result (option (result string string)) string).
Inductive CallEnd := HandlerReturned (v : Returned) | HandlerThrew (caught : Caught) (timed_out : bool).

Class QuickJs (Ctx Fn JsVal Mod : Type) := {
  ctx_full : result Ctx string;
  ctx_inject : Ctx → Injection → result Ctx string;
  ctx_eval : Ctx → string → Prog (EvalEnd * Ctx);
  mod_eval : Ctx → Mod → Prog (EvalEnd * Ctx);
  mod_export : Ctx → Mod → string → option Fn;
  global_fn : Ctx → string → option Fn;
  ctx_remove : Ctx → string → result Ctx string;
  ctx_eval_determinism : Ctx → result Ctx string;
  ctx_json_parse : Ctx → string → option JsVal;
  fn_call : Ctx → Fn → JsVal → Prog CallEnd
}.

Record ExecParams (World : Type) := {
  ep_cache_namespace : option string;
  ep_script : string;
  ep_context_json : string;
  ep_timeout_ms : Z;
  ep_profile : Profile;
  ep_caps : CapabilitySet;
  ep_read_hook : option (string → result string string);
  ep_egress : option (string → string → string → World → result string EgressError * World);
  ep_max_ops : nat;
  ep_max_output_size : Z;
  ep_allow_private_targets : bool;
  ep_wildcard_hosts_allowed : bool
}.
Arguments ep_cache_namespace {World} _. Arguments ep_script {World} _.
Arguments ep_context_json {World} _. Arguments ep_timeout_ms {World} _.
Arguments ep_profile {World} _. Arguments ep_caps {World} _. Arguments ep_read_hook {World} _.
Arguments ep_egress {World} _. Arguments ep_max_ops {World} _.
Arguments ep_max_output_size {World} _. Arguments ep_allow_private_targets {World} _.
Arguments ep_wildcard_hosts_allowed {World} _.

Record ExecResult := {
  er_outcome : ExecOutcome; er_effects : list string;
  er_http_metrics : list HttpMetric; er_s3_metrics : list S3Metric }.

(** [extract_json_string]. *)
Definition extract_json_string (v : Returned) : result string string :=
  match v with
  | ReturnedString text => text
  | ReturnedOther (Err e) => Err e
  | ReturnedOther (Ok None) =>
      Ok ("{" +:+ quoted "data" +:+ ":null," +:+ quoted "error" +:+ ":null}")
  | ReturnedOther (Ok (Some text)) => text
  end.

(** [inject_apis]: the capabilities a profile lets through. *)
Definition inject_apis {World} (p : ExecParams World) : list Injection :=
  let caps := ep_caps p in
  if decide (ep_profile p ≠ Full) then []
  else
    (match cs_allowed_hosts caps with
     | [] => []
     | hosts => [InjApi hosts (ep_allow_private_targets p) (ep_wildcard_hosts_allowed p)]
     end) ++
    (if is_on (cs_db caps) then [InjDb] else []) ++
    (if is_on (cs_mongo caps) then [InjMongo] else []) ++
    (if is_on (cs_mail caps) then [InjMail] else []) ++
    (match cs_s3 caps with
     | Some config => [InjS3 config (ep_allow_private_targets p)] | None => [] end) ++
    (if is_on (cs_redis caps) then [InjRedis] else []) ++
    (if is_on (cs_amq caps) then [InjAmq] else []) ++
    (if is_on (cs_auth caps) then [InjAuth] else []).

Section run.
Context {jt : JsonText} {World Net : Type} {net : NetLib Net}.
Context {Cache : Type} {moka : Moka Cache (list ascii)} {sha : Sha256}.
Context {Ctx Fn JsVal Mod : Type} {compiler : ModuleCompiler Mod Caught}
  {js : QuickJs Ctx Fn JsVal Mod}.
Local Abbreviation BC := (BytecodeCache Cache).
Local Abbreviation Params := (ExecParams World).

(** The injections of [run], up to user code. *)
Definition injections (p : Params) : list Injection :=
  [InjBridge; InjDecimal; InjSys (sys_view <$> cs_sys (ep_caps p)); InjEmit] ++
  (match ep_read_hook p with Some _ => [InjRead] | None => [] end) ++
  (if decide (ep_profile p = Full) then
     match ep_egress p with Some _ => [InjEgress] | None => [] end
   else []) ++
  inject_apis p.

Fixpoint inject_all (ctx : Ctx) (l : list Injection) : result Ctx string :=
  match l with
  | [] => Ok ctx
  | i :: rest => let? ctx' := ctx_inject ctx i in inject_all ctx' rest
  end.

(** The natives those injections bind. *)
Definition host_env (p : Params) : HostEnv World :=
  {| he_max_ops := ep_max_ops p;
     he_read := ep_read_hook p;
     he_egress := if decide (ep_profile p = Full) then ep_egress p else None;
     he_http := if decide (ep_profile p = Full) then
                  match cs_allowed_hosts (ep_caps p) with
                  | [] => None
                  | hosts => Some (hosts, ep_allow_private_targets p, ep_wildcard_hosts_allowed p)
                  end
                else None;
     he_s3 := if decide (ep_profile p = Full) then
                (λ config, (config, ep_allow_private_targets p)) <$> cs_s3 (ep_caps p)
              else None;
     he_secrets := default ∅ (secret_store <$> cs_sys (ep_caps p)) |}.

(** [sanitize_globals] and [harden]. *)
Definition sanitize_globals (ctx : Ctx) : result Ctx string :=
  let? ctx1 := ctx_remove ctx "eval" in ctx_remove ctx1 "Proxy".
Definition harden (ctx : Ctx) (profile : Profile) : result Ctx string :=
  let? ctx1 := sanitize_globals ctx in
  if decide (profile = Deterministic) then ctx_eval_determinism ctx1 else Ok ctx1.

(** [module_handler]. *)
Definition module_handler (ctx : Ctx) (m : Mod) : option Fn :=
  match mod_export ctx m "default" with
  | Some f => Some f
  | None => mod_export ctx m "handler"
  end.

(** [eval_module] ([try_eval_module], then [classify_module_error] on failure). *)
Definition eval_module (p : Params) (cache : option BC) (ctx : Ctx) (st : HostState World Net)
    : result (Mod * Ctx) EngineError * option BC * HostState World Net :=
  match obtain_declared cache (ep_cache_namespace p) (ep_script p) with
  | (Err caught, cache1) => (Err (classify_module_error caught), cache1, st)
  | (Ok declared, cache1) =>
      let '((e, ctx1), st1) := interp (host_env p) (mod_eval ctx declared) st in
      (match e with
       | Evaluated => Ok (declared, ctx1)
       | EvalThrew caught _ => Err (classify_module_error caught)
       end, cache1, st1)
  end.

(** [resolve_handler]. *)
Definition resolve_handler (p : Params) (cache : option BC) (ctx : Ctx) (st : HostState World Net)
    : result (Fn * Ctx) ExecOutcome * option BC * HostState World Net :=
  if is_es_module (ep_script p) then
    let '(r, cache1, st1) := eval_module p cache ctx st in
    (let? mc := map_err Error r in
     let '(m, ctx1) := mc in
     let? ctx2 := map_err (λ err, Error (Internal err)) (harden ctx1 (ep_profile p)) in
     let? f := ok_or (module_handler ctx2 m) (Error HandlerNotDefined) in
     Ok (f, ctx2), cache1, st1)
  else
    let '((e, ctx1), st1) := interp (host_env p) (ctx_eval ctx (ep_script p)) st in
    (let? _ := match e with
               | Evaluated => Ok ()
               | EvalThrew caught _ => Err (Error (classify_eval_error caught))
               end in
     let? ctx2 := map_err (λ err, Error (Internal err)) (harden ctx1 (ep_profile p)) in
     let? f := ok_or (global_fn ctx2 "handler") (Error HandlerNotDefined) in
     Ok (f, ctx2), cache, st1).

(** [invoke_handler]. *)
Definition invoke_handler (p : Params) (ctx : Ctx) (handler : Fn) (st : HostState World Net)
    : result ExecOutcome EngineError * HostState World Net :=
  match ctx_json_parse ctx (ep_context_json p) with
  | None => (Ok (Error MemoryLimit), st)
  | Some parsed_ctx =>
      let '(e, st1) := interp (host_env p) (fn_call ctx handler parsed_ctx) st in
      (match e with
       | HandlerReturned value =>
           let? json := map_err Internal (extract_json_string value) in Ok (Success json)
       | HandlerThrew caught timed_out =>
           Ok (Error (classify_throw caught timed_out (ep_timeout_ms p)))
       end, st1)
  end.

(** The closure [run] executes inside the context. *)
Definition run_in_context (p : Params) (cache : option BC) (ctx : Ctx) (st : HostState World Net)
    : result ExecOutcome EngineError * option BC * HostState World Net :=
  match inject_all ctx (injections p) with
  | Err err => (Err (Internal err), cache, st)
  | Ok ctx1 =>
      match resolve_handler p cache ctx1 st with
      | (Err outcome, cache1, st1) => (Ok outcome, cache1, st1)
      | (Ok (handler, ctx2), cache1, st1) =>
          let '(r, st2) := invoke_handler p ctx2 handler st1 in (r, cache1, st2)
      end
  end.

(** [run]. *)
Definition engine_run (p : Params) (cache : option BC) (o : World * Net)
    : result ExecResult EngineError * option BC * (World * Net) :=
  match ctx_full with
  | Err err => (Err (Internal err), cache, o)
  | Ok ctx =>
      let st := {| hs_effects := []; hs_used := 0; hs_world := o.1; hs_http := new_collector;
                   hs_s3 := new_collector; hs_net := o.2; hs_uuids := 0 |} in
      let '(js_result, cache1, st1) := run_in_context p cache ctx st in
      let outcome := match js_result with Ok o => o | Err e => Error e end in
      (Ok {| er_outcome := enforce_output_cap outcome (ep_max_output_size p);
             er_effects := drain_effects (hs_effects st1);
             er_http_metrics := coll_drain (Some (hs_http st1));
             er_s3_metrics := coll_drain (Some (hs_s3 st1)) |}, cache1, (hs_world st1, hs_net st1))
  end.
End run.

(** ** Lemmas *)

Section run_lemmas.
Context {jt : JsonText} {World Net : Type} {net : NetLib Net}.
Context {Cache : Type} {moka : Moka Cache (list ascii)} {sha : Sha256}.
Context {Ctx Fn JsVal Mod : Type} {compiler : ModuleCompiler Mod Caught}
  {js : QuickJs Ctx Fn JsVal Mod}.
Implicit Types (p : ExecParams World) (st : HostState World Net) (cache : option (BytecodeCache Cache)).

(** What every native call preserves, a run of user code preserves. *)
Lemma interp_inv {R} (I : HostState World Net → Prop) env (prog : Prog R) st :
  (∀ c st, I st → I (host_call env c st).2) → I st → I (interp env prog st).2.
Proof.
  intros Hc. revert st. induction prog as [r|c k IH]; intros st Hst; [done|]. simpl.
  specialize (Hc c st Hst). destruct (host_call env c st) as [a st']. by apply IH.
Qed.

(** And so does a whole execution. *)
Lemma run_in_context_inv (I : HostState World Net → Prop) p cache (ctx : Ctx) st :
  (∀ c st, I st → I (host_call (host_env p) c st).2) → I st → I (run_in_context p cache ctx st).2.
Proof.
  intros Hc Hst. unfold run_in_context. destruct (inject_all ctx (injections p)) as [ctx1|e]; [|done].
  assert (I (resolve_handler p cache ctx1 st).2) as Hr.
  { unfold resolve_handler, eval_module. destruct (is_es_module (ep_script p)).
    - destruct (obtain_declared cache (ep_cache_namespace p) (ep_script p)) as [[m|e] c1]; [|done].
      pose proof (interp_inv I (host_env p) (mod_eval ctx1 m) st Hc Hst) as Hi.
      by destruct (interp (host_env p) (mod_eval ctx1 m) st) as [[e ctx2] st1].
    - pose proof (interp_inv I (host_env p) (ctx_eval ctx1 (ep_script p)) st Hc Hst) as Hi.
      by destruct (interp (host_env p) (ctx_eval ctx1 (ep_script p)) st) as [[e ctx2] st1]. }
  destruct (resolve_handler p cache ctx1 st) as [[[[f ctx2]|o] c1] st1]; [|done]. simpl in Hr.
  unfold invoke_handler. destruct (ctx_json_parse ctx2 (ep_context_json p)) as [v|]; [|done].
  pose proof (interp_inv I (host_env p) (fn_call ctx2 f v) st1 Hc Hr) as Hi.
  by destruct (interp (host_env p) (fn_call ctx2 f v) st1).
Qed.

(** The buffer never outgrows the budget. *)
Lemma host_call_effects env c st :
  (length (hs_effects st) ≤ he_max_ops env)%nat →
  (length (hs_effects (host_call env c st).2) ≤ he_max_ops env)%nat.
Proof.
  intros Hst. destruct c as [v|a|n a b|m u b h|a b|d o b|o l r]; simpl.
  - unfold native_emit. case_decide; simpl; [done|]. rewrite length_app. simpl. lia.
  - by destruct (he_read env).
  - destruct (he_egress env) as [eg|]; [|done]. unfold native_io. case_decide; simpl; [done|].
    by destruct (eg n a b (hs_world st)).
  - destruct (he_http env) as [[[hosts priv] wild]|]; [|done].
    by destruct (native_http _ _ _ _ _ _ _ _ _ _) as [[? ?] ?].
  - destruct (he_s3 env) as [[config priv]|]; [|done]. by destruct (native_s3 _ _ _ _ _ _ _) as [[? ?] ?].
  - by destruct (native_sys _ _ _ _ _ _).
  - done.
Qed.

(** Nor do the two metric collectors, which stay usable. *)
Definition metered (max : nat) st : Prop :=
  coll_poisoned (hs_http st) = false ∧ (length (coll_items (hs_http st)) ≤ max)%nat ∧
  coll_poisoned (hs_s3 st) = false ∧ (length (coll_items (hs_s3 st)) ≤ max)%nat.
Lemma host_call_metered env c st :
  metered (he_max_ops env) st → metered (he_max_ops env) (host_call env c st).2.
Proof.
  intros (Hp & Hl & Hq & Hm). destruct c as [v|a|n a b|m u b h|a b|d o b|o l r]; simpl.
  - unfold native_emit. by case_decide.
  - by destruct (he_read env).
  - destruct (he_egress env) as [eg|]; [|done]. unfold native_io. case_decide; [done|].
    by destruct (eg n a b (hs_world st)).
  - destruct (he_http env) as [[[hosts priv] wild]|]; [|done].
    pose proof (native_http_metered hosts (Z.of_nat (he_max_ops env)) priv wild m u b h (hs_http st)
      (hs_net st) Hp ltac:(lia)) as Hn.
    destruct (native_http _ _ _ _ _ _ _ _ _ _) as [[? m'] ?]. unfold metered. simpl in *.
    destruct Hn. split_and!; [done|lia|done|done].
  - destruct (he_s3 env) as [[config priv]|]; [|done].
    pose proof (native_s3_metered config (Z.of_nat (he_max_ops env)) priv a b (hs_s3 st) (hs_net st) Hq
      ltac:(lia)) as Hn.
    destruct (native_s3 _ _ _ _ _ _ _) as [[? m'] ?]. unfold metered. simpl in *.
    destruct Hn. split_and!; [done|done|done|lia].
  - by destruct (native_sys _ _ _ _ _ _).
  - done.
Qed.

(** Without the I/O natives no call touches the world or the network. *)
Lemma host_call_no_io env c st :
  he_egress env = None → he_http env = None → he_s3 env = None →
  hs_world (host_call env c st).2 = hs_world st ∧ hs_net (host_call env c st).2 = hs_net st.
Proof.
  intros He Hh Hs. destruct c; simpl; rewrite ?He, ?Hh, ?Hs; try done.
  - unfold native_emit. by case_decide.
  - by destruct (he_read env).
  - by destruct (native_sys _ _ _ _ _ _).
Qed.

(** The connections one native call opens. *)
Lemma host_call_connections p c st :
  ep_allow_private_targets p = false → cs_s3 (ep_caps p) = None →
  ∃ opened, connections (hs_net (host_call (host_env p) c st).2) = connections (hs_net st) ++ opened ∧
    Forall (confined (cs_allowed_hosts (ep_caps p)) (ep_wildcard_hosts_allowed p)) opened.
Proof.
  intros Hp Hs3.
  assert (∀ st', hs_net st' = hs_net st → ∃ opened,
    connections (hs_net st') = connections (hs_net st) ++ opened ∧
    Forall (confined (cs_allowed_hosts (ep_caps p)) (ep_wildcard_hosts_allowed p)) opened) as Hquiet.
  { intros st' ->. exists []. by rewrite app_nil_r. }
  destruct c as [v|a|n a b|m u b h|a b|d o b|o l r]; cbn [host_call].
  - unfold native_emit. case_decide; by apply Hquiet.
  - destruct (he_read _); by apply Hquiet.
  - destruct (he_egress _) as [eg|]; [|by apply Hquiet]. unfold native_io.
    case_decide; [by apply Hquiet|]. destruct (eg n a b (hs_world st)). by apply Hquiet.
  - unfold host_env. simpl. case_decide; [|by apply Hquiet].
    destruct (cs_allowed_hosts (ep_caps p)) as [|x l]; [by apply Hquiet|]. rewrite Hp.
    pose proof (native_http_confined (x :: l) (Z.of_nat (ep_max_ops p)) (ep_wildcard_hosts_allowed p)
      m u b h (hs_http st) (hs_net st)) as Hn.
    by destruct (native_http _ _ _ _ _ _ _ _ _ _) as [[? ?] ?].
  - unfold host_env. simpl. rewrite Hs3. case_decide; by apply Hquiet.
  - destruct (native_sys _ _ _ _ _ _). by apply Hquiet.
  - by apply Hquiet.
Qed.

Lemma enforce_output_cap_ok o max json :
  enforce_output_cap o max = Success json → max = 0 ∨ str_len json ≤ max.
Proof.
  unfold enforce_output_cap. case_decide as Hz; [by left|]. destruct o as [j|e]; [|done].
  case_decide; [done|]. intros [= ->]. right. lia.
Qed.
End run_lemmas.

(** An egress that counts the calls made of it. *)
Definition counted {World} (egress : string → string → string → World → result string EgressError * World)
    (name action payload : string) (wn : World * nat) : result string EgressError * (World * nat) :=
  let '(r, w') := egress name action payload wn.1 in (r, (w', S wn.2)).
Definition count_egress {World} (p : ExecParams World) : ExecParams (World * nat) :=
  {| ep_cache_namespace := ep_cache_namespace p; ep_script := ep_script p;
     ep_context_json := ep_context_json p; ep_timeout_ms := ep_timeout_ms p;
     ep_profile := ep_profile p; ep_caps := ep_caps p; ep_read_hook := ep_read_hook p;
     ep_egress := counted <$> ep_egress p; ep_max_ops := ep_max_ops p;
     ep_max_output_size := ep_max_output_size p;
     ep_allow_private_targets := ep_allow_private_targets p;
     ep_wildcard_hosts_allowed := ep_wildcard_hosts_allowed p |}.

Lemma host_call_counted {jt : JsonText} {sha : Sha256} {World Net} {net : NetLib Net}
    (p : ExecParams World) c (st : HostState (World * nat) Net) :
  (hs_world st).2 = hs_used st → (hs_used st ≤ ep_max_ops p)%nat →
  let st' := (host_call (host_env (count_egress p)) c st).2 in
  (hs_world st').2 = hs_used st' ∧ (hs_used st' ≤ ep_max_ops p)%nat.
Proof.
  intros Hw Hu. destruct c as [v|a|n a b|m u b h|a b|d o b|o l r]; cbn [host_call snd].
  4: { destruct (he_http _) as [[[hosts priv] wild]|]; [|done].
       by destruct (native_http _ _ _ _ _ _ _ _ _ _) as [[? ?] ?]. }
  4: { destruct (he_s3 _) as [[config priv]|]; [|done].
       by destruct (native_s3 _ _ _ _ _ _ _) as [[? ?] ?]. }
  all: simpl.
  - unfold native_emit. by case_decide.
  - by destruct (ep_read_hook p).
  - case_decide; [|done]. destruct (ep_egress p) as [eg|]; [|done]. simpl.
    unfold native_io. simpl. case_decide; simpl; [done|].
    unfold counted. destruct (eg n a b (hs_world st).1). simpl. lia.
  - by destruct (native_sys _ _ _ _ _ _).
  - done.
Qed.

(** A request with every I/O capability and the egress withheld; [$sys] is not I/O. *)
Definition withhold {World} (p : ExecParams World) : ExecParams World :=
  {| ep_cache_namespace := ep_cache_namespace p; ep_script := ep_script p;
     ep_context_json := ep_context_json p; ep_timeout_ms := ep_timeout_ms p;
     ep_profile := ep_profile p;
     ep_caps := {| cs_allowed_hosts := []; cs_db := Off; cs_mongo := Off; cs_mail := Off;
                   cs_s3 := None; cs_redis := Off; cs_amq := Off; cs_auth := Off;
                   cs_sys := cs_sys (ep_caps p) |};
     ep_read_hook := ep_read_hook p; ep_egress := None; ep_max_ops := ep_max_ops p; ep_max_output_size := ep_max_output_size p;
     ep_allow_private_targets := ep_allow_private_targets p;
     ep_wildcard_hosts_allowed := ep_wildcard_hosts_allowed p |}.

(** An error with its internal context removed. *)
Definition scrub (e : EngineError) : EngineError :=
  match e with
  | Internal _ => Internal EmptyString
  | Script message _ => Script message None
  | Capability c =>
      Capability {| ce_source := ce_source c; ce_code := ce_code c; ce_retryable := ce_retryable c;
                    ce_owner := ce_owner c; ce_raw := None; ce_stack := None;
                    ce_details := ce_details c |}
  | _ => e
  end.

(** [details] as it comes back through [Option<Value>]. *)
Definition reread_details (d : option Value) : option Value :=
  match d with Some VNull | None => None | Some v => Some v end.

Lemma de_to_tag e :
  de_capability_tag (to_tag e) =
  Some {| tag_error := Some (ee_message e); tag_code := ee_code e; tag_retryable := ee_retryable e;
          tag_source := ee_source e; tag_owner := Some (owner_str (ee_owner e));
          tag_details := reread_details (ee_details e) |}.
Proof. destruct e as [c m s [[]|] r o]; reflexivity. Qed.

(** A script whose top-level code runs out of time is reported as a syntax error: the interrupt flag
    is consulted only when the handler throws. *)
Lemma toplevel_timeout_is_syntax_error {jt : JsonText} {World Net Cache : Type} {net : NetLib Net}
    {moka : Moka Cache (list ascii)} {sha : Sha256} {Ctx Fn JsVal Mod : Type}
    {compiler : ModuleCompiler Mod Caught} {js : QuickJs Ctx Fn JsVal Mod}
    (p : ExecParams World) (cache : option (BytecodeCache Cache)) (ctx ctx1 ctx2 : Ctx)
    (st st1 : HostState World Net) (caught : Caught) :
  is_es_module (ep_script p) = false →
  inject_all ctx (injections p) = Ok ctx1 →
  interp (host_env p) (ctx_eval ctx1 (ep_script p)) st = ((EvalThrew caught true, ctx2), st1) →
  (run_in_context p cache ctx st).1.1 =
  Ok (Error (Syntax (default "syntax error" (caught_message caught)))).
Proof.
  intros Hm Hi He. unfold run_in_context, resolve_handler. rewrite Hi, Hm, He. done.
Qed.

(** ** What an execution depends on *)

Section dependence.
Context {jt : JsonText} {World Net : Type} {net : NetLib Net}.
Context {Cache : Type} {moka : Moka Cache (list ascii)} {sha : Sha256}.
Context {Ctx Fn JsVal Mod : Type} {compiler : ModuleCompiler Mod Caught}
  {js : QuickJs Ctx Fn JsVal Mod}.
Implicit Types (p : ExecParams World) (st : HostState World Net) (cache : option (BytecodeCache Cache)).

(** Natives that answer alike give the same run. *)
Lemma interp_ext {R} (env1 env2 : HostEnv World) (prog : Prog R) st :
  (∀ c st, host_call env1 c st = host_call env2 c st) → interp env1 prog st = interp env2 prog st.
Proof.
  intros Hc. revert st. induction prog as [r|c k IH]; intros st; [done|]. simpl.
  rewrite Hc. destruct (host_call env2 c st) as [a st']. apply IH.
Qed.

(** The parameters with other [$sys] values. *)
Definition with_sys p (c : SysConfig) : ExecParams World :=
  {| ep_cache_namespace := ep_cache_namespace p; ep_script := ep_script p;
     ep_context_json := ep_context_json p; ep_timeout_ms := ep_timeout_ms p;
     ep_profile := ep_profile p;
     ep_caps := {| cs_allowed_hosts := cs_allowed_hosts (ep_caps p); cs_db := cs_db (ep_caps p);
                   cs_mongo := cs_mongo (ep_caps p); cs_mail := cs_mail (ep_caps p);
                   cs_s3 := cs_s3 (ep_caps p); cs_redis := cs_redis (ep_caps p);
                   cs_amq := cs_amq (ep_caps p); cs_auth := cs_auth (ep_caps p);
                   cs_sys := Some c |};
     ep_read_hook := ep_read_hook p; ep_egress := ep_egress p; ep_max_ops := ep_max_ops p;
     ep_max_output_size := ep_max_output_size p;
     ep_allow_private_targets := ep_allow_private_targets p;
     ep_wildcard_hosts_allowed := ep_wildcard_hosts_allowed p |}.

(** Configurations a script cannot tell apart: the same plain values, the same secret names, and under
    each name a key with the same digests. *)
Definition sys_indistinguishable (c1 c2 : SysConfig) : Prop :=
  sys_view c1 = sys_view c2 ∧ hmac_equiv (secret_store c1) (secret_store c2).

Lemma host_call_sys p c1 c2 c st : sys_indistinguishable c1 c2 →
  host_call (host_env (with_sys p c1)) c st = host_call (host_env (with_sys p c2)) c st.
Proof.
  intros [_ Hs]. destruct c; try done. cbn [host_call host_env he_secrets with_sys ep_caps cs_sys].
  simpl. by rewrite (native_sys_proper _ _ Hs domain _ eq_refl op _ eq_refl payload _ eq_refl
    (hs_uuids st) _ eq_refl (hs_net st) _ eq_refl).
Qed.

(** The stages of an execution depend on the natives only through their answers. *)
Lemma run_in_context_sys p c1 c2 cache (ctx : Ctx) st : sys_indistinguishable c1 c2 →
  run_in_context (with_sys p c1) cache ctx st = run_in_context (with_sys p c2) cache ctx st.
Proof.
  intros Hc. unfold run_in_context, injections. destruct Hc as [Hv Hs].
  change (inject_apis (with_sys p c1)) with (inject_apis (with_sys p c2)).
  cbn [with_sys ep_caps cs_sys fmap option_fmap option_map]. rewrite Hv.
  destruct (inject_all _ _) as [ctx1|e]; [|done].
  assert (∀ R (prog : Prog R) st, interp (host_env (with_sys p c1)) prog st =
                                  interp (host_env (with_sys p c2)) prog st) as Hi.
  { intros R prog st'. apply interp_ext. intros c st''. by apply host_call_sys. }
  assert (resolve_handler (with_sys p c1) cache ctx1 st = resolve_handler (with_sys p c2) cache ctx1 st)
    as ->.
  { unfold resolve_handler, eval_module. cbn [with_sys ep_script ep_cache_namespace ep_profile].
    destruct (is_es_module _); [|by rewrite Hi].
    destruct (obtain_declared _ _ _) as [[m|e] cache1]; [|done]. by rewrite Hi. }
  destruct (resolve_handler _ _ _ _) as [[[[f ctx2]|o] cache1] st1]; [|done].
  unfold invoke_handler. cbn [with_sys ep_context_json ep_timeout_ms].
  destruct (ctx_json_parse _ _) as [v|]; [|done]. by rewrite Hi.
Qed.

(** User code that never reads the wall clock or draws a UUID through [__sys]. *)
Definition steady_call (c : HostCall) : bool :=
  match c with CallSys domain op _ => negb (ambient domain op) | _ => true end.
Inductive steady {R} : Prog R → Prop :=
| steady_ret r : steady (Ret r)
| steady_host c k : steady_call c = true → (∀ a, steady (k a)) → steady (Host c k).

(** States that differ in the world and the network only. *)
Definition same_inside st1 st2 : Prop :=
  hs_effects st1 = hs_effects st2 ∧ hs_used st1 = hs_used st2 ∧ hs_http st1 = hs_http st2 ∧
  hs_s3 st1 = hs_s3 st2 ∧ hs_uuids st1 = hs_uuids st2.

Lemma host_call_steady env c st1 st2 :
  he_egress env = None → he_http env = None → he_s3 env = None →
  steady_call c = true → same_inside st1 st2 →
  (host_call env c st1).1 = (host_call env c st2).1 ∧
  same_inside (host_call env c st1).2 (host_call env c st2).2.
Proof.
  intros He Hh Hs Hc (H1 & H2 & H3 & H4 & H5). unfold same_inside.
  destruct c as [v|a|n a b|m u b h|a b|d o b|o l r]; simpl; rewrite ?He, ?Hh, ?Hs; try by split_and!.
  - unfold native_emit. rewrite H1. case_decide; simpl; by rewrite ?H1, ?H2, ?H3, ?H4, ?H5.
  - destruct (he_read env); by split_and!.
  - simpl in Hc. apply negb_true_iff in Hc.
    pose proof (native_sys_pure (he_secrets env) d o b (hs_uuids st1) (hs_uuids st2) (hs_net st1)
      (hs_net st2) Hc) as [Ha Hu1].
    pose proof (native_sys_pure (he_secrets env) d o b (hs_uuids st2) (hs_uuids st1) (hs_net st2)
      (hs_net st1) Hc) as [_ Hu2].
    destruct (native_sys _ _ _ _ (hs_uuids st1) _), (native_sys _ _ _ _ (hs_uuids st2) _). simpl in *.
    subst. by split_and!.
Qed.

Lemma interp_steady {R} env (prog : Prog R) st1 st2 :
  he_egress env = None → he_http env = None → he_s3 env = None →
  steady prog → same_inside st1 st2 →
  (interp env prog st1).1 = (interp env prog st2).1 ∧
  same_inside (interp env prog st1).2 (interp env prog st2).2.
Proof.
  intros He Hh Hs Hp. revert st1 st2. induction Hp as [r|c k Hc Hk IH]; intros st1 st2 Hst; [done|].
  simpl. destruct (host_call_steady env c st1 st2 He Hh Hs Hc Hst) as [Ha Hst'].
  destruct (host_call env c st1) as [a1 st1'], (host_call env c st2) as [a2 st2']. simpl in *.
  subst a2. by apply IH.
Qed.

Context (p : ExecParams World).
Context (Hprofile : ep_profile p = Deterministic).
Context (Heval : ∀ ctx, steady (ctx_eval ctx (ep_script p))).
Context (Hmod : ∀ ctx m, steady (mod_eval ctx m)).
Context (Hcall : ∀ ctx f v, steady (fn_call ctx f v)).

Lemma deterministic_env :
  he_egress (host_env p) = None ∧ he_http (host_env p) = None ∧ he_s3 (host_env p) = None.
Proof. unfold host_env. simpl. by rewrite !decide_False by (rewrite Hprofile; done). Qed.

Lemma run_in_context_steady cache (ctx : Ctx) st1 st2 : same_inside st1 st2 →
  (run_in_context p cache ctx st1).1 = (run_in_context p cache ctx st2).1 ∧
  same_inside (run_in_context p cache ctx st1).2 (run_in_context p cache ctx st2).2.
Proof.
  destruct deterministic_env as (He & Hh & Hs). intros Hst. unfold run_in_context.
  destruct (inject_all _ _) as [ctx1|e]; [|done].
  assert ((resolve_handler p cache ctx1 st1).1 = (resolve_handler p cache ctx1 st2).1 ∧
          same_inside (resolve_handler p cache ctx1 st1).2 (resolve_handler p cache ctx1 st2).2)
    as [Hr Hst1].
  { unfold resolve_handler, eval_module. destruct (is_es_module _).
    - destruct (obtain_declared _ _ _) as [[m|e] cache1]; [|done].
      destruct (interp_steady (host_env p) (mod_eval ctx1 m) st1 st2 He Hh Hs (Hmod _ _) Hst) as [Ha Hb].
      destruct (interp _ _ st1) as [[e1 c1] s1], (interp _ _ st2) as [[e2 c2] s2]. simpl in *.
      by simplify_eq.
    - destruct (interp_steady (host_env p) (ctx_eval ctx1 (ep_script p)) st1 st2 He Hh Hs (Heval _) Hst)
        as [Ha Hb].
      destruct (interp _ _ st1) as [[e1 c1] s1], (interp _ _ st2) as [[e2 c2] s2]. simpl in *.
      by simplify_eq. }
  destruct (resolve_handler p cache ctx1 st1) as [[r1 ca1] s1],
           (resolve_handler p cache ctx1 st2) as [[r2 ca2] s2]. simpl in *. simplify_eq.
  destruct r2 as [[f ctx2]|o]; [|done]. unfold invoke_handler.
  destruct (ctx_json_parse _ _) as [v|]; [|done].
  destruct (interp_steady (host_env p) (fn_call ctx2 f v) s1 s2 He Hh Hs (Hcall _ _ _) Hst1) as [Ha Hb].
  destruct (interp _ _ s1) as [e1 t1], (interp _ _ s2) as [e2 t2]. simpl in *. by simplify_eq.
Qed.
End dependence.

(** The native clock stays reachable under the deterministic profile: the sanitizer replaces the
    wrapper's [$sys.date.now], and [__sys] itself still answers with the time. *)
Lemma deterministic_clock_reachable {jt : JsonText} {World Net : Type} {net : NetLib Net}
    {sha : Sha256} (p : ExecParams World) (st : HostState World Net) payload v ms :
  ep_profile p = Deterministic → json_parse payload = Ok v →
  unix_millis (hs_net st) = Ok ms → in_i64 ms = true →
  (host_call (host_env p) (CallSys "date" "now" payload) st).1 =
    Some (sys_value_json (VNumber (pretty ms))).
Proof.
  intros _ Hv Hms Hr. cbn [host_call]. unfold native_sys, sys_dispatch. rewrite Hv.
  rewrite decide_False, decide_True by done. unfold date_dispatch, now_millis.
  rewrite decide_True, Hms by done. simpl. unfold checked_i64. by rewrite Hr.
Qed.

(** ** Properties *)

Section properties.
Context {jt : JsonText} {World Net : Type} {net : NetLib Net}.
Context {Cache : Type} {moka : Moka Cache (list ascii)} {sha : Sha256}.
Context {Ctx Fn JsVal Mod : Type} {compiler : ModuleCompiler Mod Caught}
  {js : QuickJs Ctx Fn JsVal Mod}.

(** C16: the budgets hold against any script.  However user code behaves, at top level or in its
    handler, one execution makes at most [max_ops] egress calls, meters at most [max_ops] HTTP and as
    many [s3] operations, and leaves at most [max_ops] effects; a successful result is within the
    output cap; and the only failure that yields no outcome is the creation of the context. *)
Theorem execution_budget (p : ExecParams World) (cache : option (BytecodeCache Cache)) (w : World)
    (n : Net) :
  let '(r, _, ((_, calls), _)) := engine_run (count_egress p) cache ((w, 0%nat), n) in
  (calls ≤ ep_max_ops p)%nat ∧
  match r with
  | Ok res => (length (er_effects res) ≤ ep_max_ops p)%nat ∧
      (length (er_http_metrics res) ≤ ep_max_ops p)%nat ∧
      (length (er_s3_metrics res) ≤ ep_max_ops p)%nat ∧
      (∀ json, er_outcome res = Success json →
         ep_max_output_size p = 0 ∨ str_len json ≤ ep_max_output_size p)
  | Err e => ∃ err, ctx_full = Err err ∧ e = Internal err
  end.
Proof.
  unfold engine_run. destruct ctx_full as [ctx|err]; [|split; [lia|eauto]]. cbn [fst snd].
  set (st0 := Build_HostState _ _ [] 0 (w, 0%nat) new_collector new_collector n 0).
  pose proof (run_in_context_inv (λ st, (length (hs_effects st) ≤ ep_max_ops p)%nat)
    (count_egress p) cache ctx st0 (host_call_effects (host_env (count_egress p))) ltac:(simpl; lia)) as Heff.
  pose proof (run_in_context_inv (metered (ep_max_ops p)) (count_egress p) cache ctx st0
    (host_call_metered (host_env (count_egress p))) ltac:(by unfold metered; simpl; auto with lia)) as Hmet.
  pose proof (run_in_context_inv
    (λ st, (hs_world st).2 = hs_used st ∧ (hs_used st ≤ ep_max_ops p)%nat)
    (count_egress p) cache ctx st0) as Hcnt.
  destruct Hcnt as [H1 H2].
  { intros c st [? ?]. by apply host_call_counted. }
  { simpl. lia. }
  destruct (run_in_context (count_egress p) cache ctx st0) as [[r c1] st1]. cbn [snd] in *.
  destruct (hs_world st1) as [w1 calls]. destruct Hmet as (Hp & Hl & Hq & Hm). simpl in *.
  split; [lia|]. rewrite Hp, Hq. split_and!; [|done|done|].
  - etrans; [apply length_filter|done].
  - intros json Hj. by eapply enforce_output_cap_ok.
Qed.

(** C18: the deterministic tier performs no I/O.  Under [Deterministic] the world behind the egress and
    the network are left untouched, and outcome, effects, metrics and cache are exactly those of the
    same request with every I/O capability and the egress withheld. *)
Theorem deterministic_no_io (p : ExecParams World) (cache : option (BytecodeCache Cache))
    (o : World * Net) (Hprofile : ep_profile p = Deterministic) :
  engine_run p cache o = engine_run (withhold p) cache o ∧ (engine_run p cache o).2 = o.
Proof.
  assert (injections p = injections (withhold p)) as Hi.
  { unfold injections, inject_apis. simpl. by rewrite Hprofile. }
  assert (host_env p = host_env (withhold p)) as He.
  { unfold host_env. simpl. by rewrite Hprofile. }
  split.
  - unfold engine_run, run_in_context, resolve_handler, eval_module, invoke_handler.
    by rewrite Hi, He.
  - unfold engine_run. destruct ctx_full as [ctx|err]; [|done].
    pose proof (run_in_context_inv (λ st, hs_world st = o.1 ∧ hs_net st = o.2) p cache ctx
      (Build_HostState _ _ [] 0 o.1 new_collector new_collector o.2 0)) as Hw.
    destruct (run_in_context p cache ctx _) as [[r c1] st1]. destruct Hw as [Hw Hn]; [|done|].
    + intros c st [<- <-]. apply host_call_no_io; unfold host_env; simpl; by rewrite Hprofile.
    + simpl in *. by rewrite Hw, Hn, <-surjective_pairing.
Qed.

End properties.

(** Error responses never leak internal context.  With [error_debug] off the envelope carries
    no debug object and is the same for every raw cause and stack; with it on, the debug object is
    all that is added. *)
Theorem envelope_redacts (e : EngineError) :
  into_envelope e false = into_envelope (scrub e) false ∧
  env_debug (into_envelope e false) = None ∧
  ∃ d, into_envelope e true =
    let v := into_envelope e false in
    {| env_category := env_category v; env_source := env_source v; env_code := env_code v;
       env_message := env_message v; env_retryable := env_retryable v; env_owner := env_owner v;
       env_details := env_details v; env_debug := d |}.
Proof. by destruct e; split_and!; try done; eexists. Qed.

(** C21: Secrets can be used but not read.  Whatever a script does with [__sys] and everything else it can
    reach, an execution depends on the operator's secrets only through their names and the HMAC digests
    computed under them: two configurations with the same plain values, names and digests give the same
    result, effects, cache, world and network. *)
Theorem secrets_only_through_hmac {jt : JsonText} {World Net : Type} {net : NetLib Net}
    {Cache : Type} {moka : Moka Cache (list ascii)} {sha : Sha256} {Ctx Fn JsVal Mod : Type}
    {compiler : ModuleCompiler Mod Caught} {js : QuickJs Ctx Fn JsVal Mod}
    (p : ExecParams World) (c1 c2 : SysConfig) (cache : option (BytecodeCache Cache))
    (o : World * Net) (Hc : sys_indistinguishable c1 c2) :
  engine_run (with_sys p c1) cache o = engine_run (with_sys p c2) cache o.
Proof.
  unfold engine_run. destruct ctx_full as [ctx|err]; [|done].
  by rewrite (run_in_context_sys p c1 c2 cache ctx _ Hc).
Qed.


(** A backend failure reaches the response intact.  An egress error thrown through its
    [__runlet] tag is classified as a capability error with its own code, retry hint, owner and
    details, the driver's message kept as the gated raw cause; an unknown source makes it a script
    error instead. *)
Theorem egress_error_roundtrip {jt : JsonText} (e : EgressError) (text : string)
    (message stack : option string) (timeout_ms : Z)
    (Hprint : json_print (to_tag e) = Some text) (Hparse : json_parse text = Ok (to_tag e)) :
  classify_throw (CaughtObject message stack (TagText (Some (to_tag_json e)))) false timeout_ms =
  match source_parse (ee_source e) with
  | Some s => Capability
      {| ce_source := s; ce_code := ee_code e; ce_retryable := ee_retryable e;
         ce_owner := ee_owner e; ce_raw := Some (ee_message e); ce_stack := read_str_prop stack;
         ce_details := reread_details (ee_details e) |}
  | None => Script (default EmptyString (read_str_prop message)) (read_str_prop stack)
  end.
Proof.
  unfold to_tag_json. rewrite Hprint. simpl. unfold from_str. rewrite Hparse, de_to_tag. simpl.
  rewrite owner_parse_str. by destruct (source_parse (ee_source e)).
Qed.

(** ** Witnesses *)

#[local] Instance trivial_json : JsonText := {|
  json_parse s := if decide (s = "tag")
                  then Ok (to_tag (EgressError_new "db" "DB_CONN" "connection refused"))
                  else Ok VNull;
  json_print v := match v with VObject _ => Some "tag" | _ => Some "null" end;
  json_type_error _ := "invalid type"; json_print_error _ := "unsupported" |}.
#[local] Instance no_sha : Sha256 := {| sha256 l := l |}.
Lemma unit_get_insert (c : unit) (k v k' w : list ascii) :
  @None (list ascii) = Some w → (k' = k ∧ w = v) ∨ @None (list ascii) = Some w.
Proof. done. Qed.
#[local] Instance no_cache : Moka unit (list ascii) := {|
  moka_new _ := (); moka_get _ _ := None; moka_insert _ _ _ := (); moka_entry_count _ := 0;
  moka_get_new _ _ := eq_refl; moka_get_insert := unit_get_insert |}.
Lemma no_write_load (m : string) (bytes : list ascii) :
  @None (list ascii) = Some bytes → @Ok string Caught EmptyString = Ok m.
Proof. done. Qed.
#[local] Instance no_compiler : ModuleCompiler string Caught := {|
  mod_declare := Ok; mod_write _ := None; mod_load _ := Ok EmptyString;
  mod_load_write := no_write_load |}.

(** The network of [Http], with an object store that is never asked. *)
#[local] Instance offline_store : S3Lib DemoNet := {|
  hmac_new key data := Ok (key ++ data); hex_encode := string_of; base64_encode := string_of;
  chrono_format fmt _ := Some fmt; s3_client := Ok (); s3_send _ _ n := (Err "offline", n) |}.
(** Digests and encodings that are the text itself (a MAC that ignores its key), a clock that stands still, integers for decimals. *)
#[local] Instance demo_sys : SysLib DemoNet := {|
  sha512 l := l; hmac_sha256_mac _ msg := Ok msg; hmac_sha512_mac _ msg := Ok msg;
  hex_text := string_of; hex_decode s := Ok (bytes_of s); b64_text := string_of;
  b64_decode s := Ok (bytes_of s); b64url_text := string_of; b64url_decode s := Ok (bytes_of s);
  utf8_decode l := Ok (string_of l); percent_decode := Ok; parse_rfc3339 _ := None;
  parse_ymd _ := None; show_rfc3339 _ := None; unix_millis n := Ok (Z.of_nat (length n));
  uuid_v4 _ k := pretty k |}.
#[local] Instance demo_decimal : RustDecimal Z := {|
  dec_from_str s := ok_or (parse_unsigned U64_MAX s) "not a number"; dec_to_string := pretty;
  dec_zero := 0; dec_of_u64 z := z; dec_abs := Z.abs; dec_checked_add a b := Some (a + b);
  dec_checked_sub a b := Some (a - b); dec_checked_mul a b := Some (a * b);
  dec_checked_div a b := Some (a / b); dec_cmp := Z.compare; dec_round_half_up z _ := z |}.
#[local] Instance demo_net : NetLib DemoNet := {|
  NetUrl := DemoUrl; net_url := demo_urls; net_dns := demo_dns; net_clock := demo_clock;
  net_client := demo_client; net_case := ascii_case; net_percent := reference_encoding;
  net_s3 := offline_store; net_sys := demo_sys; NetDecimal := Z; net_decimal := demo_decimal |}.

(** A script whose handler fetches a page, then calls [__io] and returns its answer, or throws when
    there is none. *)
#[local] Instance io_script : QuickJs (list Injection) unit string string := {|
  ctx_full := Ok [];
  ctx_inject ctx i := Ok (ctx ++ [i]);
  ctx_eval ctx _ := Ret (Evaluated, ctx);
  mod_eval ctx _ := Ret (Evaluated, ctx);
  mod_export _ _ _ := None;
  global_fn _ _ := Some ();
  ctx_remove ctx _ := Ok ctx;
  ctx_eval_determinism ctx := Ok ctx;
  ctx_json_parse _ s := Some s;
  fn_call _ _ _ := Host (CallHttp "GET" "https://api.example/v1" EmptyString EmptyString) (λ _,
    Host (CallIo "db" "query" "{}") (λ a, Ret (match a with
    | Some json => HandlerReturned (ReturnedString (Ok json))
    | None => HandlerThrew (CaughtObject (Some "'__io' is not defined") None TagNullish) false
    end))) |}.

Definition demo_params (profile : Profile) : ExecParams (list string) :=
  {| ep_cache_namespace := None; ep_script := "function handler() {}"; ep_context_json := "{}";
     ep_timeout_ms := 1000; ep_profile := profile;
     ep_caps := {| cs_allowed_hosts := ["api.example"]; cs_db := On; cs_mongo := Off; cs_mail := Off;
                   cs_s3 := None; cs_redis := Off; cs_amq := Off; cs_auth := Off; cs_sys := None |};
     ep_read_hook := None;
     ep_egress := Some (λ name action _ w, (Ok "[]", w ++ [name +:+ "." +:+ action]));
     ep_max_ops := 4; ep_max_output_size := 0;
     ep_allow_private_targets := false; ep_wildcard_hosts_allowed := false |}.

(** With the full profile the script reaches the network and the world. *)
Lemma full_profile_io :
  let '(r, _, (w, n)) :=
    engine_run (demo_params Full) (@None (BytecodeCache unit)) ([], [] : DemoNet) in
  (∃ res, r = Ok res ∧ er_outcome res = Success "[]" ∧ length (er_http_metrics res) = 1%nat) ∧
  w = ["db.query"] ∧ n = [(PublicUrl, IpV4 (Ipv4 93 184 216 34))].
Proof. vm_compute. split; [|done]. by eexists. Qed.

Lemma execution_budget_witness :
  ((engine_run (count_egress (demo_params Full)) (@None (BytecodeCache unit))
      (([], 0%nat), [] : DemoNet)).2.1.2 ≤ 4)%nat.
Proof.
  pose proof (execution_budget (demo_params Full) (@None (BytecodeCache unit)) [] ([] : DemoNet)) as Hb.
  destruct (engine_run (count_egress (demo_params Full)) None (([], 0%nat), []))
    as [[r c] [[w calls] n]].
  exact (proj1 Hb).
Defined.

Lemma deterministic_no_io_witness :
  (engine_run (demo_params Deterministic) (@None (BytecodeCache unit)) ([], [] : DemoNet)).2 = ([], []).
Proof. apply (deterministic_no_io (demo_params Deterministic) None ([], [])). reflexivity. Defined.


Lemma egress_error_roundtrip_witness :
  classify_throw (CaughtObject (Some "connection refused") None
    (TagText (Some (to_tag_json (EgressError_new "db" "DB_CONN" "connection refused"))))) false 1000 =
  Capability {| ce_source := SrcDb; ce_code := "DB_CONN"; ce_retryable := false;
                ce_owner := Operator; ce_raw := Some "connection refused"; ce_stack := None;
                ce_details := None |}.
Proof.
  apply (egress_error_roundtrip (EgressError_new "db" "DB_CONN" "connection refused") "tag"
    (Some "connection refused") None 1000); reflexivity.
Defined.

(** One secret under a given key. *)
Definition demo_secret (key : string) : SysConfig :=
  {| sys_env := [("region", VString "eu")]; sys_secrets := [("token", VString key)] |}.
Lemma secrets_only_through_hmac_witness :
  engine_run (with_sys (demo_params Full) (demo_secret "k1")) (@None (BytecodeCache unit))
    ([], [] : DemoNet) =
  engine_run (with_sys (demo_params Full) (demo_secret "another key")) (@None (BytecodeCache unit))
    ([], [] : DemoNet).
Proof.
  apply (secrets_only_through_hmac (demo_params Full) (demo_secret "k1") (demo_secret "another key")).
  split; [reflexivity|]. intros name. unfold secret_store. simpl.
  destruct (decide (name = "token")) as [->|Hne].
  - rewrite !lookup_insert. constructor. intros msg. done.
  - rewrite !lookup_insert_ne, !lookup_empty by done. constructor.
Defined.

