(* ===== verification/Determinism.v ===== *)
(** * Determinism: the hardening of a realm

    Models [harden] of [runlet-core/src/engine.rs] on the objects it works on: [sanitize_globals] and
    the script [runlet-core/src/js/determinism.js], as transformers of a heap of objects with shared
    references.  [Engine] sees the context through an interface; here is what the hardening does to
    the functions a handler can still reach: which names it disables, which functions survive it, and
    why a function reached by another way (a reference the top level kept, the [constructor] of a
    prototype) still reads the clock or the random source.

    Properties are own writable data properties, which is what the realm and [sys.js] create; a
    sanitizer statement that meets a primitive or a missing object where the script dereferences one
    is outside the model ([None]). *)

From S2P Require Import Prelude Engine.
Local Open Scope Z_scope.

(** ** Objects *)

Abbreviation loc := positive.
Inductive Val := Undefined | Prim | Ref (l : loc).

(** The functions the hardening is about: built-ins of the realm, the two of [sys.js] that reach the
    clock and the random source, and the closures of the sanitizer; [Plain] is any other. *)
Inductive Fun :=
| MathRandom | RealDate | DateNow | DateParse | DateUTC | SysDateNow | SysUuid
| EvalFn | ProxyFn | Plain
| Disabled (name : string)       (* [disabled(name)] *)
| SafeDate (real : loc).         (* closes over [RealDate] *)

Record Obj := { o_props : gmap string Val; o_fn : option Fun }.
Record Realm := { heap : gmap loc Obj; global : loc }.
#[export] Instance Val_eq_dec : EqDecision Val.
Proof. solve_decision. Defined.

(** [o.k], [o.k = v], [delete o.k] and a new function object. *)
Definition get (h : gmap loc Obj) (l : loc) (k : string) : Val :=
  match h !! l with Some o => default Undefined (o_props o !! k) | None => Undefined end.
Definition put (h : gmap loc Obj) (l : loc) (k : string) (v : Val) : gmap loc Obj :=
  alter (λ o, {| o_props := <[k := v]> (o_props o); o_fn := o_fn o |}) l h.
Definition remove (h : gmap loc Obj) (l : loc) (k : string) : gmap loc Obj :=
  alter (λ o, {| o_props := delete k (o_props o); o_fn := o_fn o |}) l h.
Definition new_function (h : gmap loc Obj) (f : Fun) : loc * gmap loc Obj :=
  let l := fresh (dom h) in (l, <[l := {| o_props := ∅; o_fn := Some f |}]> h).

(** [g.a.b.c]. *)
Fixpoint follow (h : gmap loc Obj) (v : Val) (path : list string) : Val :=
  match path with
  | [] => v
  | k :: rest => match v with Ref l => follow h (get h l k) rest | _ => Undefined end
  end.
Definition at_path (r : Realm) (path : list string) : Val := follow (heap r) (Ref (global r)) path.

(** ** Calling a function *)

(** What a call does, as far as determinism goes. *)
Inductive Effect :=
| Throws (message : string) | ReadsClock | ReadsRandom
| DateOf (args : list Z)         (* a [Date] for these arguments *)
| Steady.                        (* anything that depends on its arguments only *)

Definition fun_at (h : gmap loc Obj) (l : loc) : option Fun := h !! l ≫= o_fn.

(** [f(args)] and [new f(args)]; the fuel bounds how many sanitizers are stacked.  [Date] called
    without [new] returns the current time whatever its arguments; constructed, it reads at most
    seven. *)
Definition native_call (f : Fun) (is_new : bool) (args : list Z) : Effect :=
  match f with
  | MathRandom | SysUuid => ReadsRandom
  | DateNow | SysDateNow => ReadsClock
  | RealDate => if is_new then match args with [] => ReadsClock | _ => DateOf (take 7 args) end
                else ReadsClock
  | Disabled name => Throws (name +:+ " is disabled in the deterministic profile")
  | _ => Steady
  end.
Fixpoint call (fuel : nat) (h : gmap loc Obj) (l : loc) (is_new : bool) (args : list Z)
    : option Effect :=
  match fuel with
  | O => None
  | S fuel =>
      match fun_at h l with
      | None => None
      | Some (SafeDate real) =>
          match args with
          | [] => Some (Throws "new Date() (current time) is disabled in the deterministic profile")
          | _ => call fuel h real true (take 7 args)
          end
      | Some f => Some (native_call f is_new args)
      end
  end.

(** ** The hardening *)

Definition with_heap (r : Realm) (h : gmap loc Obj) : Realm := {| heap := h; global := global r |}.

(** [sanitize_globals]. *)
Definition sanitize_realm (r : Realm) : Realm :=
  with_heap r (remove (remove (heap r) (global r) "eval") (global r) "Proxy").

(** [o.k = disabled(name)]. *)
Definition disable (h : gmap loc Obj) (l : loc) (k name : string) : gmap loc Obj :=
  let '(f, h1) := new_function h (Disabled name) in put h1 l k (Ref f).

(** The three statements of [determinism.js]. *)
Definition disable_random (r : Realm) : option Realm :=
  match get (heap r) (global r) "Math" with
  | Undefined => Some r
  | Prim => None
  | Ref math => Some (with_heap r (disable (heap r) math "random" "Math.random"))
  end.
Definition replace_date (r : Realm) : option Realm :=
  match get (heap r) (global r) "Date" with
  | Undefined => Some r
  | Prim => None
  | Ref real =>
      let '(safe, h1) := new_function (heap r) (SafeDate real) in
      let h2 := put h1 safe "prototype" (get h1 real "prototype") in
      let h3 := put h2 safe "parse" (get h2 real "parse") in
      let h4 := put h3 safe "UTC" (get h3 real "UTC") in
      let h5 := disable h4 safe "now" "Date.now" in
      Some (with_heap r (put h5 (global r) "Date" (Ref safe)))
  end.
Definition disable_sys (r : Realm) : option Realm :=
  match get (heap r) (global r) "$sys" with
  | Undefined => Some r
  | Prim => None
  | Ref sys =>
      h1 ← match get (heap r) sys "date" with
           | Undefined => Some (heap r)
           | Prim => None
           | Ref date => Some (disable (heap r) date "now" "$sys.date.now")
           end;
      h2 ← match get h1 sys "crypto" with
           | Undefined => Some h1
           | Prim => None
           | Ref crypto => Some (disable h1 crypto "uuid" "$sys.crypto.uuid")
           end;
      Some (with_heap r h2)
  end.
Definition sanitize_determinism (r : Realm) : option Realm :=
  r1 ← disable_random r; r2 ← replace_date r1; disable_sys r2.

(** [harden]. *)
Definition harden_realm (r : Realm) (profile : Profile) : option Realm :=
  match profile with Full => Some (sanitize_realm r) | Deterministic => sanitize_determinism (sanitize_realm r) end.

(** ** Lemmas *)

(** A heap that grew: the objects it had are there, with the functions they were. *)
Definition grows (h h1 : gmap loc Obj) : Prop :=
  ∀ l o, h !! l = Some o → ∃ o1, h1 !! l = Some o1 ∧ o_fn o1 = o_fn o.
#[export] Instance grows_preorder : PreOrder grows.
Proof.
  split; [intros h l o Ho; eauto|]. intros h1 h2 h3 H12 H23 l o Ho.
  destruct (H12 l o Ho) as (o2 & Ho2 & E2). destruct (H23 l o2 Ho2) as (o3 & Ho3 & E3).
  exists o3. split; [done|congruence].
Qed.
Lemma grows_fun h h1 l f : grows h h1 → fun_at h l = Some f → fun_at h1 l = Some f.
Proof.
  intros Hg. unfold fun_at. destruct (h !! l) as [o|] eqn:E; [|done]. simpl. intros Hf.
  destruct (Hg l o E) as (o1 & -> & E1). simpl. congruence.
Qed.
Lemma grows_some h h1 l : grows h h1 → is_Some (h !! l) → is_Some (h1 !! l).
Proof. intros Hg [o Ho]. destruct (Hg l o Ho) as (o1 & -> & _). eauto. Qed.

Lemma grows_alter (g : gmap string Val → gmap string Val) h l :
  grows h (alter (λ o, {| o_props := g (o_props o); o_fn := o_fn o |}) l h).
Proof.
  intros l1 o Ho. rewrite lookup_alter. case_decide; [|eauto]. subst. rewrite Ho. simpl. eauto.
Qed.
Lemma grows_new h f : grows h (new_function h f).2.
Proof.
  intros l o Ho. simpl. rewrite lookup_insert_ne; [eauto|]. intros <-.
  apply elem_of_dom_2 in Ho. by apply is_fresh in Ho.
Qed.
Lemma grows_disable h l k name : grows h (disable h l k name).
Proof. unfold disable. etrans; [apply (grows_new h)|apply grows_alter]. Qed.

Lemma get_put h l k v l1 k1 :
  is_Some (h !! l) →
  get (put h l k v) l1 k1 = if decide (l1 = l ∧ k1 = k) then v else get h l1 k1.
Proof.
  intros [o Ho]. unfold get, put. rewrite lookup_alter. destruct (decide (l = l1)) as [<-|Hne].
  - rewrite Ho. simpl. rewrite lookup_insert. repeat case_decide; naive_solver.
  - rewrite decide_False by naive_solver. done.
Qed.
Lemma get_remove h l k l1 k1 :
  get (remove h l k) l1 k1 = if decide (l1 = l ∧ k1 = k) then Undefined else get h l1 k1.
Proof.
  unfold get, remove. rewrite lookup_alter. destruct (decide (l = l1)) as [<-|Hne].
  - destruct (h !! l) as [o|]; simpl; [|by repeat case_decide].
    rewrite lookup_delete. repeat case_decide; naive_solver.
  - by rewrite decide_False by naive_solver.
Qed.
(** A new function has no properties, so no property read changes. *)
Lemma get_new h f l k : get (new_function h f).2 l k = get h l k.
Proof.
  unfold get. simpl. rewrite lookup_insert. case_decide as Hl; [|done]. subst. simpl.
  rewrite lookup_empty. destruct (h !! fresh (dom h)) as [o|] eqn:E; [|done].
  apply elem_of_dom_2 in E. by apply is_fresh in E.
Qed.
Lemma new_function_at h f : fun_at (new_function h f).2 (new_function h f).1 = Some f.
Proof. unfold fun_at. simpl. by rewrite lookup_insert_eq. Qed.
Lemma new_function_new h f : h !! (new_function h f).1 = None.
Proof. simpl. apply not_elem_of_dom. apply is_fresh. Qed.

(** [disable]: one property now holds a function that throws; nothing else changes. *)
Lemma disable_spec h l k name :
  is_Some (h !! l) →
  ∃ f, h !! f = None ∧ fun_at (disable h l k name) f = Some (Disabled name) ∧
    ∀ l1 k1, get (disable h l k name) l1 k1 = if decide (l1 = l ∧ k1 = k) then Ref f else get h l1 k1.
Proof.
  intros Hl. exists (new_function h (Disabled name)).1. split_and!.
  - apply new_function_new.
  - unfold disable. simpl. eapply grows_fun; [apply grows_alter|].
    exact (new_function_at h (Disabled name)).
  - intros l1 k1. unfold disable.
    pose proof (get_new h (Disabled name) l1 k1) as Hn. simpl in *. rewrite get_put, Hn; [done|].
    eapply grows_some, Hl. apply (grows_new h).
Qed.

(** The three properties the replacement takes over. *)
Lemma statics_copied h safe real :
  is_Some (h !! safe) → safe ≠ real →
  let h2 := put h safe "prototype" (get h real "prototype") in
  let h3 := put h2 safe "parse" (get h2 real "parse") in
  let h4 := put h3 safe "UTC" (get h3 real "UTC") in
  grows h h4 ∧ (∀ k, k ∈ ["prototype"; "parse"; "UTC"] → get h4 safe k = get h real k) ∧
  ∀ l k, l ≠ safe → get h4 l k = get h l k.
Proof.
  intros S1 Hne h2 h3 h4.
  assert (grows h h2) as R2 by apply grows_alter. assert (grows h2 h3) as R3 by apply grows_alter.
  assert (grows h3 h4) as R4 by apply grows_alter.
  assert (is_Some (h2 !! safe)) as S2 by (by eapply grows_some).
  assert (is_Some (h3 !! safe)) as S3 by (by eapply grows_some).
  assert (∀ l k, l ≠ safe → get h2 l k = get h l k ∧ get h3 l k = get h l k ∧ get h4 l k = get h l k) as Hout.
  { intros l k Hl.
    assert (∀ h0 k0 v, is_Some (h0 !! safe) → get (put h0 safe k0 v) l k = get h0 l k) as Hput
      by (intros h0 k0 v S0; rewrite get_put, decide_False by naive_solver; done).
    assert (get h2 l k = get h l k) as E2 by (by apply Hput).
    assert (get h3 l k = get h2 l k) as E3 by (by apply Hput).
    assert (get h4 l k = get h3 l k) as E4 by (by apply Hput). split_and!; congruence. }
  split; [by rewrite R2, R3|]. split; [|intros l k Hl; apply Hout; done].
  intros k Hk. unfold h4. rewrite (get_put h3) by done. unfold h3 at 2. rewrite (get_put h2) by done.
  unfold h2 at 2. rewrite (get_put h) by done. destruct (Hout real "UTC") as (_ & -> & _); [done|].
  destruct (Hout real "parse") as (-> & _); [done|].
  repeat (apply elem_of_cons in Hk as [->|Hk]; [repeat case_decide; naive_solver|]). by apply elem_of_nil in Hk.
Qed.

(** [replace_date] on a realm that has the built-in. *)
Lemma replace_date_spec r real :
  get (heap r) (global r) "Date" = Ref real → is_Some (heap r !! global r) →
  is_Some (heap r !! real) →
  ∃ r1 safe now, replace_date r = Some r1 ∧ global r1 = global r ∧ grows (heap r) (heap r1) ∧
    heap r !! safe = None ∧ fun_at (heap r1) safe = Some (SafeDate real) ∧
    fun_at (heap r1) now = Some (Disabled "Date.now") ∧
    get (heap r1) safe "now" = Ref now ∧
    (∀ k, k ∈ ["prototype"; "parse"; "UTC"] → get (heap r1) safe k = get (heap r) real k) ∧
    get (heap r1) (global r) "Date" = Ref safe ∧
    ∀ l k, is_Some (heap r !! l) → ¬ (l = global r ∧ k = "Date") → get (heap r1) l k = get (heap r) l k.
Proof.
  intros Hd Hg Hr. unfold replace_date. rewrite Hd.
  destruct (new_function (heap r) (SafeDate real)) as [safe h1] eqn:En.
  pose proof (get_new (heap r) (SafeDate real)) as G1. pose proof (grows_new (heap r) (SafeDate real)) as R1.
  pose proof (new_function_at (heap r) (SafeDate real)) as F1.
  pose proof (new_function_new (heap r) (SafeDate real)) as N1. rewrite En in *. cbn [fst snd] in *.
  assert (is_Some (h1 !! safe)) as S1 by (unfold fun_at in F1; destruct (h1 !! safe); [eauto|done]).
  assert (∀ l, is_Some (heap r !! l) → l ≠ safe) as Hold by (intros l [? Hl] ->; congruence).
  destruct (statics_copied h1 safe real S1) as (R4 & Hcopy & Hout4); [by apply not_eq_sym, Hold|].
  set (h4 := put _ safe "UTC" _) in *. assert (is_Some (h4 !! safe)) as S4 by (by eapply grows_some).
  destruct (disable_spec h4 safe "now" "Date.now" S4) as (now & _ & Fn & G5).
  set (h5 := disable h4 safe "now" "Date.now") in *.
  assert (grows h4 h5) as R5 by apply grows_disable. assert (grows (heap r) h5) as R15 by (by rewrite R1, R4).
  set (h6 := put h5 (global r) "Date" (Ref safe)). assert (grows h5 h6) as R6 by apply grows_alter.
  assert (∀ l k, get h6 l k = if decide (l = global r ∧ k = "Date") then Ref safe else get h5 l k) as G6
    by (intros l k; apply get_put; by eapply grows_some).
  pose proof (Hold _ Hg) as Hgs.
  exists (with_heap r h6), safe, now. split; [done|]. cbn [heap global with_heap].
  split; [done|]. split; [by rewrite R15|]. split; [done|].
  split; [by apply (grows_fun _ _ _ _ R6), (grows_fun _ _ _ _ R5), (grows_fun _ _ _ _ R4)|].
  split; [by apply (grows_fun _ _ _ _ R6)|].
  split; [by rewrite G6, decide_False, G5, decide_True by naive_solver|].
  split; [|split; [by rewrite G6, decide_True|]].
  - intros k Hk. rewrite G6, decide_False, G5, decide_False, Hcopy, G1; [done|done| |naive_solver].
    intros [_ ->]. by repeat (apply elem_of_cons in Hk as [Hk|Hk]; [done|]); apply elem_of_nil in Hk.
  - intros l k Hl Hne. rewrite G6, decide_False, G5, decide_False, Hout4, G1; [done|by apply Hold| |done].
    intros [-> _]. by destruct (Hold _ Hl).
Qed.

(** A place that is not among some others. *)
Ltac elsewhere :=
  intros Hin; simpl in Hin;
  repeat (apply elem_of_cons in Hin as [Hin|Hin]; [simplify_eq|]); by apply elem_of_nil in Hin.

(** The realm as the engine sets it up before the script: where the objects of the sanitizer are. *)
Record standard (r : Realm) (math date sys sys_date sys_crypto : loc) : Prop := {
  st_global : is_Some (heap r !! global r);
  st_math : at_path r ["Math"] = Ref math ∧ is_Some (heap r !! math);
  st_date : at_path r ["Date"] = Ref date ∧ is_Some (heap r !! date);
  st_sys : at_path r ["$sys"] = Ref sys ∧ is_Some (heap r !! sys);
  st_sys_date : get (heap r) sys "date" = Ref sys_date ∧ is_Some (heap r !! sys_date);
  st_sys_crypto : get (heap r) sys "crypto" = Ref sys_crypto ∧ is_Some (heap r !! sys_crypto) }.

(** A heap that grew and whose old objects changed at these places only. *)
Definition changed (places : list (loc * string)) (h h1 : gmap loc Obj) : Prop :=
  grows h h1 ∧ ∀ l k, is_Some (h !! l) → (l, k) ∉ places → get h1 l k = get h l k.
Lemma changed_get places h h1 l k :
  changed places h h1 → is_Some (h !! l) → (l, k) ∉ places → get h1 l k = get h l k.
Proof. intros [_ Hc]. auto. Qed.
Lemma changed_trans p1 p2 h h1 h2 : changed p1 h h1 → changed p2 h1 h2 → changed (p1 ++ p2) h h2.
Proof.
  intros [G1 C1] [G2 C2]. split; [by rewrite G1|]. intros l k Hl Hk.
  rewrite not_elem_of_app in Hk. rewrite C2, C1; [done|done|tauto|by eapply grows_some|tauto].
Qed.
Lemma disable_changed h l k name :
  is_Some (h !! l) → changed [(l, k)] h (disable h l k name) ∧
  ∃ f, get (disable h l k name) l k = Ref f ∧ fun_at (disable h l k name) f = Some (Disabled name).
Proof.
  intros Hl. destruct (disable_spec h l k name Hl) as (f & _ & Hf & Hg). split.
  - split; [apply grows_disable|]. intros l1 k1 _ Hk. rewrite Hg, decide_False; [done|].
    intros [-> ->]. set_solver.
  - exists f. by rewrite Hg, decide_True.
Qed.

(** A disabled property stays disabled while it is left alone. *)
Definition disabled_at (h : gmap loc Obj) (l : loc) (k name : string) : Prop :=
  ∃ f, get h l k = Ref f ∧ fun_at h f = Some (Disabled name).
Lemma disabled_kept places h h1 l k name :
  changed places h h1 → is_Some (h !! l) → (l, k) ∉ places → disabled_at h l k name →
  disabled_at h1 l k name.
Proof.
  intros Hc Hl Hk (f & Hg & Hf). exists f. split; [by erewrite changed_get|].
  eapply grows_fun, Hf. apply Hc.
Qed.
Lemma disabled_throws h l k name :
  disabled_at h l k name → ∃ f, get h l k = Ref f ∧ ∀ is_new args, call 1 h f is_new args =
    Some (Throws (name +:+ " is disabled in the deterministic profile")).
Proof. intros (f & Hg & Hf). exists f. split; [done|]. intros. simpl. by rewrite Hf. Qed.

Lemma sanitize_realm_changed r :
  changed [(global r, "eval"); (global r, "Proxy")] (heap r) (heap (sanitize_realm r)) ∧
  get (heap (sanitize_realm r)) (global r) "eval" = Undefined ∧
  get (heap (sanitize_realm r)) (global r) "Proxy" = Undefined.
Proof.
  unfold sanitize_realm. simpl. split_and!.
  - split; [etrans; apply grows_alter|]. intros l k _ Hk. rewrite !get_remove.
    rewrite !decide_False; [done|..]; intros [-> ->]; set_solver.
  - rewrite !get_remove. by repeat case_decide; naive_solver.
  - by rewrite get_remove, decide_True.
Qed.

(** [disable_sys] on a realm that has both objects. *)
Lemma disable_sys_spec r sys sys_date sys_crypto :
  get (heap r) (global r) "$sys" = Ref sys → is_Some (heap r !! sys) →
  get (heap r) sys "date" = Ref sys_date → is_Some (heap r !! sys_date) →
  get (heap r) sys "crypto" = Ref sys_crypto → is_Some (heap r !! sys_crypto) →
  ∃ h1, disable_sys r = Some (with_heap r h1) ∧
    changed [(sys_date, "now"); (sys_crypto, "uuid")] (heap r) h1 ∧
    disabled_at h1 sys_date "now" "$sys.date.now" ∧ disabled_at h1 sys_crypto "uuid" "$sys.crypto.uuid".
Proof.
  intros Hs Ss Hd Sd Hc Sc. unfold disable_sys. rewrite Hs, Hd. cbn [mbind option_bind].
  destruct (disable_changed (heap r) sys_date "now" "$sys.date.now" Sd) as (C1 & D1).
  set (h1 := disable (heap r) sys_date "now" "$sys.date.now") in *.
  rewrite (changed_get _ _ _ _ _ C1), Hc by (done || elsewhere). cbn [mbind option_bind].
  assert (∀ l, is_Some (heap r !! l) → is_Some (h1 !! l)) as S1 by (intros l; apply grows_some, C1).
  destruct (disable_changed h1 sys_crypto "uuid" "$sys.crypto.uuid" (S1 _ Sc)) as (C2 & D2).
  eexists. split; [reflexivity|]. split; [exact (changed_trans _ _ _ _ _ C1 C2)|]. split; [|exact D2].
  eapply disabled_kept; [exact C2|auto|elsewhere|exact D1].
Qed.

(** The whole hardening of a standard realm. *)
Lemma harden_spec r math date sys sys_date sys_crypto :
  standard r math date sys sys_date sys_crypto →
  ∃ r1 safe, harden_realm r Deterministic = Some r1 ∧ global r1 = global r ∧
    changed [(global r, "eval"); (global r, "Proxy"); (math, "random"); (global r, "Date");
             (sys_date, "now"); (sys_crypto, "uuid")] (heap r) (heap r1) ∧
    at_path r1 ["eval"] = Undefined ∧ at_path r1 ["Proxy"] = Undefined ∧
    disabled_at (heap r1) math "random" "Math.random" ∧
    disabled_at (heap r1) sys_date "now" "$sys.date.now" ∧
    disabled_at (heap r1) sys_crypto "uuid" "$sys.crypto.uuid" ∧
    at_path r1 ["Date"] = Ref safe ∧ fun_at (heap r1) safe = Some (SafeDate date) ∧
    disabled_at (heap r1) safe "now" "Date.now" ∧
    ∀ k, k ∈ ["prototype"; "parse"; "UTC"] → get (heap r1) safe k = get (heap r) date k.
Proof.
  intros [Hg [Hm Sm] [Hd Sd] [Hs Ss] [Hsd Ssd] [Hsc Ssc]]. unfold at_path in *. simpl in *.
  destruct (sanitize_realm_changed r) as (C0 & E0 & P0).
  assert (global (sanitize_realm r) = global r) as Hgl by done.
  unfold harden_realm, sanitize_determinism, disable_random.
  generalize dependent (sanitize_realm r). intros [h0 g0] C0 E0 P0 Hgl. simpl in *. subst g0.
  assert (∀ l, is_Some (heap r !! l) → is_Some (h0 !! l)) as S0 by (intros l; apply grows_some, C0).
  rewrite (changed_get _ _ _ _ _ C0), Hm by (done || elsewhere). cbn [mbind option_bind].
  destruct (disable_changed h0 math "random" "Math.random" (S0 _ Sm)) as (C1 & D1).
  unfold with_heap at 1. simpl. set (h1 := disable h0 math "random" "Math.random") in *.
  pose proof (changed_trans _ _ _ _ _ C0 C1) as C01.
  assert (∀ l, is_Some (heap r !! l) → is_Some (h1 !! l)) as S1 by (intros l; apply grows_some, C01).
  destruct (replace_date_spec {| heap := h1; global := global r |} date) as
    (r2 & safe & now & -> & Hgl2 & G2 & N2 & F2 & Fn2 & Hnow2 & Hk2 & Hdate2 & Hrest2); simpl in *;
    [by rewrite (changed_get _ _ _ _ _ C01) by (done || elsewhere)|auto..|].
  assert (changed [(global r, "Date")] h1 (heap r2)) as C2.
  { split; [done|]. intros l k Hl Hk. apply Hrest2; [done|]. intros [-> ->]. apply Hk. by left. }
  pose proof (changed_trans _ _ _ _ _ C01 C2) as C02.
  assert (∀ l, is_Some (heap r !! l) → is_Some (heap r2 !! l)) as S2 by (intros l; apply grows_some, C02).
  destruct (disable_sys_spec r2 sys sys_date sys_crypto) as (h3 & -> & C3 & D3 & D4);
    try (rewrite ?Hgl2, (changed_get _ _ _ _ _ C02) by (done || elsewhere)); auto.
  assert (is_Some (heap r2 !! safe)) as Ssafe by (unfold fun_at in F2; destruct (heap r2 !! safe); [eauto|done]).
  assert (safe ≠ sys_date ∧ safe ≠ sys_crypto) as [Hne1 Hne2]
    by (split; intros <-; [destruct (S1 _ Ssd)|destruct (S1 _ Ssc)]; congruence).
  pose proof (changed_trans _ _ _ _ _ C2 C3) as C23. pose proof (changed_trans _ _ _ _ _ C1 C23) as C13.
  exists (with_heap r2 h3), safe. simpl. rewrite Hgl2.
  split; [done|]. split; [done|]. split; [exact (changed_trans _ _ _ _ _ C02 C3)|].
  split; [rewrite (changed_get _ _ _ _ _ C13); auto; elsewhere|].
  split; [rewrite (changed_get _ _ _ _ _ C13); auto; elsewhere|].
  split; [eapply disabled_kept; [exact C23|auto|elsewhere|exact D1]|]. split; [done|]. split; [done|].
  split; [rewrite (changed_get _ _ _ _ _ C3); auto; elsewhere|].
  split; [eapply grows_fun, F2; apply C3|].
  split; [eapply disabled_kept; [exact C3|auto|elsewhere|by exists now]|].
  intros k Hk. rewrite (changed_get _ _ _ _ _ C3), Hk2 by (auto || elsewhere).
  apply (changed_get _ _ _ _ _ C01); [done|].
  repeat (apply elem_of_cons in Hk as [->|Hk]; [elsewhere|]). by apply elem_of_nil in Hk.
Qed.

(** ** Ways around the sanitizer *)

(** The hardening renames: a function someone holds a reference to is what it was.  The top level of
    a script runs before [harden], so what it keeps of [Math.random] or [Date] works afterwards. *)
Lemma captured_function_survives r math date sys sys_date sys_crypto r1 l f :
  standard r math date sys sys_date sys_crypto → harden_realm r Deterministic = Some r1 →
  fun_at (heap r) l = Some f → (∀ real, f ≠ SafeDate real) →
  ∀ is_new args, call 1 (heap r1) l is_new args = Some (native_call f is_new args).
Proof.
  intros Hst Hr1 Hf Hns is_new args.
  destruct (harden_spec _ _ _ _ _ _ Hst) as (r2 & safe & Hr2 & _ & [Hg _] & _).
  rewrite Hr1 in Hr2. injection Hr2 as <-. apply (grows_fun _ _ _ _ Hg) in Hf. simpl. rewrite Hf.
  destruct f; try done. by destruct (Hns real).
Qed.

(** The replacement shares its prototype with the built-in, whose [constructor] is the built-in: the
    clock is one property away from the [Date] a handler sees. *)
Lemma real_date_reachable r math date sys sys_date sys_crypto r1 proto :
  standard r math date sys sys_date sys_crypto → harden_realm r Deterministic = Some r1 →
  fun_at (heap r) date = Some RealDate →
  get (heap r) date "prototype" = Ref proto → is_Some (heap r !! proto) →
  get (heap r) proto "constructor" = Ref date →
  at_path r1 ["Date"; "prototype"; "constructor"] = Ref date ∧
  call 1 (heap r1) date true [] = Some ReadsClock.
Proof.
  intros Hst Hr1 Hf Hp Sp Hc. split; [|by apply (captured_function_survives _ _ _ _ _ _ _ _ _ Hst Hr1 Hf)].
  destruct (harden_spec _ _ _ _ _ _ Hst) as
    (r2 & safe & Hr2 & _ & Hch & _ & _ & _ & _ & _ & Hd & _ & _ & Hk).
  rewrite Hr1 in Hr2. injection Hr2 as <-. unfold at_path in *. simpl in *. rewrite Hd, Hk, Hp by (by left).
  rewrite (changed_get _ _ _ _ _ Hch); [done|done|elsewhere].
Qed.

(** ** Properties *)

(** C20: the hardening disables exactly the names it lists.  In a realm set up as the engine does,
    whatever else its heap holds, the deterministic hardening succeeds; [eval] and [Proxy] are gone;
    [Math.random], [Date.now], [$sys.date.now] and [$sys.crypto.uuid] throw however they are called;
    [Date] without arguments throws, and constructed with arguments is the date the built-in gives;
    the statics and the prototype of [Date] are the built-in's; and no other property of any object
    the realm had, and no function, changes. *)
Theorem harden_disables_names (r : Realm) (math date sys sys_date sys_crypto : loc)
    (Hst : standard r math date sys sys_date sys_crypto) (Hreal : fun_at (heap r) date = Some RealDate) :
  ∃ r1 safe, harden_realm r Deterministic = Some r1 ∧
    at_path r1 ["eval"] = Undefined ∧ at_path r1 ["Proxy"] = Undefined ∧
    (∀ path name, (path, name) ∈
       [(["Math"; "random"], "Math.random"); (["Date"; "now"], "Date.now");
        (["$sys"; "date"; "now"], "$sys.date.now"); (["$sys"; "crypto"; "uuid"], "$sys.crypto.uuid")] →
       ∃ f, at_path r1 path = Ref f ∧ ∀ is_new args, call 1 (heap r1) f is_new args =
         Some (Throws (name +:+ " is disabled in the deterministic profile"))) ∧
    at_path r1 ["Date"] = Ref safe ∧
    (∀ is_new, call 1 (heap r1) safe is_new [] =
       Some (Throws "new Date() (current time) is disabled in the deterministic profile")) ∧
    (∀ is_new args, args ≠ [] → call 2 (heap r1) safe is_new args = call 1 (heap r) date true args) ∧
    (∀ k, k ∈ ["prototype"; "parse"; "UTC"] → get (heap r1) safe k = get (heap r) date k) ∧
    (∀ l f, fun_at (heap r) l = Some f → fun_at (heap r1) l = Some f) ∧
    ∀ l k, is_Some (heap r !! l) →
      (l, k) ∉ [(global r, "eval"); (global r, "Proxy"); (math, "random"); (global r, "Date");
                (sys_date, "now"); (sys_crypto, "uuid")] → get (heap r1) l k = get (heap r) l k.
Proof.
  destruct (harden_spec _ _ _ _ _ _ Hst) as
    (r1 & safe & Hr1 & Hgl & Hch & He & Hp & Dm & Ds & Dc & Hd & Hf & Dn & Hk).
  destruct Hst as [Hg [Hm Sm] _ [Hs Ss] [Hsd Ssd] [Hsc Ssc]]. unfold at_path in Hm, Hs. simpl in Hm, Hs.
  exists r1, safe. split_and!; try done.
  - intros path name Hin. unfold at_path in *. simpl in Hd. rewrite Hgl in *.
    repeat (apply elem_of_cons in Hin as [[= -> ->]|Hin]; [simpl|]); [| | | |by apply elem_of_nil in Hin].
    + rewrite (changed_get _ _ _ _ _ Hch), Hm by (done || elsewhere). by apply disabled_throws.
    + rewrite Hd. by apply disabled_throws.
    + rewrite (changed_get _ _ _ _ _ Hch), Hs by (done || elsewhere).
      rewrite (changed_get _ _ _ _ _ Hch), Hsd by (done || elsewhere). by apply disabled_throws.
    + rewrite (changed_get _ _ _ _ _ Hch), Hs by (done || elsewhere).
      rewrite (changed_get _ _ _ _ _ Hch), Hsc by (done || elsewhere). by apply disabled_throws.
  - intros is_new. simpl. by rewrite Hf.
  - intros is_new args Hne. simpl. rewrite Hf, (grows_fun _ _ _ _ (proj1 Hch) Hreal), Hreal.
    destruct args as [|a args]; [done|]. simpl. by rewrite take_take.
  - intros l f. apply grows_fun, Hch.
  - intros l k. by apply changed_get.
Qed.

(** ** Witness *)

Definition obj (props : list (string * Val)) (f : option Fun) : Obj :=
  {| o_props := list_to_map props; o_fn := f |}.
(** The global object, [Math], [Date] with its prototype, and [$sys]. *)
Definition demo_realm : Realm :=
  {| global := 1%positive;
     heap := list_to_map [
       (1%positive, obj [("Math", Ref 2); ("Date", Ref 4); ("$sys", Ref 9); ("eval", Ref 14); ("Proxy", Ref 15)] None);
       (2%positive, obj [("random", Ref 3)] None); (3%positive, obj [] (Some MathRandom));
       (4%positive, obj [("now", Ref 5); ("parse", Ref 6); ("UTC", Ref 7); ("prototype", Ref 8)] (Some RealDate));
       (5%positive, obj [] (Some DateNow)); (6%positive, obj [] (Some DateParse));
       (7%positive, obj [] (Some DateUTC)); (8%positive, obj [("constructor", Ref 4)] None);
       (9%positive, obj [("date", Ref 10); ("crypto", Ref 12)] None);
       (10%positive, obj [("now", Ref 11)] None); (11%positive, obj [] (Some SysDateNow));
       (12%positive, obj [("uuid", Ref 13)] None); (13%positive, obj [] (Some SysUuid));
       (14%positive, obj [] (Some EvalFn)); (15%positive, obj [] (Some ProxyFn))] |}.
Lemma demo_standard : standard demo_realm 2 4 9 10 12.
Proof. constructor; repeat split; try (vm_compute; reflexivity); by eexists; vm_compute. Qed.

Lemma harden_disables_names_witness :
  ∃ r1 f, harden_realm demo_realm Deterministic = Some r1 ∧ at_path r1 ["Math"; "random"] = Ref f ∧
    call 1 (heap r1) f false [] = Some (Throws "Math.random is disabled in the deterministic profile").
Proof.
  destruct (harden_disables_names demo_realm 2 4 9 10 12 demo_standard ltac:(vm_compute; reflexivity))
    as (r1 & safe & Hr1 & _ & _ & Hnames & _).
  destruct (Hnames ["Math"; "random"] "Math.random") as (f & Hf & Hcall); [by left|].
  exists r1, f. split; [exact Hr1|]. split; [exact Hf|exact (Hcall false [])].
Defined.

(** The clock, read by a handler under the deterministic profile. *)
Example demo_clock_read :
  (λ r1, (at_path r1 ["Date"; "prototype"; "constructor"], call 1 (heap r1) 4 true [],
          at_path r1 ["Date"; "prototype"; "constructor"; "now"], call 1 (heap r1) 5 false []))
    <$> harden_realm demo_realm Deterministic =
  Some (Ref 4, Some ReadsClock, Ref 5, Some ReadsClock).
Proof. vm_compute. reflexivity. Qed.
