(* ===== verification/Timeout.v ===== *)
(** * Timeout: the interrupt handler of an execution

    Models [setup_timeout] of [runlet-core/src/engine.rs] and how the flag it returns is read.
    QuickJS calls the interrupt handler from time to time while it runs script code and, when the
    handler answers true, ends the script with an exception that script code cannot catch.  The calls
    it would make are a list of clock readings; how far apart they are is QuickJS's and the native
    functions' affair, and a parameter of the bound. *)

From S2P Require Import Prelude Json Errors Wire Engine.
Local Open Scope Z_scope.

(** ** The handler *)

(** The clock at the start, the limit, and the shared flag. *)
Record Deadline := { dl_start : Z; dl_timeout : Z; timed_out : bool }.
Definition setup_timeout (now timeout : Z) : Deadline :=
  {| dl_start := now; dl_timeout := timeout; timed_out := false |}.

(** [Instant::elapsed], which saturates at zero. *)
Definition elapsed (start now : Z) : Z := Z.max 0 (now - start).

(** The closure: whether to interrupt, and the flag as it leaves it. *)
Definition interrupt (d : Deadline) (now : Z) : bool * Deadline :=
  let exceeded := bool_decide (dl_timeout d < elapsed (dl_start d) now) in
  (exceeded, if exceeded then {| dl_start := dl_start d; dl_timeout := dl_timeout d; timed_out := true |} else d).

(** A stretch of script code that would call the handler at these instants. *)
Inductive Stretch := RanToEnd | Interrupted (now : Z).
Fixpoint run_polled (d : Deadline) (polls : list Z) : Stretch * Deadline :=
  match polls with
  | [] => (RanToEnd, d)
  | now :: rest =>
      match interrupt d now with
      | (true, d1) => (Interrupted now, d1)
      | (false, d1) => run_polled d1 rest
      end
  end.

(** One execution: the top level, then the handler, under the same deadline; [caught] is what is
    read off an exception ([classify_eval_error] for the top level, [classify_throw] for the
    handler). *)
Definition run_deadline `{!JsonText} (now timeout : Z) (toplevel handler : list Z) (caught : Caught)
    : option EngineError :=
  match run_polled (setup_timeout now timeout) toplevel with
  | (Interrupted _, _) => Some (classify_eval_error caught)
  | (RanToEnd, d) =>
      match run_polled d handler with
      | (Interrupted _, d1) => Some (classify_throw caught (timed_out d1) timeout)
      | (RanToEnd, _) => None
      end
  end.

(** Readings that go forward, at most [gap] apart. *)
Fixpoint paced (gap prev : Z) (polls : list Z) : Prop :=
  match polls with [] => True | now :: rest => prev ≤ now ≤ prev + gap ∧ paced gap now rest end.

(** ** Lemmas *)

(** The first reading past the deadline, and only it, interrupts and sets the flag. *)
Lemma run_polled_spec d gap prev polls :
  0 ≤ dl_timeout d → dl_start d ≤ prev ≤ dl_start d + dl_timeout d → paced gap prev polls →
  match run_polled d polls with
  | (RanToEnd, d1) => d1 = d ∧ Forall (λ now, now ≤ dl_start d + dl_timeout d) polls
  | (Interrupted now, d1) => timed_out d1 = true ∧ now ∈ polls ∧
      dl_start d + dl_timeout d < now ≤ dl_start d + dl_timeout d + gap
  end.
Proof.
  revert prev. induction polls as [|now polls IH]; intros prev Ht Hp Hpace; simpl; [by split|].
  destruct Hpace as [Hnow Hpace]. unfold interrupt, elapsed. case_bool_decide as Hex.
  - simpl. split; [done|]. split; [by left|]. lia.
  - specialize (IH now Ht ltac:(lia) Hpace). destruct (run_polled d polls) as [[|at'] d1].
    + destruct IH as [-> Hall]. split; [done|]. constructor; [lia|done].
    + destruct IH as (Hf & Hin & Hb). split_and!; [done|by right|lia..].
Qed.

Lemma paced_app gap prev l k :
  paced gap prev (l ++ k) → paced gap prev l ∧ paced gap (default prev (last l)) k.
Proof.
  revert prev. induction l as [|x l IH]; intros prev; simpl; [done|]. intros [Hx Hl].
  destruct (IH x Hl) as [H1 H2]. split; [done|]. destruct l as [|y l]; [done|]. simpl in *.
  by destruct (last (y :: l)) eqn:E; [|apply last_None in E].
Qed.
Lemma paced_ge gap prev l : paced gap prev l → prev ≤ default prev (last l).
Proof.
  revert prev. induction l as [|x l IH]; intros prev Hl; simpl; [lia|]. destruct Hl as [Hx Hl].
  specialize (IH x Hl). destruct l as [|y l]; simpl in *; [lia|].
  destruct (last (y :: l)) eqn:E; [simpl in *; lia|by apply last_None in E].
Qed.

Lemma run_polled_app d l k :
  run_polled d (l ++ k) =
  match run_polled d l with (RanToEnd, d1) => run_polled d1 k | stopped => stopped end.
Proof.
  revert d. induction l as [|t l IH]; intros d; cbn [run_polled app]; [done|].
  destruct (interrupt d t) as [[] d1]; [done|apply IH].
Qed.
(** The two ways a stretch ends, by what it reads. *)
Lemma run_polled_within d gap prev polls :
  0 ≤ dl_timeout d → dl_start d ≤ prev ≤ dl_start d + dl_timeout d → paced gap prev polls →
  Forall (λ t, t ≤ dl_start d + dl_timeout d) polls → run_polled d polls = (RanToEnd, d).
Proof.
  intros Ht Hp Hpace Hall. pose proof (run_polled_spec d gap prev polls Ht Hp Hpace) as Hs.
  destruct (run_polled d polls) as [[|cut] d1]; [by destruct Hs as [-> _]|].
  destruct Hs as (_ & Hin & Hb). rewrite Forall_forall in Hall. specialize (Hall _ Hin). simpl in Hall. lia.
Qed.
Lemma run_polled_past d gap prev polls t :
  0 ≤ dl_timeout d → dl_start d ≤ prev ≤ dl_start d + dl_timeout d → paced gap prev polls →
  t ∈ polls → dl_start d + dl_timeout d < t →
  ∃ cut d1, run_polled d polls = (Interrupted cut, d1) ∧ timed_out d1 = true ∧
    dl_start d + dl_timeout d < cut ≤ dl_start d + dl_timeout d + gap.
Proof.
  intros Ht Hp Hpace Hin Hlt. pose proof (run_polled_spec d gap prev polls Ht Hp Hpace) as Hs.
  destruct (run_polled d polls) as [[|cut] d1].
  - destruct Hs as [_ Hall]. rewrite Forall_forall in Hall. specialize (Hall _ Hin). simpl in Hall. lia.
  - destruct Hs as (Hf & _ & Hb). eauto 6.
Qed.

(** ** Properties *)

(** C17: an execution is cut in time, and only then.  Whatever the script, if QuickJS reads the handler
    at instants at most [gap] apart, code runs on past the deadline by at most [gap]: the first
    reading past the deadline interrupts.  A handler cut this way is answered as a timeout with the
    configured limit, whatever exception was caught; an execution none of whose readings is past the
    deadline is not interrupted and the flag stays down. *)
Theorem deadline_enforced `{!JsonText} (now timeout gap : Z) (toplevel handler : list Z) (caught : Caught)
    (Htimeout : 0 ≤ timeout) (Hpaced : paced gap now (toplevel ++ handler)) :
  let deadline := now + timeout in
  (Forall (λ t, t ≤ deadline) (toplevel ++ handler) →
     run_deadline now timeout toplevel handler caught = None ∧
     run_polled (setup_timeout now timeout) (toplevel ++ handler) = (RanToEnd, setup_timeout now timeout)) ∧
  (∀ t, t ∈ toplevel ++ handler → deadline < t →
     ∃ cut d, run_polled (setup_timeout now timeout) (toplevel ++ handler) = (Interrupted cut, d) ∧
       timed_out d = true ∧ deadline < cut ≤ deadline + gap ∧
       is_Some (run_deadline now timeout toplevel handler caught)) ∧
  (Forall (λ t, t ≤ deadline) toplevel → (∃ t, t ∈ handler ∧ deadline < t) →
     run_deadline now timeout toplevel handler caught = Some (Timeout timeout)).
Proof.
  intros deadline. set (d := setup_timeout now timeout).
  destruct (paced_app _ _ _ _ Hpaced) as [Htop Hhan]. pose proof (paced_ge _ _ _ Htop) as Hge.
  unfold run_deadline. fold d. split_and!.
  - intros Hall. pose proof (run_polled_within d gap now _ Htimeout ltac:(simpl; lia) Hpaced Hall) as Hrun.
    split; [|done]. rewrite run_polled_app in Hrun. destruct (run_polled d toplevel) as [[|cut] d1]; [|done].
    by rewrite Hrun.
  - intros t Hin Hlt.
    destruct (run_polled_past d gap now _ t Htimeout ltac:(simpl; lia) Hpaced Hin Hlt)
      as (cut & d1 & Hrun & Hf & Hb).
    exists cut, d1. split; [done|]. split; [done|]. split; [simpl in Hb; lia|]. rewrite run_polled_app in Hrun.
    destruct (run_polled d toplevel) as [[|cut0] d0]; [|eauto]. rewrite Hrun. eauto.
  - intros Hall (t & Hin & Hlt).
    rewrite (run_polled_within d gap now toplevel Htimeout ltac:(simpl; lia) Htop Hall).
    assert (default now (last toplevel) ≤ deadline) as Hlast.
    { destruct (last toplevel) as [z|] eqn:El; simpl; [|lia]. rewrite Forall_forall in Hall. apply Hall.
      by apply last_Some_elem_of. }
    destruct (run_polled_past d gap (default now (last toplevel)) handler t Htimeout
      ltac:(simpl; lia) Hhan Hin Hlt) as (cut & d1 & -> & Hf & _).
    unfold classify_throw. by rewrite Hf.
Qed.

(** ** Witness *)

#[local] Instance no_json : JsonText := {|
  json_parse _ := Err "no text"; json_print _ := None; json_type_error _ := "invalid type";
  json_print_error _ := "unsupported" |}.

(** A loop that outlives its 50 ms: the reading at 60 cuts it. *)
Lemma deadline_enforced_witness :
  run_deadline 100 50 [110; 125] [140; 149; 160; 175] (CaughtValue (Some "interrupted")) = Some (Timeout 50).
Proof.
  destruct (deadline_enforced 100 50 20 [110; 125] [140; 149; 160; 175] (CaughtValue (Some "interrupted"))
    ltac:(lia) ltac:(simpl; lia)) as (_ & _ & Hcut).
  apply Hcut; [repeat constructor; lia|]. exists 160. split; [set_solver|lia].
Defined.
