(* ===== verification/Js.v ===== *)
(** * Js: JavaScript data and the code evaluated around a script

    The box's capability wrappers ([runlet-core/src/js/*.js]) are JavaScript, evaluated into the
    context before the script.  This file holds the language they use: plain data values with their
    truthiness, property reads, coercion to text and JSON, and exceptions, over the tree of native
    calls ([Engine.Prog]).  Values are plain data: no functions, accessors or [toJSON] methods; an
    object lists its properties in enumeration order.  Text is UTF-8, as it is once it crosses into
    Rust.  QuickJS's JSON reader and printer, and its error texts, are the class [JsJson]. *)

From Stdlib Require Import Ascii.
From S2P Require Import Prelude Json Errors Engine.
Local Open Scope Z_scope.

(** ** Values *)

(** A number is the text [Number.prototype.toString] gives. *)
Inductive JsValue :=
| JsUndefined
| JsNull
| JsBool (b : bool)
| JsNumber (lexeme : string)
| JsString (s : string)
| JsArray (l : list JsValue)
| JsObject (fields : list (string * JsValue)).

(** The test of [if], [&&] and [||]. *)
Definition truthy (v : JsValue) : bool :=
  match v with
  | JsUndefined | JsNull => false
  | JsBool b => b
  | JsNumber x => negb (bool_decide (x = "0") || bool_decide (x = "NaN"))
  | JsString s => nonempty s
  | JsArray _ | JsObject _ => true
  end.

(** [a || b]. *)
Definition js_or (a b : JsValue) : JsValue := if truthy a then a else b.

(** An own property of a value that is neither undefined nor null. *)
Fixpoint property (k : string) (l : list (string * JsValue)) : JsValue :=
  match l with
  | [] => JsUndefined
  | (k', x) :: l' => if decide (k' = k) then x else property k l'
  end.
Definition own (k : string) (v : JsValue) : JsValue :=
  match v with JsObject l => property k l | _ => JsUndefined end.

(** [x === undefined || x === null]. *)
Definition nullish (v : JsValue) : bool :=
  match v with JsUndefined | JsNull => true | _ => false end.

(** [String(x)]: an array joins its elements with commas, the nullish ones empty. *)
Fixpoint js_string (v : JsValue) : string :=
  match v with
  | JsUndefined => "undefined"
  | JsNull => "null"
  | JsBool b => if b then "true" else "false"
  | JsNumber x => x
  | JsString s => s
  | JsArray l => String.concat "," ((λ x, if nullish x then EmptyString else js_string x) <$> l)
  | JsObject _ => "[object Object]"
  end.

(** What [JSON.stringify] writes a value as: nothing for [undefined], which leaves its property out
    and is [null] in an array; [null] for the numbers JSON does not have. *)
Definition json_number (x : string) : Value :=
  if decide (x ∈ ["NaN"; "Infinity"; "-Infinity"]) then VNull else VNumber x.
Fixpoint json_tree (v : JsValue) : option Value :=
  match v with
  | JsUndefined => None
  | JsNull => Some VNull
  | JsBool b => Some (VBool b)
  | JsNumber x => Some (json_number x)
  | JsString s => Some (VString s)
  | JsArray l => Some (VArray ((λ x, default VNull (json_tree x)) <$> l))
  | JsObject l => Some (VObject (omap (λ '(k, x), (λ t, (k, t)) <$> json_tree x) l))
  end.

(** ** JSON text *)

(** How deep a document nests. *)
Fixpoint json_depth (v : Value) : nat :=
  match v with
  | VArray l => S (max_list (json_depth <$> l))
  | VObject l => S (max_list ((λ p, json_depth p.2) <$> l))
  | _ => O
  end.
Definition RECURSION_LIMIT : nat := 127.

(** An array index as a property name; objects enumerate those first. *)
Definition index_like (k : string) : bool :=
  bool_decide (bytes_of k ≠ []) && forallb is_ascii_digit (bytes_of k).

(** Numbers JavaScript and [serde_json] write the same way: integers a double holds exactly, and
    decimals of at most fifteen digits, not smaller than a tenth. *)
Definition safe_integer (x : string) : bool :=
  match number_i64 x with
  | Some z => bool_decide (pretty z = x) && bool_decide (Z.abs z < 2 ^ 53)
  | None => false
  end.
Fixpoint split_point (l : list ascii) : list ascii * list ascii :=
  match l with
  | [] => ([], [])
  | a :: rest => if decide (a = "."%char) then ([], rest) else prod_map (cons a) id (split_point rest)
  end.
Definition plain_decimal (x : string) : bool :=
  let '(i, f) := split_point (match bytes_of x with "-"%char :: l => l | l => l end) in
  forallb is_ascii_digit (i ++ f) && bool_decide (length i + length f ≤ 15)%nat &&
  negb (bool_decide (last f = Some "0"%char)) && bool_decide (f ≠ []) &&
  match i with
  | [] => false
  | ["0"%char] => negb (bool_decide (head f = Some "0"%char))
  | a :: _ => negb (bool_decide (a = "0"%char))
  end.
Definition plain_number (x : string) : bool := safe_integer x || plain_decimal x.

(** Documents a JavaScript value holds as they are: plain numbers, and keys that are distinct and not
    array indices. *)
Fixpoint js_plain (v : Value) : bool :=
  match v with
  | VNumber x => plain_number x
  | VArray l => forallb js_plain l
  | VObject l => bool_decide (NoDup l.*1) && forallb (λ p, negb (index_like p.1) && js_plain p.2) l
  | _ => true
  end.

(** Documents both languages carry as text: plain numbers, within the nesting limit. *)
Fixpoint plain_numbers (v : Value) : bool :=
  match v with
  | VNumber x => plain_number x
  | VArray l => forallb plain_numbers l
  | VObject l => forallb (λ p, plain_numbers p.2) l
  | _ => true
  end.
Definition portable (v : Value) : Prop :=
  (json_depth v ≤ RECURSION_LIMIT)%nat ∧ plain_numbers v = true.

Fixpoint js_value (v : Value) : JsValue :=
  match v with
  | VNull => JsNull
  | VBool b => JsBool b
  | VNumber x => JsNumber x
  | VString s => JsString s
  | VArray l => JsArray (js_value <$> l)
  | VObject l => JsObject ((λ '(k, x), (k, js_value x)) <$> l)
  end.

(** Objects with distinct keys, all the way down: every JavaScript value, and the documents
    [serde_json] keeps as they are. *)
Fixpoint distinct_keys (v : Value) : bool :=
  match v with
  | VArray l => forallb distinct_keys l
  | VObject l => bool_decide (NoDup l.*1) && forallb (λ p, distinct_keys p.2) l
  | _ => true
  end.
Fixpoint js_wf (v : JsValue) : bool :=
  match v with
  | JsArray l => forallb js_wf l
  | JsObject l => bool_decide (NoDup l.*1) && forallb (λ p, js_wf p.2) l
  | _ => true
  end.

(** The exceptions the language raises in this code. *)
Inductive JsFault := NotDefined (name : string) | NoProperty (k : string) | BadJson (text : string).

(** QuickJS's [JSON] object and its messages.  [serde_json] reads what [JSON.stringify] wrote, and
    [JSON.parse] what [serde_json] wrote, up to their nesting limits. *)
Class JsJson `{!JsonText} := {
  js_print : Value → string;
  js_read : string → option JsValue;
  js_fault : JsFault → string;
  js_stack : string → option string;
  js_char_at : string → nat → JsValue;
  js_print_parse v : portable v → json_parse (js_print v) = Ok v;
  js_read_print v t :
    (json_depth v ≤ RECURSION_LIMIT)%nat → js_plain v = true → json_print v = Some t →
    js_read t = Some (js_value v)
}.

(** ** Code: native calls with exceptions *)

Definition Js (A : Type) : Type := Prog (result A Caught).

Fixpoint prog_bind {A B} (m : Prog A) (k : A → Prog B) : Prog B :=
  match m with
  | Ret a => k a
  | Host c h => Host c (λ r, prog_bind (h r) k)
  end.
Definition js_bind {A B} (m : Js A) (k : A → Js B) : Js B :=
  prog_bind m (λ r, match r with Ok a => k a | Err e => Ret (Err e) end).
Definition js_return {A} (a : A) : Js A := Ret (Ok a).

Declare Scope js_scope.
Delimit Scope js_scope with js.
Notation "'let*' x ':=' m 'in' k" := (js_bind m (λ x, k))
  (at level 200, x pattern, m at level 100, k at level 200, right associativity) : js_scope.

Section language.
Context `{!JsonText} `{!JsJson}.

(** [JSON.stringify(x)] of a value that has a text. *)
Definition stringify (v : JsValue) : option string := js_print <$> json_tree v.

(** [throw new Error(message)], and the engine's own exceptions. *)
Definition js_error (message : string) (tag : JsTag) : Caught :=
  CaughtObject (Some message) (js_stack message) tag.
Definition js_throw {A} (message : string) : Js A := Ret (Err (js_error message TagNullish)).
Definition fault (f : JsFault) : Caught := js_error (js_fault f) TagNullish.

(** [x.k]. *)
Definition js_get (v : JsValue) (k : string) : result JsValue Caught :=
  if nullish v then Err (fault (NoProperty k)) else Ok (own k v).

(** [x[i]]. *)
Definition js_index (v : JsValue) (i : nat) : result JsValue Caught :=
  match v with
  | JsUndefined | JsNull => Err (fault (NoProperty (pretty i)))
  | JsArray l => Ok (default JsUndefined (l !! i))
  | JsString s => Ok (js_char_at s i)
  | _ => Ok (own (pretty i) v)
  end.

(** [JSON.parse(text)]. *)
Definition json_read (text : string) : result JsValue Caught :=
  match js_read text with Some v => Ok v | None => Err (fault (BadJson text)) end.

(** A call to a native, which a context without it does not know. *)
Definition native (name : string) (c : HostCall) : Js string :=
  Host c (λ a, Ret match a with Some raw => Ok raw | None => Err (fault (NotDefined name)) end).
End language.

(** ** Lemmas *)

(** Running code in sequence. *)
Lemma interp_bind {jt : JsonText} {sha : Bytecode.Sha256} {World Net : Type} {net : NetLib Net} {A B}
    (env : HostEnv World) (m : Prog A) (k : A → Prog B) (st : HostState World Net) :
  interp env (prog_bind m k) st = let '(a, st') := interp env m st in interp env (k a) st'.
Proof.
  revert st. induction m as [a|c h IH]; intros st; [done|]. simpl.
  destruct (host_call env c st) as [a st']. apply IH.
Qed.

Lemma interp_js_bind {jt : JsonText} {sha : Bytecode.Sha256} {World Net : Type} {net : NetLib Net} {A B}
    (env : HostEnv World) (m : Js A) (k : A → Js B) (st : HostState World Net) :
  interp env (js_bind m k) st =
  match interp env m st with
  | (Ok a, st') => interp env (k a) st'
  | (Err e, st') => (Err e, st')
  end.
Proof. unfold js_bind. rewrite interp_bind. by destruct (interp env m st) as [[a|e] st']. Qed.

(** A plain document stays what it is on the way through JavaScript. *)
Lemma json_tree_js_value v : js_plain v = true → json_tree (js_value v) = Some v.
Proof.
  induction v as [v Hv|l IH|l IH] using value_nested_ind; simpl; intros Hp.
  - destruct v; try done. simpl in *. unfold json_number. rewrite decide_False; [done|].
    rewrite !elem_of_cons, elem_of_nil. intros Hx. destruct_or?; subst; by vm_compute in Hp.
  - do 2 f_equal. rewrite <-list_fmap_compose. induction IH as [|x l Hx Hl IHl]; [done|].
    simpl in Hp. apply andb_true_iff in Hp as [H1 H2]. rewrite fmap_cons. f_equal; [|by apply IHl].
    simpl. by rewrite Hx.
  - do 2 f_equal. apply andb_true_iff in Hp as [_ Hp].
    induction IH as [|[k x] l Hx Hl IHl]; [done|]. simpl in Hp, Hx |- *.
    rewrite !andb_true_iff in Hp. destruct Hp as [[_ H1] H2]. rewrite Hx by done. simpl.
    f_equal. by apply IHl.
Qed.

Lemma portable_array l : portable (VArray l) → ∀ x, x ∈ l → portable x.
Proof.
  intros [Hd Hn] x Hx. split.
  - simpl in Hd. enough (json_depth x ≤ max_list (json_depth <$> l))%nat by lia.
    apply max_list_elem_of_le, list_elem_of_fmap. eauto.
  - simpl in Hn. rewrite forallb_forall in Hn. by apply Hn, list_elem_of_In.
Qed.
Lemma portable_member k v l : portable (VObject l) → (k, v) ∈ l → portable v.
Proof.
  intros [Hd Hn] Hx. split.
  - simpl in Hd. enough (json_depth v ≤ max_list ((λ p, json_depth p.2) <$> l))%nat by lia.
    apply max_list_elem_of_le, list_elem_of_fmap. by exists (k, v).
  - simpl in Hn. rewrite forallb_forall in Hn. by apply (Hn (k, v)), list_elem_of_In.
Qed.
Lemma js_plain_numbers v : js_plain v = true → plain_numbers v = true.
Proof.
  induction v as [v Hv|l IH|l IH] using value_nested_ind; simpl; intros Hp; [by destruct v| |].
  - rewrite forallb_forall in Hp |- *. intros x Hx. rewrite Forall_forall in IH.
    apply IH; [by apply list_elem_of_In|by apply Hp].
  - apply andb_true_iff in Hp as [_ Hp]. rewrite forallb_forall in Hp |- *. intros x Hx.
    specialize (Hp x Hx). apply andb_true_iff in Hp as [_ Hp]. rewrite Forall_forall in IH.
    apply (IH x); [by apply list_elem_of_In|done].
Qed.

Section js_value_ind.
Context (P : JsValue → Prop).
Context (Hleaf : ∀ v, (match v with JsArray _ | JsObject _ => False | _ => True end) → P v).
Context (Harray : ∀ l, Forall P l → P (JsArray l)).
Context (Hobject : ∀ l, Forall (λ kx, P kx.2) l → P (JsObject l)).
Fixpoint js_value_nested_ind (v : JsValue) : P v :=
  match v with
  | JsArray l => Harray l ((fix go l : Forall P l := match l with
      | [] => Forall_nil_2 P | x :: l => Forall_cons_2 P x l (js_value_nested_ind x) (go l) end) l)
  | JsObject l => Hobject l ((fix go l : Forall (λ kx, P kx.2) l := match l with
      | [] => Forall_nil_2 _ | x :: l => Forall_cons_2 _ x l (js_value_nested_ind x.2) (go l) end) l)
  | v => Hleaf v I
  end.
End js_value_ind.

Lemma map_insert_new {A} k (v : A) l : k ∉ l.*1 → map_insert k v l = l ++ [(k, v)].
Proof.
  induction l as [|[k' v'] l IH]; [done|]. rewrite fmap_cons, not_elem_of_cons. intros [Hk Hl]. simpl.
  rewrite decide_False by naive_solver. by rewrite IH.
Qed.
Lemma foldl_map_insert_new {A} (l acc : list (string * A)) :
  NoDup (acc ++ l).*1 → foldl (λ acc '(k, v), map_insert k v acc) acc l = acc ++ l.
Proof.
  revert acc. induction l as [|[k v] l IH]; intros acc Hd; simpl; [by rewrite app_nil_r|].
  rewrite fmap_app, fmap_cons in Hd. simpl in Hd.
  pose proof (NoDup_app (acc.*1) (k :: l.*1)) as [Ha _]. destruct (Ha Hd) as (_ & Hn & _).
  rewrite map_insert_new; [|intros Hin; destruct (Hn k Hin); by left].
  rewrite IH; [by rewrite <-app_assoc|]. rewrite <-app_assoc, fmap_app. exact Hd.
Qed.
Lemma map_of_distinct {A} (l : list (string * A)) : NoDup l.*1 → map_of l = l.
Proof. intros Hd. unfold map_of. by rewrite foldl_map_insert_new. Qed.

(** A document with distinct keys is what [from_str::<Value>] makes of it. *)
Lemma norm_distinct v : distinct_keys v = true → norm v = v.
Proof.
  induction v as [v Hv|l IH|l IH] using value_nested_ind; simpl; intros Hd; [by destruct v| |].
  - f_equal. induction IH as [|x l Hx Hl IHl]; [done|]. simpl in Hd. apply andb_true_iff in Hd as [H1 H2].
    rewrite fmap_cons. by rewrite Hx, IHl.
  - apply andb_true_iff in Hd as [Hn Hd]. apply bool_decide_eq_true in Hn.
    assert ((λ '(k, x), (k, norm x)) <$> l = l) as ->; [|by rewrite map_of_distinct].
    clear Hn. induction IH as [|[k x] l Hx Hl IHl]; [done|]. simpl in Hd, Hx.
    apply andb_true_iff in Hd as [H1 H2]. rewrite fmap_cons. by rewrite Hx, IHl.
Qed.

Lemma json_tree_distinct v t : js_wf v = true → json_tree v = Some t → distinct_keys t = true.
Proof.
  revert t. induction v as [v Hv|l IH|l IH] using js_value_nested_ind; simpl; intros t Hw.
  - destruct v; try done; intros [= <-]; try done. unfold json_number. by case_decide.
  - intros [= <-]. simpl. rewrite forallb_forall in Hw |- *. intros x Hx.
    apply list_elem_of_In, list_elem_of_fmap in Hx as (y & -> & Hy).
    rewrite Forall_forall in IH. specialize (IH y Hy).
    destruct (json_tree y) as [ty|]; simpl; [|done]. apply IH; [|done].
    apply Hw. by apply list_elem_of_In.
  - intros [= <-]. simpl. apply andb_true_iff in Hw as [Hn Hw]. apply bool_decide_eq_true in Hn.
    rewrite forallb_forall in Hw. rewrite Forall_forall in IH.
    apply andb_true_iff. split.
    + apply bool_decide_eq_true. clear IH Hw. induction l as [|[k x] l IHl]; [constructor|].
      rewrite fmap_cons in Hn. apply NoDup_cons in Hn as [Hk Hn]. simpl.
      destruct (json_tree x) as [tx|]; simpl; [|by apply IHl]. apply NoDup_cons. split; [|by apply IHl].
      intros Hin. apply Hk. apply list_elem_of_fmap in Hin as ([k' v'] & Hkk & Hin).
      apply list_elem_of_omap in Hin as ([k2 x2] & Hin & Heq). apply list_elem_of_fmap.
      exists (k2, x2). destruct (json_tree x2); simplify_eq/=. done.
    + apply forallb_forall. intros [k y] Hx. apply list_elem_of_In, list_elem_of_omap in Hx
        as ([k2 x2] & Hin & Heq). destruct (json_tree x2) as [tx|] eqn:Ex; simplify_eq/=.
      apply (IH (k, x2)); [done| |done]. apply (Hw (k, x2)). by apply list_elem_of_In.
Qed.
