(* ===== verification/Wrappers.v ===== *)
(** * Wrappers: the capability globals of a script

    Models the JavaScript of [runlet-core/src/js/] that the injections of [Engine] evaluate: [io.call],
    the globals [db], [mongo], [mail], [redis], [amq], [auth], [s3], [api], [$sys] and [$], and the
    [json] helper.  Each function is the tree of native calls it makes and the value or exception it
    ends with; arguments are any values where the code takes any.  Functions that walk an argument as
    an array or an object take it as such.  A secret handle is a value of its own ([Secret]), known by
    its name only.  The [auth] global keeps a memo for the execution, threaded as a map. *)

From Stdlib Require Import Ascii.
From S2P Require Import Prelude Json Errors Engine Js.
Local Open Scope Z_scope.

(** ** encodeURIComponent *)

(** The characters it leaves alone: letters, digits and [- _ . ! ~ * ' ( )]. *)
Definition uri_unreserved (a : ascii) : bool :=
  let n := nat_of_ascii a in
  bool_decide (48 ≤ n ≤ 57 ∨ 65 ≤ n ≤ 90 ∨ 97 ≤ n ≤ 122)%nat ||
  bool_decide (n ∈ [45; 95; 46; 33; 126; 42; 39; 40; 41])%nat.
Definition hex_digit (n : nat) : ascii := ascii_of_nat (if decide (n < 10)%nat then 48 + n else 55 + n).
Definition uri_encode_byte (a : ascii) : list ascii :=
  if uri_unreserved a then [a]
  else ["%"%char; hex_digit (nat_of_ascii a / 16); hex_digit (nat_of_ascii a mod 16)].
Definition encode_uri_component (s : string) : string := string_of (bytes_of s ≫= uri_encode_byte).

Section wrappers.
Context `{!JsonText} `{!JsJson}.
Local Open Scope js_scope.

(** ** io.js *)

(** The reply of a native, thrown when it carries an error; the reply rides on the exception. *)
Definition io_reply (raw : string) : result JsValue Caught :=
  let? res := json_read raw in
  if truthy res && truthy (own "error" res)
  then Err (js_error (js_string (own "error" res)) (TagText (stringify res)))
  else Ok res.

(** [io.call]. *)
Definition io_call (name action : string) (payload : JsValue) : Js JsValue :=
  let text := default (js_print VNull) (stringify payload) in
  let* raw := native "io" (CallIo name action text) in Ret (io_reply raw).

(** [io.call(..).k]. *)
Definition io_field (name action : string) (payload : JsValue) (k : string) : Js JsValue :=
  let* res := io_call name action payload in Ret (js_get res k).

(** ** db.js *)

Definition db_payload (sql params : JsValue) : JsValue :=
  JsObject [("sql", sql); ("params", js_or params (JsArray []))].
Definition js_db_call (action : string) (sql params : JsValue) : Js JsValue :=
  io_call "db" action (db_payload sql params).
Definition js_db_query (sql params : JsValue) : Js JsValue := js_db_call "query" sql params.
Definition js_db_execute (sql params : JsValue) : Js JsValue := js_db_call "execute" sql params.

(** [begin], [commit] and [rollback]. *)
Definition js_db_control (action : string) : Js JsValue :=
  let* _ := js_db_call action (JsString "") (JsArray []) in js_return JsUndefined.

(** ** mongo.js *)

Definition mongo_envelope (collection payload : JsValue) : JsValue :=
  JsObject [("collection", collection); ("data", js_or payload (JsObject []))].
Definition js_mongo_call (action : string) (collection payload : JsValue) : Js JsValue :=
  io_call "mongo" action (mongo_envelope collection payload).
Definition or_object (v : JsValue) : JsValue := js_or v (JsObject []).
Definition or_array (v : JsValue) : JsValue := js_or v (JsArray []).

Definition js_mongo_find (collection filter options : JsValue) : Js JsValue :=
  js_mongo_call "find" collection
    (JsObject [("filter", or_object filter); ("options", or_object options)]).
Definition js_mongo_find_one (collection filter : JsValue) : Js JsValue :=
  js_mongo_call "find_one" collection (JsObject [("filter", or_object filter)]).
Definition js_mongo_count (collection filter : JsValue) : Js JsValue :=
  let* res := js_mongo_call "count" collection (JsObject [("filter", or_object filter)]) in
  Ret (js_get res "count").
Definition js_mongo_aggregate (collection pipeline : JsValue) : Js JsValue :=
  js_mongo_call "aggregate" collection (JsObject [("pipeline", or_array pipeline)]).
Definition js_mongo_insert_one (collection doc : JsValue) : Js JsValue :=
  js_mongo_call "insert_one" collection (JsObject [("doc", or_object doc)]).
Definition js_mongo_insert_many (collection docs : JsValue) : Js JsValue :=
  js_mongo_call "insert_many" collection (JsObject [("docs", or_array docs)]).

(** [update_one] and [update_many]; [delete_one] and [delete_many]. *)
Definition js_mongo_update (action : string) (collection filter update : JsValue) : Js JsValue :=
  js_mongo_call action collection
    (JsObject [("filter", or_object filter); ("update", or_object update)]).
Definition js_mongo_delete (action : string) (collection filter : JsValue) : Js JsValue :=
  js_mongo_call action collection (JsObject [("filter", or_object filter)]).

(** ** mail.js *)

Definition mail_norm (value : JsValue) : JsValue :=
  match value with
  | JsUndefined | JsNull => JsArray []
  | JsArray _ => value
  | _ => JsArray [value]
  end.
Definition or_text (v : JsValue) : JsValue := js_or v (JsString "").
Definition mail_payload (opts : JsValue) : JsValue :=
  let o := js_or opts (JsObject []) in
  JsObject [("from", or_text (own "from" o)); ("to", mail_norm (own "to" o));
            ("cc", mail_norm (own "cc" o)); ("bcc", mail_norm (own "bcc" o));
            ("reply_to", or_text (own "reply_to" o)); ("subject", or_text (own "subject" o));
            ("text", or_text (own "text" o)); ("html", or_text (own "html" o))].
Definition js_mail_send (opts : JsValue) : Js JsValue := io_call "mail" "send" (mail_payload opts).

(** ** redis.js *)

Definition js_redis_get (key : JsValue) : Js JsValue :=
  io_field "redis" "get" (JsObject [("key", key)]) "value".
Definition redis_set_payload (key value opts : JsValue) : JsValue :=
  JsObject [("key", key); ("value", JsString (js_string value));
            ("ttl", own "ttl" (js_or opts (JsObject [])))].
Definition js_redis_set (key value opts : JsValue) : Js JsValue :=
  io_field "redis" "set" (redis_set_payload key value opts) "ok".
Definition js_redis_del (key : JsValue) : Js JsValue :=
  io_field "redis" "del" (JsObject [("key", key)]) "count".
Definition js_redis_incr (key : JsValue) : Js JsValue :=
  io_field "redis" "incr" (JsObject [("key", key)]) "value".
Definition js_redis_expire (key seconds : JsValue) : Js JsValue :=
  io_field "redis" "expire" (JsObject [("key", key); ("seconds", seconds)]) "set".

(** ** amq.js *)

(** The list of [amq.send]: one pair given flat is taken as a list of it. *)
Definition is_text (v : JsValue) : bool := match v with JsString _ => true | _ => false end.
Definition amq_pairs (l : list JsValue) : list JsValue :=
  match l with [JsString k; payload] => [JsArray [JsString k; payload]] | _ => l end.
Fixpoint amq_messages (l : list JsValue) : result (list JsValue) Caught :=
  match l with
  | [] => Ok []
  | item :: rest =>
      let? key := js_index item 0 in
      let? payload := js_index item 1 in
      let? messages := amq_messages rest in
      Ok (JsObject [("key", key); ("payload", payload)] :: messages)
  end.
Definition js_amq_send (l : list JsValue) : Js JsValue :=
  let* messages := Ret (amq_messages (amq_pairs l)) in
  io_field "amq" "send" (JsObject [("messages", JsArray messages)]) "published".
Definition js_amq_request (subject payload : JsValue) : Js JsValue :=
  io_field "amq" "request" (JsObject [("subject", subject); ("payload", payload)]) "reply".

(** ** auth.js *)

(** The memo of an execution; the token is text, the empty one standing for a falsy argument. *)
Definition memo_key (action token : string) : string := action +:+ ":" +:+ token.
Definition js_auth (cache : gmap string JsValue) (action token : string)
    : Prog (result JsValue Caught * gmap string JsValue) :=
  match cache !! memo_key action token with
  | Some res => Ret (Ok res, cache)
  | None =>
      prog_bind (io_call "auth" action (JsObject [("token", JsString token)]))
        (λ r, Ret (r, match r with Ok res => <[memo_key action token := res]> cache | Err _ => cache end))
  end.

(** ** s3.js *)

Definition js_s3_call (action : string) (payload : JsValue) : Js JsValue :=
  let* raw := native "__s3" (CallS3 action (default (js_print VNull) (stringify (or_object payload)))) in
  Ret (io_reply raw).
Definition or_zero (v : JsValue) : JsValue := js_or v (JsNumber "0").
Definition js_s3_sign (opts : JsValue) : Js JsValue :=
  let o := or_object opts in
  js_s3_call "presign" (JsObject [("method", js_or (own "method" o) (JsString "PUT"));
                                  ("key", or_text (own "key" o)); ("expires", or_zero (own "expires" o))]).

(** [upload_url] and [download_url]. *)
Definition js_s3_link (method : string) (opts : JsValue) : Js JsValue :=
  let o := or_object opts in
  js_s3_sign (JsObject [("method", JsString method); ("key", own "key" o); ("expires", own "expires" o)]).
Definition js_s3_upload_form (opts : JsValue) : Js JsValue :=
  let o := or_object opts in
  js_s3_call "presign_post" (JsObject [("key", or_text (own "key" o)); ("expires", or_zero (own "expires" o))]).
Definition js_s3_usage (opts : JsValue) : Js JsValue :=
  js_s3_call "usage" (JsObject [("prefix", or_text (own "prefix" (or_object opts)))]).
Definition js_s3_delete (opts : JsValue) : Js JsValue :=
  js_s3_call "delete" (JsObject [("key", or_text (own "key" (or_object opts)))]).

(** ** api.js *)

(** [buildUrl]: the parameters as a query, after the one the URL has already if it has one. *)
Definition query_pair (p : string * JsValue) : string :=
  encode_uri_component p.1 +:+ "=" +:+ encode_uri_component (js_string p.2).
Definition build_url (url : string) (params : option (list (string * JsValue))) : string :=
  match params with
  | None | Some [] => url
  | Some l => url +:+ (if decide ("?"%char ∈ bytes_of url) then "&" else "?") +:+
              String.concat "&" (query_pair <$> l)
  end.

(** [headersJson], and the body text of a request. *)
Definition headers_json (headers : JsValue) : string :=
  match headers with
  | JsArray _ | JsObject _ => default EmptyString (stringify headers)
  | _ => EmptyString
  end.
Definition body_text (body : JsValue) : string :=
  if nullish body then EmptyString else default EmptyString (stringify body).

(** [delete res.k] and [res.k = v]. *)
Definition js_delete (k : string) (v : JsValue) : JsValue :=
  match v with JsObject l => JsObject (filter (λ p, p.1 ≠ k) l) | _ => v end.
Definition js_set (k : string) (x : JsValue) (v : JsValue) : JsValue :=
  match v with JsObject l => JsObject (map_insert k x l) | _ => v end.

(** [req]: the body of a reply is parsed when it is JSON, and moves to [data]. *)
Definition api_reply (raw : string) : result JsValue Caught :=
  let? res := json_read raw in
  let? body := js_get res "body" in
  Ok match body with
     | JsUndefined => res
     | _ => js_delete "body" (js_set "data" (default body (js_read (js_string body))) res)
     end.
Definition js_api_req (method url : string) (body headers : JsValue) : Js JsValue :=
  let* raw := native "__http" (CallHttp method url (body_text body) (headers_json headers)) in
  Ret (api_reply raw).
Definition js_api_get (url : string) (params : option (list (string * JsValue))) (headers : JsValue)
    : Js JsValue := js_api_req "GET" (build_url url params) JsNull headers.

(** [post], [put] and [patch]; [delete]. *)
Definition js_api_send (method url : string) (body headers : JsValue) : Js JsValue :=
  js_api_req method url body headers.
Definition js_api_delete (url : string) (headers : JsValue) : Js JsValue :=
  js_api_req "DELETE" url JsNull headers.

(** ** bridge.js *)

(** [json(data, error)]. *)
Definition js_json (data error : JsValue) : string :=
  let or_null v := match v with JsUndefined => JsNull | _ => v end in
  default (js_print VNull) (stringify (JsObject [("data", or_null data); ("error", or_null error)])).

(** ** decimal.js *)

(** A reply of [__decimal] or [__sys]: its [v], or an exception with its [error]. *)
Definition value_reply (raw : string) : result JsValue Caught :=
  let? res := json_read raw in
  if truthy res && truthy (own "error" res)
  then Err (js_error (js_string (own "error" res)) TagNullish)
  else js_get res "v".

Definition js_decimal (op lhs rhs : string) : Js JsValue :=
  let* raw := native "__decimal" (CallDecimal op lhs rhs) in Ret (value_reply raw).

(** ** sys.js *)

(** An argument: data, or the handle of a secret. *)
Inductive SysArg := Plain (v : JsValue) | Secret (name : string).
Definition secret_label (name : string) : string := "[secret:" +:+ name +:+ "]".

(** [String(x)] of an argument: a handle never shows its value. *)
Definition arg_text (x : SysArg) : string :=
  match x with Plain v => js_string v | Secret name => secret_label name end.

(** [denySecret]. *)
Definition deny_secret (x : SysArg) (verb : string) : result () Caught :=
  match x with
  | Secret _ =>
      Err (js_error ("a secret cannot be " +:+ verb +:+ "; use it only as an HMAC key") TagNullish)
  | Plain _ => Ok ()
  end.

Definition js_sys (domain op : string) (payload : JsValue) : Js JsValue :=
  let* raw := native "__sys" (CallSys domain op (default (js_print VNull) (stringify (or_object payload)))) in
  Ret (value_reply raw).

(** [sha256], [sha512] and the codecs: one text in, one text out. *)
Definition js_digest (op verb : string) (data : SysArg) : Js JsValue :=
  let* _ := Ret (deny_secret data verb) in
  js_sys "crypto" op (JsObject [("data", JsString (arg_text data))]).

(** [hmac]: a handle goes by its name, any other key as text. *)
Definition hmac_payload (algo : JsValue) (key : SysArg) (msg : string) (encoding : JsValue) : JsValue :=
  JsObject ([("algo", JsString (js_string algo)); ("msg", JsString msg);
             ("encoding", js_or encoding (JsString "hex"))] ++
            match key with
            | Secret name => [("key_ref", JsString name)]
            | Plain v => [("key", JsString (js_string v))]
            end).
Definition js_hmac (algo : JsValue) (key msg : SysArg) (encoding : JsValue) : Js JsValue :=
  let* _ := Ret (deny_secret msg "the HMAC message") in
  js_sys "crypto" "hmac" (hmac_payload algo key (arg_text msg) encoding).
End wrappers.
