(* ===== verification/Helpers.v ===== *)
(** * Helpers: the decimal and date objects of a script

    Models the objects [runlet-core/src/js/decimal.js] and [sys.js] give a script: [Dec] with its
    arithmetic, conversions and comparisons, [DateObj] with its calendar arithmetic, the [$] and
    [$sys.date] functions that make them, and [$sys.crypto.uuid].  Every method is the native call it
    makes and what it builds from the answer; the lemmas run them against the natives of [Sys].

    Durations are integers: [durationMs] is exact on the integers a double holds, which is the range
    of the lemmas.  [toNumber], a conversion to a double, is not modelled. *)

From Stdlib Require Import Ascii.
From stdpp Require Import pretty.
From S2P Require Import Prelude Json Errors Runtime Sys Engine Js Wrappers.
Local Open Scope Z_scope.
Local Open Scope js_scope.

(** ** Decimals *)

(** [new Dec(value)]: the text a native answered. *)
Record Dec := { dec_v : JsValue }.
(** What a method may be given: a [Dec] or any other value. *)
Inductive DecArg := ADec (d : Dec) | AValue (v : JsValue).

Section helpers.
Context `{!JsonText} `{!JsJson}.

Definition dec_text (d : Dec) : string := js_string (dec_v d).
(** [coerce]. *)
Definition coerce (x : DecArg) : string :=
  match x with
  | ADec d => dec_text d
  | AValue v => if nullish v then "0" else js_string v
  end.

(** [new Dec(call(op, a, b))]. *)
Definition dec_call (op a b : string) : Js Dec :=
  let* v := js_decimal op a b in js_return {| dec_v := v |}.

Definition dec_add (d : Dec) (o : DecArg) : Js Dec := dec_call "add" (dec_text d) (coerce o).
Definition dec_sub (d : Dec) (o : DecArg) : Js Dec := dec_call "sub" (dec_text d) (coerce o).
Definition dec_mul (d : Dec) (o : DecArg) : Js Dec := dec_call "mul" (dec_text d) (coerce o).
Definition dec_div (d : Dec) (o : DecArg) : Js Dec := dec_call "div" (dec_text d) (coerce o).
Definition dec_neg (d : Dec) : Js Dec := dec_call "neg" (dec_text d) EmptyString.
Definition dec_absolute (d : Dec) : Js Dec := dec_call "abs" (dec_text d) EmptyString.
Definition dec_rounded (d : Dec) (places : JsValue) : Js Dec :=
  dec_call "round" (dec_text d) (match places with JsUndefined => "0" | _ => js_string places end).

(** [toCents] and [fromCents]; without [places] the native takes two. *)
Definition places_text (places : JsValue) : string :=
  match places with JsUndefined => EmptyString | _ => js_string places end.
Definition dec_to_cents (d : Dec) (places : JsValue) : Js Dec :=
  dec_call "to_cents" (dec_text d) (places_text places).
Definition dec_from_cents (d : Dec) (places : JsValue) : Js Dec :=
  dec_call "from_cents" (dec_text d) (places_text places).

(** [parseInt(text, 10)]; [None] is NaN. *)
Fixpoint leading_digits (l : list ascii) (acc : option Z) : option Z :=
  match l with
  | a :: rest =>
      if is_ascii_digit a
      then leading_digits rest (Some (10 * default 0 acc + (Z.of_nat (nat_of_ascii a) - 48)))
      else acc
  | [] => acc
  end.
Definition parse_int (text : string) : option Z :=
  match bytes_of (trim text) with
  | "-"%char :: l => Z.opp <$> leading_digits l None
  | "+"%char :: l => leading_digits l None
  | l => leading_digits l None
  end.

Definition dec_cmp_js (d : Dec) (o : DecArg) : Js (option Z) :=
  let* v := js_decimal "cmp" (dec_text d) (coerce o) in js_return (parse_int (js_string v)).
(** A comparison with zero of what [cmp] returned; every one with NaN is false. *)
Definition dec_test (P : Z → bool) (d : Dec) (o : DecArg) : Js bool :=
  let* c := dec_cmp_js d o in js_return (from_option P false c).
Definition dec_eq : Dec → DecArg → Js bool := dec_test (λ c, bool_decide (c = 0)).
Definition dec_lt : Dec → DecArg → Js bool := dec_test (λ c, bool_decide (c < 0)).
Definition dec_lte : Dec → DecArg → Js bool := dec_test (λ c, bool_decide (c ≤ 0)).
Definition dec_gt : Dec → DecArg → Js bool := dec_test (λ c, bool_decide (0 < c)).
Definition dec_gte : Dec → DecArg → Js bool := dec_test (λ c, bool_decide (0 ≤ c)).
Definition dec_is_zero (d : Dec) : Js bool := dec_eq d (AValue (JsNumber "0")).
Definition dec_is_negative (d : Dec) : Js bool := dec_lt d (AValue (JsNumber "0")).
(** [toString] and [toJSON]. *)
Definition dec_string (d : Dec) : string := dec_text d.
Definition dec_to_json (d : Dec) : JsValue := dec_v d.

(** [make]: [$] and [Decimal]. *)
Definition dec_make (x : DecArg) : Js Dec :=
  match x with ADec d => js_return d | AValue _ => dec_call "parse" (coerce x) EmptyString end.

(** ** Dates *)

(** [new DateObj(ms)]. *)
Record DateObj := { date_ms : JsValue }.

(** The fields of a duration; a missing or falsy one is zero. *)
Record Delta := { weeks : Z; days : Z; hours : Z; minutes : Z; seconds : Z; millis : Z }.
(** [durationMs]. *)
Definition duration_ms (x : Delta) : Z :=
  ((((weeks x * 7 + days x) * 24 + hours x) * 60 + minutes x) * 60 + seconds x) * 1000 + millis x.

Definition js_int (z : Z) : JsValue := JsNumber (pretty z).
Definition date_call (op : string) (payload : JsValue) : Js JsValue := js_sys "date" op payload.
Definition date_call_obj (op : string) (payload : JsValue) : Js DateObj :=
  let* v := date_call op payload in js_return {| date_ms := v |}.

Definition date_shift (d : DateObj) (delta_ms : Z) : Js DateObj :=
  date_call_obj "add" (JsObject [("ms", date_ms d); ("delta_ms", js_int delta_ms)]).
Definition dateobj_add (d : DateObj) (delta : Delta) : Js DateObj := date_shift d (duration_ms delta).
Definition dateobj_sub (d : DateObj) (delta : Delta) : Js DateObj := date_shift d (- duration_ms delta).

(** [diff]: another date, or a number of milliseconds. *)
Inductive DateArg := ADate (d : DateObj) | AMillis (lexeme : string).
Definition date_arg_ms (x : DateArg) : JsValue :=
  match x with ADate d => date_ms d | AMillis n => JsNumber n end.
Definition dateobj_diff (d : DateObj) (other : DateArg) : Js JsValue :=
  date_call "diff" (JsObject [("a", date_ms d); ("b", date_arg_ms other)]).
Definition dateobj_iso (d : DateObj) : Js JsValue := date_call "iso" (JsObject [("ms", date_ms d)]).
Definition dateobj_unix (d : DateObj) : Js JsValue := date_call "unix" (JsObject [("ms", date_ms d)]).
Definition dateobj_epoch_ms (d : DateObj) : JsValue := date_ms d.

(** [$sys.date.now], [$sys.date.parse] and [$sys.crypto.uuid]. *)
Definition date_now : Js DateObj := date_call_obj "now" (JsObject []).
Inductive ParseArg := ParseDate (d : DateObj) | ParseValue (v : JsValue).
Definition date_parse_js (input : ParseArg) : Js DateObj :=
  match input with
  | ParseDate d => js_return d
  | ParseValue v => date_call_obj "parse" (JsObject [("input", v)])
  end.
Definition js_uuid : Js JsValue := js_sys "crypto" "uuid" (JsObject []).
End helpers.

(** ** What the methods mean *)

Section meaning.
Context {jt : JsonText} {jj : JsJson} {sha : Bytecode.Sha256} {World Net : Type} {net : NetLib Net}.
Implicit Types (env : HostEnv World) (st : HostState World Net) (d : Dec) (o : DecArg).

(** [JSON.parse] of the one-member objects the natives write around a text of [serde_json], which
    prints every such value. *)
Hypothesis reply_value : ∀ x t, (json_depth x < RECURSION_LIMIT)%nat → js_plain x = true →
  json_print x = Some t →
  js_read ("{" +:+ quoted "v" +:+ ":" +:+ t +:+ "}") = Some (JsObject [("v", js_value x)]).
Hypothesis reply_error : ∀ m t, json_print (VString m) = Some t →
  js_read ("{" +:+ quoted "error" +:+ ":" +:+ t +:+ "}") = Some (JsObject [("error", JsString m)]).
Hypothesis plain_prints : ∀ x, js_plain x = true → is_Some (json_print x).

(** A native's answer as the wrapper reads it. *)
Lemma value_reply_ok x t :
  (json_depth x < RECURSION_LIMIT)%nat → js_plain x = true → json_print x = Some t →
  value_reply ("{" +:+ quoted "v" +:+ ":" +:+ t +:+ "}") = Ok (js_value x).
Proof. intros Hd Hp Ht. unfold value_reply, json_read. by rewrite (reply_value _ _ Hd Hp Ht). Qed.
Lemma value_reply_error m :
  nonempty m = true → value_reply (error_json m) = Err (js_error m TagNullish).
Proof.
  intros Hm. unfold value_reply, json_read, error_json. destruct (plain_prints (VString m) eq_refl) as [t Ht].
  rewrite Ht. simpl default. rewrite (reply_error _ _ Ht). simpl. by rewrite Hm.
Qed.

(** Every refusal of the decimal native says why. *)
Lemma decimal_errors_told op a b e :
  decimal_dispatch (D := NetDecimal) op a b = Err e → nonempty e = true.
Proof.
  unfold decimal_dispatch, arithmetic, dec_compare, to_minor, from_minor, negate, dec_round,
    minor_places, scale_factor, parse_decimal, ok_or, map_err. intros He. cbn in He.
  repeat (case_match; simplify_eq/=; try done).
Qed.
Lemma js_decimal_meaning env op a b st :
  interp env (js_decimal op a b) st =
  (match decimal_dispatch (D := NetDecimal) op a b with
   | Ok v => Ok (JsString v)
   | Err e => Err (js_error e TagNullish)
   end, st).
Proof.
  unfold js_decimal. rewrite interp_js_bind. simpl. unfold native_decimal.
  destruct (decimal_dispatch (D := NetDecimal) op a b) as [v|e] eqn:E.
  - unfold decimal_value_json. destruct (plain_prints (VString v) eq_refl) as [t Ht]. rewrite Ht. simpl default.
    by rewrite (value_reply_ok (VString v) t) by (done || (simpl; unfold RECURSION_LIMIT; lia)).
  - by rewrite (value_reply_error e) by (by eapply decimal_errors_told).
Qed.

(** The comparisons follow the order of the decimals. *)
Lemma dec_cmp_meaning env d o st x y :
  parse_decimal (D := NetDecimal) (dec_text d) = Ok x → parse_decimal (coerce o) = Ok y →
  interp env (dec_cmp_js d o) st =
  (Ok (Some match dec_cmp x y with Lt => -1 | Eq => 0 | Gt => 1 end), st).
Proof.
  intros Hx Hy. unfold dec_cmp_js. rewrite interp_js_bind, js_decimal_meaning.
  unfold decimal_dispatch. rewrite Hx. cbn [result_bind]. rewrite !decide_False, decide_True by done.
  unfold dec_compare. rewrite Hy. cbn [result_bind]. by destruct (dec_cmp x y).
Qed.
Lemma dec_tests_meaning env d o st x y :
  parse_decimal (D := NetDecimal) (dec_text d) = Ok x → parse_decimal (coerce o) = Ok y →
  let c := dec_cmp x y in
  interp env (dec_eq d o) st = (Ok (match c with Eq => true | _ => false end), st) ∧
  interp env (dec_lt d o) st = (Ok (match c with Lt => true | _ => false end), st) ∧
  interp env (dec_gt d o) st = (Ok (match c with Gt => true | _ => false end), st) ∧
  interp env (dec_lte d o) st = (Ok (match c with Gt => false | _ => true end), st) ∧
  interp env (dec_gte d o) st = (Ok (match c with Lt => false | _ => true end), st).
Proof.
  intros Hx Hy. unfold dec_eq, dec_lt, dec_gt, dec_lte, dec_gte, dec_test.
  rewrite !interp_js_bind, !(dec_cmp_meaning env d o st x y Hx Hy). by destruct (dec_cmp x y).
Qed.

(** The arithmetic is the checked one of the library, its failures thrown. *)
Lemma dec_arith_meaning env d o st x y op (f : NetDecimal → NetDecimal → option NetDecimal) :
  (op, f) ∈ [("add", dec_checked_add); ("sub", dec_checked_sub); ("mul", dec_checked_mul)] →
  parse_decimal (dec_text d) = Ok x → parse_decimal (coerce o) = Ok y →
  interp env (dec_call op (dec_text d) (coerce o)) st =
  (match f x y with
   | Some z => Ok {| dec_v := JsString (dec_to_string z) |}
   | None => Err (js_error "decimal overflow" TagNullish)
   end, st).
Proof.
  intros Hop Hx Hy. unfold dec_call. rewrite interp_js_bind, js_decimal_meaning.
  unfold decimal_dispatch, arithmetic. rewrite Hx, Hy.
  rewrite !elem_of_cons in Hop. destruct Hop as [[= -> ->]|[[= -> ->]|[[= -> ->]|[]%elem_of_nil]]]; cbn.
  - by destruct (dec_checked_add x y).
  - by destruct (dec_checked_sub x y).
  - by destruct (dec_checked_mul x y).
Qed.

(** One call of the date native on a document of plain numbers. *)
Lemma date_call_meaning env op v st x :
  truthy (js_value v) = true → js_plain v = true → (json_depth v ≤ RECURSION_LIMIT)%nat →
  distinct_keys v = true → date_dispatch op v (hs_net st) = Ok x →
  js_plain x = true → (json_depth x < RECURSION_LIMIT)%nat →
  interp env (date_call op (js_value v)) st = (Ok (js_value x), st).
Proof.
  intros Hv Hp Hd Hk Hx Hpx Hdx. destruct (plain_prints x Hpx) as [t Ht].
  assert (stringify (or_object (js_value v)) = Some (js_print v)) as Hs.
  { unfold or_object, js_or, stringify. by rewrite Hv, json_tree_js_value. }
  assert (native_sys (he_secrets env) "date" op (js_print v) (hs_uuids st) (hs_net st) =
          ("{" +:+ quoted "v" +:+ ":" +:+ t +:+ "}", hs_uuids st)) as Hn.
  { unfold native_sys, sys_dispatch. rewrite js_print_parse by (split; [done|by apply js_plain_numbers]).
    rewrite norm_distinct, decide_False, decide_True by done. rewrite Hx. unfold sys_value_json.
    by rewrite Ht. }
  unfold date_call, js_sys. rewrite Hs, interp_js_bind. cbn [interp native host_call from_option id]. rewrite Hn.
  cbn [interp]. rewrite (value_reply_ok x t Hdx Hpx Ht). by destruct st.
Qed.

(** Integers a double holds exactly. *)
Definition exact (z : Z) : Prop := Z.abs z < 2 ^ 53.
Lemma number_i64_int z : I64_MIN ≤ z ≤ I64_MAX → number_i64 (pretty z) = Some z.
Proof.
  intros Hz. destruct (decide (0 ≤ z)) as [H0|H0]; [by apply number_i64_pretty; lia|].
  destruct z as [|p|p]; [lia..|]. change (pretty (Z.neg p)) with ("-" +:+ pretty (Z.pos p)).
  destruct (pretty_Z_digits (Z.pos p)) as (Hd & Hn & Hv); [lia|]. unfold number_i64.
  change (bytes_of ("-" +:+ pretty (Z.pos p))) with ("-"%char :: bytes_of (pretty (Z.pos p))).
  cbn match. rewrite Hd, Hv. unfold I64_MIN in Hz. by rewrite !bool_decide_eq_true_2 by (done || lia).
Qed.
Lemma plain_int z : exact z → plain_number (pretty z) = true.
Proof.
  intros Hz. unfold exact in Hz. unfold plain_number, safe_integer.
  rewrite number_i64_int by (unfold I64_MIN, I64_MAX; lia). by rewrite !bool_decide_eq_true_2.
Qed.
(** Objects of integers under these names are plain. *)
Lemma plain_object (l : list (string * Z)) :
  NoDup l.*1 → forallb (λ p, negb (index_like p.1)) l = true → Forall (λ p, exact p.2) l →
  js_plain (VObject ((λ '(k, z), (k, VNumber (pretty z))) <$> l)) = true.
Proof.
  intros Hn Hi Hl. cbn [js_plain]. apply andb_true_intro. split.
  - apply bool_decide_eq_true. rewrite <-list_fmap_compose. erewrite list_fmap_ext; [exact Hn|].
    by intros _ [k z] _.
  - clear Hn. induction Hl as [|[k z] l Hz Hl IH]; [done|]. simpl in Hi. apply andb_prop in Hi as [Hk Hi].
    cbn [fmap list_fmap forallb fst snd]. rewrite Hk. cbn [js_plain]. rewrite plain_int by done. by apply IH.
Qed.

(** Shifting a date, and measuring the distance of two. *)
Lemma date_shift_meaning env z delta st :
  exact z → exact delta → exact (z + delta) →
  interp env (date_shift {| date_ms := js_int z |} delta) st = (Ok {| date_ms := js_int (z + delta) |}, st).
Proof.
  intros Hz Hd Hs. unfold date_shift, date_call_obj. rewrite interp_js_bind. cbn [date_ms].
  change (JsObject [("ms", js_int z); ("delta_ms", js_int delta)]) with
    (js_value (VObject ((λ '(k, z), (k, VNumber (pretty z))) <$> [("ms", z); ("delta_ms", delta)]))).
  rewrite (date_call_meaning _ _ _ _ (VNumber (pretty (z + delta)))); try done.
  - apply plain_object; [by apply (bool_decide_unpack _)|done|by repeat constructor].
  - simpl. unfold RECURSION_LIMIT. lia.
  - unfold exact in *. unfold date_dispatch. rewrite !decide_False, decide_True by done.
    unfold date_add, field_i64. simpl.
    rewrite !number_i64_int by (unfold I64_MIN, I64_MAX; lia). simpl. unfold checked_i64, in_i64.
    rewrite bool_decide_eq_true_2 by (unfold I64_MIN, I64_MAX; lia). done.
  - by apply plain_int.
  - simpl. unfold RECURSION_LIMIT. lia.
Qed.
(** The parts of a distance: days, hours, minutes and seconds of its whole seconds. *)
Definition diff_parts (total_ms : Z) : list (string * Z) :=
  let total_seconds := Z.quot total_ms 1000 in
  let after_days := Z.abs total_seconds mod 86400 in let after_hours := after_days mod 3600 in
  [("total_ms", total_ms); ("total_seconds", total_seconds); ("days", Z.abs total_seconds / 86400);
   ("hours", after_days / 3600); ("minutes", after_hours / 60); ("seconds", after_hours mod 60)].
Lemma diff_parts_exact z : exact z → Forall (λ p, exact p.2) (diff_parts z).
Proof.
  unfold exact, diff_parts. intros Hz. repeat constructor; simpl; Z.to_euclidean_division_equations; lia.
Qed.
Lemma date_diff_dispatch a b :
  exact a → exact b →
  date_diff (VObject ((λ '(k, z), (k, VNumber (pretty z))) <$> [("a", a); ("b", b)])) =
  Ok (VObject ((λ '(k, z), (k, VNumber (pretty z))) <$> diff_parts (a - b))).
Proof.
  unfold exact. intros Ha Hb. unfold date_diff, field_i64. simpl.
  rewrite !number_i64_int by (unfold I64_MIN, I64_MAX; lia). simpl. unfold checked_i64, in_i64.
  rewrite bool_decide_eq_true_2 by (unfold I64_MIN, I64_MAX; lia). simpl.
  unfold split_duration, divmod, SECONDS_PER_DAY, SECONDS_PER_HOUR, SECONDS_PER_MINUTE.
  done.
Qed.
Lemma date_diff_meaning env a b st :
  exact a → exact b → exact (a - b) →
  interp env (dateobj_diff {| date_ms := js_int a |} (ADate {| date_ms := js_int b |})) st =
  (Ok (JsObject ((λ '(k, z), (k, js_int z)) <$> diff_parts (a - b))), st).
Proof.
  intros Ha Hb Hab. unfold dateobj_diff. cbn [date_ms date_arg_ms].
  change (JsObject [("a", js_int a); ("b", js_int b)]) with
    (js_value (VObject ((λ '(k, z), (k, VNumber (pretty z))) <$> [("a", a); ("b", b)]))).
  change (JsObject ((λ '(k, z), (k, js_int z)) <$> diff_parts (a - b))) with
    (js_value (VObject ((λ '(k, z), (k, VNumber (pretty z))) <$> diff_parts (a - b)))).
  apply date_call_meaning; try done.
  - apply plain_object; [by apply (bool_decide_unpack _)|done|by repeat constructor].
  - simpl. unfold RECURSION_LIMIT. lia.
  - unfold date_dispatch. rewrite !decide_False, decide_True by done. by apply date_diff_dispatch.
  - apply plain_object; [by apply (bool_decide_unpack _)|done|by apply diff_parts_exact].
  - simpl. unfold RECURSION_LIMIT. lia.
Qed.

(** A date moved by a duration is that far from where it was. *)
Lemma date_add_then_diff env z delta st :
  exact z → exact (duration_ms delta) → exact (z + duration_ms delta) →
  let d := {| date_ms := js_int z |} in
  interp env (let* later := dateobj_add d delta in dateobj_diff later (ADate d)) st =
  (Ok (JsObject ((λ '(k, z), (k, js_int z)) <$> diff_parts (duration_ms delta))), st).
Proof.
  intros Hz Hd Hs d. rewrite interp_js_bind. unfold dateobj_add, d. rewrite date_shift_meaning by done.
  replace (duration_ms delta) with (z + duration_ms delta - z) at 2 by lia.
  by rewrite date_diff_meaning by (done || (unfold exact in *; lia)).
Qed.
End meaning.
