(* ===== verification/ScriptPath.v ===== *)
(** * ScriptPath: from a script's call to the driver, and back

    Joins the wrappers a script calls ([Wrappers]), the engine's [__io] native ([Engine]) and the
    payload readers of the session's drivers ([Backends] and the driver files).  A [ScriptCall] is a
    well-typed use of one of the driver-backed globals; [driver_request] is how the daemon reads what
    arrives, composed of the readers the drivers use. *)

From Stdlib Require Import Ascii SpecFloat.
From S2P Require Import Prelude Json Errors Runtime Wire Resources Backends DbDriver MongoDriver MailDriver RedisDriver AmqDriver.
From S2P Require Import Bytecode Http Engine Js Wrappers.
Local Open Scope Z_scope.

(** ** What a driver is asked to do *)

Inductive DriverRequest :=
| DrDb (action sql : string) (params : list ParamValue)
| DrMongo (action collection : string) (payload : MongoPayload)
| DrMail (p : SendPayload)
| DrRedisKey (action key : string)
| DrRedisSet (p : SetPayload)
| DrRedisExpire (p : ExpirePayload)
| DrAmqSend (messages : list AmqMessage)
| DrAmqRequest (m : AmqMessage)
| DrAuth (action token : string).

(** ** What a script asks *)

Record MailOpts := {
  mo_from : string; mo_to : list string; mo_cc : list string; mo_bcc : list string;
  mo_reply_to : string; mo_subject : string; mo_text : string; mo_html : string }.

(** Documents, filters and payloads are any values; a filter or options left out are [undefined]. *)
Inductive ScriptCall :=
| ScDb (execute : bool) (sql : string) (params : list JsValue)
| ScMongoFind (collection : string) (filter options : JsValue)
| ScMongoFindOne (collection : string) (filter : JsValue)
| ScMongoCount (collection : string) (filter : JsValue)
| ScMongoAggregate (collection : string) (pipeline : JsValue)
| ScMongoInsertOne (collection : string) (doc : JsValue)
| ScMongoInsertMany (collection : string) (docs : JsValue)
| ScMongoUpdate (many : bool) (collection : string) (filter update : JsValue)
| ScMongoDelete (many : bool) (collection : string) (filter : JsValue)
| ScMail (opts : MailOpts)
| ScRedisGet (key : string)
| ScRedisSet (key : string) (value : JsValue) (ttl : option Z)
| ScRedisDel (key : string)
| ScRedisIncr (key : string)
| ScRedisExpire (key : string) (seconds : Z)
| ScAmqSend (messages : list (string * JsValue))
| ScAmqRequest (subject : string) (payload : JsValue)
| ScAuth (introspect : bool) (token : string).

Definition texts (l : list string) : JsValue := JsArray (JsString <$> l).
Definition js_int (z : Z) : JsValue := JsNumber (pretty z).
Definition mail_opts (o : MailOpts) : JsValue :=
  JsObject [("from", JsString (mo_from o)); ("to", texts (mo_to o)); ("cc", texts (mo_cc o));
            ("bcc", texts (mo_bcc o)); ("reply_to", JsString (mo_reply_to o));
            ("subject", JsString (mo_subject o)); ("text", JsString (mo_text o));
            ("html", JsString (mo_html o))].
Definition ttl_opts (ttl : option Z) : JsValue :=
  match ttl with Some z => JsObject [("ttl", js_int z)] | None => JsUndefined end.
Definition amq_pair (m : string * JsValue) : JsValue := JsArray [JsString m.1; m.2].
Definition auth_action (introspect : bool) : string := if introspect then "introspect" else "user_info".

Section path.
Context `{!JsonText} `{!JsJson} `{!RawJson} `{!Formats}.

(** The wrapper a call goes through, from an execution's empty [auth] memo. *)
Definition run_wrapper (c : ScriptCall) : Js JsValue :=
  match c with
  | ScDb execute sql params =>
      if execute then js_db_execute (JsString sql) (JsArray params)
      else js_db_query (JsString sql) (JsArray params)
  | ScMongoFind coll filter options => js_mongo_find (JsString coll) filter options
  | ScMongoFindOne coll filter => js_mongo_find_one (JsString coll) filter
  | ScMongoCount coll filter => js_mongo_count (JsString coll) filter
  | ScMongoAggregate coll pipeline => js_mongo_aggregate (JsString coll) pipeline
  | ScMongoInsertOne coll doc => js_mongo_insert_one (JsString coll) doc
  | ScMongoInsertMany coll docs => js_mongo_insert_many (JsString coll) docs
  | ScMongoUpdate many coll filter update =>
      js_mongo_update (if many then "update_many" else "update_one") (JsString coll) filter update
  | ScMongoDelete many coll filter =>
      js_mongo_delete (if many then "delete_many" else "delete_one") (JsString coll) filter
  | ScMail opts => js_mail_send (mail_opts opts)
  | ScRedisGet key => js_redis_get (JsString key)
  | ScRedisSet key value ttl => js_redis_set (JsString key) value (ttl_opts ttl)
  | ScRedisDel key => js_redis_del (JsString key)
  | ScRedisIncr key => js_redis_incr (JsString key)
  | ScRedisExpire key seconds => js_redis_expire (JsString key) (js_int seconds)
  | ScAmqSend messages => js_amq_send (amq_pair <$> messages)
  | ScAmqRequest subject payload => js_amq_request (JsString subject) payload
  | ScAuth introspect token =>
      prog_bind (js_auth ∅ (auth_action introspect) token) (λ r, Ret r.1)
  end.

(** The message it sends: capability, action and payload. *)
Definition sent (c : ScriptCall) : string * string * JsValue :=
  match c with
  | ScDb execute sql params =>
      ("db", if execute then "execute" else "query", db_payload (JsString sql) (JsArray params))
  | ScMongoFind coll filter options =>
      ("mongo", "find", mongo_envelope (JsString coll)
         (JsObject [("filter", or_object filter); ("options", or_object options)]))
  | ScMongoFindOne coll filter =>
      ("mongo", "find_one", mongo_envelope (JsString coll) (JsObject [("filter", or_object filter)]))
  | ScMongoCount coll filter =>
      ("mongo", "count", mongo_envelope (JsString coll) (JsObject [("filter", or_object filter)]))
  | ScMongoAggregate coll pipeline =>
      ("mongo", "aggregate", mongo_envelope (JsString coll) (JsObject [("pipeline", or_array pipeline)]))
  | ScMongoInsertOne coll doc =>
      ("mongo", "insert_one", mongo_envelope (JsString coll) (JsObject [("doc", or_object doc)]))
  | ScMongoInsertMany coll docs =>
      ("mongo", "insert_many", mongo_envelope (JsString coll) (JsObject [("docs", or_array docs)]))
  | ScMongoUpdate many coll filter update =>
      ("mongo", if many then "update_many" else "update_one", mongo_envelope (JsString coll)
         (JsObject [("filter", or_object filter); ("update", or_object update)]))
  | ScMongoDelete many coll filter =>
      ("mongo", if many then "delete_many" else "delete_one", mongo_envelope (JsString coll)
         (JsObject [("filter", or_object filter)]))
  | ScMail opts => ("mail", "send", mail_payload (mail_opts opts))
  | ScRedisGet key => ("redis", "get", JsObject [("key", JsString key)])
  | ScRedisSet key value ttl => ("redis", "set", redis_set_payload (JsString key) value (ttl_opts ttl))
  | ScRedisDel key => ("redis", "del", JsObject [("key", JsString key)])
  | ScRedisIncr key => ("redis", "incr", JsObject [("key", JsString key)])
  | ScRedisExpire key seconds =>
      ("redis", "expire", JsObject [("key", JsString key); ("seconds", js_int seconds)])
  | ScAmqSend messages =>
      ("amq", "send", JsObject [("messages", JsArray
         ((λ m, JsObject [("key", JsString m.1); ("payload", m.2)]) <$> messages))])
  | ScAmqRequest subject payload =>
      ("amq", "request", JsObject [("subject", JsString subject); ("payload", payload)])
  | ScAuth introspect token => ("auth", auth_action introspect, JsObject [("token", JsString token)])
  end.

(** What the wrapper makes of the reply. *)
Definition received (c : ScriptCall) (r : result JsValue Caught) : result JsValue Caught :=
  let field k := let? v := r in js_get v k in
  match c with
  | ScMongoCount _ _ | ScRedisDel _ => field "count"
  | ScRedisGet _ | ScRedisIncr _ => field "value"
  | ScRedisSet _ _ _ => field "ok"
  | ScRedisExpire _ _ => field "set"
  | ScAmqSend _ => field "published"
  | ScAmqRequest _ _ => field "reply"
  | _ => r
  end.

(** ** How the daemon reads a payload *)

Definition of_result {T E} (r : result T E) : option T := match r with Ok x => Some x | Err _ => None end.

(** The readers of the six drivers, as their [call] and [dispatch] compose them. *)
Definition driver_request (name action text : string) : option DriverRequest :=
  if decide (name = "db") then
    '(sql, params) ← of_result (parse_db_payload text);
    DrDb action sql <$> of_result (parse_params params)
  else if decide (name = "mongo") then
    '(collection, data) ← of_result (parse_mongo_payload text);
    DrMongo action collection <$> of_result (from_str de_mongo_payload data)
  else if decide (name = "mail") then DrMail <$> of_result (from_str de_send_payload text)
  else if decide (name = "redis") then
    if decide (action = "set") then DrRedisSet <$> of_result (from_str de_set_payload text)
    else if decide (action = "expire") then DrRedisExpire <$> of_result (from_str de_expire_payload text)
    else DrRedisKey action <$> of_result (from_str de_key_payload text)
  else if decide (name = "amq") then
    if decide (action = "send") then DrAmqSend <$> of_result (from_str (de_amq_send text) text)
    else DrAmqRequest <$> of_result (from_str (de_amq_request text) text)
  else if decide (name = "auth") then DrAuth action <$> of_result (parse_auth_token text)
  else None.

(** ** What a call means *)

Definition doc (v : JsValue) : Value := default VNull (json_tree v).
Definition mongo_default : MongoPayload :=
  {| mp_filter := VNull; mp_update := VNull; mp_doc := VNull; mp_docs := VNull; mp_pipeline := VNull;
     mp_options := FindOpts_default |}.
Definition by_filter (filter : JsValue) : MongoPayload :=
  {| mp_filter := doc (or_object filter); mp_update := VNull; mp_doc := VNull; mp_docs := VNull;
     mp_pipeline := VNull; mp_options := FindOpts_default |}.

(** The request the driver is to carry out; [None] when the find options are none the driver knows. *)
Definition meaning (c : ScriptCall) : option DriverRequest :=
  match c with
  | ScDb execute sql params =>
      Some (DrDb (if execute then "execute" else "query") sql (ParamValue_from ∘ doc <$> params))
  | ScMongoFind coll filter options =>
      o ← de_find_opts (doc (or_object options));
      Some (DrMongo "find" coll {| mp_filter := doc (or_object filter); mp_update := VNull;
        mp_doc := VNull; mp_docs := VNull; mp_pipeline := VNull; mp_options := o |})
  | ScMongoFindOne coll filter => Some (DrMongo "find_one" coll (by_filter filter))
  | ScMongoCount coll filter => Some (DrMongo "count" coll (by_filter filter))
  | ScMongoAggregate coll pipeline =>
      Some (DrMongo "aggregate" coll {| mp_filter := VNull; mp_update := VNull; mp_doc := VNull;
        mp_docs := VNull; mp_pipeline := doc (or_array pipeline); mp_options := FindOpts_default |})
  | ScMongoInsertOne coll d =>
      Some (DrMongo "insert_one" coll {| mp_filter := VNull; mp_update := VNull;
        mp_doc := doc (or_object d); mp_docs := VNull; mp_pipeline := VNull;
        mp_options := FindOpts_default |})
  | ScMongoInsertMany coll docs =>
      Some (DrMongo "insert_many" coll {| mp_filter := VNull; mp_update := VNull; mp_doc := VNull;
        mp_docs := doc (or_array docs); mp_pipeline := VNull; mp_options := FindOpts_default |})
  | ScMongoUpdate many coll filter update =>
      Some (DrMongo (if many then "update_many" else "update_one") coll
        {| mp_filter := doc (or_object filter); mp_update := doc (or_object update); mp_doc := VNull;
           mp_docs := VNull; mp_pipeline := VNull; mp_options := FindOpts_default |})
  | ScMongoDelete many coll filter =>
      Some (DrMongo (if many then "delete_many" else "delete_one") coll (by_filter filter))
  | ScMail o =>
      Some (DrMail {| sp_from := mo_from o; sp_to := mo_to o; sp_cc := mo_cc o; sp_bcc := mo_bcc o;
        sp_reply_to := mo_reply_to o; sp_subject := mo_subject o; sp_text := mo_text o;
        sp_html := mo_html o |})
  | ScRedisGet key => Some (DrRedisKey "get" key)
  | ScRedisSet key value ttl =>
      Some (DrRedisSet {| set_key := key; set_value := js_string value; set_ttl := ttl |})
  | ScRedisDel key => Some (DrRedisKey "del" key)
  | ScRedisIncr key => Some (DrRedisKey "incr" key)
  | ScRedisExpire key seconds => Some (DrRedisExpire {| exp_key := key; exp_seconds := seconds |})
  | ScAmqSend messages =>
      Some (DrAmqSend ((λ m, {| am_key := m.1;
        am_payload := default "null" (js_print <$> json_tree m.2) |}) <$> messages))
  | ScAmqRequest subject payload =>
      Some (DrAmqRequest {| am_key := subject; am_payload := default "null" (js_print <$> json_tree payload) |})
  | ScAuth introspect token => Some (DrAuth (auth_action introspect) token)
  end.

(** Arguments as JavaScript has them, objects with distinct keys and numbers in the safe range, and a
    payload both languages carry. *)
Definition safe_range (z : Z) : Prop := 0 ≤ z < 2 ^ 53.
Definition args_wf (c : ScriptCall) : Prop :=
  match c with
  | ScDb _ _ params => forallb js_wf params = true
  | ScMongoFind _ filter options => js_wf filter = true ∧ js_wf options = true
  | ScMongoFindOne _ v | ScMongoCount _ v | ScMongoAggregate _ v | ScMongoInsertOne _ v
  | ScMongoInsertMany _ v | ScMongoDelete _ _ v | ScAmqRequest _ v => js_wf v = true
  | ScMongoUpdate _ _ filter update => js_wf filter = true ∧ js_wf update = true
  | ScRedisSet _ _ ttl => from_option safe_range True ttl
  | ScRedisExpire _ seconds => safe_range seconds
  | _ => True
  end.
Definition call_wf (c : ScriptCall) : Prop := args_wf c ∧ portable (doc (sent c).2).
End path.

(** ** Lemmas *)

Lemma or_text_string s : or_text (JsString s) = JsString s.
Proof. unfold or_text, js_or. simpl. by destruct s. Qed.

Lemma js_or_wf v d : js_wf v = true → js_wf d = true → js_wf (js_or v d) = true.
Proof. unfold js_or. by destruct (truthy v). Qed.

(** A value that is not [undefined] is written as its document, which keeps its keys. *)
Lemma doc_distinct v : js_wf v = true → distinct_keys (doc v) = true.
Proof.
  intros Hw. unfold doc. destruct (json_tree v) as [t|] eqn:Et; [|done]. by eapply json_tree_distinct.
Qed.
Lemma norm_doc v : js_wf v = true → norm (doc v) = doc v.
Proof. intros Hw. by apply norm_distinct, doc_distinct. Qed.
Lemma norm_docs l : forallb js_wf l = true → norm <$> (doc <$> l) = doc <$> l.
Proof.
  intros Hw. rewrite forallb_forall in Hw. rewrite <-list_fmap_compose. apply list_fmap_ext.
  intros i x Hx. apply norm_doc, Hw. apply list_elem_of_In. by eapply list_elem_of_lookup_2.
Qed.
Lemma json_tree_or v d : truthy d = true → json_tree (js_or v d) = Some (doc (js_or v d)).
Proof.
  intros Hd. unfold js_or, doc. destruct (truthy v) eqn:Ev; [by destruct v|by destruct d].
Qed.

Section path_lemmas.
Context `{!JsonText} `{!JsJson} `{!RawJson} `{!Formats} {sha : Sha256} {World Net : Type} {net : NetLib Net}.
Implicit Types (env : HostEnv World) (st : HostState World Net).

(** The state after one call through the port. *)
Definition ported st (w : World) : HostState World Net :=
  {| hs_effects := hs_effects st; hs_used := S (hs_used st); hs_world := w; hs_http := hs_http st;
     hs_s3 := hs_s3 st; hs_net := hs_net st; hs_uuids := hs_uuids st |}.
Definition reply_text (r : result string EgressError) : string :=
  match r with Ok json => json | Err e => to_tag_json e end.

(** [io.call] within the budget: one call of the port, whose reply it reads. *)
Lemma io_call_interp env eg name action payload st :
  he_egress env = Some eg → (hs_used st < he_max_ops env)%nat →
  interp env (io_call name action payload) st =
  let '(r, w) := eg name action (default (js_print VNull) (stringify payload)) (hs_world st) in
  (io_reply (reply_text r), ported st w).
Proof.
  intros He Hb. unfold io_call. rewrite interp_js_bind. unfold native. cbn [interp host_call].
  rewrite He. unfold native_io. rewrite decide_False by lia.
  by destruct (eg name action _ (hs_world st)) as [[j|e] w].
Qed.

Lemma amq_messages_pairs l :
  amq_messages (amq_pairs (amq_pair <$> l)) =
  Ok ((λ m, JsObject [("key", JsString m.1); ("payload", m.2)]) <$> l).
Proof.
  assert (amq_pairs (amq_pair <$> l) = amq_pair <$> l) as -> by (by destruct l as [|m1 [|m2 [|m3 l]]]).
  induction l as [|[k v] l IH]; [done|]. rewrite !fmap_cons. cbn [amq_messages]. simpl js_index.
  cbn [result_bind default]. by rewrite IH.
Qed.

(** Every wrapper is one [io.call] of its message, and its own reading of the reply. *)
Lemma run_wrapper_interp env c st :
  interp env (run_wrapper c) st =
  let '(name, action, payload) := sent c in
  let '(r, st') := interp env (io_call name action payload) st in (received c r, st').
Proof.
  destruct c; simpl run_wrapper; simpl sent; cbv beta iota;
    repeat match goal with |- context [if ?b then _ else _] => destruct b end;
    unfold js_db_query, js_db_execute, js_db_call, js_mongo_find, js_mongo_find_one, js_mongo_count,
      js_mongo_aggregate, js_mongo_insert_one, js_mongo_insert_many, js_mongo_update, js_mongo_delete,
      js_mongo_call, js_mail_send, js_redis_get, js_redis_set, js_redis_del, js_redis_incr,
      js_redis_expire, js_amq_send, js_amq_request, io_field.
  all: try (by destruct (interp env (io_call _ _ _) st)).
  all: try (rewrite interp_js_bind; by destruct (interp env (io_call _ _ _) st) as [[]]).
  - rewrite interp_js_bind. cbn [interp]. rewrite amq_messages_pairs, interp_js_bind.
    by destruct (interp env (io_call _ _ _) st) as [[]].
  - unfold js_auth. rewrite lookup_empty, !interp_bind.
    by destruct (interp env (io_call _ _ _) st) as [[]].
Qed.

(** [serde_json] reads back what it wrote, within its nesting limit. *)
Definition serde_faithful : Prop := ∀ v, portable v →
  ∃ t, json_print v = Some t ∧ json_parse t = Ok v.

(** The text a payload travels as is read as the payload's document. *)
Lemma from_str_payload {T} (de : Value → option T) v t :
  json_tree v = Some t → portable (doc v) →
  of_result (from_str de (default (js_print VNull) (stringify v))) = de t.
Proof.
  intros Ht Hd. unfold doc in Hd. rewrite Ht in Hd. unfold stringify. rewrite Ht. simpl.
  unfold from_str. rewrite js_print_parse by done. by destruct (de t).
Qed.

(** The database: the parameters are written again for the driver and read there. *)
Lemma db_request action sql params :
  serde_faithful → forallb js_wf params = true →
  portable (doc (db_payload (JsString sql) (JsArray params))) →
  driver_request "db" action
    (default (js_print VNull) (stringify (db_payload (JsString sql) (JsArray params)))) =
  Some (DrDb action sql (ParamValue_from ∘ doc <$> params)).
Proof.
  intros Hs Hw Hd.
  set (t := VObject [("sql", VString sql); ("params", VArray (doc <$> params))]).
  assert (json_tree (db_payload (JsString sql) (JsArray params)) = Some t) as Ht by done.
  assert (norm (VArray (doc <$> params)) = VArray (doc <$> params)) as Hn
    by (simpl; by rewrite norm_docs).
  assert (de_db_payload t = Some (sql, VArray (doc <$> params))) as Hde
    by (change (de_db_payload t) with (Some (sql, norm (VArray (doc <$> params)))); by rewrite Hn).
  assert (portable (VArray (doc <$> params))) as Hpd.
  { unfold doc in Hd at 1. rewrite Ht in Hd. apply (portable_member "params" (VArray (doc <$> params))) in Hd; [done|set_solver]. }
  destruct (Hs _ Hpd) as (txt & Hp & Hr).
  unfold driver_request. rewrite decide_True by done. unfold parse_db_payload, stringify, from_str.
  rewrite Ht. simpl. rewrite js_print_parse by (by unfold doc in Hd at 1; rewrite Ht in Hd).
  rewrite Hde. cbn [ok_or map_err result_bind is_null of_result mbind option_bind].
  rewrite Hp. change (default "[]" (Some txt)) with txt. unfold parse_params, from_str. rewrite Hr. simpl.
  rewrite norm_docs by done. by rewrite list_fmap_compose.
Qed.

(** The document store: the envelope carries the data as one document, written again for the driver. *)
Lemma mongo_request action coll l :
  serde_faithful → js_wf (JsObject l) = true →
  portable (doc (mongo_envelope (JsString coll) (JsObject l))) →
  driver_request "mongo" action
    (default (js_print VNull) (stringify (mongo_envelope (JsString coll) (JsObject l)))) =
  DrMongo action coll <$> de_mongo_payload (doc (JsObject l)).
Proof.
  intros Hs Hw Hd. set (t := VObject [("collection", VString coll); ("data", doc (JsObject l))]).
  assert (json_tree (mongo_envelope (JsString coll) (JsObject l)) = Some t) as Ht by done.
  assert (de_mongo_envelope t = Some (coll, doc (JsObject l))) as Hde
    by (change (de_mongo_envelope t) with (Some (coll, norm (doc (JsObject l)))); by rewrite norm_doc).
  unfold doc in Hd at 1. rewrite Ht in Hd. change (default VNull (Some t)) with t in Hd.
  assert (portable (doc (JsObject l))) as Hpd
    by (apply (portable_member "data" (doc (JsObject l))) in Hd; [done|set_solver]).
  destruct (Hs _ Hpd) as (txt & Hp & Hr).
  unfold driver_request. rewrite decide_False, decide_True by done.
  unfold parse_mongo_payload, stringify, from_str. rewrite Ht. simpl. rewrite js_print_parse by done.
  rewrite Hde. cbn [ok_or map_err result_bind of_result mbind option_bind].
  change (is_null (doc (JsObject l))) with false. cbv iota.
  rewrite Hp. change (default "{}" (Some txt)) with txt. rewrite Hr. by destruct (de_mongo_payload _).
Qed.

Lemma mapM_texts l : mapM de_string (VString <$> l) = Some l.
Proof. by apply mapM_fmap_Some. Qed.

(** The raw text of a member is the text that member has on its own. *)
Fixpoint value_at (v : Value) (path : list RawStep) : option Value :=
  match path, v with
  | [], _ => Some v
  | RKey k :: rest, VObject l => x ← last (occurrences k l); value_at x rest
  | RIdx i :: rest, VArray l => x ← l !! i; value_at x rest
  | _, _ => None
  end.
Definition raw_faithful : Prop :=
  ∀ v path x, portable v → value_at v path = Some x → raw_at (js_print v) path = js_print x.

(** One message of a batch. *)
Definition amq_tree (name : string) (m : string * JsValue) : Value :=
  VObject ((name, VString m.1) :: match json_tree m.2 with Some t => [("payload", t)] | None => [] end).
Lemma amq_tree_json name m :
  json_tree (JsObject [(name, JsString m.1); ("payload", m.2)]) = Some (amq_tree name m).
Proof. unfold amq_tree. simpl. by destruct (json_tree m.2). Qed.

Lemma de_keyed_raw_tree name v path m :
  raw_faithful → portable v → name ∈ ["key"; "subject"] → value_at v path = Some (amq_tree name m) →
  de_keyed_raw name (js_print v) path (amq_tree name m) =
  Some {| am_key := m.1; am_payload := default "null" (js_print <$> json_tree m.2) |}.
Proof.
  intros Hraw Hp Hn Hat. assert (∀ x rest, value_at v path = Some x → value_at v (path ++ rest) = value_at x rest) as Happ.
  { clear. revert v. induction path as [|[k|i] path IH]; intros v x rest Hx; simpl in *.
    - by simplify_eq.
    - destruct v; try done. destruct (last _); simpl in *; [by apply IH|done].
    - destruct v; try done. destruct (_ !! i); simpl in *; [by apply IH|done]. }
  specialize (Happ _ [RKey "payload"] Hat). unfold amq_tree in *.
  rewrite !elem_of_cons, elem_of_nil in Hn. destruct_or?; subst; try done;
    destruct (json_tree m.2) as [t|] eqn:Et; try reflexivity;
    cbn -[raw_at js_print app]; rewrite (Hraw _ _ t); done.
Qed.

Lemma amq_send_request l :
  raw_faithful →
  portable (VObject [("messages", VArray (amq_tree "key" <$> l))]) →
  let text := js_print (VObject [("messages", VArray (amq_tree "key" <$> l))]) in
  of_result (from_str (de_amq_send text) text) =
  Some ((λ m, {| am_key := m.1; am_payload := default "null" (js_print <$> json_tree m.2) |}) <$> l).
Proof.
  intros Hraw Hd text. unfold from_str.
  assert (json_parse text = Ok (VObject [("messages", VArray (amq_tree "key" <$> l))])) as ->
    by (by apply js_print_parse).
  unfold de_amq_send.
  change (fields_of ["messages"] (VObject [("messages", VArray (amq_tree "key" <$> l))]))
    with (Some [Some (VArray (amq_tree "key" <$> l))]). cbn [mbind option_bind].
  assert (mapM (λ '(i, m), de_keyed_raw "key" text [RKey "messages"; RIdx i] m)
    (imap pair (amq_tree "key" <$> l)) =
    Some ((λ m, {| am_key := m.1; am_payload := default "null" (js_print <$> json_tree m.2) |}) <$> l)) as ->;
    [|done].
  apply mapM_Some, Forall2_same_length_lookup. split; [by rewrite length_imap, !length_fmap|].
  intros i [j v] m Hv Hm. rewrite list_lookup_imap, list_lookup_fmap in Hv. rewrite list_lookup_fmap in Hm.
  destruct (l !! i) as [x|] eqn:Ex; simplify_eq/=.
  apply de_keyed_raw_tree; [done|done|set_solver|]. simpl. by rewrite list_lookup_fmap, Ex.
Qed.

Lemma or_object_wf v : js_wf v = true → js_wf (or_object v) = true.
Proof. intros Hv. by apply js_or_wf. Qed.
Lemma or_array_wf v : js_wf v = true → js_wf (or_array v) = true.
Proof. intros Hv. by apply js_or_wf. Qed.
Lemma json_tree_or_object v : json_tree (or_object v) = Some (doc (or_object v)).
Proof. by apply json_tree_or. Qed.
Lemma json_tree_or_array v : json_tree (or_array v) = Some (doc (or_array v)).
Proof. by apply json_tree_or. Qed.

(** The payloads the wrappers build, as documents. *)
Lemma doc_one k v t : json_tree v = Some t → doc (JsObject [(k, v)]) = VObject [(k, t)].
Proof. intros Hv. unfold doc. simpl. by rewrite Hv. Qed.
Lemma doc_two k v t k' v' t' : json_tree v = Some t → json_tree v' = Some t' →
  doc (JsObject [(k, v); (k', v')]) = VObject [(k, t); (k', t')].
Proof. intros Hv Hv'. unfold doc. simpl. by rewrite Hv, Hv'. Qed.

(** How the document store reads them. *)
Lemma de_mongo_filter f :
  de_mongo_payload (VObject [("filter", f)]) =
  Some {| mp_filter := norm f; mp_update := VNull; mp_doc := VNull; mp_docs := VNull; mp_pipeline := VNull;
          mp_options := FindOpts_default |}.
Proof. reflexivity. Qed.
Lemma de_mongo_find f o :
  de_mongo_payload (VObject [("filter", f); ("options", o)]) =
  opts ← de_find_opts o;
  Some {| mp_filter := norm f; mp_update := VNull; mp_doc := VNull; mp_docs := VNull; mp_pipeline := VNull;
          mp_options := opts |}.
Proof. reflexivity. Qed.
Lemma de_mongo_update f u :
  de_mongo_payload (VObject [("filter", f); ("update", u)]) =
  Some {| mp_filter := norm f; mp_update := norm u; mp_doc := VNull; mp_docs := VNull; mp_pipeline := VNull;
          mp_options := FindOpts_default |}.
Proof. reflexivity. Qed.
Lemma de_mongo_doc f :
  de_mongo_payload (VObject [("doc", f)]) =
  Some {| mp_filter := VNull; mp_update := VNull; mp_doc := norm f; mp_docs := VNull; mp_pipeline := VNull;
          mp_options := FindOpts_default |}.
Proof. reflexivity. Qed.
Lemma de_mongo_docs f :
  de_mongo_payload (VObject [("docs", f)]) =
  Some {| mp_filter := VNull; mp_update := VNull; mp_doc := VNull; mp_docs := norm f; mp_pipeline := VNull;
          mp_options := FindOpts_default |}.
Proof. reflexivity. Qed.
Lemma de_mongo_pipeline f :
  de_mongo_payload (VObject [("pipeline", f)]) =
  Some {| mp_filter := VNull; mp_update := VNull; mp_doc := VNull; mp_docs := VNull; mp_pipeline := norm f;
          mp_options := FindOpts_default |}.
Proof. reflexivity. Qed.
Hint Resolve or_object_wf or_array_wf doc_distinct : runlet.
Hint Rewrite json_tree_or_object json_tree_or_array : runlet.

Lemma js_wf_one k v : js_wf v = true → js_wf (JsObject [(k, v)]) = true.
Proof. intros Hv. simpl. by rewrite Hv. Qed.
Lemma js_wf_two k v k' v' : bool_decide (k ≠ k') = true → js_wf v = true → js_wf v' = true →
  js_wf (JsObject [(k, v); (k', v')]) = true.
Proof.
  intros Hk Hv Hv'. simpl. rewrite Hv, Hv'. rewrite bool_decide_eq_true_2; [done|].
  apply bool_decide_eq_true in Hk. repeat constructor; set_solver.
Qed.

(** Numbers and texts. *)
Lemma json_number_pretty z : 0 ≤ z → json_number (pretty z) = VNumber (pretty z).
Proof.
  intros Hz. unfold json_number. rewrite decide_False; [done|].
  destruct (pretty_Z_digits z Hz) as (Hd & _ & _). rewrite !elem_of_cons, elem_of_nil.
  intros Hx. repeat (destruct Hx as [Hx|Hx]; [rewrite Hx in Hd; by vm_compute in Hd|]). done.
Qed.
Lemma json_tree_texts l : json_tree (texts l) = Some (VArray (VString <$> l)).
Proof. unfold texts. simpl. by rewrite <-list_fmap_compose. Qed.

(** A mail payload as a document, and how the mail driver reads it. *)
Definition mail_tree (o : MailOpts) : Value :=
  VObject [("from", VString (mo_from o)); ("to", VArray (VString <$> mo_to o));
           ("cc", VArray (VString <$> mo_cc o)); ("bcc", VArray (VString <$> mo_bcc o));
           ("reply_to", VString (mo_reply_to o)); ("subject", VString (mo_subject o));
           ("text", VString (mo_text o)); ("html", VString (mo_html o))].
Lemma mail_doc o : json_tree (mail_payload (mail_opts o)) = Some (mail_tree o).
Proof.
  assert (mail_payload (mail_opts o) = mail_opts o) as ->.
  { change (mail_payload (mail_opts o)) with
      (JsObject [("from", or_text (JsString (mo_from o))); ("to", texts (mo_to o)); ("cc", texts (mo_cc o));
                 ("bcc", texts (mo_bcc o)); ("reply_to", or_text (JsString (mo_reply_to o)));
                 ("subject", or_text (JsString (mo_subject o))); ("text", or_text (JsString (mo_text o)));
                 ("html", or_text (JsString (mo_html o)))]). by rewrite !or_text_string. }
  unfold mail_opts, mail_tree. simpl. by rewrite <-!list_fmap_compose.
Qed.
Lemma de_mail_tree o :
  de_send_payload (mail_tree o) =
  Some {| sp_from := mo_from o; sp_to := mo_to o; sp_cc := mo_cc o; sp_bcc := mo_bcc o;
          sp_reply_to := mo_reply_to o; sp_subject := mo_subject o; sp_text := mo_text o;
          sp_html := mo_html o |}.
Proof.
  change (de_send_payload (mail_tree o)) with
    (to ← mapM de_string (VString <$> mo_to o); cc ← mapM de_string (VString <$> mo_cc o);
     bcc ← mapM de_string (VString <$> mo_bcc o);
     Some {| sp_from := mo_from o; sp_to := to; sp_cc := cc; sp_bcc := bcc; sp_reply_to := mo_reply_to o;
             sp_subject := mo_subject o; sp_text := mo_text o; sp_html := mo_html o |}).
  by rewrite !mapM_texts.
Qed.

(** The keyed commands of Redis. *)
Lemma redis_key_request action k :
  action ∈ ["get"; "del"; "incr"] →
  portable (doc (JsObject [("key", JsString k)])) →
  driver_request "redis" action (default (js_print VNull) (stringify (JsObject [("key", JsString k)]))) =
  Some (DrRedisKey action k).
Proof.
  intros Ha Hd. set (t := default _ _).
  assert (driver_request "redis" action t = DrRedisKey action <$> of_result (from_str de_key_payload t)) as ->.
  { rewrite !elem_of_cons, elem_of_nil in Ha. by destruct_or?; subst. }
  unfold t. by rewrite (from_str_payload _ _ (VObject [("key", VString k)])).
Qed.

(** What arrives is read as what was meant. *)
Lemma driver_request_sent c :
  serde_faithful → raw_faithful → call_wf c →
  let '(name, action, payload) := sent c in
  driver_request name action (default (js_print VNull) (stringify payload)) = meaning c.
Proof.
  intros Hs Hraw [Ha Hd].
  destruct c as [ex sql ps|co f o|co f|co f|co f|co f|co f|many co f u|many co f|opts|k|k v ttl|k|k|k z|ms|su pl|intr tok];
    cbn [sent args_wf fst snd meaning] in *.
  - by apply db_request.
  - destruct Ha as [Hf Ho]. rewrite mongo_request by eauto using js_wf_two with runlet.
    erewrite doc_two by eauto using json_tree_or_object. rewrite de_mongo_find, ?norm_doc by eauto with runlet.
    by destruct (de_find_opts _).
  - rewrite mongo_request by eauto using js_wf_one with runlet.
    erewrite doc_one by eauto using json_tree_or_object. by rewrite de_mongo_filter, ?norm_doc by eauto with runlet.
  - rewrite mongo_request by eauto using js_wf_one with runlet.
    erewrite doc_one by eauto using json_tree_or_object. by rewrite de_mongo_filter, ?norm_doc by eauto with runlet.
  - rewrite mongo_request by eauto using js_wf_one with runlet.
    erewrite doc_one by eauto using json_tree_or_array. by rewrite de_mongo_pipeline, ?norm_doc by eauto with runlet.
  - rewrite mongo_request by eauto using js_wf_one with runlet.
    erewrite doc_one by eauto using json_tree_or_object. by rewrite de_mongo_doc, ?norm_doc by eauto with runlet.
  - rewrite mongo_request by eauto using js_wf_one with runlet.
    erewrite doc_one by eauto using json_tree_or_array. by rewrite de_mongo_docs, ?norm_doc by eauto with runlet.
  - destruct Ha as [Hf Hu]. rewrite mongo_request by eauto using js_wf_two with runlet.
    erewrite doc_two by eauto using json_tree_or_object. by rewrite de_mongo_update, ?norm_doc by eauto with runlet.
  - rewrite mongo_request by eauto using js_wf_one with runlet.
    erewrite doc_one by eauto using json_tree_or_object. by rewrite de_mongo_filter, ?norm_doc by eauto with runlet.
  - change (DrMail <$> of_result (from_str de_send_payload
      (default (js_print VNull) (stringify (mail_payload (mail_opts opts))))) = meaning (ScMail opts)).
    by rewrite (from_str_payload _ _ _ (mail_doc opts) Hd), de_mail_tree.
  - apply (redis_key_request "get"); [set_solver|done].
  - change (DrRedisSet <$> of_result (from_str de_set_payload (default (js_print VNull)
      (stringify (redis_set_payload (JsString k) v (ttl_opts ttl))))) = meaning (ScRedisSet k v ttl)).
    destruct ttl as [z|]; [|by rewrite (from_str_payload _ _ (VObject
      [("key", VString k); ("value", VString (js_string v))]))].
    destruct Ha as [Hz1 Hz2]. pose proof (json_number_pretty z Hz1) as Hj.
    rewrite (from_str_payload _ _ (VObject [("key", VString k); ("value", VString (js_string v));
      ("ttl", VNumber (pretty z))])); [|simpl; by rewrite Hj|done].
    change (DrRedisSet <$> (t ← Some <$> as_u64 (VNumber (pretty z));
      Some {| set_key := k; set_value := js_string v; set_ttl := t |}) = meaning (ScRedisSet k v (Some z))).
    by rewrite (as_u64_pretty z) by (unfold U64_MAX; lia).
  - apply (redis_key_request "del"); [set_solver|done].
  - apply (redis_key_request "incr"); [set_solver|done].
  - change (DrRedisExpire <$> of_result (from_str de_expire_payload (default (js_print VNull)
      (stringify (JsObject [("key", JsString k); ("seconds", js_int z)])))) = meaning (ScRedisExpire k z)).
    destruct Ha as [Hz1 Hz2]. pose proof (json_number_pretty z Hz1) as Hj.
    rewrite (from_str_payload _ _ (VObject [("key", VString k); ("seconds", VNumber (pretty z))]));
      [|simpl; by rewrite Hj|done].
    change (DrRedisExpire <$> (t ← number_i64 (pretty z); Some {| exp_key := k; exp_seconds := t |}) =
      meaning (ScRedisExpire k z)).
    by rewrite number_i64_pretty by (unfold I64_MAX; lia).
  - set (t := VObject [("messages", VArray (amq_tree "key" <$> ms))]).
    assert (json_tree (JsObject [("messages", JsArray ((λ m, JsObject [("key", JsString m.1);
      ("payload", m.2)]) <$> ms))]) = Some t) as Ht.
    { simpl. unfold t. do 5 f_equal. rewrite <-list_fmap_compose. apply list_fmap_ext. intros i m _.
      unfold amq_tree. simpl. by destruct (json_tree m.2). }
    unfold doc in Hd. rewrite Ht in Hd. unfold stringify. rewrite Ht.
    change (DrAmqSend <$> of_result (from_str (de_amq_send (js_print t)) (js_print t)) = meaning (ScAmqSend ms)).
    unfold t. by rewrite amq_send_request.
  - pose proof (amq_tree_json "subject" (su, pl)) as Ht. simpl fst in Ht. simpl snd in Ht.
    unfold doc in Hd. rewrite Ht in Hd. unfold stringify. rewrite Ht.
    set (t := amq_tree "subject" (su, pl)) in *.
    change (DrAmqRequest <$> of_result (from_str (de_amq_request (js_print t)) (js_print t)) =
      meaning (ScAmqRequest su pl)).
    unfold from_str. rewrite js_print_parse by done. unfold de_amq_request.
    pose proof (de_keyed_raw_tree "subject" t [] (su, pl) Hraw Hd ltac:(set_solver) eq_refl) as Hk.
    fold t in Hk. by rewrite Hk.
  - change (DrAuth (auth_action intr) <$> of_result (parse_auth_token (default (js_print VNull)
      (stringify (JsObject [("token", JsString tok)])))) = meaning (ScAuth intr tok)).
    unfold parse_auth_token. pose proof (from_str_payload de_auth_payload
      (JsObject [("token", JsString tok)]) (VObject [("token", VString tok)]) eq_refl Hd) as Hp.
    by destruct (from_str de_auth_payload _); simplify_eq/=.
Qed.


(** ** Errors on the way back *)

(** A fault whose details JavaScript keeps as they are. *)
Definition fault_plain (f : DynamicFault) : Prop :=
  df_error f ≠ "" ∧ from_option js_plain true (df_details f) = true ∧
  (from_option json_depth 0%nat (df_details f) < RECURSION_LIMIT)%nat.

Lemma fault_value_plain f : fault_plain f →
  js_plain (dynamic_fault_value f) = true ∧ portable (dynamic_fault_value f).
Proof.
  intros (_ & Hp & Hd).
  assert (js_plain (dynamic_fault_value f) = true) as Hv
    by (unfold dynamic_fault_value; destruct (df_details f) as [d|]; [by simpl in *; rewrite Hp|done]).
  split; [done|]. split; [|by apply js_plain_numbers].
  unfold dynamic_fault_value. destruct (df_details f) as [d|]; simpl in *; unfold RECURSION_LIMIT in *; lia.
Qed.

(** [io.call] throws a fault it is answered, and hangs the fault on the exception. *)
Lemma io_reply_fault f :
  serde_faithful → fault_plain f →
  io_reply (dynamic_fault_json f) =
  Err (js_error (df_error f) (TagText (Some (js_print (dynamic_fault_value f))))).
Proof.
  intros Hs Hf. destruct (fault_value_plain f Hf) as [Hp Hd].
  destruct (Hs _ Hd) as (t & Hpr & _). unfold dynamic_fault_json. rewrite Hpr.
  change (default FALLBACK_DYNAMIC_FAULT_JSON (Some t)) with t.
  unfold io_reply, json_read. rewrite (js_read_print _ _ (proj1 Hd) Hp Hpr). cbn [result_bind].
  assert (own "error" (js_value (dynamic_fault_value f)) = JsString (df_error f)) as He by done.
  rewrite He. destruct Hf as (Hne & _). assert (nonempty (df_error f) = true) as Hn by (by destruct (df_error f)).
  assert (truthy (js_value (dynamic_fault_value f)) = true) as -> by done.
  cbn [truthy andb js_string]. rewrite Hn. unfold stringify. by rewrite json_tree_js_value.
Qed.

(** The engine reads it there. *)
Definition fault_capability (f : DynamicFault) (s : ErrorSource) (stack : option string) : CapabilityErr :=
  {| ce_source := s; ce_code := df_code f; ce_retryable := df_retryable f; ce_owner := df_owner f;
     ce_raw := Some (df_error f); ce_stack := read_str_prop stack;
     ce_details := reread_details (df_details f) |}.
Definition fault_of (e : EgressError) : DynamicFault :=
  {| df_error := ee_message e; df_code := ee_code e; df_retryable := ee_retryable e;
     df_owner := ee_owner e; df_source := ee_source e; df_details := ee_details e |}.

Lemma de_fault_value f :
  de_capability_tag (dynamic_fault_value f) =
  Some {| tag_error := Some (df_error f); tag_code := df_code f; tag_retryable := df_retryable f;
          tag_source := df_source f; tag_owner := Some (owner_str (df_owner f));
          tag_details := reread_details (df_details f) |}.
Proof. destruct f as [m c r o s [[]|]]; reflexivity. Qed.

Lemma fault_classified f s timeout_ms :
  fault_plain f → source_parse (df_source f) = Some s →
  classify_throw (js_error (df_error f) (TagText (Some (js_print (dynamic_fault_value f))))) false timeout_ms =
  Capability (fault_capability f s (js_stack (df_error f))).
Proof.
  intros Hf Hsrc. destruct (fault_value_plain f Hf) as [_ Hd].
  unfold classify_throw, js_error, read_capability_tag, from_str.
  rewrite js_print_parse, de_fault_value by done. cbn [ok_or tag_source].
  rewrite Hsrc. cbn [mbind option_bind]. cbn [tag_owner mbind option_bind]. by rewrite owner_parse_str.
Qed.

Lemma received_err c e : received c (Err e) = Err e.
Proof. by destruct c. Qed.

(** Beyond the budget [io.call] is refused without a call. *)
Definition op_limit env : DynamicFault :=
  {| df_error := "too many operations: limit is " +:+ pretty (he_max_ops env) +:+ " per execution";
     df_code := "IO_OP_LIMIT"; df_retryable := false; df_owner := Developer; df_source := "engine";
     df_details := None |}.
Lemma io_call_refused env eg name action payload st :
  he_egress env = Some eg → (he_max_ops env ≤ hs_used st)%nat →
  interp env (io_call name action payload) st = (io_reply (dynamic_fault_json (op_limit env)), st).
Proof.
  intros He Hb. unfold io_call. rewrite interp_js_bind. unfold native. cbn [interp host_call].
  rewrite He. unfold native_io. by rewrite decide_True by lia.
Qed.

(** [mongo.find_one] answers the document itself, so a stored document with an [error] of its own is
    thrown instead of returned. *)
Lemma found_document_thrown env eg coll flt st d t w :
  he_egress env = Some eg → (hs_used st < he_max_ops env)%nat →
  js_plain d = true → (json_depth d ≤ RECURSION_LIMIT)%nat → json_print d = Some t →
  truthy (own "error" (js_value d)) = true →
  eg "mongo" "find_one" (default (js_print VNull) (stringify (sent (ScMongoFindOne coll flt)).2)) (hs_world st)
    = (Ok t, w) →
  interp env (run_wrapper (ScMongoFindOne coll flt)) st =
  (Err (js_error (js_string (own "error" (js_value d))) (TagText (Some (js_print d)))), ported st w).
Proof.
  intros He Hb Hp Hd Ht Htr Heg. pose proof (run_wrapper_interp env (ScMongoFindOne coll flt) st) as Hi.
  cbn [sent snd] in Hi, Heg. rewrite Hi, (io_call_interp env eg) by done. rewrite Heg. cbn [reply_text received].
  unfold io_reply, json_read. rewrite (js_read_print _ _ Hd Hp Ht). cbn [result_bind]. rewrite Htr.
  assert (truthy (js_value d) = true) as -> by (by destruct d). cbn [andb].
  unfold stringify. by rewrite json_tree_js_value.
Qed.

(** ** The memo of [auth] *)

Lemma memo_key_inj a1 t1 a2 t2 :
  ":"%char ∉ bytes_of a1 → ":"%char ∉ bytes_of a2 → memo_key a1 t1 = memo_key a2 t2 → a1 = a2 ∧ t1 = t2.
Proof.
  intros Hn1 Hn2 Hk. apply (f_equal (λ s, split_once_bytes [":"%char] [] (bytes_of s))) in Hk.
  unfold memo_key in Hk. rewrite !bytes_of_app in Hk. simpl in Hk.
  rewrite !(split_once_char ":") in Hk by done. simpl in Hk. injection Hk as Ha Ht.
  split; by apply (inj bytes_of).
Qed.

(** An answered lookup is not asked again: it costs neither a call nor a slot of the budget, whatever
    other lookups came between. *)
Lemma auth_remembered env action token res cache st :
  cache !! memo_key action token = Some res →
  interp env (js_auth cache action token) st = ((Ok res, cache), st).
Proof. intros Hc. unfold js_auth. by rewrite Hc. Qed.
Lemma auth_keeps env action token cache st k res :
  cache !! k = Some res → (interp env (js_auth cache action token) st).1.2 !! k = Some res.
Proof.
  intros Hc. unfold js_auth. destruct (cache !! memo_key action token) eqn:Em; [done|]. rewrite interp_bind.
  destruct (interp env (io_call _ _ _) st) as [[v|e] st']; [|done]. simpl.
  rewrite lookup_insert_ne; [done|congruence].
Qed.
End path_lemmas.

(** ** Properties *)

Section properties.
Context `{!JsonText} `{!JsJson} `{!RawJson} `{!Formats} {sha : Sha256} {World Net : Type} {net : NetLib Net}.

(** C3: what a script says is what the driver hears.  A well-typed call of a driver-backed global, made
    within the budget, reaches the port once, as a message the daemon's readers decode to exactly the
    request the script meant: statement and parameters, collection and documents, recipients, keys,
    values and expiry, messages, token; what a driver does depends on nothing else of the message
    ([DriverRead.backend_call_reads]).  The script is given the port's reply, or an exception. *)
Theorem script_call_delivered (env : HostEnv World)
    (eg : string → string → string → World → result string EgressError * World) (c : ScriptCall)
    (st : HostState World Net) (Hserde : serde_faithful) (Hraw : raw_faithful)
    (Hport : he_egress env = Some eg) (Hbudget : (hs_used st < he_max_ops env)%nat) (Hwf : call_wf c) :
  ∃ name action text, driver_request name action text = meaning c ∧
    interp env (run_wrapper c) st =
    let '(r, w) := eg name action text (hs_world st) in
    (received c (io_reply (reply_text r)), ported st w).
Proof.
  pose proof (driver_request_sent c Hserde Hraw Hwf) as Hd. pose proof (run_wrapper_interp env c st) as Hi.
  destruct (sent c) as [[name action] payload]. exists name, action, (default (js_print VNull) (stringify payload)).
  split; [done|]. rewrite Hi, (io_call_interp env eg) by done. by destruct (eg _ _ _ _).
Qed.

(** C4: a failure keeps its identity across the two languages.  When the port answers a script's call
    with an error, the wrapper throws it, and an execution it escapes from ends as a capability error
    with the same source, code, retry hint, owner and details, the driver's message kept as the raw
    cause; a call beyond the budget ends the same way as [IO_OP_LIMIT], without reaching the port. *)
Theorem script_error_classified (env : HostEnv World)
    (eg : string → string → string → World → result string EgressError * World) (c : ScriptCall)
    (st : HostState World Net) (timeout_ms : Z) (Hserde : serde_faithful)
    (Hport : he_egress env = Some eg) :
  let '(name, action, payload) := sent c in
  (∀ e w s, (hs_used st < he_max_ops env)%nat →
     eg name action (default (js_print VNull) (stringify payload)) (hs_world st) = (Err e, w) →
     source_parse (ee_source e) = Some s → fault_plain (fault_of e) →
     ∃ caught, interp env (run_wrapper c) st = (Err caught, ported st w) ∧
       classify_throw caught false timeout_ms =
       Capability (fault_capability (fault_of e) s (js_stack (ee_message e)))) ∧
  ((he_max_ops env ≤ hs_used st)%nat →
     ∃ caught, interp env (run_wrapper c) st = (Err caught, st) ∧
       classify_throw caught false timeout_ms =
       Capability (fault_capability (op_limit env) SrcEngine (js_stack (df_error (op_limit env))))).
Proof.
  pose proof (run_wrapper_interp env c st) as Hi. destruct (sent c) as [[name action] payload]. split.
  - intros e w s Hb He Hsrc Hf. rewrite Hi, (io_call_interp env eg), He by done.
    change (reply_text (Err e)) with (dynamic_fault_json (fault_of e)).
    rewrite io_reply_fault, received_err by done. eexists. split; [done|]. by apply fault_classified.
  - intros Hb. rewrite Hi, (io_call_refused env eg) by done.
    assert (fault_plain (op_limit env)) as Hf by (split_and!; [done..|vm_compute; lia]).
    rewrite io_reply_fault, received_err by done. eexists. split; [done|]. by apply fault_classified.
Qed.
End properties.

(** ** Witnesses *)

#[local] Existing Instances reference_json no_sha demo_net.
Lemma demo_print_parse v : portable v →
  json_parse (JsonText := reference_json) (default EmptyString (json_print (JsonText := reference_json) v)) = Ok v.
Proof. intros _. by apply reference_json_roundtrip. Qed.
Lemma demo_read_print v t :
  (json_depth v ≤ RECURSION_LIMIT)%nat → js_plain v = true →
  json_print (JsonText := reference_json) v = Some t →
  js_value <$> of_result (json_parse (JsonText := reference_json) t) = Some (js_value v).
Proof. intros _ _ Ht. by rewrite (reference_json_roundtrip _ _ Ht). Qed.
#[local] Instance demo_js_json : JsJson := {|
  js_print v := default EmptyString (json_print v);
  js_read t := js_value <$> of_result (json_parse t);
  js_fault _ := "TypeError"; js_stack _ := Some "at handler"; js_char_at _ _ := JsUndefined;
  js_print_parse := demo_print_parse; js_read_print := demo_read_print |}.
#[local] Instance demo_raw_json : RawJson := {|
  raw_at text path := default EmptyString (js_print <$> (of_result (json_parse text) ≫= λ v, value_at v path)) |}.
#[local] Instance plain_formats : Formats :=
  {| f64_text _ := "0.5"; f64_parse _ := S754_zero false; b64_encode := string_of |}.

Lemma demo_serde_faithful : serde_faithful.
Proof. intros v _. eexists. split; [done|]. by apply reference_json_roundtrip. Qed.
Lemma demo_raw_faithful : raw_faithful.
Proof.
  intros v path x Hp Hv. unfold raw_at, demo_raw_json.
  assert (json_parse (js_print v) = Ok v) as -> by (by apply js_print_parse). simpl. by rewrite Hv.
Qed.

(** A port that answers one row, or refuses the table [missing]. *)
Definition demo_rows : Value := VArray [VObject [("id", VNumber "7")]].
Definition demo_port (name action text : string) (w : nat) : result string EgressError * nat :=
  match driver_request name action text with
  | Some (DrDb _ sql _) =>
      if decide (sql = "select * from missing")
      then (Err (EgressError_new "db" "DB_QUERY" "no such table"), S w)
      else (Ok (js_print demo_rows), S w)
  | _ => (Ok (js_print VNull), w)
  end.
Definition demo_env : HostEnv nat :=
  {| he_max_ops := 2; he_read := None; he_egress := Some demo_port; he_http := None; he_s3 := None;
     he_secrets := ∅ |}.
Definition demo_state (used : nat) : HostState nat DemoNet :=
  {| hs_effects := []; hs_used := used; hs_world := 0%nat; hs_http := new_collector; hs_s3 := new_collector;
     hs_net := []; hs_uuids := 0 |}.

Lemma script_call_delivered_witness :
  ∃ name action text,
    driver_request name action text = Some (DrDb "query" "select id from t where n = $1" [PInt4 7]) ∧
    fst (interp demo_env (run_wrapper (ScDb false "select id from t where n = $1" [JsNumber "7"])) (demo_state 1)) =
    Ok (JsArray [JsObject [("id", JsNumber "7")]]).
Proof.
  assert (call_wf (ScDb false "select id from t where n = $1" [JsNumber "7"])) as Hwf
    by (split; [done|split; [vm_compute; lia|done]]).
  destruct (script_call_delivered demo_env demo_port (ScDb false "select id from t where n = $1" [JsNumber "7"])
    (demo_state 1) demo_serde_faithful demo_raw_faithful eq_refl ltac:(simpl; lia) Hwf)
    as (name & action & text & Hd & Hi).
  exists name, action, text. split; [rewrite Hd; vm_compute; done|].
  rewrite Hi. unfold demo_port. rewrite Hd. vm_compute. done.
Defined.

Lemma script_error_classified_witness :
  (∃ caught, fst (interp demo_env (run_wrapper (ScDb false "select * from missing" [])) (demo_state 0)) = Err caught ∧
     ∃ ce, classify_throw caught false 1000 = Capability ce ∧
       ce_source ce = SrcDb ∧ ce_code ce = "DB_QUERY" ∧ ce_raw ce = Some "no such table") ∧
  (∃ caught, fst (interp demo_env (run_wrapper (ScRedisGet "k")) (demo_state 2)) = Err caught ∧
     ∃ ce, classify_throw caught false 1000 = Capability ce ∧ ce_code ce = "IO_OP_LIMIT").
Proof.
  split.
  - destruct (script_error_classified demo_env demo_port (ScDb false "select * from missing" [])
      (demo_state 0) 1000 demo_serde_faithful eq_refl) as [He _].
    destruct (He (EgressError_new "db" "DB_QUERY" "no such table") 1%nat SrcDb) as (caught & Hi & Hc);
      [simpl; lia|by vm_compute|done|split_and!; [done..|vm_compute; lia]|].
    exists caught. split; [by rewrite Hi|]. by eexists.
  - destruct (script_error_classified demo_env demo_port (ScRedisGet "k")
      (demo_state 2) 1000 demo_serde_faithful eq_refl) as [_ He].
    destruct (He ltac:(simpl; lia)) as (caught & Hi & Hc).
    exists caught. split; [by rewrite Hi|]. by eexists.
Defined.
