(* ===== verification/ApiPath.v ===== *)
(** * ApiPath: the URLs the [api] global asks for

    [api.get(url, params)] appends its parameters to the URL ([Wrappers.build_url]).  The reference is
    how a URL is read: the fragment is cut off, the query follows the first question mark, its pairs
    are separated by ampersands and percent-encoded. *)

From Stdlib Require Import Ascii.
From S2P Require Import Prelude Json Errors Http Engine Js Wrappers.
Local Open Scope Z_scope.

(** ** Reading a URL *)

Definition before (c : ascii) (l : list ascii) : list ascii :=
  match split_once_bytes [c] [] l with Some (a, _) => a | None => l end.
Definition location (url : string) : list ascii := before "?" (before "#" (bytes_of url)).
Definition query_bytes (url : string) : list ascii :=
  match split_once_bytes ["?"%char] [] (before "#" (bytes_of url)) with Some (_, q) => q | None => [] end.

Definition hex_value (a : ascii) : option nat :=
  let n := nat_of_ascii a in
  if decide (48 ≤ n ≤ 57)%nat then Some (n - 48)%nat
  else if decide (65 ≤ n ≤ 70)%nat then Some (n - 55)%nat
  else if decide (97 ≤ n ≤ 102)%nat then Some (n - 87)%nat else None.

(** Percent-decoding; a percent sign without two hex digits stays. *)
Fixpoint uri_decode (l : list ascii) : list ascii :=
  match l with
  | [] => []
  | a :: rest =>
      if decide (a = "%"%char) then
        match rest with
        | h :: k :: rest' =>
            match hex_value h, hex_value k with
            | Some x, Some y => ascii_of_nat (16 * x + y) :: uri_decode rest'
            | _, _ => a :: uri_decode rest
            end
        | _ => a :: uri_decode rest
        end
      else a :: uri_decode rest
  end.
Definition read_pair (l : list ascii) : option (string * string) :=
  match l with
  | [] => None
  | _ =>
      let '(k, v) := default (l, []) (split_once_bytes ["="%char] [] l) in
      Some (string_of (uri_decode k), string_of (uri_decode v))
  end.
Definition read_query (l : list ascii) : list (string * string) :=
  omap read_pair (split_bytes "&" [] l).

(** ** Lemmas *)

(** Encoding a byte, read back: one case per byte. *)
Lemma uri_decode_byte a rest : uri_decode (uri_encode_byte a ++ rest) = a :: uri_decode rest.
Proof. destruct a as [[] [] [] [] [] [] [] []]; reflexivity. Qed.
Lemma uri_decode_encode s : uri_decode (bytes_of (encode_uri_component s)) = bytes_of s.
Proof.
  unfold encode_uri_component. rewrite bytes_of_string_of.
  induction (bytes_of s) as [|a l IH]; [done|]. rewrite bind_cons, uri_decode_byte. by rewrite IH.
Qed.

(** An encoded text has none of the bytes that structure a URL. *)
Definition structural (a : ascii) : Prop := a ∈ ["#"%char; "?"%char; "&"%char; "="%char; "/"%char; "@"%char; ":"%char].
Lemma encoded_byte_plain a c : c ∈ uri_encode_byte a → ¬ structural c.
Proof.
  assert (forallb (λ c, negb (bool_decide (structural c))) (uri_encode_byte a) = true) as Hall
    by (destruct a as [[] [] [] [] [] [] [] []]; vm_compute; reflexivity).
  rewrite forallb_forall in Hall. intros Hc. apply list_elem_of_In, Hall in Hc.
  apply negb_true_iff, bool_decide_eq_false in Hc. done.
Qed.
Lemma encoded_plain s c : c ∈ bytes_of (encode_uri_component s) → ¬ structural c.
Proof.
  unfold encode_uri_component. rewrite bytes_of_string_of, list_elem_of_bind.
  intros (a & Hc & _). by eapply encoded_byte_plain.
Qed.

(** Splitting. *)
Lemma split_once_absent (c : ascii) l acc : c ∉ l → split_once_bytes [c] acc l = None.
Proof.
  revert acc. induction l as [|a l IH]; intros acc Hc; simpl; [done|].
  rewrite decide_False by set_solver. apply IH. set_solver.
Qed.
Lemma before_absent c l : c ∉ l → before c l = l.
Proof. intros Hc. unfold before. by rewrite split_once_absent. Qed.
Lemma split_bytes_app sep acc xs ys :
  split_bytes sep acc (xs ++ sep :: ys) = split_bytes sep acc xs ++ split_bytes sep [] ys.
Proof.
  revert acc. induction xs as [|a xs IH]; intros acc; simpl; [by rewrite decide_True|].
  case_decide; [by rewrite IH|apply IH].
Qed.
Lemma split_bytes_absent sep acc l : sep ∉ l → split_bytes sep acc l = [rev acc ++ l].
Proof.
  revert acc. induction l as [|a l IH]; intros acc Hs; simpl; [by rewrite app_nil_r|].
  rewrite decide_False, IH by set_solver. simpl. by rewrite <-app_assoc.
Qed.
Lemma read_query_app xs ys : read_query (xs ++ "&"%char :: ys) = read_query xs ++ read_query ys.
Proof. unfold read_query. by rewrite split_bytes_app, omap_app. Qed.

(** The parameters as text, and what is read there. *)
Lemma query_pair_bytes p :
  bytes_of (query_pair p) =
  bytes_of (encode_uri_component p.1) ++ "="%char :: bytes_of (encode_uri_component (js_string p.2)).
Proof. unfold query_pair. by rewrite !bytes_of_app. Qed.
Lemma query_pair_plain p c : c ∈ bytes_of (query_pair p) → structural c → c = "="%char.
Proof.
  rewrite query_pair_bytes, elem_of_app, elem_of_cons.
  intros [Hc|[->|Hc]] Hs; [|done|]; by destruct (encoded_plain _ _ Hc).
Qed.
Lemma read_query_pair p : read_query (bytes_of (query_pair p)) = [(p.1, js_string p.2)].
Proof.
  unfold read_query. rewrite split_bytes_absent.
  - simpl. unfold read_pair. rewrite query_pair_bytes.
    assert ("="%char ∉ bytes_of (encode_uri_component p.1)) as Hk
      by (intros Hin; destruct (encoded_plain _ _ Hin); unfold structural; set_solver).
    rewrite (split_once_char "=" _ [] _ Hk). simpl. rewrite !uri_decode_encode, !string_of_bytes_of.
    by destruct (bytes_of (encode_uri_component p.1)).
  - intros Hin. apply query_pair_plain in Hin; [done|]. unfold structural. set_solver.
Qed.

Definition query_text (l : list (string * JsValue)) : list ascii :=
  bytes_of (String.concat "&" (query_pair <$> l)).
Lemma query_text_cons p q l :
  query_text (p :: q :: l) = bytes_of (query_pair p) ++ "&"%char :: query_text (q :: l).
Proof. unfold query_text. rewrite !fmap_cons. cbn [String.concat]. by rewrite !bytes_of_app. Qed.
Lemma query_text_plain l c : c ∈ query_text l → structural c → c = "="%char ∨ c = "&"%char.
Proof.
  induction l as [|p [|q l] IH]; [set_solver| |].
  - change (query_text [p]) with (bytes_of (query_pair p)). intros Hc Hs. left. by eapply query_pair_plain.
  - rewrite query_text_cons, elem_of_app, elem_of_cons. intros [Hc|[->|Hc]] Hs; [|by right|by apply IH].
    left. by eapply query_pair_plain.
Qed.
Lemma read_query_text l : read_query (query_text l) = prod_map id js_string <$> l.
Proof.
  induction l as [|p [|q l] IH]; [done| |].
  - apply (read_query_pair p).
  - by rewrite query_text_cons, read_query_app, read_query_pair, IH.
Qed.

Lemma build_url_bytes url p l :
  bytes_of (build_url url (Some (p :: l))) =
  bytes_of url ++ (if decide ("?"%char ∈ bytes_of url) then "&"%char else "?"%char) :: query_text (p :: l).
Proof. unfold build_url, query_text. rewrite !bytes_of_app. by case_decide. Qed.

(** Parameters given to a URL with a fragment end up in the fragment, which no request carries. *)
Lemma fragment_swallows_params url params :
  "#"%char ∈ bytes_of url →
  before "#" (bytes_of (build_url url params)) = before "#" (bytes_of url).
Proof.
  intros Hin. destruct params as [[|p l]|]; [done| |done]. rewrite build_url_bytes.
  apply list_elem_of_split_l in Hin as (l1 & l2 & -> & Hn). rewrite <-app_assoc. simpl.
  unfold before. by rewrite !(split_once_char "#") by done.
Qed.

(** ** Properties *)

(** C38: parameters reach the server as given.  The URL [api.get] asks for has the location of the one it
    was given, so no parameter can move a request to another host or path, and its query reads as the
    pairs that were already there followed by exactly the parameters, names and values as text, whatever
    bytes they hold; provided the URL has no fragment. *)
Theorem api_query_roundtrip (url : string) (params : list (string * JsValue))
    (Hfragment : "#"%char ∉ bytes_of url) :
  location (build_url url (Some params)) = location url ∧
  read_query (query_bytes (build_url url (Some params))) =
  read_query (query_bytes url) ++ (prod_map id js_string <$> params).
Proof.
  destruct params as [|p l]; [by rewrite app_nil_r|].
  assert ("#"%char ∉ query_text (p :: l)) as Hq.
  { intros Hin. destruct (query_text_plain _ _ Hin); [|done..]. unfold structural. set_solver. }
  unfold location, query_bytes. rewrite build_url_bytes.
  rewrite !(before_absent "#"); [|done|case_decide; set_solver]. case_decide as Hmark.
  - apply list_elem_of_split_l in Hmark as (l1 & l2 & -> & Hn). rewrite <-app_assoc. simpl.
    unfold before. rewrite !(split_once_char "?") by done. simpl.
    by rewrite read_query_app, read_query_text.
  - unfold before. rewrite (split_once_char "?"), (split_once_absent "?" (bytes_of url)) by done.
    simpl. by rewrite read_query_text.
Qed.

Lemma api_query_roundtrip_witness :
  read_query (query_bytes (build_url "https://api.example/v1?v=2"
    (Some [("q", JsString "a&b=c d"); ("n", JsNumber "7")]))) =
  [("v", "2"); ("q", "a&b=c d"); ("n", "7")].
Proof.
  rewrite (proj2 (api_query_roundtrip "https://api.example/v1?v=2"
    [("q", JsString "a&b=c d"); ("n", JsNumber "7")] ltac:(vm_compute; set_solver))).
  vm_compute. reflexivity.
Defined.
