(* ===== verification/DriverRead.v ===== *)
(** * DriverRead: what a driver does depends on what it reads

    [ScriptPath.driver_request] composes the readers of the six drivers.  This file shows that it is
    adequate: with the drivers of [DriverSet], two payloads that read as the same request are the same
    call, in its answer, in the backend and in the outside world.  Composed with [ScriptPath], a script's
    call executed by the session's own backends is the call it meant. *)

From S2P Require Import Prelude Json Errors Breaker Runtime Wire Resources Backends.
From S2P Require Import DbDriver MongoDriver MailDriver RedisDriver AmqDriver AuthDriver DriverSet Engine Js Wrappers ScriptPath.
Local Open Scope Z_scope.

Section reading.
Context {World Client Database Cursor Conn AmqpConn AmqpChan NatsClient : Type}.
Context `{!JsonText} `{!JsJson} `{!RawJson} `{!Formats} `{!PercentEncoding} `{!UnicodeCase} `{!Clock World}
  `{!Tokio World} `{!BreakerStore World} `{!Postgres World Client} `{!MongoDb World Database Cursor}
  `{!Lettre World} `{!Redis World Conn} `{!Brokers World AmqpConn AmqpChan NatsClient}
  `{!AuthHttp World}.
Abbreviation BSet := (BackendSet (DbB:=DbBackend Client) (MongoB:=MongoBackend Database)
  (MailB:=MailBackend) (RedisB:=RedisBackend Conn) (AuthB:=AuthBackend) (AmqB:=AmqProducer)).

(** ** Driver by driver *)

Lemma db_reads (b : DbBackend Client) action sql p1 p2 :
  parse_params p1 = parse_params p2 → db_call b action sql p1 = db_call b action sql p2.
Proof.
  intros Hp. unfold db_call. assert (db_dispatch b action sql p1 = db_dispatch b action sql p2) as ->; [|done].
  unfold db_dispatch, do_query, do_execute. by rewrite Hp.
Qed.
Lemma mongo_reads (b : MongoBackend Database) action coll t1 t2 :
  from_str de_mongo_payload t1 = from_str de_mongo_payload t2 →
  mongo_call b action coll t1 = mongo_call b action coll t2.
Proof. intros Hp. unfold mongo_call, mongo_dispatch. by rewrite Hp. Qed.
Lemma mail_reads (b : MailBackend) action t1 t2 :
  from_str de_send_payload t1 = from_str de_send_payload t2 → mail_call b action t1 = mail_call b action t2.
Proof. intros Hp. unfold mail_call, mail_dispatch, do_send. by rewrite Hp. Qed.
Lemma redis_reads (b : RedisBackend Conn) action t1 t2 q :
  driver_request "redis" action t1 = Some q → driver_request "redis" action t2 = Some q →
  redis_call b action t1 = redis_call b action t2.
Proof.
  intros Hq1 Hq2. unfold redis_call.
  assert (redis_dispatch b action t1 = redis_dispatch b action t2) as ->; [|done].
  change (driver_request "redis" action ?t) with
    (if decide (action = "set") then DrRedisSet <$> of_result (from_str de_set_payload t)
     else if decide (action = "expire") then DrRedisExpire <$> of_result (from_str de_expire_payload t)
     else DrRedisKey action <$> of_result (from_str de_key_payload t)) in Hq1, Hq2.
  unfold redis_dispatch, do_get, do_set, do_del, do_incr, do_expire, redis_parse.
  repeat case_decide; simplify_eq; try done;
    destruct (from_str _ t1) as [x1|] eqn:E1, (from_str _ t2) as [x2|] eqn:E2; simplify_eq/=;
    by rewrite ?E1, ?E2.
Qed.
Lemma amq_reads (p : AmqProducer) action t1 t2 q :
  driver_request "amq" action t1 = Some q → driver_request "amq" action t2 = Some q →
  amq_producer_call p action t1 = amq_producer_call p action t2.
Proof.
  intros Hq1 Hq2. unfold amq_producer_call.
  assert (amq_dispatch (aqp_config p) action t1 = amq_dispatch (aqp_config p) action t2) as ->; [|done].
  change (driver_request "amq" action ?t) with
    (if decide (action = "send") then DrAmqSend <$> of_result (from_str (de_amq_send t) t)
     else DrAmqRequest <$> of_result (from_str (de_amq_request t) t)) in Hq1, Hq2.
  unfold amq_dispatch, amq_do_send, amq_do_request.
  repeat case_decide; simplify_eq; try done;
    destruct (from_str _ t1) as [x1|] eqn:E1, (from_str _ t2) as [x2|] eqn:E2; simplify_eq/=;
    by rewrite ?E1, ?E2.
Qed.

(** ** A session *)

(** A slot's calls agree when their arguments do. *)
Lemma slot_call_alike {Cfg Args B M} `{!Backend World Cfg Args B M} (sl : Slot Cfg B) parse action t1 t2 w :
  (∀ b a1 a2, parse t1 = Ok a1 → parse t2 = Ok a2 → b_call b action a1 = b_call b action a2) →
  is_ok (parse t1) = true → is_ok (parse t2) = true →
  slot_call sl parse action t1 w = slot_call sl parse action t2 w.
Proof.
  intros Hb Ho1 Ho2. unfold slot_call. destruct (slot_backend sl w) as [[[b|e] s1] w1]; [|done].
  destruct (parse t1) as [a1|], (parse t2) as [a2|]; try done. by rewrite (Hb b a1 a2).
Qed.

Lemma call_db_reads (s : BSet) action t1 t2 q w :
  driver_request "db" action t1 = Some q → driver_request "db" action t2 = Some q →
  call_db s action t1 w = call_db s action t2 w.
Proof.
  change (driver_request "db" action ?t) with
    ('(sql, params) ← of_result (parse_db_payload t); DrDb action sql <$> of_result (parse_params params)).
  intros Hq1 Hq2. unfold call_db. destruct (bs_db s) as [sl|]; [|done].
  destruct (parse_db_payload t1) as [[sql1 p1]|] eqn:E1, (parse_db_payload t2) as [[sql2 p2]|] eqn:E2; try done.
  simpl in Hq1, Hq2. destruct (parse_params p1) as [l1|] eqn:P1, (parse_params p2) as [l2|] eqn:P2; try done.
  simplify_eq/=. rewrite (slot_call_alike sl parse_db_payload action t1 t2 w); [done| |by rewrite E1|by rewrite E2].
  intros b a1 a2 Ha1 Ha2. rewrite E1 in Ha1. rewrite E2 in Ha2. simplify_eq/=.
  by rewrite (db_reads b action sql2 p1 p2) by congruence.
Qed.
Lemma call_mongo_reads (s : BSet) action t1 t2 q w :
  driver_request "mongo" action t1 = Some q → driver_request "mongo" action t2 = Some q →
  call_mongo s action t1 w = call_mongo s action t2 w.
Proof.
  change (driver_request "mongo" action ?t) with
    ('(collection, data) ← of_result (parse_mongo_payload t);
     DrMongo action collection <$> of_result (from_str de_mongo_payload data)).
  intros Hq1 Hq2. unfold call_mongo. destruct (bs_mongo s) as [sl|]; [|done].
  destruct (parse_mongo_payload t1) as [[c1 p1]|] eqn:E1, (parse_mongo_payload t2) as [[c2 p2]|] eqn:E2; try done.
  simpl in Hq1, Hq2.
  destruct (from_str de_mongo_payload p1) as [l1|] eqn:P1, (from_str de_mongo_payload p2) as [l2|] eqn:P2; try done.
  simplify_eq/=. rewrite (slot_call_alike sl parse_mongo_payload action t1 t2 w); [done| |by rewrite E1|by rewrite E2].
  intros b a1 a2 Ha1 Ha2. rewrite E1 in Ha1. rewrite E2 in Ha2. simplify_eq/=.
  by rewrite (mongo_reads b action c2 p1 p2) by congruence.
Qed.
Lemma call_mail_reads (s : BSet) action t1 t2 q w :
  driver_request "mail" action t1 = Some q → driver_request "mail" action t2 = Some q →
  call_mail s action t1 w = call_mail s action t2 w.
Proof.
  change (driver_request "mail" action ?t) with (DrMail <$> of_result (from_str de_send_payload t)).
  intros Hq1 Hq2. unfold call_mail. destruct (bs_mail s) as [sl|]; [|done].
  destruct (from_str de_send_payload t1) as [p1|] eqn:P1, (from_str de_send_payload t2) as [p2|] eqn:P2; try done.
  simplify_eq/=. rewrite (slot_call_alike sl pass_payload action t1 t2 w); [done| |done|done].
  intros b a1 a2 Ha1 Ha2. unfold pass_payload in *. simplify_eq/=. by rewrite (mail_reads b action a1 a2) by congruence.
Qed.
Lemma call_redis_reads (s : BSet) action t1 t2 q w :
  driver_request "redis" action t1 = Some q → driver_request "redis" action t2 = Some q →
  call_redis s action t1 w = call_redis s action t2 w.
Proof.
  intros Hq1 Hq2. unfold call_redis. destruct (bs_redis s) as [sl|]; [|done].
  rewrite (slot_call_alike sl pass_payload action t1 t2 w); [done| |done|done].
  intros b a1 a2 Ha1 Ha2. unfold pass_payload in *. simplify_eq/=. by rewrite (redis_reads b action a1 a2 q).
Qed.
Lemma call_amq_reads (s : BSet) action t1 t2 q w :
  driver_request "amq" action t1 = Some q → driver_request "amq" action t2 = Some q →
  call_amq s action t1 w = call_amq s action t2 w.
Proof.
  intros Hq1 Hq2. unfold call_amq. destruct (bs_amq s) as [p|]; [|done]. simpl.
  by rewrite (amq_reads p action t1 t2 q).
Qed.
Lemma call_auth_reads (s : BSet) action t1 t2 q w :
  driver_request "auth" action t1 = Some q → driver_request "auth" action t2 = Some q →
  call_auth s action t1 w = call_auth s action t2 w.
Proof.
  change (driver_request "auth" action ?t) with (DrAuth action <$> of_result (parse_auth_token t)).
  intros Hq1 Hq2. unfold call_auth. destruct (bs_auth s) as [sl|]; [|done].
  destruct (parse_auth_token t1) as [k1|] eqn:E1, (parse_auth_token t2) as [k2|] eqn:E2; try done.
  simplify_eq/=. rewrite (slot_call_alike sl parse_auth_token action t1 t2 w); [done| |by rewrite E1|by rewrite E2].
  intros b a1 a2 Ha1 Ha2. rewrite E1 in Ha1. rewrite E2 in Ha2. by simplify_eq.
Qed.

(** Calls whose payloads read as the same request are the same call. *)
Lemma backend_call_reads (s : BSet) name action t1 t2 q w :
  driver_request name action t1 = Some q → driver_request name action t2 = Some q →
  backend_call s name action t1 w = backend_call s name action t2 w.
Proof.
  intros Hq1 Hq2. unfold backend_call. repeat case_decide; subst;
    eauto using call_db_reads, call_mongo_reads, call_mail_reads, call_redis_reads, call_amq_reads, call_auth_reads.
Qed.

(** ** From a script to its drivers *)

(** The session's backends as the egress port of an execution. *)
Definition backends_port (name action text : string) (p : BSet * World) : result string EgressError * (BSet * World) :=
  let '(r, s, w) := backend_call p.1 name action text p.2 in (r, (s, w)).

(** A script's call through that port is the backends' call on any message that reads as what the
    script meant: the same answer, the same backends and the same outside world after it. *)
Lemma script_call_executed {sha : Bytecode.Sha256} {Net : Type} {net : NetLib Net}
    (env : HostEnv (BSet * World)) (c : ScriptCall) (st : HostState (BSet * World) Net) q name action text :
  serde_faithful → raw_faithful → he_egress env = Some backends_port →
  (hs_used st < he_max_ops env)%nat → call_wf c → meaning c = Some q →
  (sent c).1 = (name, action) → driver_request name action text = Some q →
  interp env (run_wrapper c) st =
  let '(r, s, w) := backend_call (hs_world st).1 name action text (hs_world st).2 in
  (received c (io_reply (reply_text r)), ported st (s, w)).
Proof.
  intros Hserde Hraw Hport Hbudget Hwf Hm Hsent Ht.
  pose proof (driver_request_sent c Hserde Hraw Hwf) as Hd. pose proof (run_wrapper_interp env c st) as Hi.
  destruct (sent c) as [[n a] payload]. simpl in Hsent. injection Hsent as -> ->.
  rewrite Hi, (io_call_interp env backends_port) by done. unfold backends_port.
  rewrite (backend_call_reads _ _ _ _ text q) by (rewrite ?Hd; done).
  by destruct (backend_call _ _ _ _ _) as [[r s1] w1].
Qed.
End reading.
