(* ===== verification/Registry.v ===== *)
(** * Registry: the script and module registries

    Models [runlet-core/src/registry.rs] and [runlet-core/src/modules.rs]: the start-up scan of a
    directory into an immutable map (the same loop in both files, over different extensions), the
    lookups, and the resolver and loader QuickJS imports through.

    The directory is the finite tree the process can see under the configured path, with what each
    system call returns on it: a listing may fail, an entry of a listing may fail, a file may fail to
    read (an I/O error or contents that are not UTF-8).  Names are bytes, as an [OsString] holds.
    The loop pops directories from a stack, one per round, so as many rounds as the tree has
    directories are enough. *)

From Stdlib Require Import Ascii.
From S2P Require Import Prelude Bytecode Engine.
Local Open Scope Z_scope.

(** ** What the file system shows *)

(** [fs::read_dir] of a directory and [fs::read_to_string] of anything else. *)
Inductive Node :=
  | File (read : result string string)
  | Dir (listing : result (list (result (string * Node) string)) string).
Local Abbreviation Listing := (result (list (result (string * Node) string)) string).

Inductive LoadError :=
  | ReadFailed (e : string)
  | TooLarge (what : string) (path : list string) (len max : Z)
  | NotUtf8 (message : string).

(** ** Paths *)

(** [Path::extension] on a file name: what follows the last dot, unless that dot is the first byte. *)
Definition extension (name : string) : option string :=
  '(stem, ext) ← rsplit_once_char "." name; if nonempty stem then Some ext else None.

(** [with_extension("")] on a file name.  The standard library first cuts the extension and keeps
    its dot, so a name whose stem is a single dot is left as the parent component. *)
Definition without_extension (name : string) : string :=
  match rsplit_once_char "." name with
  | Some (stem, _) =>
      if is_empty stem then name else if decide (stem = ".") then ".." else stem
  | None => name
  end.

(** [OsStr::to_str]: whether the bytes are UTF-8. *)
Definition byte_in (lo hi : nat) (a : ascii) : bool := bool_decide (lo ≤ nat_of_ascii a ≤ hi)%nat.
Fixpoint utf8_valid (l : list ascii) : bool :=
  match l with
  | [] => true
  | a :: t =>
      if byte_in 0 127 a then utf8_valid t
      else if byte_in 194 223 a then
        match t with b :: t => byte_in 128 191 b && utf8_valid t | _ => false end
      else if byte_in 224 239 a then
        match t with
        | b :: c :: t =>
            byte_in (if byte_in 224 224 a then 160 else 128) (if byte_in 237 237 a then 159 else 191) b &&
            byte_in 128 191 c && utf8_valid t
        | _ => false
        end
      else if byte_in 240 244 a then
        match t with
        | b :: c :: d :: t =>
            byte_in (if byte_in 240 240 a then 144 else 128) (if byte_in 244 244 a then 143 else 191) b &&
            byte_in 128 191 c && byte_in 128 191 d && utf8_valid t
        | _ => false
        end
      else false
  end.

(** [derive_key]: [dir] and [name] are the path relative to the root. *)
Definition derive_key (not_utf8 : string) (dir : list string) (name : string)
    : result string LoadError :=
  let parts := dir ++ [without_extension name] in
  if forallb (λ p, utf8_valid (bytes_of p)) parts then Ok (String.concat "/" parts)
  else Err (NotUtf8 not_utf8).

(** ** Loading *)

(** What differs between the two loaders: the extensions, the noun of the size error, the message
    of the name error. *)
Record Kind := { kd_exts : list string; kd_what : string; kd_not_utf8 : string }.
Definition script_kind : Kind :=
  {| kd_exts := ["js"]; kd_what := "script"; kd_not_utf8 := "script path is not valid UTF-8" |}.
Definition module_kind : Kind :=
  {| kd_exts := ["js"; "mjs"]; kd_what := "module"; kd_not_utf8 := "module path is not valid UTF-8" |}.

Section load.
Context (kind : Kind) (max_size : Z).
Implicit Types (scripts : gmap string string) (pending : list (list string * Listing)).

(** The guard on the extension. *)
Definition registers (name : string) : bool :=
  match extension name with Some ext => bool_decide (ext ∈ kd_exts kind) | None => false end.

(** Reading one file: its source, the size check, its key. *)
Definition load_file (dir : list string) (name : string) (read : result string string)
    : result (string * string) LoadError :=
  let? source := map_err ReadFailed read in
  if decide (max_size < str_len source)
  then Err (TooLarge (kd_what kind) (dir ++ [name]) (str_len source) max_size)
  else let? key := derive_key (kd_not_utf8 kind) dir name in Ok (key, source).

(** The inner loop over the entries of the directory [dir]; the head of [pending] is the top of the
    stack. *)
Fixpoint load_entries (dir : list string) (entries : list (result (string * Node) string))
    pending scripts : result (list (list string * Listing) * gmap string string) LoadError :=
  match entries with
  | [] => Ok (pending, scripts)
  | Err e :: _ => Err (ReadFailed e)
  | Ok (name, Dir listing) :: rest =>
      load_entries dir rest ((dir ++ [name], listing) :: pending) scripts
  | Ok (name, File read) :: rest =>
      if registers name then
        let? entry := load_file dir name read in
        load_entries dir rest pending (<[entry.1 := entry.2]> scripts)
      else load_entries dir rest pending scripts
  end.

(** The outer loop; [None] when the fuel runs out. *)
Fixpoint load_loop (fuel : nat) pending scripts : option (result (gmap string string) LoadError) :=
  match pending, fuel with
  | [], _ => Some (Ok scripts)
  | _, O => None
  | (dir, listing) :: rest, S fuel' =>
      match (let? entries := map_err ReadFailed listing in load_entries dir entries rest scripts) with
      | Err e => Some (Err e)
      | Ok (pending', scripts') => load_loop fuel' pending' scripts'
      end
  end.
End load.

(** The directories of a tree. *)
Fixpoint directories (n : Node) : nat :=
  match n with
  | File _ => 0
  | Dir (Err _) => 1
  | Dir (Ok entries) =>
      S (sum_list_with (λ e, match e with Ok (_, child) => directories child | Err _ => 0%nat end) entries)
  end.

(** [load]: the whole scan. *)
Definition load_registry (kind : Kind) (max_size : Z) (root : Listing)
    : option (result (gmap string string) LoadError) :=
  load_loop kind max_size (directories (Dir root)) [([], root)] ∅.

(** ** The registries *)

(** [ScriptRegistry]: key to source, and its operations. *)
Record ScriptRegistry := { sr_scripts : gmap string string }.
Definition ScriptRegistry_default : ScriptRegistry := {| sr_scripts := ∅ |}.
Definition ScriptRegistry_load (root : Listing) (max_script_size : Z)
    : option (result ScriptRegistry LoadError) :=
  r ← load_registry script_kind max_script_size root;
  Some (let? m := r in Ok {| sr_scripts := m |}).
Definition registry_get (r : ScriptRegistry) (key : string) : option string := sr_scripts r !! key.
Definition registry_count (r : ScriptRegistry) : nat := size (sr_scripts r).

(** [ModuleRegistry] and the resolver and loader QuickJS imports through. *)
Record ModuleRegistry := { mr_modules : gmap string string }.
Definition ModuleRegistry_default : ModuleRegistry := {| mr_modules := ∅ |}.
Definition ModuleRegistry_load (root : Listing) (max_size : Z)
    : option (result ModuleRegistry LoadError) :=
  r ← load_registry module_kind max_size root;
  Some (let? m := r in Ok {| mr_modules := m |}).
Definition module_source (r : ModuleRegistry) (specifier : string) : option string :=
  mr_modules r !! specifier.
Definition module_contains (r : ModuleRegistry) (specifier : string) : bool :=
  bool_decide (is_Some (mr_modules r !! specifier)).
Definition module_count (r : ModuleRegistry) : nat := size (mr_modules r).
Definition module_resolve (r : ModuleRegistry) (base name : string)
    : result string (string * string * string) :=
  if module_contains r name then Ok name else Err (base, name, UNRESOLVED_MARKER).
Definition module_load {Mod Exn} `{!ModuleCompiler Mod Exn} (r : ModuleRegistry) (name : string)
    : result (result Mod Exn) (string * string) :=
  let? source := ok_or (module_source r name) (name, UNRESOLVED_MARKER) in
  Ok (mod_declare source).

(** ** The reference: a recursive walk *)

Section walk.
Context (kind : Kind) (max_size : Z).

(** What the scan meets in one entry of [dir], given what it meets below a directory: the entry a
    matching file registers, or the failure of an entry or file. *)
Definition entry_outcomes (below : list string → Node → list (result (string * string) LoadError))
    (dir : list string) (e : result (string * Node) string) : list (result (string * string) LoadError) :=
  match e with
  | Err e => [Err (ReadFailed e)]
  | Ok (name, File read) => if registers kind name then [load_file kind max_size dir name read] else []
  | Ok (name, child) => below (dir ++ [name]) child
  end.

(** Everything below the directory [n] at [dir]. *)
Fixpoint outcomes (dir : list string) (n : Node) : list (result (string * string) LoadError) :=
  match n with
  | File _ => []
  | Dir (Err e) => [Err (ReadFailed e)]
  | Dir (Ok entries) => concat (entry_outcomes outcomes dir <$> entries)
  end.
End walk.

(** ** The loop against the reference *)

Section correctness.
Context (kind : Kind) (max_size : Z).
Local Abbreviation Outcome := (result (string * string) LoadError).
Local Abbreviation below := (outcomes kind max_size).

(** The map registers exactly what the outcomes say, and none of them is a failure. *)
Definition registers_exactly (all : list Outcome) (m : gmap string string) : Prop :=
  (∀ o, o ∈ all → is_ok o = true) ∧
  (∀ k v, m !! k = Some v → Ok (k, v) ∈ all) ∧
  (∀ k v, Ok (k, v) ∈ all → is_Some (m !! k)).
Definition loaded (all : list Outcome) (r : result (gmap string string) LoadError) : Prop :=
  match r with Ok m => registers_exactly all m | Err e => Err e ∈ all end.

#[global] Instance registers_exactly_proper : Proper ((≡ₚ) ==> (=) ==> iff) registers_exactly.
Proof. intros l l' Hl m ? <-. unfold registers_exactly. by setoid_rewrite Hl. Qed.
#[global] Instance loaded_proper : Proper ((≡ₚ) ==> (=) ==> iff) loaded.
Proof. intros l l' Hl r ? <-. destruct r as [m|e]; simpl; by rewrite Hl. Qed.

Lemma registers_exactly_insert all m k v :
  registers_exactly all m → registers_exactly (all ++ [Ok (k, v)]) (<[k := v]> m).
Proof.
  intros (Hok & Hs & Hc). split_and!.
  - intros o [Ho| ->%list_elem_of_singleton]%elem_of_app; auto.
  - intros k' v' [[-> ->]|[_ Hm]]%lookup_insert_Some; rewrite elem_of_app; [right|left]; [constructor|auto].
  - intros k' v' [Hin|Heq%list_elem_of_singleton]%elem_of_app; simplify_eq;
      [apply lookup_insert_is_Some'; eauto | rewrite lookup_insert_eq; eauto].
Qed.

(** What is left on the stack: the outcomes below it and its directories. *)
Definition todo (pending : list (list string * Listing)) : list Outcome :=
  concat ((λ d, below d.1 (Dir d.2)) <$> pending).
Definition rounds (pending : list (list string * Listing)) : nat :=
  sum_list_with (λ d, directories (Dir d.2)) pending.

Definition entry_directories (e : result (string * Node) string) : nat :=
  match e with Ok (_, child) => directories child | Err _ => 0%nat end.

Lemma load_entries_step dir entries pending m done :
  registers_exactly done m →
  match load_entries kind max_size dir entries pending m with
  | Err e => Err e ∈ concat (entry_outcomes kind max_size below dir <$> entries)
  | Ok (pending', m') =>
      rounds pending' = (rounds pending + sum_list_with entry_directories entries)%nat ∧
      ∃ done', registers_exactly done' m' ∧
        done' ++ todo pending' ≡ₚ
        (done ++ todo pending) ++ concat (entry_outcomes kind max_size below dir <$> entries)
  end.
Proof.
  revert pending m done. induction entries as [|[[name [read|listing]]|e] rest IH]; intros pending m done Hm; simpl.
  - split; [lia|]. exists done. by rewrite app_nil_r.
  - destruct (registers kind name); [|by apply IH].
    destruct (load_file kind max_size dir name read) as [[k v]|e] eqn:Ef; simpl; [|by left].
    specialize (IH pending (<[k := v]> m) (done ++ [Ok (k, v)]) (registers_exactly_insert _ _ _ _ Hm)).
    destruct (load_entries _ _ _ _ _ _) as [[p' m']|e]; [|by right].
    destruct IH as (Hr & done' & Hd & Hp). split; [done|]. exists done'. split; [done|].
    rewrite Hp. solve_Permutation.
  - specialize (IH ((dir ++ [name], listing) :: pending) m done Hm).
    destruct (load_entries _ _ _ _ _ _) as [[p' m']|e]; [|apply elem_of_app; by right].
    destruct IH as (Hr & done' & Hd & Hp). split; [rewrite Hr; simpl; lia|]. exists done'.
    split; [done|]. rewrite Hp. unfold todo. simpl. solve_Permutation.
  - by left.
Qed.

Lemma load_loop_loaded fuel pending m done :
  (rounds pending ≤ fuel)%nat → registers_exactly done m →
  ∃ r, load_loop kind max_size fuel pending m = Some r ∧ loaded (done ++ todo pending) r.
Proof.
  revert pending m done. induction fuel as [|fuel IH]; intros [|[dir listing] rest] m done Hf Hm.
  1, 3: (eexists; split; [done|]; by rewrite app_nil_r).
  - exfalso. destruct listing; simpl in Hf; lia.
  - destruct listing as [entries|e]; simpl;
      [|eexists; split; [done|]; apply elem_of_app; right; by left].
    pose proof (load_entries_step dir entries rest m done Hm) as Hstep.
    destruct (load_entries _ _ _ _ _ _) as [[p' m']|e].
    + destruct Hstep as (Hr & done' & Hd & Hp).
      destruct (IH p' m' done') as (r & -> & Hl); [|done|].
      { change (S (sum_list_with entry_directories entries) + rounds rest ≤ S fuel)%nat in Hf. lia. }
      eexists; split; [done|]. rewrite Hp in Hl. unfold todo in *. simpl in *.
      by rewrite <-app_assoc, (Permutation_app_comm (concat _)) in Hl.
    + eexists; split; [done|]. unfold todo. simpl. set_solver.
Qed.

(** Every source in the map passed the size check. *)
Lemma load_loop_bounded fuel pending m r :
  map_Forall (λ _ v, str_len v ≤ max_size) m →
  load_loop kind max_size fuel pending m = Some (Ok r) → map_Forall (λ _ v, str_len v ≤ max_size) r.
Proof.
  assert (∀ dir entries pending m p' m', map_Forall (λ _ v, str_len v ≤ max_size) m →
            load_entries kind max_size dir entries pending m = Ok (p', m') →
            map_Forall (λ _ v, str_len v ≤ max_size) m') as Hentries.
  { clear. intros dir entries. induction entries as [|[[name [read|listing]]|e] rest IH];
      intros pending m p' m' Hm He; simpl in He; simplify_eq; eauto.
    destruct (registers kind name); [|eauto].
    destruct (load_file kind max_size dir name read) as [[k v]|] eqn:Ef; simplify_eq/=.
    eapply IH, He. apply map_Forall_insert_2; [|done]. unfold load_file in Ef.
    destruct read as [source|]; simplify_eq/=. case_decide; [done|].
    destruct (derive_key _ _ _); simplify_eq/=. lia. }
  revert pending m. induction fuel as [|fuel IH]; intros [|[dir listing] rest] m Hm Hl; simplify_eq/=; try done.
  destruct listing as [entries|]; simplify_eq/=.
  destruct (load_entries _ _ _ _ _ _) as [[p' m']|] eqn:He; simplify_eq; eauto.
Qed.
End correctness.

(** ** Keys *)

(** A component never holds the separator. *)
Definition plain_component (s : string) : Prop := "/"%char ∉ bytes_of s.

Lemma sep_app_inj (a b s t : string) :
  plain_component a → plain_component b →
  a +:+ "/" +:+ s = b +:+ "/" +:+ t → a = b ∧ s = t.
Proof.
  unfold plain_component. revert b. induction a as [|x a IH]; intros [|y b] Ha Hb Heq;
    simpl in *; simplify_eq; [done|set_solver..|].
  destruct (IH b) as [-> ->]; [set_solver..|done|done].
Qed.

Lemma plain_app_sep (a b t : string) : plain_component a → a ≠ b +:+ "/" +:+ t.
Proof. intros Ha ->. apply Ha. rewrite !bytes_of_app. simpl. set_solver. Qed.

Lemma concat_inj (l1 l2 : list string) :
  l1 ≠ [] → l2 ≠ [] → Forall plain_component l1 → Forall plain_component l2 →
  String.concat "/" l1 = String.concat "/" l2 → l1 = l2.
Proof.
  revert l2. induction l1 as [|x l1 IH]; intros [|y l2] ? ? H1 H2 Heq; try done.
  apply Forall_cons in H1 as [Hx H1]. apply Forall_cons in H2 as [Hy H2].
  destruct l1 as [|x' l1], l2 as [|y' l2]; simpl in Heq.
  - by subst.
  - by destruct (plain_app_sep x y (String.concat "/" (y' :: l2)) Hx).
  - by destruct (plain_app_sep y x (String.concat "/" (x' :: l1)) Hy).
  - destruct (sep_app_inj _ _ _ _ Hx Hy Heq) as [-> Heq']. f_equal. by apply IH.
Qed.

Lemma split_once_char_app (c : ascii) (l acc a b : list ascii) :
  split_once_bytes [c] acc l = Some (a, b) → rev acc ++ l = a ++ c :: b.
Proof.
  revert acc. induction l as [|x l IH]; intros acc; simpl.
  - done.
  - destruct (decide (c = x)) as [->|]; simpl; [by intros [= <- <-]|].
    intros Hs%IH. simpl in Hs. by rewrite <-app_assoc in Hs.
Qed.
Lemma rsplit_once_char_app (c : ascii) (s a b : string) :
  rsplit_once_char c s = Some (a, b) → s = a +:+ String c b.
Proof.
  unfold rsplit_once_char. intros ([x y] & Hs & Heq)%bind_Some. injection Heq as <- <-.
  apply split_once_char_app in Hs. simpl in Hs. apply (f_equal (@rev ascii)) in Hs.
  rewrite rev_involutive, rev_app_distr in Hs. simpl in Hs. rewrite <-app_assoc in Hs.
  apply (inj bytes_of). rewrite Hs, bytes_of_app. simpl. by rewrite !bytes_of_string_of.
Qed.

(** Two scripts never share a key: the extension is the same for all of them, and only a file whose
    stem is a lone dot is displaced (to the parent component). *)
Lemma script_keys_distinct (msg : string) (d1 d2 : list string) (n1 n2 key : string) :
  Forall plain_component (d1 ++ [n1]) → Forall plain_component (d2 ++ [n2]) →
  n1 ≠ "..js" → n2 ≠ "..js" →
  registers script_kind n1 = true → registers script_kind n2 = true →
  derive_key msg d1 n1 = Ok key → derive_key msg d2 n2 = Ok key → d1 = d2 ∧ n1 = n2.
Proof.
  assert (∀ d n k, Forall plain_component (d ++ [n]) → n ≠ "..js" → registers script_kind n = true →
    derive_key msg d n = Ok k → ∃ stem, n = stem +:+ ".js" ∧ k = String.concat "/" (d ++ [stem]) ∧
      Forall plain_component (d ++ [stem])) as Hkey.
  { intros d n k [Hd Hn]%Forall_app Hdot Hreg Hk. unfold registers, extension in Hreg.
    unfold derive_key, without_extension in Hk.
    destruct (rsplit_once_char "." n) as [[stem ext]|] eqn:Es; [|done]. simpl in *.
    apply rsplit_once_char_app in Es. unfold is_empty in Hk.
    destruct (nonempty stem); [|done]. simpl in Hk.
    apply bool_decide_eq_true, list_elem_of_singleton in Hreg. subst ext.
    rewrite decide_False in Hk by (intros ->; by apply Hdot).
    destruct (forallb _ _); [|done]. injection Hk as <-. exists stem. split_and!; [done..|].
    apply Forall_app. split; [done|]. rewrite Forall_singleton in Hn |- *.
    unfold plain_component in *. rewrite Es, bytes_of_app in Hn. set_solver. }
  intros H1 H2 Hn1 Hn2 Hr1 Hr2 Hk1 Hk2.
  destruct (Hkey _ _ _ H1 Hn1 Hr1 Hk1) as (s1 & -> & -> & Hp1).
  destruct (Hkey _ _ _ H2 Hn2 Hr2 Hk2) as (s2 & -> & Heq & Hp2).
  apply concat_inj in Heq; [|by destruct d1|by destruct d2|done..].
  by apply app_inj_tail in Heq as [-> ->].
Qed.

(** ** The property *)

(** C31: the start-up scan is total and exact.  On every finite directory tree, readable or not, the
    stack loop finishes within one round per directory.  It succeeds only when nothing below the
    root fails to read, exceeds the size limit or has a name that is not UTF-8, and then registers
    precisely the keys of the matching files a recursive walk finds, each with the source of a file
    of that key (its own when the key is its alone), every source within the limit; otherwise the
    error is that of something the walk meets. *)
Theorem registry_load_exact (kind : Kind) (max_size : Z) (root : Listing) :
  ∃ r, load_registry kind max_size root = Some r ∧
    let walk := outcomes kind max_size [] (Dir root) in
    match r with
    | Ok m =>
        (∀ o, o ∈ walk → is_ok o = true) ∧
        (∀ k, is_Some (m !! k) ↔ ∃ v, Ok (k, v) ∈ walk) ∧
        (∀ k v, m !! k = Some v → Ok (k, v) ∈ walk ∧ str_len v ≤ max_size) ∧
        (∀ k v, Ok (k, v) ∈ walk → (∀ v', Ok (k, v') ∈ walk → v' = v) → m !! k = Some v)
    | Err e => Err e ∈ walk
    end.
Proof.
  destruct (load_loop_loaded kind max_size (directories (Dir root)) [([], root)] ∅ [])
    as (r & Hr & Hl); [unfold rounds; simpl; lia|by split_and!; [set_solver| |set_solver]|].
  exists r. split; [done|]. unfold todo in Hl. simpl fmap in Hl. simpl in Hl. rewrite app_nil_r in Hl.
  intros walk. change (loaded walk r) in Hl. destruct r as [m|e]; [|done].
  destruct Hl as (Hok & Hs & Hc). split_and!; [done| | |].
  - intros k. split; [intros [v Hv]; eauto|intros [v Hv]; eauto].
  - intros k v Hv. split; [auto|].
    by apply (load_loop_bounded kind max_size _ _ ∅ m (map_Forall_empty _) Hr k v).
  - intros k v Hin Huniq. destruct (Hc k v Hin) as [v' Hv']. rewrite Hv'. f_equal. auto.
Qed.

(** ** Examples *)

Definition demo_tree : Listing :=
  Ok [Ok ("greet.js", File (Ok "1")); Ok ("README.md", File (Err "unread"));
      Ok ("acme", Dir (Ok [Ok ("billing", Dir (Ok [Ok ("pricing.js", File (Ok "22"))]));
                           Ok (".js", File (Ok "hidden"))]))].

Lemma demo_scripts :
  ScriptRegistry_load demo_tree 2 =
  Some (Ok {| sr_scripts := {["greet" := "1"; "acme/billing/pricing" := "22"]} |}).
Proof. vm_compute. reflexivity. Qed.
Lemma demo_oversize :
  ScriptRegistry_load demo_tree 1 =
  Some (Err (TooLarge "script" ["acme"; "billing"; "pricing.js"] 2 1)).
Proof. vm_compute. reflexivity. Qed.
Lemma demo_not_utf8 :
  ScriptRegistry_load (Ok [Ok (String "255" ".js", File (Ok "1"))]) 9 =
  Some (Err (NotUtf8 "script path is not valid UTF-8")).
Proof. vm_compute. reflexivity. Qed.

(** Modules of two extensions share one specifier, and the order of the listing decides which of
    them an import gets. *)
Lemma module_extensions_collide :
  let a := Ok ("a.js", File (Ok "js")) in let b := Ok ("a.mjs", File (Ok "mjs")) in
  ModuleRegistry_load (Ok [a; b]) 9 = Some (Ok {| mr_modules := {["a" := "mjs"]} |}) ∧
  ModuleRegistry_load (Ok [b; a]) 9 = Some (Ok {| mr_modules := {["a" := "js"]} |}).
Proof. vm_compute. split; reflexivity. Qed.
