(* ===== verification/Pool.v ===== *)
(** * Pool: the runtime pool and its graceful teardown

    Models [runlet-core/src/pool.rs].  The bounded lock-free queue is third-party ([ArrayQueue], a
    class with its documented laws); a runtime is opaque.  [acquire], [release] and [shutdown] run
    concurrently, so each is also given as its atomic actions, and a state machine interleaves
    the actions of any number of threads. *)

From S2P Require Import Prelude EngineConfig.
Local Open Scope Z_scope.

(** [crossbeam_queue::ArrayQueue]. *)
Class ArrayQueue (Q R : Type) := {
  aq_new : nat → Q;
  aq_push : Q → R → option Q;
  aq_pop : Q → option (R * Q);
  aq_len : Q → nat;
  aq_cap : Q → nat;
  aq_new_spec n : aq_len (aq_new n) = 0%nat ∧ aq_cap (aq_new n) = n;
  aq_push_none q r : aq_push q r = None ↔ (aq_cap q ≤ aq_len q)%nat;
  aq_push_some q r q' : aq_push q r = Some q' → aq_len q' = S (aq_len q) ∧ aq_cap q' = aq_cap q;
  aq_pop_none q : aq_pop q = None ↔ aq_len q = 0%nat;
  aq_pop_some q r q' : aq_pop q = Some (r, q') → aq_len q = S (aq_len q') ∧ aq_cap q' = aq_cap q
}.

Record PoolStats := { pst_size : Z; pst_idle : Z; pst_in_flight : Z }.

(** The queue, the configured size, and the shared lifecycle flags. *)
Record JsPool (Q : Type) := {
  jp_inner : Q; jp_size : nat; jp_accepting : bool; jp_in_flight : Z }.
Arguments jp_inner {Q} _. Arguments jp_size {Q} _. Arguments jp_accepting {Q} _.
Arguments jp_in_flight {Q} _.

Section pool.
Context {Q R : Type} {aq : ArrayQueue Q R}.
(** [create_runtime]: a new runtime with the limits and the module loader, or an error. *)
Context (create_runtime : result R string).
Local Abbreviation Pool := (JsPool Q).

Definition set_inner (p : Pool) (q : Q) : Pool :=
  {| jp_inner := q; jp_size := jp_size p; jp_accepting := jp_accepting p;
     jp_in_flight := jp_in_flight p |}.
Definition set_in_flight (p : Pool) (n : Z) : Pool :=
  {| jp_inner := jp_inner p; jp_size := jp_size p; jp_accepting := jp_accepting p;
     jp_in_flight := n |}.

(** The filling loop of [JsPool::new]. *)
Fixpoint fill (n : nat) (q : Q) : result Q string :=
  match n with
  | O => Ok q
  | S n' =>
      let? runtime := create_runtime in
      let? q' := ok_or (aq_push q runtime) "pool queue full during init" in
      fill n' q'
  end.

(** [JsPool::new]; [parallelism] is the machine's, used when the configured size is zero. *)
Definition JsPool_new (config : EngineConfig) (parallelism : option nat) : result Pool string :=
  let size := if decide (0 < pool_size config) then Z.to_nat (pool_size config)
              else default 4%nat parallelism in
  let? queue := fill size (aq_new size) in
  Ok {| jp_inner := queue; jp_size := size; jp_accepting := true; jp_in_flight := 0 |}.

(** The actions of [acquire]: take or create a runtime, then count it. *)
Definition acquire_take (p : Pool) : result R string * Pool :=
  match aq_pop (jp_inner p) with
  | Some (runtime, q) => (Ok runtime, set_inner p q)
  | None => (create_runtime, p)
  end.
Definition acquire_count (p : Pool) : Pool := set_in_flight p (fetch_add_u64 (jp_in_flight p) 1).
Definition acquire (p : Pool) : result R string * Pool :=
  match acquire_take p with
  | (Err e, p1) => (Err e, p1)
  | (Ok runtime, p1) => (Ok runtime, acquire_count p1)
  end.

(** The actions of [release]: uncount, read the flag, push or drop. *)
Definition release_uncount (p : Pool) : Pool := set_in_flight p (fetch_sub_u64 (jp_in_flight p) 1).
Definition release_push (p : Pool) (runtime : R) : Pool :=
  match aq_push (jp_inner p) runtime with Some q => set_inner p q | None => p end.
Definition release (p : Pool) (runtime : R) : Pool :=
  let p1 := release_uncount p in
  if jp_accepting p1 then release_push p1 runtime else p1.

Definition is_accepting (p : Pool) : bool := jp_accepting p.

(** The actions of [shutdown]: clear the flag, then pop until empty; each pop shortens the queue,
    so its length is enough fuel. *)
Definition shutdown_flag (p : Pool) : Pool :=
  {| jp_inner := jp_inner p; jp_size := jp_size p; jp_accepting := false;
     jp_in_flight := jp_in_flight p |}.
Fixpoint drain_queue (fuel : nat) (q : Q) : Q :=
  match fuel with
  | O => q
  | S fuel' => match aq_pop q with Some (_, q') => drain_queue fuel' q' | None => q end
  end.
Definition shutdown (p : Pool) : Pool :=
  let p1 := shutdown_flag p in set_inner p1 (drain_queue (aq_len (jp_inner p1)) (jp_inner p1)).

Definition stats (p : Pool) : PoolStats :=
  {| pst_size := Z.of_nat (jp_size p); pst_idle := Z.of_nat (aq_len (jp_inner p));
     pst_in_flight := jp_in_flight p |}.

(** ** Interleavings *)

(** The pool and how many threads stand between which actions: holding an uncounted runtime, running
    with one, having uncounted it, about to push it, draining in [shutdown]. *)
Record Threads := {
  tp_pool : Pool;
  tp_taken : nat; tp_running : nat; tp_uncounted : nat; tp_pushing : nat; tp_draining : nat }.

Inductive tstep : Threads → Threads → Prop :=
| t_take p a b c d e r p' :
    acquire_take p = (Ok r, p') → tstep (Build_Threads p a b c d e) (Build_Threads p' (S a) b c d e)
| t_count p a b c d e :
    tstep (Build_Threads p (S a) b c d e) (Build_Threads (acquire_count p) a (S b) c d e)
| t_uncount p a b c d e :
    tstep (Build_Threads p a (S b) c d e) (Build_Threads (release_uncount p) a b (S c) d e)
| t_keep p a b c d e :
    jp_accepting p = true → tstep (Build_Threads p a b (S c) d e) (Build_Threads p a b c (S d) e)
| t_dispose p a b c d e :
    jp_accepting p = false → tstep (Build_Threads p a b (S c) d e) (Build_Threads p a b c d e)
| t_push p a b c d e r :
    tstep (Build_Threads p a b c (S d) e) (Build_Threads (release_push p r) a b c d e)
| t_shutdown p a b c d e :
    tstep (Build_Threads p a b c d e) (Build_Threads (shutdown_flag p) a b c d (S e))
| t_drain p a b c d e r q :
    aq_pop (jp_inner p) = Some (r, q) →
    tstep (Build_Threads p a b c d (S e)) (Build_Threads (set_inner p q) a b c d (S e))
| t_drained p a b c d e :
    aq_pop (jp_inner p) = None → tstep (Build_Threads p a b c d (S e)) (Build_Threads p a b c d e).

Inductive treach (p : Pool) : Threads → Prop :=
| treach_start : treach p (Build_Threads p 0 0 0 0 0)
| treach_step t t' : treach p t → tstep t t' → treach p t'.

(** ** Lemmas *)

Lemma drain_queue_empty q : aq_len (drain_queue (aq_len q) q) = 0%nat.
Proof.
  remember (aq_len q) as n eqn:Hn. revert q Hn. induction n as [|n IH]; intros q Hn; simpl; [done|].
  destruct (aq_pop q) as [[r q']|] eqn:Ep.
  - apply aq_pop_some in Ep as [? _]. apply IH. lia.
  - apply aq_pop_none in Ep. congruence.
Qed.

Lemma fill_spec n q q' :
  (aq_len q + n ≤ aq_cap q)%nat → fill n q = Ok q' →
  aq_len q' = (aq_len q + n)%nat ∧ aq_cap q' = aq_cap q.
Proof.
  revert q. induction n as [|n IH]; intros q Hn Hf; simpl in Hf.
  { simplify_eq. lia. }
  destruct create_runtime as [r|e]; simplify_eq/=.
  destruct (aq_push q r) as [q1|] eqn:Ep; simplify_eq/=.
  apply aq_push_some in Ep as [Hl Hc]. destruct (IH q1 ltac:(lia) Hf). lia.
Qed.

(** What the sequential operations do to the flags. *)
Lemma acquire_flags p :
  jp_accepting (acquire p).2 = jp_accepting p ∧
  jp_in_flight (acquire p).2 =
    match (acquire p).1 with
    | Ok _ => fetch_add_u64 (jp_in_flight p) 1
    | Err _ => jp_in_flight p
    end.
Proof.
  unfold acquire, acquire_take. destruct (aq_pop (jp_inner p)) as [[r q]|]; simpl; [done|].
  by destruct create_runtime.
Qed.

Lemma release_flags p r :
  jp_accepting (release p r) = jp_accepting p ∧
  jp_in_flight (release p r) = fetch_sub_u64 (jp_in_flight p) 1.
Proof.
  unfold release, release_push. simpl. destruct (jp_accepting p) eqn:Ha; [|done].
  by destruct (aq_push (jp_inner p) r).
Qed.

(** The bookkeeping of a pool of [size]: the gauge counts the running threads and the queue is
    within its capacity. *)
Definition pool_inv (size : nat) (t : Threads) : Prop :=
  jp_in_flight (tp_pool t) = Z.of_nat (tp_running t) mod 2 ^ 64 ∧
  (aq_len (jp_inner (tp_pool t)) ≤ size)%nat ∧ aq_cap (jp_inner (tp_pool t)) = size ∧
  jp_size (tp_pool t) = size.

Lemma tstep_inv size t t' : pool_inv size t → tstep t t' → pool_inv size t'.
Proof.
  intros (Hf & Hl & Hc & Hs) Ht. destruct Ht as [p a b c d e r p' Ha| | | | |p a b c d e r| |p a b c d e r q Hp|];
    unfold pool_inv; simpl in *; try done.
  - unfold acquire_take in Ha. destruct (aq_pop (jp_inner p)) as [[r' q]|] eqn:Ep; simplify_eq; simpl.
    + apply aq_pop_some in Ep as [? ?]. split_and!; [done|lia|congruence|done].
    + done.
  - split_and!; [|done..]. unfold fetch_add_u64. rewrite Hf, Zplus_mod_idemp_l. f_equal. lia.
  - split_and!; [|done..]. unfold fetch_sub_u64. rewrite Hf, Zminus_mod_idemp_l. f_equal. lia.
  - unfold release_push. destruct (aq_push (jp_inner p) r) as [q|] eqn:Ep; [|done]. simpl.
    assert (aq_push (jp_inner p) r ≠ None) as Hn by congruence. rewrite aq_push_none in Hn.
    apply aq_push_some in Ep as [? ?]. split_and!; [done|lia|congruence|done].
  - apply aq_pop_some in Hp as [? ?]. split_and!; [done|lia|congruence|done].
Qed.

Lemma JsPool_new_spec config parallelism p :
  JsPool_new config parallelism = Ok p →
  aq_len (jp_inner p) = jp_size p ∧ aq_cap (jp_inner p) = jp_size p ∧ jp_in_flight p = 0.
Proof.
  unfold JsPool_new. cbv zeta. intros Hp.
  set (size := if decide (0 < pool_size config) then Z.to_nat (pool_size config)
               else default 4%nat parallelism) in Hp.
  destruct (aq_new_spec size) as [Hl Hc].
  destruct (fill size (aq_new size)) as [q|] eqn:Ef; simplify_eq/=.
  apply fill_spec in Ef as [? ?]; [|lia]. lia.
Qed.

(** ** Properties *)

(** C36: the pool's gauge is exact and its warm set bounded.  However acquisitions, releases and
    shutdowns of any number of threads interleave, action by action, the in-flight gauge is the
    number of threads running with a runtime and the idle runtimes never exceed the pool's size. *)
Theorem pool_gauge_exact (config : EngineConfig) (parallelism : option nat) (p : Pool) (t : Threads)
    (Hnew : JsPool_new config parallelism = Ok p) (Hrun : treach p t) :
  pst_in_flight (stats (tp_pool t)) = Z.of_nat (tp_running t) mod 2 ^ 64 ∧
  pst_idle (stats (tp_pool t)) ≤ pst_size (stats (tp_pool t)) ∧
  pst_size (stats (tp_pool t)) = Z.of_nat (jp_size p).
Proof.
  assert (pool_inv (jp_size p) t) as (Hf & Hl & _ & Hs).
  { induction Hrun as [|t t' Hr IH Ht]; [|by eapply tstep_inv].
    apply JsPool_new_spec in Hnew as (Hl & Hc & Hf). unfold pool_inv. simpl. rewrite Hf, Hl.
    split_and!; [done|lia|done..]. }
  simpl. rewrite Hs. split_and!; [done|lia|done].
Qed.
End pool.
Arguments Threads : clear implicits.

(** ** Witnesses *)

(** A queue of runtimes as a list. *)
Definition lq_push {R} (q : nat * list R) (r : R) : option (nat * list R) :=
  if decide (length q.2 < q.1)%nat then Some (q.1, q.2 ++ [r]) else None.
Definition lq_pop {R} (q : nat * list R) : option (R * (nat * list R)) :=
  match q.2 with [] => None | r :: rest => Some (r, (q.1, rest)) end.
#[local] Program Instance list_queue R : ArrayQueue (nat * list R) R := {|
  aq_new n := (n, []); aq_push := lq_push; aq_pop := lq_pop; aq_len q := length q.2;
  aq_cap q := q.1 |}.
Next Obligation. done. Qed.
Next Obligation. intros R [n l] r. unfold lq_push. simpl. case_decide; split; intros; done || lia. Qed.
Next Obligation.
  intros R [n l] r q'. unfold lq_push. simpl. case_decide; intros; simplify_eq/=.
  rewrite length_app. simpl. lia.
Qed.
Next Obligation. intros R [n [|r l]]; unfold lq_pop; simpl; split; done. Qed.
Next Obligation. intros R [n [|r' l]] r q'; unfold lq_pop; simpl; intros; by simplify_eq/=. Qed.

Definition one_slot : EngineConfig :=
  {| memory_limit := 32; max_stack_size := 512; timeout_ms := 4000; pool_size := 1;
     max_script_size := 1024; max_context_size := 0; max_ops := 1500; max_output_size := 0;
     max_concurrent_executions := 0; max_statement_timeout_ms := 0;
     max_concurrent_per_partition := 0; partition_buckets := 0; db_breaker_threshold := 0;
     db_breaker_cooldown_ms := 0; allow_wildcard_hosts := false |}.
Definition one_pool : JsPool (nat * list unit) :=
  {| jp_inner := (1%nat, [tt]); jp_size := 1; jp_accepting := true; jp_in_flight := 0 |}.

Lemma one_pool_new : JsPool_new (R := unit) (Ok tt) one_slot None = Ok one_pool.
Proof. reflexivity. Qed.

(** A release that read the flag before a shutdown, and pushes after its drain. *)
Lemma shutdown_race :
  treach (R := unit) (Ok tt) one_pool (Build_Threads
    {| jp_inner := (1%nat, [tt]); jp_size := 1; jp_accepting := false; jp_in_flight := 0 |} 0 0 0 0 0).
Proof.
  eapply treach_step; [|refine (t_push _ (R := unit)
    {| jp_inner := (1%nat, []); jp_size := 1; jp_accepting := false; jp_in_flight := 0 |} 0 0 0 0 0 tt)].
  eapply treach_step; [|apply t_drained; reflexivity].
  eapply treach_step; [|refine (t_shutdown _
    {| jp_inner := (1%nat, []); jp_size := 1; jp_accepting := true; jp_in_flight := 0 |} 0 0 0 1 0)].
  eapply treach_step; [|apply t_keep; reflexivity].
  eapply treach_step; [|refine (t_uncount _
    {| jp_inner := (1%nat, []); jp_size := 1; jp_accepting := true; jp_in_flight := 1 |} 0 0 0 0 0)].
  eapply treach_step; [|refine (t_count _
    {| jp_inner := (1%nat, []); jp_size := 1; jp_accepting := true; jp_in_flight := 0 |} 0 0 0 0 0)].
  eapply treach_step; [apply treach_start|]. eapply t_take. reflexivity.
Qed.

Lemma pool_gauge_exact_witness :
  ∃ t, treach (R := unit) (Ok tt) one_pool t ∧ pst_idle (stats (tp_pool t)) ≤ 1.
Proof.
  eexists. split; [exact shutdown_race|].
  apply (pool_gauge_exact (Ok tt) one_slot None one_pool _ one_pool_new shutdown_race).
Defined.
