(* ===== verification/Host.v ===== *)
(** * Host: the callable entry point of the engine

    Models [runlet-core/src/host.rs] (the invocation and its builder, [LogicHost::run]).  The
    host owns the runtime pool, the bytecode cache and the script registry; an execution is
    [Engine.engine_run]. *)

From Stdlib Require Import Ascii.
From S2P Require Import Prelude Json Errors Wire Bytecode Ssrf Http S3 EngineConfig Engine Registry Pool.
Local Open Scope Z_scope.

(** ** Invocations *)

Inductive CodeRef := Inline (source : string) | Registered (key : string).

Record Invocation (World : Type) := {
  inv_code : CodeRef;
  inv_context_json : string;
  inv_profile : Profile;
  inv_caps : CapabilitySet;
  inv_read_hook : option (string → result string string);
  inv_egress : option (string → string → string → World → result string EgressError * World);
  inv_cache_namespace : option string
}.
Arguments inv_code {World} _. Arguments inv_context_json {World} _. Arguments inv_profile {World} _.
Arguments inv_caps {World} _. Arguments inv_read_hook {World} _. Arguments inv_egress {World} _.
Arguments inv_cache_namespace {World} _.

(** [with_defaults], [inline] and [registered]. *)
Definition with_defaults {World} (code : CodeRef) (context_json : string) : Invocation World :=
  {| inv_code := code; inv_context_json := context_json; inv_profile := Full;
     inv_caps := CapabilitySet_NONE; inv_read_hook := None; inv_egress := None;
     inv_cache_namespace := None |}.
Definition inline {World} (source context_json : string) : Invocation World :=
  with_defaults (Inline source) context_json.
Definition registered {World} (key context_json : string) : Invocation World :=
  with_defaults (Registered key) context_json.

Record HostSettings := { set_limits : EngineConfig; set_allow_private_targets : bool }.

(** [ExecMetrics] and [Outcome]. *)
Record ExecMetrics := { xm_http : list HttpMetric; xm_s3 : list S3Metric }.
Record Outcome := { out_result : ExecOutcome; out_effects : list string; out_metrics : ExecMetrics }.

(** ** The host *)

Record LogicHost (Q Cache : Type) := {
  lh_pool : JsPool Q;
  lh_cache : BytecodeCache Cache;
  lh_limits : EngineConfig;
  lh_allow_private_targets : bool;
  lh_registry : ScriptRegistry
}.
Arguments lh_pool {Q Cache} _. Arguments lh_cache {Q Cache} _. Arguments lh_limits {Q Cache} _.
Arguments lh_allow_private_targets {Q Cache} _. Arguments lh_registry {Q Cache} _.

Section host.
Context {jt : JsonText} {World Net : Type} {net : NetLib Net}.
Context {Cache : Type} {moka : Moka Cache (list ascii)} {sha : Sha256}.
Context {Ctx Fn JsVal Mod : Type} {compiler : ModuleCompiler Mod Caught}
  {js : QuickJs Ctx Fn JsVal Mod}.
Context {Q R : Type} {aq : ArrayQueue Q R} (create_runtime : result R string).
Local Abbreviation Host := (LogicHost Q Cache).

(** [LogicHost::new]; the pool brings its cache. *)
Definition LogicHost_new (pool : JsPool Q) (cache : BytecodeCache Cache) (registry : ScriptRegistry)
    (settings : HostSettings) : Host :=
  {| lh_pool := pool; lh_cache := cache; lh_limits := set_limits settings;
     lh_allow_private_targets := set_allow_private_targets settings; lh_registry := registry |}.

Definition set_pool_cache (h : Host) (p : JsPool Q) (c : BytecodeCache Cache) : Host :=
  {| lh_pool := p; lh_cache := c; lh_limits := lh_limits h;
     lh_allow_private_targets := lh_allow_private_targets h; lh_registry := lh_registry h |}.

(** The [match inv.code] of [run]. *)
Definition resolve_source (h : Host) (code : CodeRef) : result string EngineError :=
  match code with
  | Inline source => Ok source
  | Registered key =>
      ok_or (registry_get (lh_registry h) key)
        (ScriptNotFound ("no registered script for key `" +:+ key +:+ "`"))
  end.

(** The [ExecParams] of [run]. *)
Definition exec_params (h : Host) (inv : Invocation World) (source : string) : ExecParams World :=
  {| ep_cache_namespace := inv_cache_namespace inv; ep_script := source;
     ep_context_json := inv_context_json inv; ep_timeout_ms := timeout_ms (lh_limits h);
     ep_profile := inv_profile inv; ep_caps := inv_caps inv; ep_read_hook := inv_read_hook inv;
     ep_egress := inv_egress inv; ep_max_ops := Z.to_nat (max_ops (lh_limits h));
     ep_max_output_size := max_output_size (lh_limits h);
     ep_allow_private_targets := lh_allow_private_targets h;
     ep_wildcard_hosts_allowed :=
       allow_wildcard_hosts (lh_limits h) && negb (lh_allow_private_targets h) |}.

(** [LogicHost::run]. *)
Definition host_run (h : Host) (inv : Invocation World) (o : World * Net)
    : result Outcome EngineError * Host * (World * Net) :=
  if negb (is_accepting (lh_pool h)) then (Err ShuttingDown, h, o)
  else
    match resolve_source h (inv_code inv) with
    | Err e => (Err e, h, o)
    | Ok source =>
        match acquire create_runtime (lh_pool h) with
        | (Err err, p1) => (Err (Internal err), set_pool_cache h p1 (lh_cache h), o)
        | (Ok runtime, p1) =>
            let '(exec, cache1, o1) := engine_run (exec_params h inv source) (Some (lh_cache h)) o in
            let h1 := set_pool_cache h (release p1 runtime) (default (lh_cache h) cache1) in
            (let? result := exec in
             Ok {| out_result := er_outcome result; out_effects := er_effects result;
                   out_metrics := {| xm_http := er_http_metrics result;
                                     xm_s3 := er_s3_metrics result |} |}, h1, o1)
        end
    end.

(** [LogicHost::shutdown]. *)
Definition host_shutdown (h : Host) : Host :=
  set_pool_cache h (shutdown (R := R) (lh_pool h)) (lh_cache h).
Definition pool_stats (h : Host) : PoolStats := stats (R := R) (lh_pool h).

(** ** Properties *)

(** A run leaves the host as it found it.  On every path, errors included, the in-flight gauge
    is back at its value and the host still accepts as before; a host that is shutting down, or a
    key the registry does not know, is refused before anything executes. *)
Theorem host_run_balanced (h : Host) (inv : Invocation World) (o : World * Net)
    (Hrange : in_u64 (jp_in_flight (lh_pool h))) :
  let '(r, h', o') := host_run h inv o in
  jp_in_flight (lh_pool h') = jp_in_flight (lh_pool h) ∧
  is_accepting (lh_pool h') = is_accepting (lh_pool h) ∧
  (is_accepting (lh_pool h) = false → r = Err ShuttingDown ∧ h' = h ∧ o' = o) ∧
  (∀ key, is_accepting (lh_pool h) = true → inv_code inv = Registered key →
     registry_get (lh_registry h) key = None →
     r = Err (ScriptNotFound ("no registered script for key `" +:+ key +:+ "`")) ∧ h' = h ∧ o' = o).
Proof.
  unfold host_run. destruct (is_accepting (lh_pool h)) eqn:Hacc; simpl; [|by split_and!].
  destruct (resolve_source h (inv_code inv)) as [source|e] eqn:Es.
  - assert (∀ key, inv_code inv = Registered key → registry_get (lh_registry h) key ≠ None) as Hk.
    { intros key Hk Hn. rewrite Hk in Es. simpl in Es. by rewrite Hn in Es. }
    destruct (acquire_flags create_runtime (lh_pool h)) as [Ha Hf].
    destruct (acquire create_runtime (lh_pool h)) as [[runtime|err] p1]; simpl in Ha, Hf.
    + destruct (engine_run (exec_params h inv source) (Some (lh_cache h)) o) as [[exec c1] o1].
      destruct (release_flags p1 runtime) as [Ha1 Hf1]. unfold is_accepting in *. simpl.
      rewrite Ha1, Hf1, Ha, Hf, fetch_sub_add_u64 by done.
      split_and!; [done..|]. intros key _ Hkey Hn. by destruct (Hk key).
    + unfold is_accepting in *. simpl. split_and!; [congruence..|]. intros key _ Hkey Hn. by destruct (Hk key).
  - split_and!; try done. intros key _ Hkey Hn. rewrite Hkey in Es. simpl in Es. rewrite Hn in Es.
    simpl in Es. by simplify_eq.
Qed.

(** The private-address relaxation never combines with the host wildcard: in no execution of
    the host is the HTTP capability injected with both, and under [Deterministic] it is not injected
    at all. *)
Theorem wildcard_never_with_private_targets (h : Host) (inv : Invocation World) (source : string)
    (hosts : list string) (allow_private wildcard : bool)
    (Hin : InjApi hosts allow_private wildcard ∈ injections (exec_params h inv source)) :
  (allow_private && wildcard = false)%bool ∧ inv_profile inv = Full ∧
  hosts = cs_allowed_hosts (inv_caps inv) ∧ hosts ≠ [].
Proof.
  assert (InjApi hosts allow_private wildcard ∈ inject_apis (exec_params h inv source)) as Hapi.
  { unfold injections in Hin. rewrite !elem_of_app in Hin.
    destruct Hin as [Hin|[Hin|[Hin|Hin]]]; [set_solver| | |done].
    - destruct (ep_read_hook _); set_solver.
    - case_decide; [|set_solver]. destruct (ep_egress _); set_solver. }
  unfold inject_apis in Hapi. cbv zeta in Hapi. case_decide as Hp; [set_solver|].
  rewrite elem_of_app in Hapi. destruct Hapi as [Hapi|Hapi].
  - simpl in Hapi. destruct (cs_allowed_hosts (inv_caps inv)) as [|x l]; [set_solver|].
    apply list_elem_of_singleton in Hapi. simplify_eq. split; [|done].
    destruct (lh_allow_private_targets h); simpl; [|done]. by rewrite andb_false_r.
  - simpl in Hapi. exfalso. rewrite !elem_of_app in Hapi.
    repeat match type of Hapi with _ ∨ _ => destruct Hapi as [Hapi|Hapi] end;
      destruct (is_on _) || destruct (cs_s3 _); set_solver.
Qed.
End host.

(** ** Witnesses *)

#[local] Existing Instances trivial_json no_sha no_cache no_compiler io_script list_queue demo_net.

Definition demo_host : LogicHost (nat * list unit) unit :=
  {| lh_pool := one_pool; lh_cache := BytecodeCache_new 8 2048; lh_limits := one_slot;
     lh_allow_private_targets := true; lh_registry := {| sr_scripts := ∅ |} |}.

(** A run through the host reaches the engine and returns its outcome. *)
Lemma demo_host_run :
  (host_run (Q := nat * list unit) (R := unit) (Ok tt) demo_host
     (inline "function handler() {}" "{}" : Invocation (list string)) ([], [] : DemoNet)).1.1 =
  Ok {| out_result := Error (Script "'__io' is not defined" None); out_effects := [];
        out_metrics := {| xm_http := []; xm_s3 := [] |} |}.
Proof. vm_compute. reflexivity. Qed.

Lemma host_run_balanced_witness :
  (host_run (Q := nat * list unit) (R := unit) (Ok tt) demo_host
     (registered "missing" "{}" : Invocation (list string)) ([], [] : DemoNet)).1.1 =
  Err (ScriptNotFound "no registered script for key `missing`").
Proof.
  pose proof (host_run_balanced (R := unit) (Ok tt) demo_host
    (registered "missing" "{}" : Invocation (list string)) ([], [] : DemoNet)) as H.
  destruct (host_run (Ok tt) demo_host (registered "missing" "{}") ([], [])) as [[r h'] o'].
  destruct H as (_ & _ & _ & Hmissing); [split; vm_compute; discriminate|].
  destruct (Hmissing "missing" eq_refl eq_refl eq_refl) as (-> & _). reflexivity.
Defined.

Lemma wildcard_never_with_private_targets_witness :
  let caps := {| cs_allowed_hosts := ["*"]; cs_db := Off; cs_mongo := Off; cs_mail := Off;
                 cs_s3 := None; cs_redis := Off; cs_amq := Off; cs_auth := Off; cs_sys := None |} in
  let inv : Invocation (list string) :=
    {| inv_code := Inline "x"; inv_context_json := "{}"; inv_profile := Full; inv_caps := caps;
       inv_read_hook := None; inv_egress := None; inv_cache_namespace := None |} in
  InjApi ["*"] true false ∈ injections (exec_params demo_host inv "x") ∧ inv_profile inv = Full.
Proof.
  intros caps inv.
  assert (InjApi ["*"] true false ∈ injections (exec_params demo_host inv "x")) as Hin
    by (vm_compute; do 4 right; left).
  split; [exact Hin|].
  apply (wildcard_never_with_private_targets demo_host inv "x" ["*"] true false Hin).
Defined.
