(* ===== verification/Metrics.v ===== *)
(** * Metrics: process-wide counters and latency histograms

    Models [runlet-core/src/metrics.rs]: the outcome counters, the fixed-bucket histogram with its
    cumulative rendering, and the per-capability histograms.  Counters are [AtomicU64]s and wrap. *)

From Stdlib Require Import Ascii.
From stdpp Require Import pretty.
From S2P Require Import Prelude Json Bytecode Engine.
Local Open Scope Z_scope.

Definition LATENCY_BUCKETS_US : list Z :=
  [1000; 5000; 10000; 25000; 50000; 100000; 250000; 500000; 1000000; 2500000; 5000000; 10000000].
Definition LATENCY_BUCKET_LABELS : list string :=
  ["0.001"; "0.005"; "0.01"; "0.025"; "0.05"; "0.1"; "0.25"; "0.5"; "1"; "2.5"; "5"; "10"].

(** ** The histogram *)

Record LatencyHistogram := { lh_buckets : list Z; lh_sum_us : Z; lh_count : Z }.
Definition LatencyHistogram_default : LatencyHistogram :=
  {| lh_buckets := replicate 12 0; lh_sum_us := 0; lh_count := 0 |}.

(** The loop of [observe]: bump the first bucket whose bound covers the observation, then stop. *)
Fixpoint bump (bounds counters : list Z) (micros : Z) : list Z :=
  match bounds, counters with
  | bound :: bounds', c :: counters' =>
      if decide (micros ≤ bound) then fetch_add_u64 c 1 :: counters'
      else c :: bump bounds' counters' micros
  | _, _ => counters
  end.

Definition observe (h : LatencyHistogram) (micros : Z) : LatencyHistogram :=
  {| lh_buckets := bump LATENCY_BUCKETS_US (lh_buckets h) micros;
     lh_sum_us := fetch_add_u64 (lh_sum_us h) micros;
     lh_count := fetch_add_u64 (lh_count h) 1 |}.

(** The running totals of [render_series]. *)
Fixpoint cumulate (acc : Z) (counters : list Z) : list Z :=
  match counters with
  | [] => []
  | c :: rest => let acc := sat_add_u64 acc c in acc :: cumulate acc rest
  end.

Definition bucket_labels (extra le : string) : string :=
  if is_empty extra then "{le=" +:+ quoted le +:+ "}" else "{" +:+ extra +:+ ",le=" +:+ quoted le +:+ "}".

(** [{:06}]. *)
Definition pad6 (s : string) : string :=
  String.concat EmptyString (replicate (6 - String.length s) "0") +:+ s.

(** The lines of [render_series], before they are joined. *)
Definition render_lines (h : LatencyHistogram) (name extra : string) : list string :=
  let total := pretty (lh_count h) in
  let suffix := if is_empty extra then EmptyString else "{" +:+ extra +:+ "}" in
  zip_with (λ label cumulative,
              name +:+ "_bucket" +:+ bucket_labels extra label +:+ " " +:+ pretty cumulative)
    LATENCY_BUCKET_LABELS (cumulate 0 (lh_buckets h)) ++
  [name +:+ "_bucket" +:+ bucket_labels extra "+Inf" +:+ " " +:+ total;
   name +:+ "_sum" +:+ suffix +:+ " " +:+ pretty (lh_sum_us h / 1000000) +:+ "." +:+
     pad6 (pretty (lh_sum_us h mod 1000000));
   name +:+ "_count" +:+ suffix +:+ " " +:+ total].
Definition render_series (h : LatencyHistogram) (name extra : string) : string :=
  String.concat (String "010"%char EmptyString) (render_lines h name extra).

(** ** Counters *)

Inductive Capability := CapDb | CapMongo | CapHttp | CapMail | CapS3 | CapRedis | CapAmq | CapAuth.
#[export] Instance Capability_eq_dec : EqDecision Capability.
Proof. solve_decision. Defined.

(** The outcome labels of [runlet_executions_total], and the two other families. *)
Inductive Counter :=
| CntSuccess | CntScriptError | CntCapabilityError | CntTimeout | CntMemoryLimit
| CntMalformedResponse | CntInternalError | CntRejections | CntOverloadGlobal | CntOverloadPartition.
#[export] Instance Counter_eq_dec : EqDecision Counter.
Proof. solve_decision. Defined.

Record Metrics := {
  m_counters : Counter → Z;
  m_exec_latency : LatencyHistogram;
  m_cap_latency : Capability → LatencyHistogram
}.
Definition Metrics_default : Metrics :=
  {| m_counters := λ _, 0; m_exec_latency := LatencyHistogram_default;
     m_cap_latency := λ _, LatencyHistogram_default |}.

(** [fetch_add(1)] on one counter. *)
Definition count_one (c : Counter) (m : Metrics) : Metrics :=
  {| m_counters := λ c', if decide (c' = c) then fetch_add_u64 (m_counters m c) 1 else m_counters m c';
     m_exec_latency := m_exec_latency m; m_cap_latency := m_cap_latency m |}.

Definition record_success : Metrics → Metrics := count_one CntSuccess.

(** The counter [record_engine_error] picks. *)
Definition engine_error_counter (err : EngineError) : Counter :=
  match err with
  | Syntax _ | ScriptNotFound _ | ModuleNotFound _ | HandlerNotDefined | Script _ _ => CntScriptError
  | Engine.Capability _ => CntCapabilityError
  | Timeout _ => CntTimeout
  | MemoryLimit => CntMemoryLimit
  | Malformed _ | OutputTooLarge _ _ => CntMalformedResponse
  | Internal _ | ShuttingDown => CntInternalError
  end.
Definition record_engine_error (err : EngineError) : Metrics → Metrics :=
  count_one (engine_error_counter err).
Definition record_rejection : Metrics → Metrics := count_one CntRejections.
Definition record_overload_global : Metrics → Metrics := count_one CntOverloadGlobal.
Definition record_overload_partition : Metrics → Metrics := count_one CntOverloadPartition.

Definition observe_execution (micros : Z) (m : Metrics) : Metrics :=
  {| m_counters := m_counters m; m_exec_latency := observe (m_exec_latency m) (to_u64_or_max micros);
     m_cap_latency := m_cap_latency m |}.
Definition observe_op (cap : Capability) (micros : Z) (m : Metrics) : Metrics :=
  {| m_counters := m_counters m; m_exec_latency := m_exec_latency m;
     m_cap_latency := λ c, if decide (c = cap) then observe (m_cap_latency m cap) (to_u64_or_max micros)
                           else m_cap_latency m c |}.

(** ** Exposition *)

(** A line of one label. *)
Definition labelled (name key value : string) : string :=
  name +:+ "{" +:+ key +:+ "=" +:+ quoted value +:+ "}".
Definition family (name help kind : string) : list string :=
  ["# HELP " +:+ name +:+ " " +:+ help; "# TYPE " +:+ name +:+ " " +:+ kind].
Definition sample (series : string) (value : Z) : string := series +:+ " " +:+ pretty value.

(** [LatencyHistogram::render]: a family of one series. *)
Definition histogram_lines (h : LatencyHistogram) (name help : string) : list string :=
  family name help "histogram" ++ render_lines h name EmptyString.

(** [CapabilityLatencies::render]: one family, a series per capability. *)
Definition capability_label (c : Capability) : string :=
  match c with
  | CapDb => "db" | CapMongo => "mongo" | CapHttp => "http" | CapMail => "mail" | CapS3 => "s3"
  | CapRedis => "redis" | CapAmq => "amq" | CapAuth => "auth"
  end.
Definition capabilities : list Capability :=
  [CapDb; CapMongo; CapHttp; CapMail; CapS3; CapRedis; CapAmq; CapAuth].
Definition cap_latency_lines (m : Metrics) : list string :=
  let name := "runlet_capability_op_duration_seconds" in
  family name "Per-capability operation latency." "histogram" ++
  (capabilities ≫= λ c, render_lines (m_cap_latency m c) name
     ("capability=" +:+ quoted (capability_label c))).

(** The series of a counter. *)
Definition counter_series (c : Counter) : string :=
  let outcome := labelled "runlet_executions_total" "outcome" in
  match c with
  | CntSuccess => outcome "success" | CntScriptError => outcome "script_error"
  | CntCapabilityError => outcome "capability_error" | CntTimeout => outcome "timeout"
  | CntMemoryLimit => outcome "memory_limit" | CntMalformedResponse => outcome "malformed_response"
  | CntInternalError => outcome "internal_error" | CntRejections => "runlet_rejections_total"
  | CntOverloadGlobal => labelled "runlet_overload_total" "scope" "global"
  | CntOverloadPartition => labelled "runlet_overload_total" "scope" "partition"
  end.
Definition counter_line (m : Metrics) (c : Counter) : string := sample (counter_series c) (m_counters m c).

(** The lines of [Metrics::render], in order. *)
Definition metrics_lines (m : Metrics) (bulkhead_available bulkhead_total breaker_trips : Z)
    (cache : BytecodeCacheStats) : list string :=
  family "runlet_executions_total" "Executions by terminal outcome." "counter" ++
  (counter_line m <$> [CntSuccess; CntScriptError; CntCapabilityError; CntTimeout; CntMemoryLimit;
                       CntMalformedResponse; CntInternalError]) ++
  family "runlet_rejections_total"
    "Requests rejected before execution (bad body, routing, oversized)." "counter" ++
  [counter_line m CntRejections] ++
  family "runlet_overload_total" "Requests shed by a concurrency limit." "counter" ++
  (counter_line m <$> [CntOverloadGlobal; CntOverloadPartition]) ++
  family "runlet_db_breaker_trips_total" "Cumulative db circuit-breaker open transitions." "counter" ++
  [sample "runlet_db_breaker_trips_total" breaker_trips] ++
  family "runlet_bulkhead_permits_available" "Free global bulkhead permits right now." "gauge" ++
  [sample "runlet_bulkhead_permits_available" bulkhead_available] ++
  family "runlet_bulkhead_permits_total" "Configured global bulkhead capacity." "gauge" ++
  [sample "runlet_bulkhead_permits_total" bulkhead_total] ++
  histogram_lines (m_exec_latency m) "runlet_execution_duration_seconds" "Execution wall-clock latency." ++
  cap_latency_lines m ++
  family "runlet_bytecode_cache_entries" "Compiled-bytecode cache: resident entries." "gauge" ++
  [sample "runlet_bytecode_cache_entries" (st_entries cache)] ++
  family "runlet_bytecode_cache_events_total"
    "Compiled-bytecode cache events by kind (hit/miss/stored)." "counter" ++
  [sample (labelled "runlet_bytecode_cache_events_total" "event" "hit") (st_hits cache);
   sample (labelled "runlet_bytecode_cache_events_total" "event" "miss") (st_misses cache);
   sample (labelled "runlet_bytecode_cache_events_total" "event" "stored") (st_stored cache)].
(** [Metrics::render]: every line ends with a newline. *)
Definition metrics_render (m : Metrics) (bulkhead_available bulkhead_total breaker_trips : Z)
    (cache : BytecodeCacheStats) : string :=
  String.concat EmptyString ((λ l, l +:+ String "010"%char EmptyString) <$>
    metrics_lines m bulkhead_available bulkhead_total breaker_trips cache).

(** ** Lemmas *)

(** The observations a bucket of bound [b] after bound [a] receives. *)
Definition in_range (a b : Z) (x : Z) : Prop := a < x ∧ x ≤ b.
#[export] Instance in_range_dec a b x : Decision (in_range a b x).
Proof. apply and_dec; apply _. Defined.

(** The bucket counts of a list of observations, from a lower bound. *)
Fixpoint tallies (a : Z) (bounds : list Z) (obs : list Z) : list Z :=
  match bounds with
  | [] => []
  | b :: rest => Z.of_nat (count_if (in_range a b) obs) :: tallies b rest obs
  end.

(** The bounds increase. *)
Fixpoint increasing (a : Z) (l : list Z) : Prop :=
  match l with [] => True | b :: rest => a < b ∧ increasing b rest end.

Lemma tallies_skip bounds a obs x :
  increasing a bounds → x ≤ a → tallies a bounds (obs ++ [x]) = tallies a bounds obs.
Proof.
  revert a. induction bounds as [|b bounds IH]; intros a Hinc Hx; simpl; [done|].
  destruct Hinc as [Hab Hinc]. f_equal; [|apply IH; [done|lia]].
  rewrite count_if_app, count_if_cons, decide_False by (intros [? ?]; lia).
  by rewrite count_if_nil, !Nat.add_0_r.
Qed.

Lemma bump_tallies bounds a obs x :
  increasing a bounds → a < x → Z.of_nat (length obs) < U64_MAX →
  bump bounds (tallies a bounds obs) x = tallies a bounds (obs ++ [x]).
Proof.
  intros Hinc Hx Hlen. revert a Hinc Hx. induction bounds as [|b bounds IH]; intros a Hinc Hx; [done|].
  destruct Hinc as [Hab Hinc]. cbn [bump tallies].
  pose proof (count_if_le (in_range a b) obs) as Hc.
  rewrite count_if_app, count_if_cons, count_if_nil. case_decide as Hxb.
  - rewrite decide_True, tallies_skip by done. f_equal.
    rewrite fetch_add_u64_small by (unfold U64_MAX in *; lia). lia.
  - rewrite decide_False by (intros [? ?]; lia). rewrite IH by (done || lia).
    f_equal. lia.
Qed.

Lemma cumulate_tallies bounds a obs n :
  increasing a bounds → n = Z.of_nat (count_if (λ x, x ≤ a) obs) →
  Z.of_nat (length obs) ≤ U64_MAX →
  cumulate n (tallies a bounds obs) = (λ b, Z.of_nat (count_if (λ x, x ≤ b) obs)) <$> bounds.
Proof.
  intros Hinc Hn Hlen. revert a n Hinc Hn. induction bounds as [|b bounds IH]; intros a n Hinc Hn; [done|].
  destruct Hinc as [Hab Hinc].
  assert (sat_add_u64 n (Z.of_nat (count_if (in_range a b) obs)) =
          Z.of_nat (count_if (λ x, x ≤ b) obs)) as Hs.
  { subst n. pose proof (count_if_le (λ x, x ≤ b) obs).
    assert (count_if (λ x, (x ≤ a)%Z) obs + count_if (in_range a b) obs =
            count_if (λ x, (x ≤ b)%Z) obs)%nat as Heq.
    { clear -Hab. induction obs as [|x obs IH]; [done|]. rewrite !count_if_cons, <-IH.
      unfold in_range in *. repeat case_decide; lia. }
    unfold sat_add_u64. lia. }
  rewrite fmap_cons. cbn [tallies cumulate]. rewrite Hs. f_equal. by apply IH.
Qed.

Lemma buckets_increasing : increasing (-1) LATENCY_BUCKETS_US.
Proof. vm_compute. repeat split. Qed.

Lemma observe_all_buckets obs :
  Forall (λ x, 0 ≤ x) obs → Z.of_nat (length obs) ≤ U64_MAX →
  lh_buckets (foldl observe LatencyHistogram_default obs) = tallies (-1) LATENCY_BUCKETS_US obs ∧
  lh_count (foldl observe LatencyHistogram_default obs) = Z.of_nat (length obs).
Proof.
  induction obs as [|x obs IH] using rev_ind; intros Hpos Hlen; [done|].
  rewrite Forall_app, Forall_singleton in Hpos. destruct Hpos as [Hpos Hx].
  rewrite length_app in *. simpl in Hlen. destruct IH as [IHb IHc]; [done|lia|].
  rewrite foldl_app. cbn [foldl]. set (h := foldl observe LatencyHistogram_default obs) in *.
  unfold observe. cbn [lh_buckets lh_count]. rewrite IHb, IHc. split.
  - apply (bump_tallies _ _ obs x buckets_increasing); lia.
  - rewrite fetch_add_u64_small by (simpl in *; lia). simpl. lia.
Qed.

(** The exposition shows each counter once, with its value. *)
Lemma counter_line_once m available total trips cache c :
  filter (λ l, is_Some (strip_prefix (counter_series c +:+ " ") l))
    (counter_line m <$> [CntSuccess; CntScriptError; CntCapabilityError; CntTimeout; CntMemoryLimit;
                         CntMalformedResponse; CntInternalError; CntRejections; CntOverloadGlobal;
                         CntOverloadPartition]) = [counter_line m c] ∧
  counter_line m c ∈ metrics_lines m available total trips cache.
Proof.
  split; [by destruct c|]. unfold metrics_lines. destruct c; set_solver.
Qed.

(** ** Properties *)

(** The histogram is faithful.  After any sequence of observations the cumulative value rendered
    for each bucket is the number of observations at most that bound, the [+Inf] and [_count] values
    are the number of all of them; an observation above the last bound shows only there. *)
Theorem histogram_faithful (obs : list Z)
    (Hpos : Forall (λ x, 0 ≤ x) obs) (Hlen : Z.of_nat (length obs) ≤ U64_MAX) :
  let h := foldl observe LatencyHistogram_default obs in
  cumulate 0 (lh_buckets h) =
    (λ bound, Z.of_nat (count_if (λ x, x ≤ bound) obs)) <$> LATENCY_BUCKETS_US ∧
  lh_count h = Z.of_nat (length obs).
Proof.
  destruct (observe_all_buckets obs Hpos Hlen) as [Hb Hc]. cbv zeta. rewrite Hb. split; [|done].
  apply cumulate_tallies; [apply buckets_increasing| |done].
  clear -Hpos. induction Hpos as [|x obs Hx Hpos IH]; [done|].
  rewrite count_if_cons, decide_False by lia. done.
Qed.

(** ** Witnesses *)

Lemma histogram_faithful_witness :
  cumulate 0 (lh_buckets (foldl observe LatencyHistogram_default [3000; 80000; 50000000])) =
  [0; 1; 1; 1; 1; 2; 2; 2; 2; 2; 2; 2].
Proof.
  rewrite (proj1 (histogram_faithful [3000; 80000; 50000000]
    ltac:(repeat constructor; vm_compute; discriminate) ltac:(vm_compute; discriminate))).
  vm_compute. reflexivity.
Defined.
