(* ===== verification/Events.v ===== *)
(** * Events: per-tenant usage and audit events

    Models [runlet/src/events.rs]: the event envelope, the lossy sink over a bounded channel and the
    writer task that drains it.  The channel is third-party ([tokio::sync::mpsc]) and enters as the
    class [Mpsc]; an event's fresh id and time stamp are arguments.  Printing is a list of lines. *)

From S2P Require Import Prelude Json.
Local Open Scope Z_scope.

Definition EVENT_SCHEMA_VERSION : Z := 1.

Record CapabilityOps := {
  ops_db : Z; ops_mongo : Z; ops_http : Z; ops_mail : Z; ops_s3 : Z; ops_redis : Z; ops_amq : Z;
  ops_auth : Z }.
Record UsageBody := {
  ub_outcome : string; ub_exec_time_us : Z; ub_input_bytes : Z; ub_ops : CapabilityOps }.
Record AuditBody := {
  ab_decision : string; ab_reason : option string; ab_detail : option Value }.
Inductive EventBody := Usage (u : UsageBody) | Audit (a : AuditBody).

Record Event := {
  ev_version : Z; ev_id : string; ev_ts : Z;
  ev_tenant : option string; ev_user : option string; ev_plan : option string;
  ev_trace_id : string; ev_body : EventBody }.

(** [Event::new]; the id and the time come from the environment. *)
Definition Event_new (id : string) (ts : Z) (tenant user plan : option string) (trace_id : string)
    (body : EventBody) : Event :=
  {| ev_version := EVENT_SCHEMA_VERSION; ev_id := id; ev_ts := ts; ev_tenant := tenant;
     ev_user := user; ev_plan := plan; ev_trace_id := trace_id; ev_body := body |}.

(** [now_unix_millis]: zero before the epoch. *)
Definition now_unix_millis (since_epoch_ms : option Z) : Z := default 0 since_epoch_ms.

(** A bounded channel: [try_send] fails when it is full or the receiver is gone; [recv] takes the
    oldest event; [contents] are the events in it, oldest first. *)
Class Mpsc (Ch : Type) := {
  mpsc_channel : nat → Ch;
  mpsc_try_send : Ch → Event → option Ch;
  mpsc_recv : Ch → option (Event * Ch);
  mpsc_contents : Ch → list Event;
  mpsc_new n : mpsc_contents (mpsc_channel n) = [];
  mpsc_send_some c e c' : mpsc_try_send c e = Some c' → mpsc_contents c' = mpsc_contents c ++ [e];
  mpsc_recv_some c e c' : mpsc_recv c = Some (e, c') → mpsc_contents c = e :: mpsc_contents c';
  mpsc_recv_none c : mpsc_recv c = None → mpsc_contents c = []
}.

(** ** The sink and the writer *)

Record LogSink (Ch : Type) := { ls_tx : Ch; ls_dropped : Z }.
Arguments ls_tx {Ch} _. Arguments ls_dropped {Ch} _.

Section pipeline.
Context {Ch : Type} {mpsc : Mpsc Ch}.
(** [serde_json::to_string] of an event. *)
Context (event_json : Event → option string).

(** [LogSink::record]. *)
Definition sink_record (s : LogSink Ch) (event : Event) : LogSink Ch :=
  match mpsc_try_send (ls_tx s) event with
  | Some tx => {| ls_tx := tx; ls_dropped := ls_dropped s |}
  | None => {| ls_tx := ls_tx s; ls_dropped := fetch_add_u64 (ls_dropped s) 1 |}
  end.

(** [EventPipeline::spawn]: the channel holds at least one event. *)
Definition spawn (bound : nat) : LogSink Ch :=
  {| ls_tx := mpsc_channel (Nat.max bound 1); ls_dropped := 0 |}.

(** One round of [writer_loop]: a line per event that serializes. *)
Definition write_event (out : list string) (event : Event) : list string :=
  match event_json event with Some line => out ++ [line] | None => out end.

(** [writer_loop] once every sender is gone: it ends when the channel is empty. *)
Fixpoint writer_loop (fuel : nat) (tx : Ch) (received : list Event) (out : list string)
    : option (list Event * list string) :=
  match fuel with
  | O => None
  | S fuel =>
      match mpsc_recv tx with
      | Some (event, tx) => writer_loop fuel tx (received ++ [event]) (write_event out event)
      | None => Some (received, out)
      end
  end.

(** The pipeline as requests and the writer interleave. *)
Record Pipeline := {
  pl_sink : LogSink Ch;
  pl_recorded : list Event;    (* every event handed to the sink, in order *)
  pl_received : list Event;    (* those the writer has taken *)
  pl_out : list string         (* its output lines *)
}.

Inductive estep : Pipeline → Pipeline → Prop :=
| e_record p event :
    estep p {| pl_sink := sink_record (pl_sink p) event;
               pl_recorded := pl_recorded p ++ [event];
               pl_received := pl_received p; pl_out := pl_out p |}
| e_write p event tx :
    mpsc_recv (ls_tx (pl_sink p)) = Some (event, tx) →
    estep p {| pl_sink := {| ls_tx := tx; ls_dropped := ls_dropped (pl_sink p) |};
               pl_recorded := pl_recorded p;
               pl_received := pl_received p ++ [event];
               pl_out := write_event (pl_out p) event |}.

Inductive ereach (bound : nat) : Pipeline → Prop :=
| ereach_start : ereach bound {| pl_sink := spawn bound; pl_recorded := []; pl_received := [];
                                 pl_out := [] |}
| ereach_step p p' : ereach bound p → estep p p' → ereach bound p'.

(** ** Lemmas *)

(** What the sink accepted is what was received or is still queued. *)
Definition kept (p : Pipeline) : list Event :=
  pl_received p ++ mpsc_contents (ls_tx (pl_sink p)).

Definition pipeline_inv (p : Pipeline) : Prop :=
  sublist (kept p) (pl_recorded p) ∧
  ls_dropped (pl_sink p) =
    (Z.of_nat (length (pl_recorded p)) - Z.of_nat (length (kept p))) mod 2 ^ 64 ∧
  pl_out p = omap event_json (pl_received p).

Lemma estep_inv p p' : pipeline_inv p → estep p p' → pipeline_inv p'.
Proof.
  intros (Hsub & Hd & Ho) Hs. destruct Hs as [p event|p event tx Hr].
  - unfold pipeline_inv, kept in *. unfold sink_record.
    destruct (mpsc_try_send (ls_tx (pl_sink p)) event) as [tx|] eqn:Et; simpl.
    + apply mpsc_send_some in Et. rewrite Et, app_assoc. split_and!; [|rewrite Hd|done].
      * by apply sublist_app.
      * rewrite !length_app. simpl. f_equal. lia.
    + split_and!; [|rewrite Hd|done].
      * by apply sublist_inserts_r.
      * rewrite !length_app. simpl. unfold fetch_add_u64. rewrite Zplus_mod_idemp_l. f_equal. lia.
  - unfold pipeline_inv, kept in *. simpl. apply mpsc_recv_some in Hr. rewrite Hr in Hsub, Hd.
    rewrite <-app_assoc. simpl. split_and!; [done|done|].
    rewrite omap_app, <-Ho. unfold write_event. simpl. destruct (event_json event); [done|].
    by rewrite app_nil_r.
Qed.

(** [EventPipeline::shutdown]: the last sink is dropped, then the writer is awaited. *)
Definition pipeline_shutdown (p : Pipeline) : option (list Event * list string) :=
  let tx := ls_tx (pl_sink p) in
  writer_loop (S (length (mpsc_contents tx))) tx (pl_received p) (pl_out p).

Lemma writer_loop_drains tx received out :
  writer_loop (S (length (mpsc_contents tx))) tx received out =
  Some (received ++ mpsc_contents tx, foldl write_event out (mpsc_contents tx)).
Proof.
  remember (mpsc_contents tx) as l eqn:El. revert tx received out El.
  induction l as [|e l IH]; intros tx received out El; simpl.
  - destruct (mpsc_recv tx) as [[e tx']|] eqn:Er; [|by rewrite app_nil_r].
    apply mpsc_recv_some in Er. congruence.
  - destruct (mpsc_recv tx) as [[e' tx']|] eqn:Er.
    + apply mpsc_recv_some in Er. rewrite Er in El. injection El as <- ->.
      specialize (IH tx' (received ++ [e]) (write_event out e) eq_refl). simpl in IH. rewrite IH.
      by rewrite <-app_assoc.
    + apply mpsc_recv_none in Er. congruence.
Qed.
Lemma foldl_write_event out l : foldl write_event out l = out ++ omap event_json l.
Proof.
  revert out. induction l as [|e l IH]; intros out; simpl; [by rewrite app_nil_r|]. rewrite IH.
  unfold write_event. destruct (event_json e); simpl; [by rewrite <-app_assoc|done].
Qed.

(** ** Properties *)

(** A graceful stop loses no accepted event: the writer finishes, having received every event the sink
    took, in order, and printed a line for each that serializes. *)
Theorem events_flushed (bound : nat) (p : Pipeline) (Hrun : ereach bound p) :
  pipeline_shutdown p = Some (kept p, omap event_json (kept p)) ∧ sublist (kept p) (pl_recorded p).
Proof.
  assert (pipeline_inv p) as (Hsub & _ & Ho).
  { induction Hrun as [|p p' Hr IH Hs]; [|by eapply estep_inv].
    unfold pipeline_inv, kept. simpl. by rewrite mpsc_new. }
  split; [|done]. unfold pipeline_shutdown. rewrite writer_loop_drains, foldl_write_event, Ho.
  unfold kept. by rewrite omap_app.
Qed.

(** No event is lost unaccounted.  However recording requests and the writer interleave, the
    events written and still queued are those recorded, in order, less the dropped ones; the
    backpressure counter is exactly the number missing; and the output has one line per received
    event that serializes, in order. *)
Theorem events_accounted (bound : nat) (p : Pipeline) (Hrun : ereach bound p) :
  sublist (pl_received p ++ mpsc_contents (ls_tx (pl_sink p))) (pl_recorded p) ∧
  ls_dropped (pl_sink p) =
    (Z.of_nat (length (pl_recorded p)) -
     Z.of_nat (length (pl_received p ++ mpsc_contents (ls_tx (pl_sink p))))) mod 2 ^ 64 ∧
  pl_out p = omap event_json (pl_received p).
Proof.
  change (pipeline_inv p). induction Hrun as [|p p' Hr IH Hs]; [|by eapply estep_inv].
  unfold pipeline_inv, kept. simpl. by rewrite mpsc_new.
Qed.
End pipeline.
Arguments Pipeline : clear implicits.

(** ** Witnesses *)

Definition lc_send (c : nat * list Event) (e : Event) : option (nat * list Event) :=
  if decide (length c.2 < c.1)%nat then Some (c.1, c.2 ++ [e]) else None.
Definition lc_recv (c : nat * list Event) : option (Event * (nat * list Event)) :=
  match c.2 with [] => None | e :: rest => Some (e, (c.1, rest)) end.
#[local] Program Instance list_channel : Mpsc (nat * list Event) := {|
  mpsc_channel n := (n, []); mpsc_try_send := lc_send; mpsc_recv := lc_recv;
  mpsc_contents c := c.2 |}.
Next Obligation. done. Qed.
Next Obligation. intros [n l] e c'. unfold lc_send. case_decide; intros; by simplify_eq/=. Qed.
Next Obligation. intros [n [|x l]] e c'; unfold lc_recv; simpl; intros; by simplify_eq/=. Qed.
Next Obligation. by intros [n [|x l]]. Qed.

Definition demo_event (id : string) : Event :=
  Event_new id 0 (Some "acme") None None "trace"
    (Audit {| ab_decision := "allowed"; ab_reason := None; ab_detail := None |}).

(** A channel of one: the second event of a burst is dropped and counted. *)
Lemma demo_burst :
  ereach (λ e, Some (ev_id e)) 1
    {| pl_sink := {| ls_tx := (1%nat, [demo_event "a"]); ls_dropped := 1 |};
       pl_recorded := [demo_event "a"; demo_event "b"]; pl_received := []; pl_out := [] |}.
Proof.
  eapply ereach_step; [eapply ereach_step; [apply ereach_start|apply (e_record _ _ (demo_event "a"))]|].
  refine (e_record _ {| pl_sink := {| ls_tx := (1%nat, [demo_event "a"]); ls_dropped := 0 |};
    pl_recorded := [demo_event "a"]; pl_received := []; pl_out := [] |} (demo_event "b")).
Qed.

Lemma events_accounted_witness :
  ∃ p : Pipeline (nat * list Event),
    ereach (λ e, Some (ev_id e)) 1 p ∧
    sublist (pl_received p ++ mpsc_contents (ls_tx (pl_sink p))) (pl_recorded p).
Proof.
  eexists. split; [exact demo_burst|]. apply (events_accounted _ _ _ demo_burst).
Defined.

Lemma events_flushed_witness :
  ∃ p : Pipeline (nat * list Event),
    ereach (λ e, Some (ev_id e)) 1 p ∧ pipeline_shutdown (λ e, Some (ev_id e)) p = Some ([demo_event "a"], ["a"]).
Proof.
  eexists. split; [exact demo_burst|]. by rewrite (proj1 (events_flushed _ _ _ demo_burst)).
Defined.
