(* ===== verification/Bulkhead.v ===== *)
(** * Bulkhead: concurrent executions under the global permit

    Models how the bulkhead permit of [runlet/src/handler.rs] ([run_execute], from [admit] to
    [drop(permit)]) behaves when requests overlap.  The permit lives in the request's future while
    the execution runs in a [spawn_blocking] task, which dropping the future does not stop: a client
    that disconnects drops the future, hence the permit, and leaves the task running. *)

From S2P Require Import Prelude Partition.

(** A request is admitted or shed, its execution ends, its client leaves, an abandoned task ends. *)
Inductive BulkheadOp := BStart | BFinish | BDisconnect | BOrphanEnd.
#[export] Instance BulkheadOp_eq_dec : EqDecision BulkheadOp.
Proof. solve_decision. Defined.

Section bulkhead.
Context {Sem : Type} {sem : Semaphore Sem}.

(** The semaphore, the requests waiting on their task with the permit held, and the tasks whose
    request is gone. *)
Record BulkheadState := { bh_limiter : Sem; bh_held : nat; bh_orphans : nat }.

(** Blocking tasks running. *)
Definition executing (b : BulkheadState) : nat := bh_held b + bh_orphans b.

Inductive bstep : BulkheadState → BulkheadOp → BulkheadState → Prop :=
| b_start b limiter :
    sem_try_acquire (bh_limiter b) = Some limiter →
    bstep b BStart {| bh_limiter := limiter; bh_held := S (bh_held b); bh_orphans := bh_orphans b |}
| b_shed b : sem_try_acquire (bh_limiter b) = None → bstep b BStart b
| b_finish l h o :
    bstep {| bh_limiter := l; bh_held := S h; bh_orphans := o |} BFinish
          {| bh_limiter := sem_release l; bh_held := h; bh_orphans := o |}
| b_disconnect l h o :
    bstep {| bh_limiter := l; bh_held := S h; bh_orphans := o |} BDisconnect
          {| bh_limiter := sem_release l; bh_held := h; bh_orphans := S o |}
| b_orphan_end l h o :
    bstep {| bh_limiter := l; bh_held := h; bh_orphans := S o |} BOrphanEnd
          {| bh_limiter := l; bh_held := h; bh_orphans := o |}.

Inductive breach (capacity : nat) : list BulkheadOp → BulkheadState → Prop :=
| breach_start : breach capacity [] {| bh_limiter := sem_new capacity; bh_held := 0; bh_orphans := 0 |}
| breach_step ops b op b' :
    breach capacity ops b → bstep b op b' → breach capacity (ops ++ [op]) b'.

(** ** Lemmas *)

Lemma breach_balance capacity ops b :
  breach capacity ops b →
  available_permits (bh_limiter b) + bh_held b = capacity ∧
  bh_orphans b ≤ count_if (λ op, op = BDisconnect) ops.
Proof.
  induction 1 as [|ops b op b' Hr [IH1 IH2] Hs].
  { simpl. rewrite available_new. by rewrite count_if_nil, Nat.add_0_r. }
  rewrite count_if_app, count_if_cons, count_if_nil.
  destruct Hs as [b l Hl|b Hl|l h o|l h o|l h o]; simpl in *; rewrite ?available_release;
    repeat case_decide; try done; try lia.
  - apply available_some in Hl. lia.
Qed.

(** Starting one more execution whenever the previous client left. *)
Lemma disconnects_exceed n :
  ∃ ops b, breach 1 ops b ∧ executing b = n ∧ available_permits (bh_limiter b) = 1.
Proof.
  induction n as [|n (ops & [l h o] & Hr & He & Ha)].
  { exists [], {| bh_limiter := sem_new 1; bh_held := 0; bh_orphans := 0 |}.
    split; [constructor|]. split; [done|]. simpl. apply available_new. }
  pose proof (breach_balance _ _ _ Hr) as [Hb _]. simpl in *.
  assert (h = 0) as -> by lia.
  destruct (sem_try_acquire l) as [l1|] eqn:El; [|apply available_none in El; lia].
  exists ((ops ++ [BStart]) ++ [BDisconnect]),
    {| bh_limiter := sem_release l1; bh_held := 0; bh_orphans := S o |}.
  split; [|split].
  - eapply breach_step; [eapply breach_step; [exact Hr|by apply b_start]|]. apply b_disconnect.
  - unfold executing in *. simpl in *. lia.
  - simpl. rewrite available_release. apply available_some in El. lia.
Qed.
End bulkhead.
Arguments BulkheadState : clear implicits.

(** ** Properties *)

(** The bulkhead bounds the requests, not the tasks.  In every interleaving the requests holding
    the permit and the free permits add up to the capacity, and the blocking tasks running never
    exceed the capacity by more than the number of clients that disconnected during an execution;
    with no disconnection they never exceed it. *)
Theorem bulkhead_bound {Sem : Type} {sem : Semaphore Sem} (capacity : nat) (ops : list BulkheadOp)
    (b : BulkheadState Sem) (Hrun : breach capacity ops b) :
  bh_held b + available_permits (bh_limiter b) = capacity ∧
  executing b ≤ capacity + count_if (λ op, op = BDisconnect) ops ∧
  (BDisconnect ∉ ops → executing b ≤ capacity).
Proof.
  destruct (breach_balance _ _ _ Hrun) as [H1 H2]. unfold executing. split_and!; [lia|lia|].
  intros Hno. assert (count_if (λ op, op = BDisconnect) ops = 0) as H0; [|lia].
  clear -Hno. induction ops as [|op ops IH]; [done|]. rewrite count_if_cons, IH by set_solver.
  rewrite decide_False; [done|]. set_solver.
Qed.

(** ** Witnesses *)

#[local] Existing Instance nat_semaphore.

Lemma demo_bulkhead_run :
  breach 1 [BStart; BDisconnect; BStart] {| bh_limiter := 0; bh_held := 1; bh_orphans := 1 |}.
Proof.
  apply (breach_step _ [BStart; BDisconnect] {| bh_limiter := 1; bh_held := 0; bh_orphans := 1 |});
    [|by apply (b_start {| bh_limiter := 1; bh_held := 0; bh_orphans := 1 |})].
  apply (breach_step _ [BStart] {| bh_limiter := 0; bh_held := 1; bh_orphans := 0 |});
    [|exact (b_disconnect 0 0 0)].
  apply (breach_step _ [] {| bh_limiter := 1; bh_held := 0; bh_orphans := 0 |}); [constructor|].
  by apply (b_start {| bh_limiter := 1; bh_held := 0; bh_orphans := 0 |}).
Qed.

Lemma bulkhead_bound_witness :
  ∃ b : BulkheadState nat, breach 1 [BStart; BDisconnect; BStart] b ∧ executing b ≤ 2.
Proof.
  eexists. split; [exact demo_bulkhead_run|].
  apply (bulkhead_bound 1 [BStart; BDisconnect; BStart] _ demo_bulkhead_run).
Defined.
