(* ===== verification/Handler.v ===== *)
(** * Handler: the [/execute] request pipeline

    Models [runlet/src/handler.rs]: the gates a request passes (edge credential, trusted identity,
    body, member authorization, script resolution, input sizes, tenant quota), the egress session,
    the fairness and bulkhead permits, the execution, and the response with its counters and events.
    Every gate is a definition; [run_execute] composes them in the order of the code, returning what
    was taken on every path.  Trace ids, the clock and a task panic come from the environment.
    The egress is seen through the interface [EgressTransport], which [Sidecar] implements; the
    network of the engine's HTTP and S3 clients is part of the state. *)

From Stdlib Require Import Ascii.
From stdpp Require Import pretty.
From S2P Require Import Prelude Json Errors Wire Backends Fabricd Sidecar Identity Quota.
From S2P Require Import Partition Bytecode Ssrf Http S3 Sys EngineConfig Engine Registry Pool Host Metrics Events.
Local Open Scope Z_scope.

(** ** What the handler needs of the sidecar *)

Class EgressTransport (Transport Session : Type) := {
  et_connect : Transport → WireInit → result Session SessionError * Transport;
  et_call : string → string → string → Session → result string EgressError * Session;
  et_drain : Session → BackendMetrics * Session
}.

(** The sidecar client, with calls that end within the deadline, implements it. *)
Definition sidecar_transport {QConn : Type} `{!Codec WireRequest} `{!Codec WireResponse}
    (uds_connect : string → result SessionConn IoError)
    (quic_open : QuicClient QConn → result SessionConn IoError * QuicClient QConn)
    (read_file : string → result string IoError)
    : EgressTransport (SidecarTransport QConn) SessionConn := {|
  et_connect := connect_session uds_connect quic_open read_file;
  et_call name action payload s := sidecar_call s Finished name action payload;
  et_drain := sidecar_drain |}.

(** ** Requests *)

Record RequestIo := {
  io_db : list string; io_mongo : list string; io_mail : list string; io_redis : list string;
  io_amq : list string; io_auth : list string }.
Record RequestConfig := {
  rq_allowed_hosts : list string; rq_s3 : option S3Config; rq_sys : option SysConfig;
  rq_io : RequestIo }.
Record ExecRequest := {
  rq_script : option string; rq_key : option string; rq_partition : option string;
  rq_context : string; rq_config : RequestConfig }.

Record CapabilityGates := {
  g_db : Gate; g_mongo : Gate; g_mail : Gate; g_redis : Gate; g_amq : Gate; g_auth : Gate }.

Definition is_nil {A} (l : list A) : bool := match l with [] => true | _ => false end.

(** [RequestIo::any], [gates] and [wire_init]. *)
Definition io_any (io : RequestIo) : bool :=
  existsb (λ names, negb (is_nil names))
    [io_db io; io_mongo io; io_mail io; io_redis io; io_amq io; io_auth io].
Definition io_gates (io : RequestIo) : CapabilityGates :=
  {| g_db := from_enabled (negb (is_nil (io_db io)));
     g_mongo := from_enabled (negb (is_nil (io_mongo io)));
     g_mail := from_enabled (negb (is_nil (io_mail io)));
     g_redis := from_enabled (negb (is_nil (io_redis io)));
     g_amq := from_enabled (negb (is_nil (io_amq io)));
     g_auth := from_enabled (negb (is_nil (io_auth io))) |}.
Definition wire_init (io : RequestIo) (timeout_ms : Z) (tenant : option string) : WireInit :=
  {| wi_db := head (io_db io); wi_mongo := head (io_mongo io); wi_mail := head (io_mail io);
     wi_redis := head (io_redis io); wi_amq := head (io_amq io); wi_auth := head (io_auth io);
     wi_timeout_ms := to_u64_or_max timeout_ms; wi_tenant := tenant; wi_token := None |}.

(** [requested_capabilities]. *)
Definition requested_capabilities (config : RequestConfig) : list string :=
  let io := rq_io config in
  (if is_nil (io_db io) then [] else ["db"]) ++
  (if is_nil (io_mongo io) then [] else ["mongo"]) ++
  (if is_nil (io_mail io) then [] else ["mail"]) ++
  (if is_nil (io_redis io) then [] else ["redis"]) ++
  (if is_nil (io_amq io) then [] else ["amq"]) ++
  (if is_nil (io_auth io) then [] else ["auth"]) ++
  (if is_nil (rq_allowed_hosts config) then [] else ["http"]) ++
  match rq_s3 config with Some _ => ["s3"] | None => [] end.

(** ** Responses *)

Record Meta := {
  mt_trace_id : string; mt_key : option string; mt_partition : option string;
  mt_script_bytes : Z; mt_context_bytes : Z; mt_total_input_bytes : Z; mt_exec_time_us : Z;
  mt_backend : BackendMetrics; mt_http_requests : list HttpMetric; mt_s3_requests : list S3Metric }.
Definition Meta_new (trace_id : string) (script_bytes context_bytes exec_time_us : Z) : Meta :=
  {| mt_trace_id := trace_id; mt_key := None; mt_partition := None;
     mt_script_bytes := script_bytes; mt_context_bytes := context_bytes;
     mt_total_input_bytes := sat_add_u64 script_bytes context_bytes;
     mt_exec_time_us := exec_time_us; mt_backend := BackendMetrics_default;
     mt_http_requests := []; mt_s3_requests := [] |}.
Definition with_key (m : Meta) (key : option string) : Meta :=
  {| mt_trace_id := mt_trace_id m; mt_key := key; mt_partition := mt_partition m;
     mt_script_bytes := mt_script_bytes m; mt_context_bytes := mt_context_bytes m;
     mt_total_input_bytes := mt_total_input_bytes m; mt_exec_time_us := mt_exec_time_us m;
     mt_backend := mt_backend m; mt_http_requests := mt_http_requests m;
     mt_s3_requests := mt_s3_requests m |}.
Definition with_partition (m : Meta) (partition : option string) : Meta :=
  {| mt_trace_id := mt_trace_id m; mt_key := mt_key m; mt_partition := partition;
     mt_script_bytes := mt_script_bytes m; mt_context_bytes := mt_context_bytes m;
     mt_total_input_bytes := mt_total_input_bytes m; mt_exec_time_us := mt_exec_time_us m;
     mt_backend := mt_backend m; mt_http_requests := mt_http_requests m;
     mt_s3_requests := mt_s3_requests m |}.
(** [with_metrics]: the engine's families and the driver-backed ones. *)
Definition with_metrics (m : Meta) (metrics : ExecMetrics) (backend : BackendMetrics) : Meta :=
  {| mt_trace_id := mt_trace_id m; mt_key := mt_key m; mt_partition := mt_partition m;
     mt_script_bytes := mt_script_bytes m; mt_context_bytes := mt_context_bytes m;
     mt_total_input_bytes := mt_total_input_bytes m; mt_exec_time_us := mt_exec_time_us m;
     mt_backend := backend; mt_http_requests := xm_http metrics; mt_s3_requests := xm_s3 metrics |}.

(** The two body shapes: the script's own data and error, or a system error with null data. *)
Inductive ResponseBody := BodyPassthrough (data error : Value) | BodySystemError (error : ErrorEnvelope).
Record Response := { resp_status : Z; resp_body : ResponseBody; resp_meta : Meta }.

(** [system_error_response]: a status outside 100..999 becomes 500. *)
Definition system_error_response (error : ErrorEnvelope) (status : Z) (meta : Meta) : Response :=
  {| resp_status := if decide (100 ≤ status < 1000) then status else 500;
     resp_body := BodySystemError error; resp_meta := meta |}.

Definition request_error (code message : string) : ErrorEnvelope :=
  with_message (ErrorEnvelope_new CatRequest SrcRequest code false Caller) message.

Definition engine_error_response (err : EngineError) (meta : Meta) (error_debug : bool) : Response :=
  system_error_response (into_envelope err error_debug) (http_status err) meta.

(** The derived deserializer of [Envelope]: both fields default to null. *)
Definition de_envelope (v : Value) : option (Value * Value) :=
  match v with
  | VObject l =>
      d ← field "data" l; e ← field "error" l; Some (default VNull d, default VNull e)
  | VArray [] => Some (VNull, VNull)
  | VArray [d] => Some (d, VNull)
  | VArray [d; e] => Some (d, e)
  | _ => None
  end.

Definition success_response `{!JsonText} (js_json : string) (meta : Meta) (error_debug : bool)
    : Response :=
  match from_str de_envelope js_json with
  | Ok (data, error) =>
      {| resp_status := 200; resp_body := BodyPassthrough data error; resp_meta := meta |}
  | Err parse_err =>
      engine_error_response (Malformed ("malformed handler response: " +:+ parse_err)) meta error_debug
  end.

Definition session_error_response (err : SessionError) (meta : Meta) : Response :=
  match err with
  | Resolve code message => system_error_response (request_error code message) 400 meta
  | Unavailable message =>
      system_error_response
        (with_message (ErrorEnvelope_new CatRuntime SrcEngine "EGRESS_UNAVAILABLE" true Operator)
           message) 503 meta
  | Protocol _ =>
      system_error_response
        (with_message (ErrorEnvelope_new CatRuntime SrcEngine "EGRESS_PROTOCOL" false Operator)
           "egress protocol error") 500 meta
  end.

Definition overloaded_response (meta : Meta) : Response :=
  system_error_response
    (with_message (ErrorEnvelope_new CatRuntime SrcEngine "OVERLOADED" true Operator)
       "server at capacity, retry shortly") 429 meta.
Definition partition_overloaded_response (meta : Meta) : Response :=
  system_error_response
    (with_message (ErrorEnvelope_new CatRuntime SrcEngine "PARTITION_OVERLOADED" true Caller)
       "partition concurrency limit reached, retry shortly") 429 meta.
Definition quota_exceeded_response (exceeded : QuotaExceeded) (meta : Meta) : Response :=
  system_error_response
    (with_message (ErrorEnvelope_new CatRuntime SrcEngine "QUOTA_EXCEEDED" true Caller)
       ("tenant quota exceeded for plan `" +:+ qe_plan exceeded +:+ "`: " +:+
        pretty (qe_usage exceeded) +:+ " in-flight at limit " +:+ pretty (qe_limit exceeded)))
    429 meta.
Definition unauthorized_response (fresh_id : string) : Response :=
  system_error_response (request_error "UNAUTHORIZED" "missing or invalid bearer token") 401
    (Meta_new fresh_id 0 0 0).
Definition identity_rejected (trace_id code message : string) : Response :=
  system_error_response (request_error code message) 403 (Meta_new trace_id 0 0 0).
Definition malformed_request_response (error_debug : bool) (fresh_id rejection_text : string)
    : Response :=
  let base := request_error "MALFORMED_REQUEST" "request body is not valid for /execute" in
  let envelope := if error_debug
                  then with_debug base {| dbg_stack := None; dbg_raw := Some rejection_text |}
                  else base in
  system_error_response envelope 400 (Meta_new fresh_id 0 0 0).

Definition base_error_meta (trace_id : string) (script_bytes context_bytes : Z)
    (key partition : option string) : Meta :=
  with_partition (with_key (Meta_new trace_id script_bytes context_bytes 0) key) partition.

(** ** Shared state *)

Record TrustedRuntime := {
  tr_headers : TrustedHeaders;
  tr_capability_entitlements : gmap string string;
  tr_quota : option TenantQuota }.

(** An event as handed to the sink: the arguments of [Event::new]. *)
Record Emitted := {
  em_tenant : option string; em_user : option string; em_plan : option string;
  em_trace_id : string; em_body : EventBody }.

(** [as_events] is what the sink has been handed, when event emission is on; [as_net] is the state
    of the network the HTTP and S3 clients of the engine talk to. *)
Record AppState (Q Cache Sem Transport Net : Type) := {
  as_host : LogicHost Q Cache;
  as_registry : ScriptRegistry;
  as_engine_cfg : EngineConfig;
  as_error_debug : bool;
  as_limiter : Sem;
  as_partition_limiter : option (PartitionLimiter Sem);
  as_transport : Transport;
  as_metrics : Metrics;
  as_access_token : option string;
  as_trusted : option TrustedRuntime;
  as_events : option (list Emitted);
  as_net : Net
}.
Arguments as_host {Q Cache Sem Transport Net} _. Arguments as_registry {Q Cache Sem Transport Net} _.
Arguments as_engine_cfg {Q Cache Sem Transport Net} _. Arguments as_error_debug {Q Cache Sem Transport Net} _.
Arguments as_limiter {Q Cache Sem Transport Net} _.
Arguments as_partition_limiter {Q Cache Sem Transport Net} _.
Arguments as_transport {Q Cache Sem Transport Net} _. Arguments as_metrics {Q Cache Sem Transport Net} _.
Arguments as_access_token {Q Cache Sem Transport Net} _. Arguments as_trusted {Q Cache Sem Transport Net} _.
Arguments as_events {Q Cache Sem Transport Net} _. Arguments as_net {Q Cache Sem Transport Net} _.

Section updates.
Context {Q Cache Sem Transport Net : Type}.
Implicit Types s : AppState Q Cache Sem Transport Net.

Definition set_metrics s (f : Metrics → Metrics) : AppState Q Cache Sem Transport Net :=
  {| as_host := as_host s; as_registry := as_registry s; as_engine_cfg := as_engine_cfg s;
     as_error_debug := as_error_debug s; as_limiter := as_limiter s;
     as_partition_limiter := as_partition_limiter s; as_transport := as_transport s;
     as_metrics := f (as_metrics s); as_access_token := as_access_token s;
     as_trusted := as_trusted s; as_events := as_events s; as_net := as_net s |}.
Definition set_events s (l : option (list Emitted)) : AppState Q Cache Sem Transport Net :=
  {| as_host := as_host s; as_registry := as_registry s; as_engine_cfg := as_engine_cfg s;
     as_error_debug := as_error_debug s; as_limiter := as_limiter s;
     as_partition_limiter := as_partition_limiter s; as_transport := as_transport s;
     as_metrics := as_metrics s; as_access_token := as_access_token s;
     as_trusted := as_trusted s; as_events := l; as_net := as_net s |}.
Definition set_trusted s (t : option TrustedRuntime) : AppState Q Cache Sem Transport Net :=
  {| as_host := as_host s; as_registry := as_registry s; as_engine_cfg := as_engine_cfg s;
     as_error_debug := as_error_debug s; as_limiter := as_limiter s;
     as_partition_limiter := as_partition_limiter s; as_transport := as_transport s;
     as_metrics := as_metrics s; as_access_token := as_access_token s;
     as_trusted := t; as_events := as_events s; as_net := as_net s |}.
Definition set_permits s (limiter : Sem) (parts : option (PartitionLimiter Sem))
    : AppState Q Cache Sem Transport Net :=
  {| as_host := as_host s; as_registry := as_registry s; as_engine_cfg := as_engine_cfg s;
     as_error_debug := as_error_debug s; as_limiter := limiter;
     as_partition_limiter := parts; as_transport := as_transport s;
     as_metrics := as_metrics s; as_access_token := as_access_token s;
     as_trusted := as_trusted s; as_events := as_events s; as_net := as_net s |}.
Definition set_host_net s (h : LogicHost Q Cache) (n : Net) : AppState Q Cache Sem Transport Net :=
  {| as_host := h; as_registry := as_registry s; as_engine_cfg := as_engine_cfg s;
     as_error_debug := as_error_debug s; as_limiter := as_limiter s;
     as_partition_limiter := as_partition_limiter s; as_transport := as_transport s;
     as_metrics := as_metrics s; as_access_token := as_access_token s;
     as_trusted := as_trusted s; as_events := as_events s; as_net := n |}.
Definition set_transport s (t : Transport) : AppState Q Cache Sem Transport Net :=
  {| as_host := as_host s; as_registry := as_registry s; as_engine_cfg := as_engine_cfg s;
     as_error_debug := as_error_debug s; as_limiter := as_limiter s;
     as_partition_limiter := as_partition_limiter s; as_transport := t;
     as_metrics := as_metrics s; as_access_token := as_access_token s;
     as_trusted := as_trusted s; as_events := as_events s; as_net := as_net s |}.
End updates.

(** ** Events *)

(** [identity_fields]. *)
Definition identity_fields (identity : option TrustedIdentity)
    : option string * option string * option string :=
  match identity with
  | None => (None, None, None)
  | Some id => (ti_tenant id, ti_user id, ti_plan id)
  end.

Definition emitted (identity : option TrustedIdentity) (trace_id : string) (body : EventBody) : Emitted :=
  let '(tenant, user, plan) := identity_fields identity in
  {| em_tenant := tenant; em_user := user; em_plan := plan; em_trace_id := trace_id; em_body := body |}.

Definition denied_audit (reason : string) (detail : option Value) : EventBody :=
  Audit {| ab_decision := "denied"; ab_reason := Some reason; ab_detail := detail |}.
Definition allowed_audit : EventBody :=
  Audit {| ab_decision := "allowed"; ab_reason := None; ab_detail := None |}.

(** The usage record of an execution. *)
Definition usage_of (meta : Meta) (outcome : string) : EventBody :=
  let b := mt_backend meta in
  Usage {| ub_outcome := outcome; ub_exec_time_us := mt_exec_time_us meta;
           ub_input_bytes := mt_total_input_bytes meta;
           ub_ops := {| ops_db := Z.of_nat (length (bm_db b)); ops_mongo := Z.of_nat (length (bm_mongo b));
                        ops_http := Z.of_nat (length (mt_http_requests meta));
                        ops_mail := Z.of_nat (length (bm_mail b));
                        ops_s3 := Z.of_nat (length (mt_s3_requests meta));
                        ops_redis := Z.of_nat (length (bm_redis b));
                        ops_amq := Z.of_nat (length (bm_amq b));
                        ops_auth := Z.of_nat (length (bm_auth b)) |} |}.

(** [engine_error_outcome]. *)
Definition engine_error_outcome (err : EngineError) : string :=
  match err with
  | Syntax _ | ScriptNotFound _ | ModuleNotFound _ | HandlerNotDefined | Script _ _ => "script_error"
  | Engine.Capability _ => "capability_error"
  | Timeout _ => "timeout"
  | MemoryLimit => "memory_limit"
  | Malformed _ | OutputTooLarge _ _ => "malformed_response"
  | Internal _ | ShuttingDown => "internal_error"
  end.

(** How the blocking task of an execution ended: it returned, or it panicked with a join error,
    leaving the host and the network in some state. *)
Inductive TaskEnd (Host Net : Type) :=
  TaskReturned | TaskPanicked (join_err : string) (host : Host) (n : Net).
Arguments TaskReturned {Host Net}. Arguments TaskPanicked {Host Net} join_err host n.

(** What a request draws from its environment: its trace id, a fresh one, the measured time of its
    execution, and how its task ends. *)
Record RequestEnv (Host Net : Type) := {
  re_trace_id : string; re_fresh_id : string; re_exec_time_us : Z; re_task : TaskEnd Host Net }.
Arguments re_trace_id {Host Net} _. Arguments re_fresh_id {Host Net} _.
Arguments re_exec_time_us {Host Net} _. Arguments re_task {Host Net} _.

(** A request past the gates that need no shared resource. *)
Record Prepared := {
  pr_identity : option TrustedIdentity; pr_tenant : option string; pr_partition : option string;
  pr_source : string; pr_key : option string; pr_context : string; pr_config : RequestConfig;
  pr_script_bytes : Z; pr_context_bytes : Z }.

Section pipeline.
Context {jt : JsonText} {ct : ConstantTimeEq} {H V : Type} {hdrs : Headers H V}.
Context {hasher : StdHasher} {Sem : Type} {sem : Semaphore Sem}.
Context {Cache : Type} {moka : Moka Cache (list ascii)} {sha : Sha256}.
Context {Ctx Fn JsVal Mod : Type} {compiler : ModuleCompiler Mod Caught}
  {js : QuickJs Ctx Fn JsVal Mod}.
Context {Q R : Type} {aq : ArrayQueue Q R} (create_runtime : result R string).
Context {Transport Session : Type} {et : EgressTransport Transport Session}.
Context {Net : Type} {net : NetLib Net}.
Local Abbreviation State := (AppState Q Cache Sem Transport Net).
Local Abbreviation Env := (RequestEnv (LogicHost Q Cache) Net).
Implicit Types (s : State) (headers : H).

Definition emit s (identity : option TrustedIdentity) (trace_id : string) (bodies : list EventBody)
    : State :=
  set_events s ((λ l, l ++ (emitted identity trace_id <$> bodies)) <$> as_events s).

(** [emit_denied] and [emit_executed]. *)
Definition emit_denied s (identity : option TrustedIdentity) (trace_id reason : string)
    (detail : option Value) : State := emit s identity trace_id [denied_audit reason detail].
Definition emit_executed s (identity : option TrustedIdentity) (meta : Meta) (outcome : string)
    : State := emit s identity (mt_trace_id meta) [usage_of meta outcome; allowed_audit].

(** ** The gates *)

(** [request_authorized] and [enforce_auth]. *)
Definition request_authorized headers (expected : string) : bool :=
  match hm_get headers "authorization" ≫= hv_to_str with
  | None => false
  | Some value =>
      match match strip_prefix "Bearer " value with
            | Some t => Some t
            | None => strip_prefix "bearer " value
            end with
      | None => false
      | Some token => ct_eq (bytes_of (trim token)) (bytes_of expected)
      end
  end.
Definition enforce_auth s headers (fresh_id : string) : option Response * State :=
  match as_access_token s with
  | None => (None, s)
  | Some expected =>
      if request_authorized headers expected then (None, s)
      else (Some (unauthorized_response fresh_id), set_metrics s record_rejection)
  end.

(** The rejection of [resolve_identity] for an identity, if any. *)
Definition identity_rejection (identity : TrustedIdentity) : option (string * string) :=
  if ti_anonymous identity then
    Some ("ANONYMOUS_FORBIDDEN", "anonymous callers may not execute code")
  else if ti_suspended identity then
    Some ("SUSPENDED_FORBIDDEN", "a suspended principal may not execute code")
  else if decide (ti_tenant identity = None) then
    Some ("TENANT_REQUIRED", "trusted-header mode requires a tenant identity")
  else if decide (ti_scope identity = Some "acting") then None
  else Some ("ACTING_SCOPE_REQUIRED",
             "trusted-header mode requires the edge to assert acting-org scope").

(** [resolve_identity]. *)
Definition resolve_identity s headers (trace_id : string)
    : result (option TrustedIdentity) Response * State :=
  match as_trusted s with
  | None => (Ok None, s)
  | Some trusted =>
      let identity := from_headers headers (tr_headers trusted) in
      match identity_rejection identity with
      | Some (code, message) =>
          (Err (identity_rejected trace_id code message),
           emit_denied s (Some identity) trace_id code None)
      | None => (Ok (Some identity), s)
      end
  end.

(** [header_partition] and [resolve_partition]. *)
Definition header_partition headers : option string := header_value headers "x-partition-key".
Definition resolve_partition (identity : option TrustedIdentity) (caller_asserted : option string)
    : option string :=
  match identity with Some id => ti_tenant id | None => caller_asserted end.

(** [enforce_member_authz]. *)
Definition enforce_member_authz s (identity : option TrustedIdentity) (config : RequestConfig)
    (trace_id : string) : option Response * State :=
  match as_trusted s, identity with
  | Some trusted, Some id =>
      match authorize_capabilities (tr_capability_entitlements trusted)
              (requested_capabilities config) id with
      | Ok _ => (None, s)
      | Err denied =>
          (Some (system_error_response
             (request_error "ENTITLEMENT_REQUIRED"
                ("capability `" +:+ cd_capability denied +:+ "` requires entitlement `" +:+
                 cd_required denied +:+ "`")) 403 (Meta_new trace_id 0 0 0)),
           emit_denied s identity trace_id "ENTITLEMENT_REQUIRED"
             (Some (VObject [("capability", VString (cd_capability denied));
                             ("required", VString (cd_required denied))])))
      end
  | _, _ => (None, s)
  end.

(** [resolve_script]. *)
Definition resolve_script (script key : option string) (registry : ScriptRegistry)
    : result string (Z * ErrorEnvelope) :=
  match script, key with
  | Some source, None => Ok source
  | None, Some requested =>
      ok_or (registry_get registry requested)
        (404, request_error "SCRIPT_NOT_FOUND"
                ("no registered script for key `" +:+ requested +:+ "`"))
  | Some _, Some _ | None, None =>
      Err (400, request_error "SCRIPT_XOR_KEY"
                  "request must include exactly one of `script` or `key`")
  end.

(** [enforce_quota]: the guard to hold, or the over-limit response. *)
Definition enforce_quota s (identity : option TrustedIdentity) (trace_id : string) (meta : Meta)
    : result (option QuotaGuard) Response * State :=
  match as_trusted s, identity with
  | Some trusted, Some id =>
      match tr_quota trusted, ti_tenant id with
      | Some quota, Some tenant =>
          match quota_admit quota tenant (ti_plan id) with
          | (Ok guard, quota1) =>
              (Ok (Some guard),
               set_trusted s (Some {| tr_headers := tr_headers trusted;
                 tr_capability_entitlements := tr_capability_entitlements trusted;
                 tr_quota := Some quota1 |}))
          | (Err exceeded, _) =>
              (Err (quota_exceeded_response exceeded meta),
               emit_denied s identity trace_id "QUOTA_EXCEEDED"
                 (Some (VObject [("limit", VNumber (pretty (qe_limit exceeded)));
                                 ("plan", VString (qe_plan exceeded));
                                 ("usage", VNumber (pretty (qe_usage exceeded)))])))
          end
      | _, _ => (Ok None, s)
      end
  | _, _ => (Ok None, s)
  end.

(** The guard going out of scope. *)
Definition drop_quota (guard : option QuotaGuard) s : State :=
  match guard, as_trusted s with
  | Some g, Some trusted =>
      set_trusted s (Some {| tr_headers := tr_headers trusted;
        tr_capability_entitlements := tr_capability_entitlements trusted;
        tr_quota := guard_drop g <$> tr_quota trusted |})
  | _, _ => s
  end.

(** ** Permits *)

Inductive Admission := Granted (partition_permit : option Permit) | PartitionBusy | GlobalBusy.

(** [acquire_permits]; a partition permit already taken is returned when the bulkhead is full. *)
Definition acquire_permits s (partition : option string) : Admission * State :=
  match match as_partition_limiter s, partition with
        | Some limiter, Some id =>
            match try_acquire limiter id with
            | None => None
            | Some (permit, limiter1) => Some (Some permit, Some limiter1)
            end
        | parts, _ => Some (None, parts)
        end with
  | None => (PartitionBusy, s)
  | Some (partition_permit, parts) =>
      match sem_try_acquire (as_limiter s) with
      | Some limiter1 => (Granted partition_permit, set_permits s limiter1 parts)
      | None => (GlobalBusy, set_permits s (as_limiter s)
                   (match partition_permit with
                    | Some p => permit_drop p <$> parts | None => parts end))
      end
  end.

(** [drop(permit); drop(partition_permit)]. *)
Definition drop_permits (partition_permit : option Permit) s : State :=
  set_permits s (sem_release (as_limiter s))
    (match partition_permit with
     | Some p => permit_drop p <$> as_partition_limiter s
     | None => as_partition_limiter s
     end).

(** The handler's [admit]: the permits, or the 429 response. *)
Definition admit_request s (partition : option string) (busy_meta : Meta)
    : result (option Permit) Response * State :=
  match acquire_permits s partition with
  | (Granted p, s1) => (Ok p, s1)
  | (PartitionBusy, s1) =>
      (Err (partition_overloaded_response busy_meta), set_metrics s1 record_overload_partition)
  | (GlobalBusy, s1) => (Err (overloaded_response busy_meta), set_metrics s1 record_overload_global)
  end.

(** ** The pipeline *)

(** [run_execute] up to the resolved, size-checked script: the gates that hold nothing. *)
Definition front (env : Env) s headers (payload : result ExecRequest string)
    : result Prepared Response * State :=
  let trace_id := re_trace_id env in
  match enforce_auth s headers (re_fresh_id env) with
  | (Some rejected, s1) => (Err rejected, s1)
  | (None, s1) =>
  match resolve_identity s1 headers trace_id with
  | (Err rejected, s2) => (Err rejected, set_metrics s2 record_rejection)
  | (Ok identity, s2) =>
  match payload with
  | Err rejection =>
      (Err (malformed_request_response (as_error_debug s2) (re_fresh_id env) rejection),
       emit_denied (set_metrics s2 record_rejection) identity trace_id "MALFORMED_REQUEST" None)
  | Ok req =>
  let caller_asserted := match header_partition headers with
                         | Some p => Some p | None => rq_partition req end in
  let partition := resolve_partition identity caller_asserted in
  let context_bytes := str_len (rq_context req) in
  match enforce_member_authz s2 identity (rq_config req) trace_id with
  | (Some rejected, s3) => (Err rejected, set_metrics s3 record_rejection)
  | (None, s3) =>
  match resolve_script (rq_script req) (rq_key req) (as_registry s3) with
  | Err (status, envelope) =>
      (Err (system_error_response envelope status
              (with_partition (with_key (Meta_new trace_id 0 context_bytes 0) (rq_key req)) partition)),
       emit_denied (set_metrics s3 record_rejection) identity trace_id "SCRIPT_NOT_FOUND" None)
  | Ok source =>
  let script_bytes := str_len source in
  match validate_input_sizes script_bytes context_bytes (max_script_size (as_engine_cfg s3))
          (max_context_size (as_engine_cfg s3)) with
  | Err (code, message) =>
      (Err (system_error_response (request_error code message) 400
              (with_partition (with_key (Meta_new trace_id script_bytes context_bytes 0) (rq_key req))
                 partition)),
       emit_denied (set_metrics s3 record_rejection) identity trace_id "INPUT_TOO_LARGE" None)
  | Ok _ =>
      (Ok {| pr_identity := identity; pr_tenant := identity ≫= ti_tenant; pr_partition := partition;
             pr_source := source; pr_key := rq_key req; pr_context := rq_context req;
             pr_config := rq_config req; pr_script_bytes := script_bytes;
             pr_context_bytes := context_bytes |}, s3)
  end end end end end end.

(** The egress session of a request, opened when a driver capability is named. *)
Definition open_egress s (pr : Prepared) : result (option Session) SessionError * State :=
  if io_any (rq_io (pr_config pr)) then
    let init := wire_init (rq_io (pr_config pr)) (timeout_ms (as_engine_cfg s)) (pr_tenant pr) in
    match et_connect (as_transport s) init with
    | (Ok conn, t1) => (Ok (Some conn), set_transport s t1)
    | (Err err, t1) => (Err err, set_transport s t1)
    end
  else (Ok None, s).

(** The egress port over the session, and the invocation of the blocking task. *)
Definition session_egress (name action payload : string) (w : option Session)
    : result string EgressError * option Session :=
  match w with
  | Some session => let '(r, session1) := et_call name action payload session in (r, Some session1)
  | None => (Err (EgressError_new "engine" "IO_UNKNOWN" "no session"), None)
  end.
Definition invocation (pr : Prepared) (session : option Session) : Invocation (option Session) :=
  let gates := io_gates (rq_io (pr_config pr)) in
  {| inv_code := Inline (pr_source pr); inv_context_json := pr_context pr; inv_profile := Full;
     inv_caps := {| cs_allowed_hosts := rq_allowed_hosts (pr_config pr); cs_db := g_db gates;
                    cs_mongo := g_mongo gates; cs_mail := g_mail gates; cs_s3 := rq_s3 (pr_config pr);
                    cs_redis := g_redis gates; cs_amq := g_amq gates; cs_auth := g_auth gates;
                    cs_sys := rq_sys (pr_config pr) |};
     inv_read_hook := None;
     inv_egress := match session with Some _ => Some session_egress | None => None end;
     inv_cache_namespace := pr_partition pr |}.

(** The [spawn_blocking] task: run, then drain the session. *)
Definition run_task (env : Env) s (pr : Prepared) (session : option Session)
    : result (result Outcome EngineError * BackendMetrics) string * State :=
  match re_task env with
  | TaskPanicked join_err h n => (Err join_err, set_host_net s h n)
  | TaskReturned =>
      let '(outcome, h1, (w1, n1)) :=
        host_run create_runtime (as_host s) (invocation pr session) (session, as_net s) in
      (Ok (outcome, match w1 with Some sess => (et_drain sess).1 | None => BackendMetrics_default end),
       set_host_net s h1 n1)
  end.

(** [record_capability_latencies]. *)
Definition record_capability_latencies (exec : ExecMetrics) (b : BackendMetrics) (m : Metrics) : Metrics :=
  let m := foldl (λ m x, observe_op CapDb (dbm_duration_us x) m) m (bm_db b) in
  let m := foldl (λ m x, observe_op CapMongo (mgm_duration_us x) m) m (bm_mongo b) in
  let m := foldl (λ m x, observe_op CapHttp (hm_duration_us x) m) m (xm_http exec) in
  let m := foldl (λ m x, observe_op CapMail (mlm_duration_us x) m) m (bm_mail b) in
  let m := foldl (λ m x, observe_op CapS3 (sm_duration_us x) m) m (xm_s3 exec) in
  let m := foldl (λ m x, observe_op CapRedis (rdm_duration_us x) m) m (bm_redis b) in
  let m := foldl (λ m x, observe_op CapAmq (aqm_duration_us x) m) m (bm_amq b) in
  foldl (λ m x, observe_op CapAuth (atm_duration_us x) m) m (bm_auth b).

(** The engine-error branches of [build_response]. *)
Definition respond_error s (identity : option TrustedIdentity) (meta : Meta) (err : EngineError)
    : Response * State :=
  (engine_error_response err meta (as_error_debug s),
   set_metrics (emit_executed s identity meta (engine_error_outcome err)) (record_engine_error err)).

(** [build_response]. *)
Definition build_response s (task : result (result Outcome EngineError * BackendMetrics) string)
    (base_meta : Meta) (identity : option TrustedIdentity) : Response * State :=
  let s := set_metrics s (observe_execution (mt_exec_time_us base_meta)) in
  match task with
  | Ok (Ok exec, backend) =>
      let s := set_metrics s (record_capability_latencies (out_metrics exec) backend) in
      let meta := with_metrics base_meta (out_metrics exec) backend in
      match out_result exec with
      | Success js_json =>
          (success_response js_json meta (as_error_debug s),
           set_metrics (emit_executed s identity meta "success") record_success)
      | Error err => respond_error s identity meta err
      end
  | Ok (Err err, _) => respond_error s identity base_meta err
  | Err join_err => respond_error s identity base_meta (Internal ("task panicked: " +:+ join_err))
  end.

(** The zero-timing [Meta] of the early returns. *)
Definition error_meta (env : Env) (pr : Prepared) : Meta :=
  base_error_meta (re_trace_id env) (pr_script_bytes pr) (pr_context_bytes pr) (pr_key pr)
    (pr_partition pr).

(** [run_execute] from admission on: permits, execution, permits back, response. *)
Definition run_admitted (env : Env) s (pr : Prepared) (session : option Session) : Response * State :=
  match admit_request s (pr_partition pr) (error_meta env pr) with
  | (Err shed, s1) => (shed, emit_denied s1 (pr_identity pr) (re_trace_id env) "OVERLOADED" None)
  | (Ok partition_permit, s1) =>
      let '(task, s2) := run_task env s1 pr session in
      let base_meta := with_partition (with_key
        (Meta_new (re_trace_id env) (pr_script_bytes pr) (pr_context_bytes pr) (re_exec_time_us env))
        (pr_key pr)) (pr_partition pr) in
      build_response (drop_permits partition_permit s2) task base_meta (pr_identity pr)
  end.

(** [run_execute] with the quota guard held: open the session, then the above. *)
Definition run_guarded (env : Env) s (pr : Prepared) : Response * State :=
  match open_egress s pr with
  | (Err err, s1) =>
      (session_error_response err (error_meta env pr),
       emit_denied (set_metrics s1 record_rejection) (pr_identity pr) (re_trace_id env)
         "EGRESS_UNAVAILABLE" None)
  | (Ok session, s1) => run_admitted env s1 pr session
  end.

(** [run_execute]. *)
Definition run_execute (env : Env) s headers (payload : result ExecRequest string)
    : Response * State :=
  match front env s headers payload with
  | (Err rejected, s1) => (rejected, s1)
  | (Ok pr, s1) =>
      match enforce_quota s1 (pr_identity pr) (re_trace_id env) (error_meta env pr) with
      | (Err rejected, s2) => (rejected, set_metrics s2 record_rejection)
      | (Ok guard, s2) =>
          let '(response, s3) := run_guarded env s2 pr in (response, drop_quota guard s3)
      end
  end.

(** [metrics]: the exposition, and the dropped-events counter when events are on. *)
Definition metrics_body s (bulkhead_capacity : Z) (event_dropped : option Z) : string :=
  metrics_render (as_metrics s) (Z.of_nat (available_permits (as_limiter s))) bulkhead_capacity 0
    (bc_stats (lh_cache (as_host s))) +:+
  match event_dropped with
  | None => EmptyString
  | Some dropped =>
      String.concat EmptyString ((λ l, l +:+ String "010"%char EmptyString) <$>
        (family "runlet_events_dropped_total" "Usage/audit events dropped due to a full buffer." "counter" ++
         [sample "runlet_events_dropped_total" dropped]))
  end.
End pipeline.

(** ** Lemmas *)

Section lemmas.
Context {jt : JsonText} {ct : ConstantTimeEq} {H V : Type} {hdrs : Headers H V}.
Context {hasher : StdHasher} {Sem : Type} {sem : Semaphore Sem}.
Context {Cache : Type} {moka : Moka Cache (list ascii)} {sha : Sha256}.
Context {Ctx Fn JsVal Mod : Type} {compiler : ModuleCompiler Mod Caught}
  {js : QuickJs Ctx Fn JsVal Mod}.
Context {Q R : Type} {aq : ArrayQueue Q R} (create_runtime : result R string).
Context {Transport Session : Type} {et : EgressTransport Transport Session}.
Context {Net : Type} {net : NetLib Net}.
Local Abbreviation State := (AppState Q Cache Sem Transport Net).
Local Abbreviation Env := (RequestEnv (LogicHost Q Cache) Net).
Implicit Types (s : State) (headers : H) (env : Env) (pr : Prepared).

(** A rejection: one counter, one denied event. *)
Definition rejected s (identity : option TrustedIdentity) (trace_id reason : string)
    (detail : option Value) : State :=
  set_metrics (emit_denied s identity trace_id reason detail) record_rejection.

Lemma identity_rejection_status trace_id code message :
  resp_status (identity_rejected trace_id code message) = 403.
Proof. done. Qed.

Lemma resolve_script_status script key registry status envelope :
  resolve_script script key registry = Err (status, envelope) → status = 400 ∨ status = 404.
Proof.
  unfold resolve_script. destruct script, key; simpl; intros; simplify_eq; auto.
  destruct (registry_get registry _); simplify_eq/=. auto.
Qed.

(** How the gates end: silently with 401, with one rejection, or with the state untouched. *)
Lemma front_ends env s headers payload :
  match front env s headers payload with
  | (Err r, s') =>
      (s' = set_metrics s record_rejection ∧ resp_status r = 401) ∨
      (400 ≤ resp_status r ∧ ∃ identity reason detail,
         s' = rejected s identity (re_trace_id env) reason detail)
  | (Ok _, s') => s' = s
  end.
Proof.
  unfold front, enforce_auth. cbv zeta.
  destruct (as_access_token s) as [tok|]; [destruct (request_authorized headers tok)|];
    try (left; by split); unfold resolve_identity;
  (destruct (as_trusted s) as [tr|] eqn:Et;
   [destruct (identity_rejection (from_headers headers (tr_headers tr))) as [[code msg]|];
     [right; split; [done|]; by eexists _, _, _|]|]);
  (destruct payload as [req|txt]; [|right; split; [done|]; by eexists _, _, _]);
  unfold enforce_member_authz; rewrite Et;
  try (destruct (authorize_capabilities _ _ _) as [?|d]; [|right; split; [done|]; by eexists _, _, _]);
  (destruct (resolve_script (rq_script req) (rq_key req) (as_registry s)) as [src|[status e]] eqn:Er;
   [destruct (validate_input_sizes _ _ _ _) as [?|[code msg]]; [done|right; split; [done|];
      by eexists _, _, _]
   |right; split; [|by eexists _, _, _]]);
  apply resolve_script_status in Er as [-> | ->]; done.
Qed.

(** The observable resources of the box: free permits and the trusted runtime with its quota. *)
Definition free_buckets (o : option (PartitionLimiter Sem)) : option (list nat) :=
  (λ l, available_permits <$> buckets l) <$> o.
Definition resources s : nat * option (list nat) * option TrustedRuntime :=
  (available_permits (as_limiter s), free_buckets (as_partition_limiter s), as_trusted s).

Lemma available_alter_release i (l l' : list Sem) b b' :
  l !! i = Some b → sem_try_acquire b = Some b' → l' = alter sem_release i (<[i := b']> l) →
  available_permits <$> l' = available_permits <$> l.
Proof.
  intros Hi Hb ->. apply available_some in Hb. pose proof (lookup_lt_Some _ _ _ Hi).
  apply list_eq. intros j. rewrite !list_lookup_fmap. destruct (decide (i = j)) as [<-|Hne].
  - rewrite list_lookup_alter_eq, list_lookup_insert_eq by done. rewrite Hi. simpl.
    by rewrite available_release, Hb.
  - by rewrite list_lookup_alter_ne, list_lookup_insert_ne.
Qed.

Lemma try_acquire_drop (l : PartitionLimiter Sem) id p l1 :
  try_acquire l id = Some (p, l1) →
  available_permits <$> buckets (permit_drop p l1) = available_permits <$> buckets l.
Proof.
  unfold try_acquire. cbv zeta. destruct (buckets l !! bucket_for l id) as [b|] eqn:Eb; [|done]. simpl.
  destruct (sem_try_acquire b) as [b'|] eqn:Es; [|done]. simpl. intros [= <- <-]. simpl.
  by eapply available_alter_release.
Qed.

(** Permits: granted ones come back when dropped; a shed request keeps none. *)
Lemma acquire_permits_spec s partition :
  let '(a, s1) := acquire_permits s partition in
  as_trusted s1 = as_trusted s ∧ as_host s1 = as_host s ∧ as_net s1 = as_net s ∧ as_metrics s1 = as_metrics s ∧
  as_events s1 = as_events s ∧
  match a with
  | Granted p => available_permits (as_limiter s) = S (available_permits (as_limiter s1)) ∧
      free_buckets (match p with
                    | Some q => permit_drop q <$> as_partition_limiter s1
                    | None => as_partition_limiter s1 end) =
      free_buckets (as_partition_limiter s)
  | PartitionBusy | GlobalBusy => resources s1 = resources s
  end.
Proof.
  unfold acquire_permits, resources, free_buckets.
  destruct (as_partition_limiter s) as [l|] eqn:El; [destruct partition as [id|]|].
  - destruct (try_acquire l id) as [[p l1]|] eqn:Ea; simpl; [|by rewrite El].
    apply try_acquire_drop in Ea. simpl in Ea.
    destruct (sem_try_acquire (as_limiter s)) as [m|] eqn:Em; simpl.
    + apply available_some in Em. by rewrite Ea.
    + by rewrite Ea.
  - destruct (sem_try_acquire (as_limiter s)) as [m|] eqn:Em; simpl; [|done].
    by apply available_some in Em.
  - destruct (sem_try_acquire (as_limiter s)) as [m|] eqn:Em; simpl; [|done].
    by apply available_some in Em.
Qed.

Lemma foldl_counters {A} (f : Metrics → A → Metrics) (l : list A) m :
  (∀ m x, m_counters (f m x) = m_counters m) → m_counters (foldl f m l) = m_counters m.
Proof. revert m. induction l as [|x l IH]; intros m Hf; simpl; [done|]. by rewrite IH, Hf. Qed.

(** Latencies touch no counter. *)
Lemma record_latencies_counters x b m :
  m_counters (record_capability_latencies x b m) = m_counters m.
Proof. unfold record_capability_latencies. by rewrite !foldl_counters. Qed.

(** What the response leaves alone: everything but counters and events. *)
Lemma build_response_state s task meta identity :
  let '(_, s') := build_response s task meta identity in
  resources s' = resources s ∧
  ∃ meta' outcome c, c ∉ [CntRejections; CntOverloadGlobal; CntOverloadPartition] ∧
    mt_trace_id meta' = mt_trace_id meta ∧
    (∀ k, m_counters (as_metrics s') k = m_counters (count_one c (as_metrics s)) k) ∧
    as_events s' = (λ l, l ++ (emitted identity (mt_trace_id meta) <$>
                                [usage_of meta' outcome; allowed_audit])) <$> as_events s.
Proof.
  assert (∀ err, engine_error_counter err ∉ [CntRejections; CntOverloadGlobal; CntOverloadPartition]) as He.
  { intros []; vm_compute; set_solver. }
  unfold build_response, respond_error. cbv zeta.
  destruct task as [[[exec|err] backend]|join]; simpl.
  - destruct (out_result exec) as [json|err]; simpl; (split; [done|]).
    + exists (with_metrics meta (out_metrics exec) backend), "success", CntSuccess. split_and!; [set_solver|done| |done].
      intros k. simpl. by rewrite record_latencies_counters.
    + exists (with_metrics meta (out_metrics exec) backend), (engine_error_outcome err), (engine_error_counter err).
      split_and!; [done|done| |done]. intros k. simpl. by rewrite record_latencies_counters.
  - split; [done|].
    exists meta, (engine_error_outcome err), (engine_error_counter err). split_and!; [apply He|done..].
  - split; [done|].
    exists meta, "internal_error", CntInternalError. split_and!; [set_solver|done..].
Qed.

(** A handler result that is not an envelope is answered as an error but recorded as a success. *)
Lemma malformed_recorded_as_success s exec backend meta identity js_json e :
  out_result exec = Success js_json → from_str de_envelope js_json = Err e →
  let '(r, s') := build_response s (Ok (Ok exec, backend)) meta identity in
  resp_status r = 422 ∧
  m_counters (as_metrics s') CntSuccess = fetch_add_u64 (m_counters
    (record_capability_latencies (out_metrics exec) backend (as_metrics s)) CntSuccess) 1 ∧
  as_events s' = (λ l, l ++ (emitted identity (mt_trace_id meta) <$>
    [usage_of (with_metrics meta (out_metrics exec) backend) "success"; allowed_audit])) <$> as_events s.
Proof.
  intros Ho Hp. unfold build_response. cbv zeta. rewrite Ho. unfold success_response. rewrite Hp.
  simpl. by rewrite !record_latencies_counters.
Qed.

(** A request's mark on counters and events: one of three endings. *)
Definition ended env s (r : Response) s' : Prop :=
  ∃ c evs,
    (∀ k, m_counters (as_metrics s') k = m_counters (count_one c (as_metrics s)) k) ∧
    as_events s' = (λ l, l ++ evs) <$> as_events s ∧
    ((c = CntRejections ∧ evs = [] ∧ resp_status r = 401 ∧ as_host s' = as_host s ∧
      as_net s' = as_net s) ∨
     (c ∈ [CntRejections; CntOverloadGlobal; CntOverloadPartition] ∧ 400 ≤ resp_status r ∧
      as_host s' = as_host s ∧ as_net s' = as_net s ∧
      ∃ identity reason detail,
        evs = [emitted identity (re_trace_id env) (denied_audit reason detail)]) ∨
     (c ∉ [CntRejections; CntOverloadGlobal; CntOverloadPartition] ∧
      ∃ identity meta outcome,
        evs = emitted identity (re_trace_id env) <$> [usage_of meta outcome; allowed_audit])).

(** A refusal is the second ending. *)
Lemma refused_ended env s r c identity reason detail s' :
  c ∈ [CntRejections; CntOverloadGlobal; CntOverloadPartition] →
  400 ≤ resp_status r → as_host s' = as_host s → as_net s' = as_net s →
  as_metrics s' = count_one c (as_metrics s) →
  as_events s' = (λ l, l ++ [emitted identity (re_trace_id env) (denied_audit reason detail)])
                   <$> as_events s →
  ended env s r s'.
Proof.
  intros Hc Hr Hh Hn Hm He. exists c, [emitted identity (re_trace_id env) (denied_audit reason detail)].
  split; [by rewrite Hm|]. split; [done|]. right; left. split_and!; [done..|eauto].
Qed.

Lemma session_error_status err meta : 400 ≤ resp_status (session_error_response err meta).
Proof. by destruct err. Qed.

Lemma run_task_state env s pr session :
  let s' := (run_task create_runtime env s pr session).2 in
  as_limiter s' = as_limiter s ∧ as_partition_limiter s' = as_partition_limiter s ∧
  as_trusted s' = as_trusted s ∧ as_metrics s' = as_metrics s ∧ as_events s' = as_events s.
Proof.
  unfold run_task. destruct (re_task env) as [|e h n]; simpl; [|done].
  by destruct (host_run _ _ _ _) as [[o h1] [w1 n1]].
Qed.

(** From admission on: the ending, and every permit returned. *)
Lemma run_admitted_ends env s pr session :
  let '(r, s') := run_admitted create_runtime env s pr session in
  ended env s r s' ∧ resources s' = resources s.
Proof.
  unfold run_admitted, admit_request. cbv zeta.
  pose proof (acquire_permits_spec s (pr_partition pr)) as Hp.
  destruct (acquire_permits s (pr_partition pr)) as [[p| |] s1]; destruct Hp as (Ht & Hh & Hn & Hm & He & Hp).
  - pose proof (run_task_state env s1 pr session) as Htask.
    destruct (run_task create_runtime env s1 pr session) as [task s2]. simpl in Htask.
    destruct Htask as (T1 & T2 & T3 & T4 & T5). set (meta := with_partition _ _).
    pose proof (build_response_state (drop_permits p s2) task meta (pr_identity pr)) as Hb.
    destruct (build_response (drop_permits p s2) task meta (pr_identity pr)) as [r s3].
    destruct Hb as (Hr & meta' & outcome & c & Hc & _ & Hk & Hev). split.
    + exists c, (emitted (pr_identity pr) (re_trace_id env) <$> [usage_of meta' outcome; allowed_audit]).
      simpl in Hk, Hev. rewrite T5, He in Hev. split_and!; [|exact Hev|right; right; eauto].
      intros k. by rewrite Hk, T4, Hm.
    + rewrite Hr. unfold resources. simpl. rewrite available_release, T1, T2, T3, Ht.
      by destruct Hp as [-> ->].
  - split; [|exact Hp]. eapply (refused_ended _ _ _ CntOverloadPartition); simpl;
      rewrite ?Hm, ?He; done || set_solver.
  - split; [|exact Hp]. eapply (refused_ended _ _ _ CntOverloadGlobal); simpl;
      rewrite ?Hm, ?He; done || set_solver.
Qed.

Lemma run_guarded_ends env s pr :
  let '(r, s') := run_guarded create_runtime env s pr in
  ended env s r s' ∧ resources s' = resources s.
Proof.
  unfold run_guarded, open_egress. cbv zeta.
  destruct (io_any (rq_io (pr_config pr))); [|apply run_admitted_ends].
  destruct (et_connect (as_transport s) _) as [[session|err] t].
  - apply (run_admitted_ends env (set_transport s t) pr (Some session)).
  - split; [|done]. eapply (refused_ended _ _ _ CntRejections); try done; [set_solver|].
    apply session_error_status.
Qed.

(** The quota gate: a refusal is an ending; a guard taken now and dropped later leaves no trace. *)
Lemma enforce_quota_spec env s identity meta :
  (∀ tr q, as_trusted s = Some tr → tr_quota tr = Some q → quota_wf q) →
  match enforce_quota s identity (re_trace_id env) meta with
  | (Err r, s') => ended env s r (set_metrics s' record_rejection) ∧ resources s' = resources s
  | (Ok guard, s') => as_host s' = as_host s ∧ as_net s' = as_net s ∧ as_metrics s' = as_metrics s ∧
      as_events s' = as_events s ∧ as_limiter s' = as_limiter s ∧
      as_partition_limiter s' = as_partition_limiter s ∧
      ∀ s'', as_trusted s'' = as_trusted s' → as_trusted (drop_quota guard s'') = as_trusted s
  end.
Proof.
  intros Hwf. unfold enforce_quota.
  destruct (as_trusted s) as [[hs ents [q|]]|] eqn:Et;
    (destruct identity as [id|]; [|split_and!; simpl; congruence]); simpl;
    [|split_and!; simpl; congruence..].
  destruct (ti_tenant id) as [tenant|]; [|split_and!; simpl; congruence].
  specialize (Hwf _ q eq_refl eq_refl).
  destruct (quota_admit q tenant (ti_plan id)) as [[g|e] q1] eqn:Ea.
  - split_and!; [done..|]. intros s'' Hs. unfold drop_quota. rewrite Hs. simpl.
    by rewrite (admit_drop _ _ _ _ _ Hwf Ea).
  - split; [|done]. eapply (refused_ended _ _ _ CntRejections); try done. set_solver.
Qed.
(** A whole request returns the permits and quota it took. *)
Lemma run_execute_resources env s headers payload :
  (∀ tr q, as_trusted s = Some tr → tr_quota tr = Some q → quota_wf q) →
  resources (run_execute create_runtime env s headers payload).2 = resources s.
Proof.
  intros Hquota.
  unfold run_execute. pose proof (front_ends env s headers payload) as Hf.
  destruct (front env s headers payload) as [[pr|r] s1].
  - subst s1. pose proof (enforce_quota_spec env s (pr_identity pr) (error_meta env pr) Hquota) as Hq.
    destruct (enforce_quota s (pr_identity pr) (re_trace_id env) (error_meta env pr)) as [[g|r] s2];
      [|apply Hq].
    destruct Hq as (_ & _ & _ & _ & Hl & Hp & Ht). pose proof (run_guarded_ends env s2 pr) as Hg.
    destruct (run_guarded create_runtime env s2 pr) as [r s3]. destruct Hg as [_ Hres].
    unfold resources in *. injection Hres as H1 H2 H3. specialize (Ht s3 H3). rewrite <-Hl, <-Hp. simpl.
    assert (as_limiter (drop_quota g s3) = as_limiter s3 ∧
            as_partition_limiter (drop_quota g s3) = as_partition_limiter s3) as [-> ->]
      by (unfold drop_quota; by destruct g, (as_trusted s3)).
    by rewrite H1, H2, Ht.
  - by destruct Hf as [[-> _]|(_ & identity & reason & detail & ->)].
Qed.
End lemmas.

(** ** Properties *)

Section properties.
Context {jt : JsonText} {ct : ConstantTimeEq} {H V : Type} {hdrs : Headers H V}.
Context {hasher : StdHasher} {Sem : Type} {sem : Semaphore Sem}.
Context {Cache : Type} {moka : Moka Cache (list ascii)} {sha : Sha256}.
Context {Ctx Fn JsVal Mod : Type} {compiler : ModuleCompiler Mod Caught}
  {js : QuickJs Ctx Fn JsVal Mod}.
Context {Q R : Type} {aq : ArrayQueue Q R} (create_runtime : result R string).
Context {Transport Session : Type} {et : EgressTransport Transport Session}.
Context {Net : Type} {net : NetLib Net}.
Local Abbreviation State := (AppState Q Cache Sem Transport Net).
Local Abbreviation Env := (RequestEnv (LogicHost Q Cache) Net).

(** Every request ends exactly once.  Whatever the request, the configuration and the failure,
    one terminal counter goes up by one, and the events match it: an unauthenticated request is
    counted and answered 401 with no event; a refused one is counted as a rejection or a shed, is
    answered with an error, leaves one denied audit event and never touches the host or the network; an executed
    one leaves its usage event and one allowed audit event. *)
Theorem request_ends_once (env : Env) (s : State) (headers : H) (payload : result ExecRequest string)
    (Hquota : ∀ tr q, as_trusted s = Some tr → tr_quota tr = Some q → quota_wf q) :
  let '(r, s') := run_execute create_runtime env s headers payload in ended env s r s'.
Proof.
  unfold run_execute. pose proof (front_ends env s headers payload) as Hf.
  destruct (front env s headers payload) as [[pr|r] s1].
  - subst s1. pose proof (enforce_quota_spec env s (pr_identity pr) (error_meta env pr) Hquota) as Hq.
    destruct (enforce_quota s (pr_identity pr) (re_trace_id env) (error_meta env pr)) as [[g|r] s2];
      [|apply Hq].
    destruct Hq as (Hh & Hn & Hm & He & _). pose proof (run_guarded_ends create_runtime env s2 pr) as Hg.
    destruct (run_guarded create_runtime env s2 pr) as [r s3]. destruct Hg as [(c & evs & H1 & H2 & H3) _].
    exists c, evs. rewrite Hm in H1. rewrite He in H2. rewrite Hh, Hn in H3.
    unfold drop_quota. by destruct g, (as_trusted s3).
  - destruct Hf as [[-> Hr]|(Hr & identity & reason & detail & ->)].
    + exists CntRejections, []. split; [done|]. split; [|left; by split_and!]. simpl.
      destruct (as_events s) as [l|]; simpl; [|done]. by rewrite app_nil_r.
    + eapply (refused_ended _ _ _ CntRejections); try done. set_solver.
Qed.

(** Every request gives back what it took.  On every path, early returns, shed load, engine
    errors and a panicking task included, the free permits of the bulkhead and of every partition
    bucket, and the quota table of every tenant, are after the request as they were before it. *)
Theorem request_conserves_resources (env : Env) (s : State) (headers : H)
    (payload : result ExecRequest string)
    (Hquota : ∀ tr q, as_trusted s = Some tr → tr_quota tr = Some q → quota_wf q) :
  resources (run_execute create_runtime env s headers payload).2 = resources s.
Proof. by apply run_execute_resources. Qed.

End properties.

(** ** Witnesses *)

#[local] Instance object_json : JsonText := {|
  json_parse _ := Ok (VObject []); json_print _ := None; json_type_error _ := "invalid type"; json_print_error _ := "unsupported" |}.
#[local] Existing Instances plain_eq plain_headers length_hasher nat_semaphore no_sha
  no_cache no_compiler io_script list_queue demo_net.
#[local] Instance demo_egress : EgressTransport unit (list string) := {|
  et_connect t init := (Ok [default "none" (wi_tenant init)], t);
  et_call name action _ s := (Ok "{}", s ++ [name +:+ "." +:+ action]);
  et_drain s := (BackendMetrics_default, s) |}.

(** A trusted box with one bulkhead permit and two partition buckets. *)
Definition demo_state : AppState (nat * list unit) unit nat unit DemoNet :=
  {| as_host := demo_host; as_registry := {| sr_scripts := ∅ |};
     as_engine_cfg := set_max_context_size one_slot 64; as_error_debug := false; as_limiter := 1%nat;
     as_partition_limiter := Some {| buckets := [1; 1]%nat |}; as_transport := ();
     as_metrics := Metrics_default; as_access_token := Some "edge";
     as_trusted := Some {| tr_headers := TrustedHeaders_default;
                           tr_capability_entitlements := {[ "db" := "can-db" ]};
                           tr_quota := Some (TenantQuota_new demo_plans) |};
     as_events := Some []; as_net := [] |}.
Definition demo_headers : list (string * string) :=
  [("authorization", "Bearer edge"); ("x-tenant-id", "acme"); ("x-tenant-scope", "acting");
   ("x-user-entitlements", "can-db"); ("x-partition-key", "other")].
Definition demo_request : ExecRequest :=
  {| rq_script := Some "function handler() {}"; rq_key := None; rq_partition := Some "other";
     rq_context := "{}";
     rq_config := {| rq_allowed_hosts := []; rq_s3 := None; rq_sys := None;
                     rq_io := {| io_db := ["orders"]; io_mongo := []; io_mail := []; io_redis := [];
                                 io_amq := []; io_auth := [] |} |} |}.
Definition demo_env : RequestEnv (LogicHost (nat * list unit) unit) DemoNet :=
  {| re_trace_id := "t1"; re_fresh_id := "f1"; re_exec_time_us := 1500; re_task := TaskReturned |}.
Definition demo_execution : Response * AppState (nat * list unit) unit nat unit DemoNet :=
  run_execute (R := unit) (Ok tt) demo_env demo_state demo_headers (Ok demo_request).

(** The request executes and answers 200 with its usage and audit events. *)
Lemma demo_execution_status :
  resp_status demo_execution.1 = 200 ∧ (length <$> as_events demo_execution.2) = Some 2%nat.
Proof. vm_compute. split; reflexivity. Qed.

Lemma demo_quota_wf tr q :
  as_trusted demo_state = Some tr → tr_quota tr = Some q → quota_wf q.
Proof.
  intros [= <-] [= <-]. split; [apply demo_plans_wf|]. intros t n. simpl. by rewrite lookup_empty.
Qed.

Lemma request_ends_once_witness :
  let '(r, s') := demo_execution in ended demo_env demo_state r s'.
Proof.
  pose proof (request_ends_once (R := unit) (Ok tt) demo_env demo_state demo_headers
    (Ok demo_request) demo_quota_wf) as Hends.
  fold demo_execution in Hends. exact Hends.
Defined.

Lemma request_conserves_resources_witness :
  resources demo_execution.2 = (1%nat, Some [1; 1]%nat, as_trusted demo_state).
Proof.
  pose proof (request_conserves_resources (R := unit) (Ok tt) demo_env demo_state demo_headers
    (Ok demo_request) demo_quota_wf) as Hsame.
  fold demo_execution in Hsame. rewrite Hsame. reflexivity.
Defined.

