(* ===== verification/Box.v ===== *)
(** * Box: overlapping requests

    Models [runlet/src/handler.rs] ([run_execute]) when many requests are in flight: a request is a
    state machine that advances from one operation on shared state to the next (gates, quota slot,
    egress session, permits, task, permits back, response, slot back), each operation the one
    [Handler] defines, and the box interleaves them.  The blocking task of an execution runs beside
    everything else, so its result and what it leaves of the host and the network are whatever the
    environment says.  A client may disconnect at the two points where [run_execute] awaits: the
    future is dropped, its locals are dropped in reverse order, and a task already spawned goes on
    alone.

    The box refines the three machines of [Bulkhead], [Partition] and [Quota]: every run of it is a
    run of each, so their invariants are invariants of the pipeline. *)

From Stdlib Require Import Ascii.
From S2P Require Import Prelude Json Errors Wire Backends Fabricd Sidecar Identity Quota.
From S2P Require Import Partition Bytecode Ssrf Http S3 Sys EngineConfig Engine Registry Pool Host Metrics Events.
From S2P Require Import Bulkhead Handler.
Local Open Scope Z_scope.

(** ** Requests in flight *)

(** What the blocking task hands back through its join handle. *)
Definition TaskResult : Type := result (result Outcome EngineError * BackendMetrics) string.

(** Where a request is, with the locals of its future. *)
Inductive ReqPhase (H Session : Type) :=
| Arrived (headers : H) (payload : result ExecRequest string)
| Gated (pr : Prepared)
| Guarded (pr : Prepared) (guard : option QuotaGuard)
| Connected (pr : Prepared) (guard : option QuotaGuard) (session : option Session)
| Executing (pr : Prepared) (guard : option QuotaGuard) (session : option Session)
    (permit : option Permit)
| Returned (pr : Prepared) (guard : option QuotaGuard) (permit : option Permit) (task : TaskResult)
| Released (pr : Prepared) (guard : option QuotaGuard) (task : TaskResult)
| Answered (response : Response) (guard : option QuotaGuard).
Arguments Arrived {H Session} headers payload. Arguments Gated {H Session} pr.
Arguments Guarded {H Session} pr guard. Arguments Connected {H Session} pr guard session.
Arguments Executing {H Session} pr guard session permit.
Arguments Returned {H Session} pr guard permit task. Arguments Released {H Session} pr guard task.
Arguments Answered {H Session} response guard.

(** Advances left before the request is gone. *)
Definition remaining {H Session} (ph : ReqPhase H Session) : nat :=
  match ph with
  | Arrived _ _ => 8 | Gated _ => 7 | Guarded _ _ => 6 | Connected _ _ _ => 5
  | Executing _ _ _ _ => 4 | Returned _ _ _ _ => 3 | Released _ _ _ => 2 | Answered _ _ => 1
  end.

(** What a request holds: its quota slot, its bulkhead permit, its partition permit. *)
Definition held_guard {H Session} (ph : ReqPhase H Session) : option QuotaGuard :=
  match ph with
  | Arrived _ _ | Gated _ => None
  | Guarded _ g | Connected _ g _ | Executing _ g _ _ | Returned _ g _ _ | Released _ g _
  | Answered _ g => g
  end.
Definition holds_permit {H Session} (ph : ReqPhase H Session) : bool :=
  match ph with Executing _ _ _ _ | Returned _ _ _ _ => true | _ => false end.
Definition held_partition {H Session} (ph : ReqPhase H Session) : option (string * Permit) :=
  match ph with
  | Executing pr _ _ p | Returned pr _ p _ => (λ p, (default EmptyString (pr_partition pr), p)) <$> p
  | _ => None
  end.
(** The response is computed. *)
Definition answered {H Session} (ph : ReqPhase H Session) : bool :=
  match ph with Answered _ _ => true | _ => false end.

Section box.
Context {jt : JsonText} {ct : ConstantTimeEq} {H V : Type} {hdrs : Headers H V}.
Context {hasher : StdHasher} {Sem : Type} {sem : Semaphore Sem} {Cache Q : Type}.
Context {Transport Session : Type} {et : EgressTransport Transport Session} {Net : Type}.
Local Abbreviation State := (AppState Q Cache Sem Transport Net).
Local Abbreviation Env := (RequestEnv (LogicHost Q Cache) Net).
Local Abbreviation Ph := (ReqPhase H Session).
Implicit Types (s : State) (env : Env) (ph : Ph).

(** What a task ends with: its result, and the host and network as it leaves them. *)
Definition TaskLeft : Type := TaskResult * LogicHost Q Cache * Net.

(** The [Meta] of an executed request. *)
Definition exec_meta env (pr : Prepared) : Meta :=
  with_partition (with_key
    (Meta_new (re_trace_id env) (pr_script_bytes pr) (pr_context_bytes pr) (re_exec_time_us env))
    (pr_key pr)) (pr_partition pr).

(** The next operation of a request; [out] is read when its task ends.  [None] is a request gone. *)
Definition advance env (out : TaskLeft) ph s : option Ph * State :=
  match ph with
  | Arrived headers payload =>
      match front env s headers payload with
      | (Err rejected, s1) => (Some (Answered rejected None), s1)
      | (Ok pr, s1) => (Some (Gated pr), s1)
      end
  | Gated pr =>
      match enforce_quota s (pr_identity pr) (re_trace_id env) (error_meta env pr) with
      | (Err rejected, s1) => (Some (Answered rejected None), set_metrics s1 record_rejection)
      | (Ok guard, s1) => (Some (Guarded pr guard), s1)
      end
  | Guarded pr guard =>
      match open_egress s pr with
      | (Err err, s1) =>
          (Some (Answered (session_error_response err (error_meta env pr)) guard),
           emit_denied (set_metrics s1 record_rejection) (pr_identity pr) (re_trace_id env)
             "EGRESS_UNAVAILABLE" None)
      | (Ok session, s1) => (Some (Connected pr guard session), s1)
      end
  | Connected pr guard session =>
      match admit_request s (pr_partition pr) (error_meta env pr) with
      | (Err shed, s1) =>
          (Some (Answered shed guard),
           emit_denied s1 (pr_identity pr) (re_trace_id env) "OVERLOADED" None)
      | (Ok permit, s1) => (Some (Executing pr guard session permit), s1)
      end
  | Executing pr guard session permit =>
      let '(task, h, n) := out in (Some (Returned pr guard permit task), set_host_net s h n)
  | Returned pr guard permit task => (Some (Released pr guard task), drop_permits permit s)
  | Released pr guard task =>
      let '(response, s1) := build_response s task (exec_meta env pr) (pr_identity pr) in
      (Some (Answered response guard), s1)
  | Answered response guard => (None, drop_quota guard s)
  end.

(** The future dropped while it awaits its session, or its task; whether a task is left behind.
    A connection given up leaves the transport in some state [t]. *)
Definition leave (t : Transport) ph s : option (State * bool) :=
  match ph with
  | Guarded pr guard =>
      if io_any (rq_io (pr_config pr)) then Some (drop_quota guard (set_transport s t), false) else None
  | Executing _ guard _ permit => Some (drop_quota guard (drop_permits permit s), true)
  | _ => None
  end.

(** ** The box *)

(** The shared state, the requests in flight, the responses computed, the clients gone, and the
    tasks whose request is gone. *)
Record Box := {
  bx_app : State; bx_live : list (Env * Ph); bx_responses : list (Env * Response);
  bx_left : nat; bx_orphans : nat }.
Definition box_new s : Box :=
  {| bx_app := s; bx_live := []; bx_responses := []; bx_left := 0; bx_orphans := 0 |}.

Inductive BoxOp :=
| OArrive (env : Env) (headers : H) (payload : result ExecRequest string)
| OAdvance (i : nat) (out : TaskLeft)                       (* the [i]-th live request goes on *)
| OLeave (i : nat) (t : Transport)                           (* its client disconnects *)
| OOrphanEnd (h : LogicHost Q Cache) (n : Net).              (* an abandoned task ends *)

Definition box_step (b : Box) (op : BoxOp) : option Box :=
  match op with
  | OArrive env headers payload =>
      Some {| bx_app := bx_app b; bx_live := bx_live b ++ [(env, Arrived headers payload)];
              bx_responses := bx_responses b; bx_left := bx_left b; bx_orphans := bx_orphans b |}
  | OAdvance i out =>
      '(env, ph) ← bx_live b !! i;
      let '(next, s1) := advance env out ph (bx_app b) in
      Some {| bx_app := s1;
              bx_live := match next with
                         | Some ph1 => <[i := (env, ph1)]> (bx_live b)
                         | None => delete i (bx_live b)
                         end;
              bx_responses := match next with
                              | Some (Answered r _) => bx_responses b ++ [(env, r)]
                              | _ => bx_responses b
                              end;
              bx_left := bx_left b; bx_orphans := bx_orphans b |}
  | OLeave i t =>
      '(env, ph) ← bx_live b !! i;
      '(s1, task) ← leave t ph (bx_app b);
      Some {| bx_app := s1; bx_live := delete i (bx_live b); bx_responses := bx_responses b;
              bx_left := S (bx_left b);
              bx_orphans := if (task : bool) then S (bx_orphans b) else bx_orphans b |}
  | OOrphanEnd h n =>
      match bx_orphans b with
      | O => None
      | S k => Some {| bx_app := set_host_net (bx_app b) h n; bx_live := bx_live b;
                       bx_responses := bx_responses b; bx_left := bx_left b; bx_orphans := k |}
      end
  end.
Fixpoint box_run (b : Box) (ops : list BoxOp) : option Box :=
  match ops with [] => Some b | op :: rest => b1 ← box_step b op; box_run b1 rest end.

Definition is_arrival (op : BoxOp) : bool := match op with OArrive _ _ _ => true | _ => false end.
Definition is_advance (op : BoxOp) : bool := match op with OAdvance _ _ => true | _ => false end.

(** The holdings of the requests in flight. *)
Definition guards_held (b : Box) : list QuotaGuard := omap (λ x, held_guard x.2) (bx_live b).
Definition partitions_held (b : Box) : list (string * Permit) :=
  omap (λ x, held_partition x.2) (bx_live b).
Definition permits_held (b : Box) : nat := count_if (λ x, holds_permit x.2 = true) (bx_live b).
Definition pending (b : Box) : nat := count_if (λ x, answered x.2 = false) (bx_live b).
Definition work (b : Box) : nat := sum_list_with (λ x, remaining x.2) (bx_live b).

(** A box as it boots: every permit free, no tenant in flight, every counter zero. *)
Record fresh (capacity : nat) s : Prop := {
  fresh_limiter : as_limiter s = sem_new capacity;
  fresh_partition l : as_partition_limiter s = Some l →
    ∃ count per, PartitionLimiter_new count per = Some l;
  fresh_quota tr q : as_trusted s = Some tr → tr_quota tr = Some q →
    ∃ plans, plans_wf (PlanLimits_new plans) ∧ q = TenantQuota_new plans;
  fresh_metrics : as_metrics s = Metrics_default }.
End box.
Arguments Box : clear implicits. Arguments BoxOp : clear implicits.

(** ** Lists of holdings *)

Lemma omap_at {A B} (f : A → option B) (l : list A) i x :
  l !! i = Some x → omap f l ≡ₚ option_list (f x) ++ omap f (delete i l).
Proof.
  intros Hi. rewrite (delete_Permutation l i x Hi) at 1. simpl. by destruct (f x).
Qed.
Lemma omap_insert {A B} (f : A → option B) (l : list A) i x y :
  l !! i = Some x → omap f (<[i := y]> l) ≡ₚ option_list (f y) ++ omap f (delete i l).
Proof.
  intros Hi. pose proof (lookup_lt_Some _ _ _ Hi).
  rewrite (omap_at f (<[i := y]> l) i y) by (by apply list_lookup_insert_eq).
  f_equiv. by rewrite !delete_take_drop, take_insert_ge, drop_insert_lt by lia.
Qed.
Lemma count_if_insert {A} (P : A → Prop) `{!∀ x, Decision (P x)} (l : list A) i x y :
  l !! i = Some x → count_if P (<[i := y]> l) = ((if decide (P y) then 1 else 0) + count_if P (delete i l))%nat.
Proof.
  intros Hi. pose proof (lookup_lt_Some _ _ _ Hi).
  rewrite (count_if_delete P (<[i := y]> l) i y) by (by apply list_lookup_insert_eq).
  by rewrite !delete_take_drop, take_insert_ge, drop_insert_lt by lia.
Qed.
Lemma count_if_Permutation {A} (P : A → Prop) `{!∀ x, Decision (P x)} (l k : list A) :
  l ≡ₚ k → count_if P l = count_if P k.
Proof. intros Hl. unfold count_if. by rewrite Hl. Qed.

Lemma perm_nil_iff {A} (l k : list A) : l ≡ₚ k → l = [] ↔ k = [].
Proof.
  intros Hl. split; intros ->; [by apply Permutation_nil|by apply Permutation_nil; symmetry].
Qed.

(** ** Refinement of the three machines *)

Section refinement.
Context {jt : JsonText} {ct : ConstantTimeEq} {H V : Type} {hdrs : Headers H V}.
Context {hasher : StdHasher} {Sem : Type} {sem : Semaphore Sem} {Cache Q : Type}.
Context {Transport Session : Type} {et : EgressTransport Transport Session} {Net : Type}.
Local Abbreviation State := (AppState Q Cache Sem Transport Net).
Local Abbreviation Env := (RequestEnv (LogicHost Q Cache) Net).
Local Abbreviation Ph := (ReqPhase H Session).
Implicit Types (s : State) (env : Env) (ph : Ph).

(** A run of the bulkhead machine that ends with this semaphore, these holders and orphans. *)
Definition bulk_sim (capacity : nat) (l : Sem) (held orphans left : nat) : Prop :=
  ∃ ops, breach capacity ops {| bh_limiter := l; bh_held := held; bh_orphans := orphans |} ∧
    (count_if (λ op, op = BDisconnect) ops ≤ left)%nat.
(** A run of the partition machine from the first limiter to the second with these permits out. *)
Definition part_sim (o0 o : option (PartitionLimiter Sem)) (held : list (string * Permit)) : Prop :=
  match o0, o with
  | Some l0, Some l => ∃ live, preach l0 {| ps_limiter := l; ps_live := live |} ∧ live ≡ₚ held
  | None, None => held = []
  | _, _ => False
  end.
(** A run of the quota machine from a fresh accountant with these guards alive. *)
Definition quota_sim (t0 t : option TrustedRuntime) (held : list QuotaGuard) : Prop :=
  match t0, t with
  | Some tr0, Some tr =>
      tr_headers tr = tr_headers tr0 ∧
      tr_capability_entitlements tr = tr_capability_entitlements tr0 ∧
      match tr_quota tr0, tr_quota tr with
      | Some q0, Some q => ∃ plans ops live, plans_wf (PlanLimits_new plans) ∧
          q0 = TenantQuota_new plans ∧ qreach plans ops {| qs_quota := q; qs_live := live |} ∧
          live ≡ₚ held
      | None, None => held = []
      | _, _ => False
      end
  | None, None => held = []
  | _, _ => False
  end.

#[export] Instance part_sim_proper o0 o : Proper ((≡ₚ) ==> iff) (part_sim o0 o).
Proof.
  intros l k Hlk. unfold part_sim. destruct o0, o; try done.
  - by setoid_rewrite Hlk.
  - apply perm_nil_iff. exact Hlk.
Qed.
#[export] Instance quota_sim_proper t0 t : Proper ((≡ₚ) ==> iff) (quota_sim t0 t).
Proof.
  intros l k Hlk.
  assert (l = [] ↔ k = []) as Hnil
    by (by apply perm_nil_iff).
  unfold quota_sim. destruct t0 as [[? ? []]|], t as [[? ? []]|]; simpl; try done;
    rewrite ?Hnil; try done. by setoid_rewrite Hlk.
Qed.

(** One more operation of the bulkhead. *)
Lemma bulk_sim_step capacity op l h o left l' h' o' left' :
  bstep {| bh_limiter := l; bh_held := h; bh_orphans := o |} op
        {| bh_limiter := l'; bh_held := h'; bh_orphans := o' |} →
  (left + (if decide (op = BDisconnect) then 1 else 0) ≤ left')%nat →
  bulk_sim capacity l h o left → bulk_sim capacity l' h' o' left'.
Proof.
  intros Hs Hl (ops & Hr & Hc). exists (ops ++ [op]). split; [by eapply breach_step|].
  rewrite count_if_app, count_if_cons, count_if_nil. lia.
Qed.

Lemma part_sim_acquire o0 l k p l1 held :
  try_acquire l k = Some (p, l1) → part_sim o0 (Some l) held → part_sim o0 (Some l1) ((k, p) :: held).
Proof.
  intros Ha. unfold part_sim. destruct o0 as [l0|]; [|done]. intros (live & Hr & Hl).
  exists (live ++ [(k, p)]). split; [|by rewrite Hl, Permutation_app_comm].
  eapply preach_step; [exact Hr|]. by apply (step_acquired {| ps_limiter := l; ps_live := live |}).
Qed.
Lemma part_sim_drop o0 o k p held :
  part_sim o0 o ((k, p) :: held) → part_sim o0 (permit_drop p <$> o) held.
Proof.
  unfold part_sim. destruct o0 as [l0|], o as [l|]; simpl; try done. intros (live & Hr & Hl).
  destruct (proj1 (list_elem_of_lookup live (k, p))) as [i Hi]; [rewrite Hl; set_solver|].
  exists (delete i live). split.
  - eapply preach_step; [exact Hr|].
    by apply (step_permit_drop {| ps_limiter := l; ps_live := live |} i k p).
  - apply (Permutation_cons_inv (a := (k, p))). by rewrite <-Hl, <-delete_Permutation.
Qed.

Lemma quota_sim_drop t0 g held s :
  quota_sim t0 (as_trusted s) (g :: held) → quota_sim t0 (as_trusted (drop_quota (Some g) s)) held.
Proof.
  unfold drop_quota. destruct (as_trusted s) as [tr|] eqn:Et; [|rewrite Et; by destruct t0]. simpl.
  unfold quota_sim. destruct t0 as [tr0|]; [|done]. simpl. intros (Hh & He & Hq). split_and!; [done..|].
  destruct (tr_quota tr0) as [q0|], (tr_quota tr) as [q|]; simpl; try done.
  destruct Hq as (plans & ops & live & Hwf & Hq0 & Hr & Hl).
  destruct (proj1 (list_elem_of_lookup live g)) as [i Hi]; [rewrite Hl; set_solver|].
  exists plans, (ops ++ [QDrop i]), (delete i live). split_and!; [done..| |].
  - eapply qreach_step; [exact Hr|]. by apply (step_drop {| qs_quota := q; qs_live := live |} i g).
  - apply (Permutation_cons_inv (a := g)). by rewrite <-Hl, <-delete_Permutation.
Qed.
Lemma quota_sim_enforce t0 s identity trace_id meta held :
  quota_sim t0 (as_trusted s) held →
  match enforce_quota s identity trace_id meta with
  | (Ok g, s1) => quota_sim t0 (as_trusted s1) (option_list g ++ held)
  | (Err _, s1) => quota_sim t0 (as_trusted s1) held
  end.
Proof.
  intros Hs. unfold enforce_quota. destruct (as_trusted s) as [tr|] eqn:Et; [|by rewrite Et].
  destruct identity as [id|]; [|by rewrite Et].
  destruct (tr_quota tr) as [q|] eqn:Eq; [|by rewrite Et].
  destruct (ti_tenant id) as [tenant|]; [|by rewrite Et].
  destruct (quota_admit q tenant (ti_plan id)) as [[g|e] q1] eqn:Ea; simpl; [|by rewrite Et].
  unfold quota_sim in *. destruct t0 as [tr0|]; [|done]. simpl. rewrite Eq in Hs.
  destruct Hs as (Hh & He & Hq). split_and!; [done..|]. destruct (tr_quota tr0) as [q0|]; [|done].
  destruct Hq as (plans & ops & live & Hwf & Hq0 & Hr & Hl).
  exists plans, (ops ++ [QAdmit tenant (ti_plan id)]), (live ++ [g]). split_and!; [done..| |].
  - eapply qreach_step; [exact Hr|].
    by apply (step_admitted {| qs_quota := q; qs_live := live |} tenant (ti_plan id) g q1).
  - by rewrite Hl, Permutation_app_comm.
Qed.

(** The three at once: the shared state, and what the requests hold of it. *)
Definition refines (capacity : nat) (s0 s : State) (permits : nat) (parts : list (string * Permit))
    (guards : list QuotaGuard) (orphans left : nat) : Prop :=
  bulk_sim capacity (as_limiter s) permits orphans left ∧
  part_sim (as_partition_limiter s0) (as_partition_limiter s) parts ∧
  quota_sim (as_trusted s0) (as_trusted s) guards.

(** Operations that touch none of the three. *)
Definition same_pools s s1 : Prop :=
  as_limiter s1 = as_limiter s ∧ as_partition_limiter s1 = as_partition_limiter s ∧
  as_trusted s1 = as_trusted s.
Lemma refines_same capacity s0 s s1 n ps gs o l :
  same_pools s s1 → refines capacity s0 s n ps gs o l → refines capacity s0 s1 n ps gs o l.
Proof. intros (Hl & Hp & Ht). unfold refines. by rewrite Hl, Hp, Ht. Qed.

Lemma front_same env s headers payload : same_pools s (front env s headers payload).2.
Proof.
  pose proof (front_ends env s headers payload) as Hf.
  destruct (front env s headers payload) as [[pr|r] s1]; simpl; [by subst|].
  by destruct Hf as [[-> _]|(_ & i & d & r' & ->)].
Qed.
Lemma enforce_quota_pools s identity trace_id meta :
  let s1 := (enforce_quota s identity trace_id meta).2 in
  as_limiter s1 = as_limiter s ∧ as_partition_limiter s1 = as_partition_limiter s.
Proof.
  unfold enforce_quota. destruct (as_trusted s), identity as [id|]; try done. simpl.
  destruct (tr_quota _), (ti_tenant id); try done. by destruct (quota_admit _ _ _) as [[] ?].
Qed.
Lemma open_egress_same s pr : same_pools s (open_egress s pr).2.
Proof.
  unfold open_egress. destruct (io_any _); [|done]. by destruct (et_connect _ _) as [[] ?].
Qed.
Lemma build_response_same s task meta identity : same_pools s (build_response s task meta identity).2.
Proof.
  unfold build_response, respond_error. destruct task as [[[exec|err] b]|j]; simpl; try done.
  by destruct (out_result exec).
Qed.
Lemma drop_quota_pools guard s :
  as_limiter (drop_quota guard s) = as_limiter s ∧
  as_partition_limiter (drop_quota guard s) = as_partition_limiter s.
Proof. unfold drop_quota. by destruct guard, (as_trusted s). Qed.
Lemma drop_quota_refines capacity s0 s guard n ps gs o l :
  refines capacity s0 s n ps (option_list guard ++ gs) o l →
  refines capacity s0 (drop_quota guard s) n ps gs o l.
Proof.
  destruct (drop_quota_pools guard s) as [Hl Hp]. unfold refines. rewrite Hl, Hp.
  intros (Hb & Hps & Hq). split_and!; [done..|].
  destruct guard as [g|]; [by apply quota_sim_drop|]. unfold drop_quota. by destruct (as_trusted s).
Qed.

(** The permits of an execution given back, its task over or left behind. *)
Lemma drop_permits_refines capacity s0 s key permit n ps gs o l o' l' :
  o' = o ∧ l' = l ∨ o' = S o ∧ l' = S l →
  refines capacity s0 s (S n) (option_list ((λ p, (key, p)) <$> permit) ++ ps) gs o l →
  refines capacity s0 (drop_permits permit s) n ps gs o' l'.
Proof.
  intros Ho (Hb & Hp & Hq). split_and!; simpl; [| |done].
  - destruct Ho as [[-> ->]|[-> ->]]; revert Hb.
    + apply (bulk_sim_step _ BFinish); [constructor|]. simpl. lia.
    + apply (bulk_sim_step _ BDisconnect); [constructor|]. simpl. lia.
  - destruct permit as [p|]; [|done]. exact (part_sim_drop _ _ key p _ Hp).
Qed.
(** Admission: the permits taken on a grant, none kept on a shed. *)
Lemma acquire_permits_refines capacity s0 s partition n ps gs o l :
  refines capacity s0 s n ps gs o l →
  match acquire_permits s partition with
  | (Granted p, s1) => refines capacity s0 s1 (S n)
      (option_list ((λ p, (default EmptyString partition, p)) <$> p) ++ ps) gs o l
  | (_, s1) => refines capacity s0 s1 n ps gs o l
  end.
Proof.
  intros (Hb & Hp & Hq). unfold acquire_permits.
  assert (∀ s1 parts l1, sem_try_acquire (as_limiter s) = Some l1 →
    s1 = set_permits s l1 parts → bulk_sim capacity (as_limiter s1) (S n) o l) as Hgrant.
  { intros s1 parts l1 Hl ->. revert Hb. apply (bulk_sim_step _ BStart); [|simpl; lia].
    by apply (b_start {| bh_limiter := as_limiter s; bh_held := n; bh_orphans := o |}). }
  destruct (as_partition_limiter s) as [lim|] eqn:El; [destruct partition as [id|]|]; simpl.
  - destruct (try_acquire lim id) as [[p lim1]|] eqn:Ea.
    + pose proof (part_sim_acquire _ _ _ _ _ _ Ea Hp) as Hp1.
      destruct (sem_try_acquire (as_limiter s)) as [l1|] eqn:Es; simpl.
      * split_and!; [by eapply Hgrant|done..].
      * split_and!; [done| |done]. by apply (part_sim_drop _ _ id p) in Hp1.
    + split_and!; [done| |done]. by rewrite El.
  - destruct (sem_try_acquire (as_limiter s)) as [l1|] eqn:Es; split_and!; try done. by eapply Hgrant.
  - destruct (sem_try_acquire (as_limiter s)) as [l1|] eqn:Es; split_and!; try done. by eapply Hgrant.
Qed.

(** One step of one request, beside whatever the others hold. *)
Lemma advance_refines capacity s0 env out ph s n ps gs o l :
  refines capacity s0 s (Nat.b2n (holds_permit ph) + n)
    (option_list (held_partition ph) ++ ps) (option_list (held_guard ph) ++ gs) o l →
  let '(next, s1) := advance env out ph s in
  refines capacity s0 s1 (Nat.b2n (from_option holds_permit false next) + n)
    (option_list (next ≫= held_partition) ++ ps) (option_list (next ≫= held_guard) ++ gs) o l.
Proof.
  intros Href. destruct ph as [headers payload|pr|pr g|pr g w|pr g w p|pr g p task|pr g task|r g];
    simpl in *.
  - pose proof (front_same env s headers payload) as Hs.
    destruct (front env s headers payload) as [[pr|r] s1]; by eapply refines_same.
  - pose proof (enforce_quota_pools s (pr_identity pr) (re_trace_id env) (error_meta env pr)) as [Hl Hp].
    destruct Href as (Hb & Hps & Hq).
    apply (quota_sim_enforce _ s (pr_identity pr) (re_trace_id env) (error_meta env pr)) in Hq.
    unfold refines.
    destruct (enforce_quota s _ _ _) as [[g|r] s1]; simpl in *; rewrite Hl, Hp; done.
  - pose proof (open_egress_same s pr) as Hs. destruct (open_egress s pr) as [[w|err] s1]; simpl in *;
      by eapply refines_same.
  - unfold admit_request. apply (acquire_permits_refines _ _ _ (pr_partition pr)) in Href.
    by destruct (acquire_permits s (pr_partition pr)) as [[p| |] s1].
  - by destruct out as [[task h] t].
  - eapply drop_permits_refines; [by left|]. exact Href.
  - pose proof (build_response_same s task (exec_meta env pr) (pr_identity pr)) as Hs.
    destruct (build_response s task _ _) as [r s1]. by eapply refines_same.
  - by apply drop_quota_refines.
Qed.
(** A client leaving: everything its request held comes back. *)
Lemma leave_refines capacity s0 t ph s s1 (task : bool) n ps gs o l :
  leave t ph s = Some (s1, task) →
  refines capacity s0 s (Nat.b2n (holds_permit ph) + n)
    (option_list (held_partition ph) ++ ps) (option_list (held_guard ph) ++ gs) o l →
  refines capacity s0 s1 n ps gs (if task then S o else o) (S l).
Proof.
  intros Hleave Href. destruct ph as [headers payload|pr|pr g|pr g w|pr g w p|pr g p t0|pr g t0|r g];
    simpl in *; try done.
  - destruct (io_any _); [|done]. injection Hleave as <- <-. apply drop_quota_refines.
    destruct Href as ((ops & Hr & Hc) & Hp & Hq). split_and!; [|done..]. exists ops. split; [done|lia].
  - injection Hleave as <- <-. apply drop_quota_refines. eapply drop_permits_refines; [by right|].
    exact Href.
Qed.

Implicit Types b : Box H Sem Cache Q Transport Session Net.
Definition box_refines (capacity : nat) (s0 : State) b : Prop :=
  refines capacity s0 (bx_app b) (permits_held b) (partitions_held b) (guards_held b)
    (bx_orphans b) (bx_left b).

Lemma refines_perm capacity s0 s n ps ps' gs gs' o l :
  ps ≡ₚ ps' → gs ≡ₚ gs' → refines capacity s0 s n ps gs o l → refines capacity s0 s n ps' gs' o l.
Proof. intros Hp Hg (Hb & Hps & Hgs). split_and!; [done| |]; by rewrite <-?Hp, <-?Hg. Qed.

(** The holdings with one request singled out. *)
Lemma refines_at capacity s0 b i env ph :
  bx_live b !! i = Some (env, ph) → box_refines capacity s0 b →
  refines capacity s0 (bx_app b)
    (Nat.b2n (holds_permit ph) + count_if (λ x, holds_permit x.2 = true) (delete i (bx_live b)))
    (option_list (held_partition ph) ++ omap (λ x, held_partition x.2) (delete i (bx_live b)))
    (option_list (held_guard ph) ++ omap (λ x, held_guard x.2) (delete i (bx_live b)))
    (bx_orphans b) (bx_left b).
Proof.
  intros Hi Hb. unfold box_refines, permits_held in Hb.
  rewrite (count_if_delete _ _ _ _ Hi) in Hb. simpl in Hb.
  replace (Nat.b2n (holds_permit ph)) with (if decide (holds_permit ph = true) then 1 else 0)%nat
    by (by destruct (holds_permit ph)).
  eapply refines_perm, Hb; [exact (omap_at (λ x, held_partition x.2) _ _ _ Hi)|].
  exact (omap_at (λ x, held_guard x.2) _ _ _ Hi).
Qed.

Lemma box_step_refines capacity s0 b op b1 :
  box_step b op = Some b1 → box_refines capacity s0 b → box_refines capacity s0 b1.
Proof.
  intros Hstep Hb. destruct op as [env headers payload|i out|i t|h n]; simpl in Hstep.
  - injection Hstep as <-. unfold box_refines, permits_held, partitions_held, guards_held in *. simpl.
    by rewrite !omap_app, count_if_app, count_if_cons, count_if_nil, !app_nil_r, !Nat.add_0_r.
  - destruct (bx_live b !! i) as [[env ph]|] eqn:Hi; [|done]. simpl in Hstep.
    pose proof (advance_refines _ _ env out _ _ _ _ _ _ _ (refines_at _ _ _ _ _ _ Hi Hb)) as Ha.
    destruct (advance env out ph (bx_app b)) as [next s1]. injection Hstep as <-.
    unfold box_refines, permits_held, partitions_held, guards_held. simpl.
    destruct next as [ph1|]; simpl in Ha; [|exact Ha].
    rewrite (count_if_insert _ _ _ _ _ Hi). simpl.
    replace (if decide (holds_permit ph1 = true) then 1 else 0)%nat with (Nat.b2n (holds_permit ph1))
      by (by destruct (holds_permit ph1)).
    eapply refines_perm, Ha; by rewrite (omap_insert _ _ _ _ _ Hi).
  - destruct (bx_live b !! i) as [[env ph]|] eqn:Hi; [|done]. simpl in Hstep.
    destruct (leave t ph (bx_app b)) as [[s1 task]|] eqn:El; [|done]. injection Hstep as <-.
    exact (leave_refines _ _ _ _ _ _ _ _ _ _ _ _ El (refines_at _ _ _ _ _ _ Hi Hb)).
  - destruct (bx_orphans b) as [|k] eqn:Eo; [done|]. injection Hstep as <-.
    destruct Hb as (Hb & Hp & Hq). rewrite Eo in Hb. split_and!; [|done..]. revert Hb.
    apply (bulk_sim_step _ BOrphanEnd); [constructor|]. simpl. lia.
Qed.

Lemma box_run_refines capacity s0 ops b b1 :
  box_run b ops = Some b1 → box_refines capacity s0 b → box_refines capacity s0 b1.
Proof.
  revert b. induction ops as [|op ops IH]; simpl; intros b Hrun Hb; [by simplify_eq|].
  destruct (box_step b op) as [b2|] eqn:Es; [|done]. eauto using box_step_refines.
Qed.

Lemma fresh_refines capacity s : fresh capacity s → box_refines capacity s (box_new s).
Proof.
  intros [Hl Hp Hq _]. split_and!; simpl.
  - exists []. rewrite Hl. split; [constructor|done].
  - destruct (as_partition_limiter s) as [l|]; [|done]. exists []. split; [constructor|done].
  - destruct (as_trusted s) as [tr|]; simpl; [|done]. split_and!; [done..|].
    destruct (tr_quota tr) as [q|] eqn:Eq; [|done]. destruct (Hq _ _ eq_refl Eq) as (plans & Hwf & ->).
    exists plans, [], []. split_and!; [done..|constructor|done].
Qed.
End refinement.

(** ** The ledger of responses *)

Section ledger.
Context {jt : JsonText} {ct : ConstantTimeEq} {H V : Type} {hdrs : Headers H V}.
Context {hasher : StdHasher} {Sem : Type} {sem : Semaphore Sem} {Cache Q : Type}.
Context {Transport Session : Type} {et : EgressTransport Transport Session} {Net : Type}.
Local Abbreviation State := (AppState Q Cache Sem Transport Net).
Local Abbreviation Env := (RequestEnv (LogicHost Q Cache) Net).
Local Abbreviation Ph := (ReqPhase H Session).
Implicit Types (s : State) (env : Env) (ph : Ph) (b : Box H Sem Cache Q Transport Session Net).

(** The mark a response leaves: the counter that goes up and the events handed to the sink. *)
Definition Mark : Type := Counter * list Emitted.
Definition mark_of env (r : Response) (m : Mark) : Prop :=
  let refusals := [CntRejections; CntOverloadGlobal; CntOverloadPartition] in
  (m.1 = CntRejections ∧ m.2 = [] ∧ resp_status r = 401) ∨
  (m.1 ∈ refusals ∧ 400 ≤ resp_status r ∧ ∃ identity reason detail,
     m.2 = [emitted identity (re_trace_id env) (denied_audit reason detail)]) ∨
  (m.1 ∉ refusals ∧ ∃ identity meta outcome,
     m.2 = emitted identity (re_trace_id env) <$> [usage_of meta outcome; allowed_audit]).

(** A step that leaves no mark, and one that leaves a given one. *)
Definition silent s s1 : Prop := as_metrics s1 = as_metrics s ∧ as_events s1 = as_events s.
Definition marked s (m : Mark) s1 : Prop :=
  (∀ k, m_counters (as_metrics s1) k = m_counters (count_one m.1 (as_metrics s)) k) ∧
  as_events s1 = (λ l, l ++ m.2) <$> as_events s.

(** A denial counted and audited. *)
Lemma refusal_marked env s s1 r c identity reason detail :
  c ∈ [CntRejections; CntOverloadGlobal; CntOverloadPartition] → 400 ≤ resp_status r →
  as_metrics s1 = count_one c (as_metrics s) →
  as_events s1 = (λ l, l ++ [emitted identity (re_trace_id env) (denied_audit reason detail)])
                   <$> as_events s →
  ∃ m, mark_of env r m ∧ marked s m s1.
Proof.
  intros Hc Hr Hm He. exists (c, [emitted identity (re_trace_id env) (denied_audit reason detail)]).
  split; [right; left; split_and!; [done..|eauto]|]. split; [intros k; by rewrite Hm|done].
Qed.

Lemma enforce_quota_marks env s identity meta :
  match enforce_quota s identity (re_trace_id env) meta with
  | (Ok _, s1) => silent s s1
  | (Err r, s1) => ∃ m, mark_of env r m ∧ marked s m (set_metrics s1 record_rejection)
  end.
Proof.
  unfold enforce_quota. destruct (as_trusted s) as [tr|]; [|done]. destruct identity as [id|]; [|done].
  destruct (tr_quota tr) as [q|]; [|done]. destruct (ti_tenant id) as [tenant|]; [|done].
  destruct (quota_admit q tenant (ti_plan id)) as [[g|e] q1]; [done|].
  eapply (refusal_marked env s _ _ CntRejections); try done. set_solver.
Qed.

(** A request is silent until its response is computed, which leaves one mark. *)
Lemma advance_marks env out ph s :
  match advance env out ph s with
  | (Some (Answered r _), s1) => ∃ m, mark_of env r m ∧ marked s m s1
  | (_, s1) => silent s s1
  end.
Proof.
  destruct ph as [headers payload|pr|pr g|pr g w|pr g w p|pr g p task|pr g task|r g]; simpl.
  - pose proof (front_ends env s headers payload) as Hf.
    destruct (front env s headers payload) as [[pr|r] s1]; [by subst|].
    destruct Hf as [[-> Hr]|(Hr & identity & reason & detail & ->)].
    + exists (CntRejections, []). split; [by left|]. split; [done|]. simpl.
      destruct (as_events s); simpl; [by rewrite app_nil_r|done].
    + eapply (refusal_marked env s _ _ CntRejections); try done. set_solver.
  - pose proof (enforce_quota_marks env s (pr_identity pr) (error_meta env pr)) as Hq.
    by destruct (enforce_quota s _ _ _) as [[g|r] s1].
  - unfold open_egress. destruct (io_any _); [|done].
    destruct (et_connect (as_transport s) _) as [[w|err] t]; [done|].
    eapply (refusal_marked env s _ _ CntRejections); try done; [set_solver|apply session_error_status].
  - unfold admit_request. pose proof (acquire_permits_spec s (pr_partition pr)) as Hp.
    destruct (acquire_permits s (pr_partition pr)) as [[p| |] s1];
      destruct Hp as (_ & _ & _ & Hm & He & _); [done|..].
    + eapply (refusal_marked env s _ _ CntOverloadPartition); simpl; rewrite ?Hm, ?He; done || set_solver.
    + eapply (refusal_marked env s _ _ CntOverloadGlobal); simpl; rewrite ?Hm, ?He; done || set_solver.
  - by destruct out as [[task h] n].
  - done.
  - pose proof (build_response_state s task (exec_meta env pr) (pr_identity pr)) as Hb.
    destruct (build_response s task (exec_meta env pr) (pr_identity pr)) as [r s1].
    destruct Hb as (_ & meta' & outcome & c & Hc & _ & Hk & Hev).
    exists (c, emitted (pr_identity pr) (re_trace_id env) <$> [usage_of meta' outcome; allowed_audit]).
    split; [right; right; simpl; eauto|by split].
  - unfold drop_quota. by destruct g, (as_trusted s).
Qed.
Lemma leave_silent t ph s s1 task : leave t ph s = Some (s1, task) → silent s s1.
Proof.
  destruct ph as [headers payload|pr|pr g|pr g w|pr g w p|pr g p t0|pr g t0|r g]; simpl; try done.
  - destruct (io_any _); [|done]. intros [= <- <-]. unfold drop_quota. simpl.
    by destruct g, (as_trusted s).
  - intros [= <- <-]. unfold drop_quota. simpl. by destruct g, (as_trusted s).
Qed.

(** The marks of the responses so far account for every counter and every event. *)
Definition ledger (s0 : State) b (marks : list Mark) : Prop :=
  Forall2 (λ x m, mark_of x.1 x.2 m) (bx_responses b) marks ∧
  (∀ k, m_counters (as_metrics (bx_app b)) k =
        fetch_add_u64 (m_counters (as_metrics s0) k) (Z.of_nat (count_if (λ m, m.1 = k) marks))) ∧
  as_events (bx_app b) = (λ l, l ++ concat (snd <$> marks)) <$> as_events s0.

Lemma ledger_silent s0 b b1 marks :
  bx_responses b1 = bx_responses b → silent (bx_app b) (bx_app b1) → ledger s0 b marks →
  ledger s0 b1 marks.
Proof. intros Hr [Hm He]. unfold ledger. by rewrite Hr, Hm, He. Qed.
Lemma ledger_marked s0 b b1 env r m marks :
  bx_responses b1 = bx_responses b ++ [(env, r)] → mark_of env r m →
  marked (bx_app b) m (bx_app b1) → ledger s0 b marks → ledger s0 b1 (marks ++ [m]).
Proof.
  intros Hr Hm [Hk He] (Hall & Hcnt & Hev). split_and!.
  - rewrite Hr. apply Forall2_app; [done|]. by constructor.
  - intros k. rewrite Hk, count_if_app, count_if_cons, count_if_nil. simpl.
    destruct (decide (k = m.1)) as [->|Hne].
    + rewrite decide_True, Hcnt by done. unfold fetch_add_u64.
      rewrite Zplus_mod_idemp_l. f_equal. lia.
    + rewrite decide_False, Hcnt by done. f_equal. lia.
  - rewrite He, Hev. destruct (as_events s0) as [l|]; simpl; [|done].
    by rewrite fmap_app, concat_app, <-app_assoc; simpl; rewrite app_nil_r.
Qed.

(** Where the requests that arrived are: answered, in flight, or given up by their client. *)
Definition accounted (arrived : nat) b : Prop :=
  (length (bx_responses b) + pending b + bx_left b = arrived)%nat.

Lemma advance_not_answered env out ph s next s1 :
  advance env out ph s = (next, s1) →
  (answered ph = true ↔ next = None).
Proof.
  destruct ph as [headers payload|pr|pr g|pr g w|pr g w p|pr g p task|pr g task|r g]; simpl; intros Ha;
    destruct_matches; simplify_eq; split; done.
Qed.

(** One step of the box: at most one mark, and no request lost. *)
Lemma box_step_ledger s0 b op b1 marks arrived :
  box_step b op = Some b1 → ledger s0 b marks → accounted arrived b →
  (∃ marks1, ledger s0 b1 marks1) ∧ accounted (Nat.b2n (is_arrival op) + arrived) b1.
Proof.
  intros Hstep Hl Hacc. unfold accounted, pending in *.
  destruct op as [env headers payload|i out|i t|h n]; simpl in Hstep.
  - injection Hstep as <-. split; [by exists marks|]. simpl.
    rewrite count_if_app, count_if_cons, count_if_nil. simpl. lia.
  - destruct (bx_live b !! i) as [[env ph]|] eqn:Hi; [|done]. simpl in Hstep.
    pose proof (advance_marks env out ph (bx_app b)) as Hm.
    destruct (advance env out ph (bx_app b)) as [next s1] eqn:Ea. injection Hstep as <-.
    apply advance_not_answered in Ea. rewrite (count_if_delete _ _ _ _ Hi) in Hacc. simpl in *.
    destruct next as [ph1|].
    + rewrite (count_if_insert _ _ _ _ _ Hi). simpl.
      rewrite decide_True in Hacc by (destruct (answered ph); [discriminate (proj1 Ea eq_refl)|done]).
      destruct ph1; simpl in *; try (split; [exists marks; by apply (ledger_silent s0 b)|lia]).
      destruct Hm as (m & Hm1 & Hm2). split; [eexists; by apply (ledger_marked s0 b _ env response m)|].
      rewrite length_app. simpl. lia.
    + rewrite decide_False in Hacc by (intros Hn; by rewrite (proj2 Ea) in Hn).
      split; [exists marks; by apply (ledger_silent s0 b)|lia].
  - destruct (bx_live b !! i) as [[env ph]|] eqn:Hi; [|done]. simpl in Hstep.
    destruct (leave t ph (bx_app b)) as [[s1 task]|] eqn:El; [|done]. injection Hstep as <-.
    rewrite (count_if_delete _ _ _ _ Hi) in Hacc. simpl in *. pose proof (leave_silent _ _ _ _ _ El).
    rewrite decide_True in Hacc by (by destruct ph). split; [exists marks; by apply (ledger_silent s0 b)|lia].
  - destruct (bx_orphans b) as [|k]; [done|]. injection Hstep as <-. by split; [exists marks|].
Qed.
Lemma box_run_ledger s0 ops b b1 marks arrived :
  box_run b ops = Some b1 → ledger s0 b marks → accounted arrived b →
  (∃ marks1, ledger s0 b1 marks1) ∧
  accounted (count_if (λ op, is_arrival op = true) ops + arrived) b1.
Proof.
  revert b marks arrived. induction ops as [|op ops IH]; simpl; intros b marks arrived Hrun Hl Ha.
  { simplify_eq. eauto. }
  destruct (box_step b op) as [b2|] eqn:Es; [|done]. simpl in Hrun.
  destruct (box_step_ledger _ _ _ _ _ _ Es Hl Ha) as [[m2 Hl2] Ha2].
  destruct (IH _ _ _ Hrun Hl2 Ha2) as [Hm Hacc]. split; [done|]. revert Hacc. unfold accounted.
  rewrite count_if_cons. destruct (is_arrival op); simpl; lia.
Qed.
Lemma fresh_ledger capacity s : fresh capacity s → ledger s (box_new s) [].
Proof.
  intros [_ _ _ Hm]. split_and!; simpl; [done| |].
  - intros k. by rewrite Hm.
  - destruct (as_events s); simpl; [by rewrite app_nil_r|done].
Qed.

(** ** Progress *)

Lemma advance_remaining env out ph s next s1 :
  advance env out ph s = (next, s1) → (from_option remaining 0 next < remaining ph)%nat.
Proof.
  destruct ph as [headers payload|pr|pr g|pr g w|pr g w p|pr g p task|pr g task|r g]; simpl; intros Ha;
    destruct_matches; simplify_eq/=; lia.
Qed.
Lemma advance_works b i out b1 :
  box_step b (OAdvance i out) = Some b1 → (S (work b1) ≤ work b)%nat.
Proof.
  simpl. destruct (bx_live b !! i) as [[env ph]|] eqn:Hi; [|done]. simpl.
  destruct (advance env out ph (bx_app b)) as [next s1] eqn:Ea. intros [= <-].
  apply advance_remaining in Ea. unfold work. simpl.
  destruct next as [ph1|]; simpl in *.
  - pose proof (sum_list_with_insert (λ x, remaining x.2) _ i _ (env, ph1) Hi). simpl in *. lia.
  - rewrite (delete_Permutation _ _ _ Hi) at 2. simpl. lia.
Qed.
Lemma work_bounds b : (length (bx_live b) ≤ work b ≤ 8 * length (bx_live b))%nat.
Proof.
  unfold work. induction (bx_live b) as [|[env ph] l IH]; simpl; [lia|].
  assert (1 ≤ remaining ph ≤ 8)%nat by (destruct ph; simpl; lia). lia.
Qed.
End ledger.

(** ** A request that runs alone *)

Section solo.
Context {jt : JsonText} {ct : ConstantTimeEq} {H V : Type} {hdrs : Headers H V}.
Context {hasher : StdHasher} {Sem : Type} {sem : Semaphore Sem}.
Context {Cache : Type} {moka : Moka Cache (list ascii)} {sha : Sha256}.
Context {Ctx Fn JsVal Mod : Type} {compiler : ModuleCompiler Mod Caught}
  {js : QuickJs Ctx Fn JsVal Mod}.
Context {Q R : Type} {aq : ArrayQueue Q R} (create_runtime : result R string).
Context {Transport Session : Type} {et : EgressTransport Transport Session}.
Context {Net : Type} {net : NetLib Net}.
Local Abbreviation State := (AppState Q Cache Sem Transport Net).
Local Abbreviation Env := (RequestEnv (LogicHost Q Cache) Net).
Local Abbreviation Ph := (ReqPhase H Session).
Implicit Types (s : State) (env : Env) (ph : Ph) (b : Box H Sem Cache Q Transport Session Net).

(** [n] advances in a row that end the request: the responses computed, and the state left. *)
Fixpoint solo (n : nat) env (out : TaskLeft) ph s : option (list Response * State) :=
  match n with
  | O => None
  | S n =>
      match advance env out ph s with
      | (None, s1) => match n with O => Some ([], s1) | S _ => None end
      | (Some ph1, s1) =>
          '(rs, s2) ← solo n env out ph1 s1;
          Some (match ph1 with Answered r _ => r :: rs | _ => rs end, s2)
      end
  end.

(** The box runs the last request as if it were alone. *)
Lemma solo_run n env out ph b live rs s1 :
  bx_live b = live ++ [(env, ph)] → solo n env out ph (bx_app b) = Some (rs, s1) →
  box_run b (replicate n (OAdvance (length live) out)) =
  Some {| bx_app := s1; bx_live := live; bx_responses := bx_responses b ++ (pair env <$> rs);
          bx_left := bx_left b; bx_orphans := bx_orphans b |}.
Proof.
  revert ph b rs. induction n as [|n IH]; intros ph b rs Hl Hs; [done|]. simpl in *.
  rewrite Hl, list_lookup_middle by done. simpl.
  destruct (advance env out ph (bx_app b)) as [[ph1|] s2].
  - simpl. destruct (solo n env out ph1 s2) as [[rs2 s3]|] eqn:E; [|done].
    simpl in Hs. injection Hs as <- <-.
    erewrite (IH ph1 _ rs2); simpl; [|by rewrite insert_app_r_alt, Nat.sub_diag by done|exact E].
    destruct ph1; simpl; by rewrite <-?app_assoc.
  - destruct n; [|done]. injection Hs as <- <-. simpl.
    by rewrite delete_middle, !app_nil_r.
Qed.

(** [run_execute] is such a row. *)
Lemma solo_execute env s headers payload :
  ∃ n out, (n ≤ 8)%nat ∧ solo n env out (Arrived headers payload) s =
    Some ([(run_execute create_runtime env s headers payload).1],
          (run_execute create_runtime env s headers payload).2).
Proof.
  set (idle := (Err EmptyString, as_host s, as_net s) : TaskLeft).
  unfold run_execute. destruct (front env s headers payload) as [[pr|r] s1] eqn:Ef;
    [|exists 2%nat, idle; split; [lia|]; simpl; by rewrite Ef].
  destruct (enforce_quota s1 (pr_identity pr) (re_trace_id env) (error_meta env pr))
    as [[g|r] s2] eqn:Eq; [|exists 3%nat, idle; split; [lia|]; simpl; by rewrite Ef; simpl; rewrite Eq].
  unfold run_guarded. destruct (open_egress s2 pr) as [[w|err] s3] eqn:Eo;
    [|exists 4%nat, idle; split; [lia|]; simpl; by rewrite Ef; simpl; rewrite Eq; simpl; rewrite Eo].
  unfold run_admitted. destruct (admit_request s3 (pr_partition pr) (error_meta env pr))
    as [[p|r] s4] eqn:Ea;
    [|exists 5%nat, idle; split; [lia|]; simpl; rewrite Ef; simpl; rewrite Eq; simpl; rewrite Eo;
      simpl; by rewrite Ea].
  destruct (run_task create_runtime env s4 pr w) as [task s5] eqn:Et.
  exists 8%nat, (task, as_host s5, as_net s5). split; [lia|]. simpl. rewrite Ef. simpl. rewrite Eq.
  simpl. rewrite Eo. simpl. rewrite Ea. simpl.
  assert (set_host_net s4 (as_host s5) (as_net s5) = s5) as ->.
  { revert Et. unfold run_task. destruct (re_task env) as [|e h n].
    - destruct (host_run _ _ _ _) as [[o h1] [w1 n1]]. by intros [= _ <-].
    - by intros [= _ <-]. }
  unfold exec_meta. by destruct (build_response (drop_permits p s5) task _ (pr_identity pr)).
Qed.
End solo.

(** ** Properties *)

Section properties.
Context {jt : JsonText} {ct : ConstantTimeEq} {H V : Type} {hdrs : Headers H V}.
Context {hasher : StdHasher} {Sem : Type} {sem : Semaphore Sem} {Cache Q : Type}.
Context {Transport Session : Type} {et : EgressTransport Transport Session} {Net : Type}.
Local Abbreviation State := (AppState Q Cache Sem Transport Net).
Local Abbreviation BoxT := (Box H Sem Cache Q Transport Session Net).
Local Abbreviation Op := (BoxOp H Cache Q Transport Net).
Implicit Types (b : BoxT).

(** Blocking tasks running: those awaited, and those left behind. *)
Definition tasks_running b : nat :=
  count_if (λ x, match x.2 with Executing _ _ _ _ => true | _ => false end = true) (bx_live b) + bx_orphans b.

Lemma tasks_held b : (tasks_running b ≤ permits_held b + bx_orphans b)%nat.
Proof.
  unfold tasks_running, permits_held. apply Nat.add_le_mono_r.
  induction (bx_live b) as [|[env ph] l IH]; [done|]. rewrite !count_if_cons. simpl.
  destruct ph; simpl; lia.
Qed.

(** The partition permits out and free, bucket by bucket. *)
Lemma part_sim_balanced count per l0 l held :
  PartitionLimiter_new count per = Some l0 → part_sim (Some l0) (Some l) held →
  length (buckets l) = count ∧
  (∀ i sm, buckets l !! i = Some sm →
     (available_permits sm + count_if (λ kp, permit_bucket kp.2 = i) held = per)%nat) ∧
  ∀ k, (count_if (λ kp, kp.1 = k) held ≤ per)%nat.
Proof.
  intros Hnew (live & Hr & Hl). pose proof (preach_balanced _ _ _ _ Hnew Hr) as Hbal.
  pose proof (new_balanced _ _ _ Hnew) as (Hc & _). pose proof Hbal as (Hlen & Hsum & _). simpl in *.
  split_and!; [done| |].
  - intros i sm Hi. rewrite <-(count_if_Permutation _ _ _ Hl). by apply Hsum.
  - intros k. rewrite <-(count_if_Permutation _ _ _ Hl).
    etrans; [exact (of_key_le_bucket _ _ _ k Hbal)|].
    assert (buckets l ≠ []) as Hne by (intros He; rewrite He in Hlen; simpl in Hlen; lia).
    destruct (lookup_lt_is_Some_2 (buckets l) (bucket_for l k)) as [sm Hsm]; [by apply bucket_for_lt|].
    specialize (Hsum _ _ Hsm). simpl. lia.
Qed.
(** With none out, the free permits are those of a new limiter. *)
Lemma part_sim_idle count per l0 l :
  PartitionLimiter_new count per = Some l0 → part_sim (Some l0) (Some l) [] →
  available_permits <$> buckets l = available_permits <$> buckets l0.
Proof.
  intros Hnew Hs. assert (part_sim (Some l0) (Some l0) []) as Hs0 by (exists []; split; [constructor|done]).
  destruct (part_sim_balanced _ _ _ _ _ Hnew Hs) as (Hlen & Hsum & _).
  destruct (part_sim_balanced _ _ _ _ _ Hnew Hs0) as (Hlen0 & Hsum0 & _).
  apply list_eq. intros i. rewrite !list_lookup_fmap.
  destruct (buckets l !! i) as [a|] eqn:Ea, (buckets l0 !! i) as [c|] eqn:Ec; simpl; [|..|done].
  - specialize (Hsum _ _ Ea). specialize (Hsum0 _ _ Ec). rewrite count_if_nil in *. f_equal. lia.
  - apply lookup_lt_Some in Ea. apply lookup_ge_None in Ec. lia.
  - apply lookup_lt_Some in Ec. apply lookup_ge_None in Ea. lia.
Qed.

(** The quota table of the live guards. *)
Lemma quota_sim_exact t0 tr q held t :
  quota_sim t0 (Some tr) held → tr_quota tr = Some q →
  let n := count_if (λ g, qg_tenant g = t) held in
  tq_inflight q !! t = (if decide (n = 0%nat) then None else Some (Z.of_nat n)) ∧
  ∀ L, 0 ≤ L → (∀ plan, limit_for (tq_limits q) plan ≤ L) → Z.of_nat n ≤ L.
Proof.
  intros Hs Hq. unfold quota_sim in Hs. destruct t0 as [tr0|]; [|done]. rewrite Hq in Hs.
  destruct Hs as (_ & _ & Hs). destruct (tr_quota tr0) as [q0|]; [|done].
  destruct Hs as (plans & ops & live & Hwf & -> & Hr & Hl).
  pose proof (qreach_counts _ _ _ Hwf Hr t) as Hc. unfold Quota.live in Hc. simpl in *.
  rewrite <-(count_if_Permutation _ _ _ Hl). split; [exact Hc|]. intros L HL Hlim.
  pose proof (qreach_limits _ _ _ Hr) as Hpl. simpl in Hpl. rewrite Hpl in Hlim.
  apply (qreach_bound plans ops _ t L Hwf Hr HL). intros plan _. apply Hlim.
Qed.
Lemma quota_sim_idle t0 t : quota_sim t0 t [] → t = t0.
Proof.
  unfold quota_sim. destruct t0 as [[h0 e0 q0]|], t as [[h e q]|]; simpl; try done.
  intros (-> & -> & Hq). do 2 f_equal. destruct q0 as [q0|], q as [q|]; try done.
  destruct Hq as (plans & ops & live & Hwf & -> & Hr & Hl). f_equal.
  pose proof (qreach_limits _ _ _ Hr) as Hpl. pose proof (qreach_counts _ _ _ Hwf Hr) as Hc.
  apply Permutation_nil_r in Hl as ->. destruct q as [lim tab]. simpl in *. subst lim.
  unfold TenantQuota_new. f_equal. apply map_eq. intros k. rewrite lookup_empty. exact (Hc k).
Qed.

(** A box with nothing in flight is as it booted. *)
Lemma box_idle_resources capacity (s0 : State) (ops : list Op) b :
  fresh capacity s0 → box_run (box_new s0) ops = Some b → bx_live b = [] →
  resources (bx_app b) = resources s0.
Proof.
  intros Hfresh Hrun Hidle.
  destruct (box_run_refines _ _ _ _ _ Hrun (fresh_refines _ _ Hfresh)) as ((bops & Hb & _) & Hp & Hq).
  destruct (breach_balance _ _ _ Hb) as [Hbal _]. unfold permits_held, partitions_held, guards_held in *.
  rewrite Hidle in *. simpl in *. unfold resources. f_equal; [f_equal|].
  - rewrite (fresh_limiter _ _ Hfresh), available_new. rewrite count_if_nil in Hbal. lia.
  - unfold part_sim in Hp. pose proof (fresh_partition _ _ Hfresh) as Hnew. unfold free_buckets.
    destruct (as_partition_limiter s0) as [l0|], (as_partition_limiter (bx_app b)) as [l|]; try done.
    simpl. f_equal. destruct (Hnew _ eq_refl) as (count & per & Hc). by eapply part_sim_idle.
  - by apply quota_sim_idle.
Qed.

(** C5: overlapping requests share the box's resources exactly.  However the operations of any number
    of requests interleave, whatever their tasks end with and whenever clients disconnect, the free
    bulkhead permits and the requests holding one add up to the capacity; in every partition bucket
    the free permits and those held add up to its size, so no key has more than its share inside; a
    tenant's quota entry counts exactly its live guards, within the limit of the plans; the tasks
    running exceed the capacity by no more than the clients that left; and once no request is in
    flight, every resource is as the box booted with it. *)
Theorem box_accounts (capacity : nat) (s0 : State) (ops : list Op) (b : BoxT)
    (Hfresh : fresh capacity s0) (Hrun : box_run (box_new s0) ops = Some b) :
  (available_permits (as_limiter (bx_app b)) + permits_held b = capacity)%nat ∧
  (tasks_running b ≤ capacity + bx_left b)%nat ∧
  (∀ count per l0, as_partition_limiter s0 = Some l0 → PartitionLimiter_new count per = Some l0 →
     ∃ l, as_partition_limiter (bx_app b) = Some l ∧ length (buckets l) = count ∧
     (∀ i sm, buckets l !! i = Some sm →
        (available_permits sm + count_if (λ kp, permit_bucket kp.2 = i) (partitions_held b) = per)%nat) ∧
     ∀ k, (count_if (λ kp, kp.1 = k) (partitions_held b) ≤ per)%nat) ∧
  (∀ tr q t, as_trusted (bx_app b) = Some tr → tr_quota tr = Some q →
     let n := count_if (λ g, qg_tenant g = t) (guards_held b) in
     tq_inflight q !! t = (if decide (n = 0%nat) then None else Some (Z.of_nat n)) ∧
     ∀ L, 0 ≤ L → (∀ plan, limit_for (tq_limits q) plan ≤ L) → Z.of_nat n ≤ L) ∧
  (bx_live b = [] → resources (bx_app b) = resources s0).
Proof.
  destruct (box_run_refines _ _ _ _ _ Hrun (fresh_refines _ _ Hfresh)) as ((bops & Hb & Hd) & Hp & Hq).
  destruct (breach_balance _ _ _ Hb) as [Hbal Horph]. simpl in *. split_and!.
  - done.
  - pose proof (tasks_held b). lia.
  - intros count per l0 Hl0 Hnew. rewrite Hl0 in Hp.
    destruct (as_partition_limiter (bx_app b)) as [l|]; [|done].
    exists l. split; [done|]. by eapply part_sim_balanced.
  - intros tr q t Ht Htq. rewrite Ht in Hq. by eapply quota_sim_exact.
  - by eapply box_idle_resources.
Qed.
(** C6: every response leaves exactly one mark, and nothing else does.  In every interleaving the
    responses computed, the requests still without one and those whose client left account for every
    request that arrived; each response has one mark, a silent rejection (401), a refusal with one
    denied audit event, or an execution with its usage and one allowed audit event, under the
    request's own trace id; and every counter, and the events handed to the sink, are those of the
    marks and no more.  A request given up by its client is in neither. *)
Theorem box_ledger (capacity : nat) (s0 : State) (ops : list Op) (b : BoxT)
    (Hfresh : fresh capacity s0) (Hrun : box_run (box_new s0) ops = Some b) :
  (length (bx_responses b) + pending b + bx_left b =
   count_if (λ op, is_arrival op = true) ops)%nat ∧
  ∃ marks : list Mark,
    Forall2 (λ x m, mark_of x.1 x.2 m) (bx_responses b) marks ∧
    (∀ k, m_counters (as_metrics (bx_app b)) k =
          (Z.of_nat (count_if (λ m, m.1 = k) marks)) mod 2 ^ 64) ∧
    as_events (bx_app b) = (λ l, l ++ concat (snd <$> marks)) <$> as_events s0.
Proof.
  destruct (box_run_ledger s0 ops _ b [] 0 Hrun (fresh_ledger _ _ Hfresh) eq_refl)
    as [(marks & Hall & Hk & He) Hacc].
  unfold accounted in Hacc. rewrite Nat.add_0_r in Hacc. split; [exact Hacc|]. exists marks.
  split_and!; [done| |done]. intros k. rewrite Hk, (fresh_metrics _ _ Hfresh). by unfold fetch_add_u64.
Qed.

End properties.

Section atomic.
Context {jt : JsonText} {ct : ConstantTimeEq} {H V : Type} {hdrs : Headers H V}.
Context {hasher : StdHasher} {Sem : Type} {sem : Semaphore Sem}.
Context {Cache : Type} {moka : Moka Cache (list ascii)} {sha : Sha256}.
Context {Ctx Fn JsVal Mod : Type} {compiler : ModuleCompiler Mod Caught}
  {js : QuickJs Ctx Fn JsVal Mod}.
Context {Q R : Type} {aq : ArrayQueue Q R} (create_runtime : result R string).
Context {Transport Session : Type} {et : EgressTransport Transport Session}.
Context {Net : Type} {net : NetLib Net}.
Local Abbreviation Env := (RequestEnv (LogicHost Q Cache) Net).

End atomic.

(** ** Witnesses *)

#[local] Existing Instances plain_eq plain_headers length_hasher nat_semaphore object_json demo_egress.

Lemma demo_fresh : fresh 1 demo_state.
Proof.
  constructor; [reflexivity| | |reflexivity].
  - intros l [= <-]. exists 2%nat, 1%nat. reflexivity.
  - intros tr q [= <-] [= <-]. exists demo_plans. split; [apply demo_plans_wf|reflexivity].
Qed.

(** A request reaches its task, its client leaves, and a second request takes the permit. *)
Definition demo_left : TaskLeft (Cache := unit) (Q := nat * list unit) (Net := DemoNet) :=
  (Err "gone", as_host demo_state, as_net demo_state).
Definition demo_ops : list (BoxOp (list (string * string)) unit (nat * list unit) unit DemoNet) :=
  [OArrive demo_env demo_headers (Ok demo_request)] ++ replicate 4 (OAdvance 0 demo_left) ++
  [OLeave 0 (); OArrive demo_env demo_headers (Ok demo_request)] ++
  replicate 4 (OAdvance 0 demo_left) ++ [OArrive demo_env [] (Ok demo_request); OAdvance 1 demo_left].
Definition demo_box : Box (list (string * string)) nat unit (nat * list unit) unit (list string) DemoNet :=
  default (box_new demo_state) (box_run (box_new demo_state) demo_ops).
Lemma demo_box_run : box_run (box_new demo_state) demo_ops = Some demo_box.
Proof. vm_compute. reflexivity. Qed.

Lemma box_accounts_witness :
  (available_permits (as_limiter (bx_app demo_box)) + permits_held demo_box = 1)%nat ∧
  permits_held demo_box = 1%nat ∧ tasks_running demo_box = 2%nat ∧
  (tasks_running demo_box ≤ 1 + bx_left demo_box)%nat.
Proof.
  destruct (box_accounts 1 demo_state demo_ops demo_box demo_fresh demo_box_run) as (Hfree & Htasks & _).
  split; [exact Hfree|]. split; [vm_compute; reflexivity|]. split; [vm_compute; reflexivity|].
  exact Htasks.
Defined.

Lemma box_ledger_witness :
  (length (bx_responses demo_box) + pending demo_box + bx_left demo_box = 3)%nat ∧
  bx_left demo_box = 1%nat ∧ m_counters (as_metrics (bx_app demo_box)) CntRejections = 1.
Proof.
  destruct (box_ledger 1 demo_state demo_ops demo_box demo_fresh demo_box_run) as (Hacc & _).
  split; [exact Hacc|]. split; vm_compute; reflexivity.
Defined.
