(* ===== verification/System.v ===== *)
(** * System: the whole box over the wire

    Joins the request pipeline ([Handler]) to the daemon ([Fabricd]) through the sidecar client
    ([Sidecar]): a request executed with its egress in another process, behind sockets and frames,
    against the same request executed with the session's backends in the box itself.  The first part
    is the simulation that carries a change of egress through the engine and the host. *)

From Stdlib Require Import Ascii.
From S2P Require Import Prelude Json Errors Wire Resources Backends Fabricd Sidecar EndToEnd Identity Quota.
From S2P Require Import Partition Bytecode Ssrf Http S3 Sys EngineConfig Engine Js Wrappers ScriptPath Registry Pool Host Metrics Events Handler.
Local Open Scope Z_scope.

(** ** Answers *)

(** What a handler ends with, [json(data, error)], is the body of the response; a part left out is
    null. *)
Definition or_null (v : JsValue) : JsValue := match v with JsUndefined => JsNull | _ => v end.
Lemma answer_delivered `{!JsonText} `{!JsJson} (data error : JsValue) (meta : Meta) (error_debug : bool) :
  portable (doc (or_null data)) → portable (doc (or_null error)) →
  (json_depth (doc (or_null data)) < RECURSION_LIMIT)%nat →
  (json_depth (doc (or_null error)) < RECURSION_LIMIT)%nat →
  success_response (js_json data error) meta error_debug =
  {| resp_status := 200; resp_body := BodyPassthrough (doc (or_null data)) (doc (or_null error));
     resp_meta := meta |}.
Proof.
  intros [_ Hd] [_ He] Hdd Hde.
  set (v := VObject [("data", doc (or_null data)); ("error", doc (or_null error))]).
  assert (js_json data error = js_print v) as -> by (by destruct data, error).
  unfold success_response, from_str. rewrite js_print_parse; [done|]. split.
  - unfold v. simpl. unfold RECURSION_LIMIT in *. lia.
  - unfold v. cbn [plain_numbers forallb snd]. by rewrite Hd, He.
Qed.

(** ** Sessions *)

(** A script that is given a driver's global has a session behind it. *)
Lemma gates_backed {Q Cache Sem Transport Session Net : Type} {et : EgressTransport Transport Session}
    (s s1 : AppState Q Cache Sem Transport Net) (pr : Prepared) (session : option Session) :
  open_egress s pr = (Ok session, s1) →
  (let g := io_gates (rq_io (pr_config pr)) in
   On ∈ [g_db g; g_mongo g; g_mail g; g_redis g; g_amq g; g_auth g]) →
  inv_egress (invocation pr session) = Some session_egress.
Proof.
  unfold open_egress, invocation. intros Ho Hg.
  assert (io_any (rq_io (pr_config pr)) = true) as Hany.
  { unfold io_any. destruct (rq_io (pr_config pr)) as [[] [] [] [] [] []]; try done.
    simpl in Hg. set_solver. }
  rewrite Hany in Ho. by destruct (et_connect _ _) as [[conn|err] t]; simplify_eq/=.
Qed.

(** ** Executions under another egress *)

Definition Port (World : Type) : Type := string → string → string → World → result string EgressError * World.

(** The same execution with another egress, over another world. *)
Definition rehost {W1 W2} (p : ExecParams W1) (eg : Port W2) : ExecParams W2 :=
  {| ep_cache_namespace := ep_cache_namespace p; ep_script := ep_script p;
     ep_context_json := ep_context_json p; ep_timeout_ms := ep_timeout_ms p; ep_profile := ep_profile p;
     ep_caps := ep_caps p; ep_read_hook := ep_read_hook p; ep_egress := Some eg; ep_max_ops := ep_max_ops p;
     ep_max_output_size := ep_max_output_size p; ep_allow_private_targets := ep_allow_private_targets p;
     ep_wildcard_hosts_allowed := ep_wildcard_hosts_allowed p |}.
Definition in_world {W1 W2 Net} (st : HostState W1 Net) (w : W2) : HostState W2 Net :=
  {| hs_effects := hs_effects st; hs_used := hs_used st; hs_world := w; hs_http := hs_http st;
     hs_s3 := hs_s3 st; hs_net := hs_net st; hs_uuids := hs_uuids st |}.

Section simulation.
Context {jt : JsonText} {sha : Sha256} {W1 W2 Net : Type} {net : NetLib Net}.
Context {Cache : Type} {moka : Moka Cache (list ascii)}.
Context {Ctx Fn JsVal Mod : Type} {compiler : ModuleCompiler Mod Caught} {js : QuickJs Ctx Fn JsVal Mod}.
(** Two egresses that answer alike on related worlds, as long as the first world stays within [Within],
    which a later world has only if every earlier one had it. *)
Context (eg1 : Port W1) (eg2 : Port W2) (Related : W1 → W2 → Prop) (Within : W1 → Prop).
Context (Hback : ∀ n a b w, Within (eg1 n a b w).2 → Within w).
Context (Halike : ∀ n a b w1 w2, Related w1 w2 → Within (eg1 n a b w1).2 →
  ∃ w2', eg2 n a b w2 = ((eg1 n a b w1).1, w2') ∧ Related (eg1 n a b w1).2 w2').
Implicit Types (st : HostState W1 Net) (p : ExecParams W1) (cache : option (BytecodeCache Cache)).

Lemma host_call_within p c st : ep_egress p = Some eg1 →
  Within (hs_world (host_call (host_env p) c st).2) → Within (hs_world st).
Proof.
  intros He. destruct c as [v|a|n a b|m u b h|a b|d o b|o l r]; cbn [host_call].
  - unfold native_emit. by case_decide.
  - by destruct (he_read _).
  - unfold host_env at 1. cbn [he_egress]. rewrite He. case_decide; [|done]. unfold native_io.
    case_decide; [done|]. pose proof (Hback n a b (hs_world st)) as Hb. by destruct (eg1 n a b (hs_world st)).
  - destruct (he_http _) as [[[hosts priv] wild]|]; [|done].
    by destruct (native_http _ _ _ _ _ _ _ _ _ _) as [[? ?] ?].
  - destruct (he_s3 _) as [[config priv]|]; [|done]. by destruct (native_s3 _ _ _ _ _ _ _) as [[? ?] ?].
  - by destruct (native_sys _ _ _ _ _ _).
  - done.
Qed.

Lemma host_call_alike p c st w2 : ep_egress p = Some eg1 → Related (hs_world st) w2 →
  Within (hs_world (host_call (host_env p) c st).2) →
  ∃ w2', host_call (host_env (rehost p eg2)) c (in_world st w2) =
           ((host_call (host_env p) c st).1, in_world (host_call (host_env p) c st).2 w2') ∧
         Related (hs_world (host_call (host_env p) c st).2) w2'.
Proof.
  intros He Hr. destruct c as [v|a|n a b|m u b h|a b|d o b|o l r]; cbn [host_call]; intros Hw.
  - exists w2. unfold native_emit in *. simpl in *. by case_decide.
  - exists w2. unfold host_env. simpl. by destruct (ep_read_hook p).
  - unfold host_env in *. cbn [he_egress rehost ep_egress ep_profile] in *. rewrite He in *.
    case_decide; [|by exists w2]. unfold native_io in *. cbn [he_max_ops rehost ep_max_ops hs_used in_world hs_world] in *.
    case_decide; [by exists w2|]. destruct (eg1 n a b (hs_world st)) as [r w1'] eqn:E1.
    destruct (Halike n a b (hs_world st) w2 Hr) as (w2' & H2 & Hr'); [by rewrite E1|].
    rewrite E1 in H2, Hr'. exists w2'. by rewrite H2.
  - exists w2. unfold host_env in *. simpl in *. case_decide; [|done].
    destruct (cs_allowed_hosts (ep_caps p)); [done|].
    by destruct (native_http _ _ _ _ _ _ _ _ _ _) as [[? ?] ?].
  - exists w2. unfold host_env in *. simpl in *. case_decide; [|done].
    destruct (cs_s3 (ep_caps p)); [|done]. simpl in *. by destruct (native_s3 _ _ _ _ _ _ _) as [[? ?] ?].
  - exists w2. unfold host_env in *. simpl in *. by destruct (native_sys _ _ _ _ _ _).
  - by exists w2.
Qed.

Lemma interp_within {A} p (prog : Prog A) st : ep_egress p = Some eg1 →
  Within (hs_world (interp (host_env p) prog st).2) → Within (hs_world st).
Proof.
  intros He. revert st. induction prog as [a|c k IH]; intros st; [done|]. simpl.
  pose proof (host_call_within p c st He) as Hc.
  destruct (host_call (host_env p) c st) as [a st1]. intros Hw. by apply Hc, (IH a).
Qed.

Lemma interp_alike {A} p (prog : Prog A) st w2 : ep_egress p = Some eg1 → Related (hs_world st) w2 →
  Within (hs_world (interp (host_env p) prog st).2) →
  ∃ w2', interp (host_env (rehost p eg2)) prog (in_world st w2) =
           ((interp (host_env p) prog st).1, in_world (interp (host_env p) prog st).2 w2') ∧
         Related (hs_world (interp (host_env p) prog st).2) w2'.
Proof.
  intros He. revert st w2. induction prog as [a|c k IH]; intros st w2 Hr Hw; [by exists w2|].
  simpl in *. pose proof (host_call_alike p c st w2 He Hr) as Hc.
  destruct (host_call (host_env p) c st) as [a st1].
  destruct Hc as (w1 & Hc & Hr1); [by eapply interp_within|]. rewrite Hc. by apply IH.
Qed.

Lemma injections_rehost p : ep_egress p = Some eg1 → injections (rehost p eg2) = injections p.
Proof. intros He. unfold injections, inject_apis. simpl. by rewrite He. Qed.

Lemma resolve_handler_alike p cache (ctx : Ctx) st w2 : ep_egress p = Some eg1 → Related (hs_world st) w2 →
  Within (hs_world (resolve_handler p cache ctx st).2) →
  ∃ w2', resolve_handler (rehost p eg2) cache ctx (in_world st w2) =
           ((resolve_handler p cache ctx st).1, in_world (resolve_handler p cache ctx st).2 w2') ∧
         Related (hs_world (resolve_handler p cache ctx st).2) w2'.
Proof.
  intros He Hr. unfold resolve_handler, eval_module.
  cbn [rehost ep_script ep_cache_namespace ep_profile]. destruct (is_es_module (ep_script p)).
  - destruct (obtain_declared cache (ep_cache_namespace p) (ep_script p)) as [[m|e] c1]; [|by exists w2].
    pose proof (interp_alike p (mod_eval ctx m) st w2 He Hr) as Hi.
    destruct (interp (host_env p) (mod_eval ctx m) st) as [[e ctx1] st1]. intros Hw.
    destruct (Hi Hw) as (w2' & Heq & Hr'). exists w2'. by rewrite Heq.
  - pose proof (interp_alike p (ctx_eval ctx (ep_script p)) st w2 He Hr) as Hi.
    destruct (interp (host_env p) (ctx_eval ctx (ep_script p)) st) as [[e ctx1] st1]. intros Hw.
    destruct (Hi Hw) as (w2' & Heq & Hr'). exists w2'. by rewrite Heq.
Qed.

Lemma run_in_context_alike p cache (ctx : Ctx) st w2 : ep_egress p = Some eg1 → Related (hs_world st) w2 →
  Within (hs_world (run_in_context p cache ctx st).2) →
  ∃ w2', run_in_context (rehost p eg2) cache ctx (in_world st w2) =
           ((run_in_context p cache ctx st).1, in_world (run_in_context p cache ctx st).2 w2') ∧
         Related (hs_world (run_in_context p cache ctx st).2) w2'.
Proof.
  intros He Hr. unfold run_in_context. rewrite injections_rehost by done.
  destruct (inject_all ctx (injections p)) as [ctx1|e]; [|by exists w2].
  pose proof (resolve_handler_alike p cache ctx1 st w2 He Hr) as Hh.
  destruct (resolve_handler p cache ctx1 st) as [[[[f ctx2]|o] c1] st1].
  - unfold invoke_handler. cbn [rehost ep_context_json ep_timeout_ms].
    destruct (ctx_json_parse ctx2 (ep_context_json p)) as [v|] eqn:Ev.
    + pose proof (interp_alike p (fn_call ctx2 f v) st1) as Hi.
      pose proof (interp_within p (fn_call ctx2 f v) st1 He) as Hb.
      destruct (interp (host_env p) (fn_call ctx2 f v) st1) as [e st2]. intros Hw.
      destruct (Hh (Hb Hw)) as (w1 & -> & Hr1). destruct (Hi w1 He Hr1 Hw) as (w2' & Heq & Hr').
      exists w2'. cbn [fst snd]. by rewrite Ev, Heq.
    + intros Hw. destruct (Hh Hw) as (w1 & -> & Hr1). exists w1. cbn [fst snd]. by rewrite Ev.
  - intros Hw. destruct (Hh Hw) as (w1 & -> & Hr1). by exists w1.
Qed.

Lemma engine_run_alike p cache (n : Net) w1 w2 : ep_egress p = Some eg1 → Related w1 w2 →
  Within (engine_run p cache (w1, n)).2.1 →
  ∃ w2', engine_run (rehost p eg2) cache (w2, n) =
           ((engine_run p cache (w1, n)).1, (w2', (engine_run p cache (w1, n)).2.2)) ∧
         Related (engine_run p cache (w1, n)).2.1 w2'.
Proof.
  intros He Hr. unfold engine_run. destruct ctx_full as [ctx|err]; [|by exists w2]. cbn [fst snd].
  set (st := Build_HostState _ _ [] 0 w1 new_collector new_collector n 0).
  pose proof (run_in_context_alike p cache ctx st w2 He Hr) as Hc.
  destruct (run_in_context p cache ctx st) as [[r c1] st1]. intros Hw.
  destruct (Hc Hw) as (w2' & Heq & Hr'). exists w2'. unfold in_world in Heq. simpl in Heq. by rewrite Heq.
Qed.

Context {Q R : Type} {aq : ArrayQueue Q R} (create_runtime : result R string).

(** The same invocation with another egress. *)
Definition reinvoke (inv : Invocation W1) (eg : Port W2) : Invocation W2 :=
  {| inv_code := inv_code inv; inv_context_json := inv_context_json inv; inv_profile := inv_profile inv;
     inv_caps := inv_caps inv; inv_read_hook := inv_read_hook inv; inv_egress := Some eg;
     inv_cache_namespace := inv_cache_namespace inv |}.

Lemma host_run_alike (h : LogicHost Q Cache) (inv : Invocation W1) (n : Net) w1 w2 :
  inv_egress inv = Some eg1 → Related w1 w2 → Within (host_run create_runtime h inv (w1, n)).2.1 →
  ∃ w2', host_run create_runtime h (reinvoke inv eg2) (w2, n) =
           ((host_run create_runtime h inv (w1, n)).1, (w2', (host_run create_runtime h inv (w1, n)).2.2)) ∧
         Related (host_run create_runtime h inv (w1, n)).2.1 w2'.
Proof.
  intros He Hr. unfold host_run. cbn [reinvoke inv_code].
  destruct (negb (is_accepting (lh_pool h))); [by exists w2|].
  destruct (resolve_source h (inv_code inv)) as [source|e]; [|by exists w2].
  destruct (acquire create_runtime (lh_pool h)) as [[rt|err] p1]; [|by exists w2].
  pose proof (engine_run_alike (exec_params h inv source) (Some (lh_cache h)) n w1 w2 He Hr) as Hc.
  change (exec_params h (reinvoke inv eg2) source) with (rehost (exec_params h inv source) eg2).
  destruct (engine_run (exec_params h inv source) (Some (lh_cache h)) (w1, n)) as [[exec c1] [w1' n1]].
  intros Hw. destruct (Hc Hw) as (w2' & Heq & Hr'). exists w2'. by rewrite Heq.
Qed.
End simulation.

(** ** The box with its backends inside *)

Section system.
Context {World DbB MongoB MailB RedisB AuthB AmqB : Type}.
Context {jt : JsonText} `{!Drivers World DbB MongoB MailB RedisB AuthB AmqB}.
Context {ct : ConstantTimeEq} `{!Codec WireRequest} `{!Codec WireResponse}.
Context {H V : Type} {hdrs : Headers H V} {hasher : StdHasher} {Sem : Type} {sem : Semaphore Sem}.
Context {Cache : Type} {moka : Moka Cache (list ascii)} {sha : Sha256}.
Context {Ctx Fn JsVal Mod : Type} {compiler : ModuleCompiler Mod Caught} {js : QuickJs Ctx Fn JsVal Mod}.
Context {Q R : Type} {aq : ArrayQueue Q R} (create_runtime : result R string).
Context {QConn Net : Type} {net : NetLib Net}.
Local Abbreviation BSet := (@BackendSet DbB MongoB MailB RedisB AuthB AmqB).
Local Abbreviation State := (AppState Q Cache Sem (SidecarTransport QConn) Net).
Local Abbreviation Env := (RequestEnv (LogicHost Q Cache) Net).

(** A session held in the box: the backends, the outside world, and the calls made with their results. *)
Record Local := {
  lo_set : BSet; lo_world : World; lo_log : list (WireCall * result string EgressError) }.

Definition local_call (name action payload : string) (l : Local) : result string EgressError * Local :=
  let '(r, b, w) := backend_call (lo_set l) name action payload (lo_world l) in
  (r, {| lo_set := b; lo_world := w;
         lo_log := lo_log l ++ [({| wc_name := name; wc_action := action; wc_payload := payload |}, r)] |}).

(** The egress of such a box: the daemon's operator table and authenticator decide on the session. *)
Definition in_process (sh : Shared) (auth : Authenticator) (token : option string) (w : World)
    : EgressTransport (SidecarTransport QConn) Local := {|
  et_connect t init :=
    match (open_session sh auth (set_token init token)).1 with
    | Ok b => (Ok {| lo_set := b; lo_world := w; lo_log := [] |}, t)
    | Err (code, message) => (Err (Resolve code message), t)
    end;
  et_call := local_call;
  et_drain l := (metrics (lo_set l), l) |}.

(** Where a request's egress ends up: the socket, or the client's live connection with its token. *)
Definition reaches (uds_connect : string → result SessionConn IoError)
    (quic_open : QuicClient QConn → result SessionConn IoError * QuicClient QConn)
    (read_file : string → result string IoError)
    (t : SidecarTransport QConn) (c : SessionConn) (token : option string) : Prop :=
  match t with
  | TNone => False
  | TUds path => uds_connect path = Ok c ∧ token = None
  | TQuic client => box_token read_file (qc_auth client) = Ok token ∧ quic_open client = (Ok c, client)
  end.

(** ** Lemmas *)

Lemma backend_calls_app (b : BSet) xs ys w :
  backend_calls b (xs ++ ys) w =
  let '(r1, b1, w1) := backend_calls b xs w in
  let '(r2, b2, w2) := backend_calls b1 ys w1 in (r1 ++ r2, b2, w2).
Proof.
  revert b w. induction xs as [|c xs IH]; intros b w; simpl; [by destruct (backend_calls b ys w) as [[]]|].
  destruct (backend_call b (wc_name c) (wc_action c) (wc_payload c) w) as [[r b1] w1]. rewrite IH.
  destruct (backend_calls b1 xs w1) as [[r1 b2] w2]. by destruct (backend_calls b2 ys w2) as [[]].
Qed.

Section replay.
Context (b : BSet) (w : World) (log : list (WireCall * result string EgressError)).
Context (head tail : list ascii) (cbs rbs : list (list ascii)).
Context (Hcs : Forall2 frameable (ReqCall <$> log.*1) cbs) (Hrs : Forall2 frameable (Reply <$> log.*2) rbs).

(** Part of the log is done: the bytes of its calls are sent, and those of its replies are read. *)
Definition wire_at (i : nat) : SessionConn :=
  conn_with (head ++ concat (frame_bytes <$> take i cbs)) (concat (frame_bytes <$> drop i rbs) ++ tail).
Definition replaying (o1 : option Local) (o2 : option SessionConn) : Prop :=
  ∃ l i, o1 = Some l ∧ (i ≤ length log)%nat ∧ lo_log l = take i log ∧ o2 = Some (wire_at i) ∧
    backend_calls b (lo_log l).*1 w = ((lo_log l).*2, lo_set l, lo_world l).
Definition on_log (o : option Local) : Prop :=
  match o with Some l => lo_log l `prefix_of` log | None => False end.

Context (sh : Shared) (auth : Authenticator) (token : option string).
Context (uds_connect : string → result SessionConn IoError)
  (quic_open : QuicClient QConn → result SessionConn IoError * QuicClient QConn)
  (read_file : string → result string IoError).
Definition local_port : Port (option Local) := session_egress (et := in_process sh auth token w).
Definition wire_port : Port (option SessionConn) :=
  session_egress (et := sidecar_transport uds_connect quic_open read_file).

Lemma local_port_back n a p o : on_log (local_port n a p o).2 → on_log o.
Proof.
  destruct o as [l|]; [|done]. unfold local_port, session_egress. simpl. unfold local_call.
  destruct (backend_call (lo_set l) n a p (lo_world l)) as [[r b1] w1]. simpl.
  intros Hp. etrans; [|exact Hp]. by apply prefix_app_r.
Qed.

Lemma wire_call_at i c r :
  log !! i = Some (c, r) →
  sidecar_call (wire_at i) Finished (wc_name c) (wc_action c) (wc_payload c) = (r, wire_at (S i)).
Proof.
  intros Hi.
  destruct (Forall2_lookup_l _ _ _ i (ReqCall c) Hcs) as (cb & Hcb & Hc);
    [by rewrite !list_lookup_fmap, Hi|].
  destruct (Forall2_lookup_l _ _ _ i (Reply r) Hrs) as (rb & Hrb & Hr);
    [by rewrite !list_lookup_fmap, Hi|].
  unfold wire_at. rewrite (drop_S _ _ _ Hrb), (take_S_r _ _ _ Hcb), fmap_cons, fmap_app, concat_app.
  cbn [concat fmap list_fmap]. rewrite app_nil_r, <-app_assoc. unfold sidecar_call.
  assert ({| wc_name := wc_name c; wc_action := wc_action c; wc_payload := wc_payload c |} = c) as ->
    by (by destruct c).
  rewrite (roundtrip_ok _ (ReqCall c) cb (Reply r) rb) by done. by rewrite <-app_assoc.
Qed.

Lemma ports_alike n a p o1 o2 : replaying o1 o2 → on_log (local_port n a p o1).2 →
  ∃ o2', wire_port n a p o2 = ((local_port n a p o1).1, o2') ∧ replaying (local_port n a p o1).2 o2'.
Proof.
  intros (l & i & -> & Hi & Hl & -> & Hb). unfold local_port, wire_port, session_egress.
  cbn [et_call in_process sidecar_transport]. unfold local_call.
  destruct (backend_call (lo_set l) n a p (lo_world l)) as [[r b1] w1] eqn:Ec. cbn [fst snd on_log lo_log].
  set (c := {| wc_name := n; wc_action := a; wc_payload := p |}). intros [rest Hrest].
  assert (length (lo_log l) = i) as Hlen by (rewrite Hl, length_take; lia).
  assert (log !! i = Some (c, r)) as Hat
    by (rewrite Hrest, <-app_assoc, lookup_app_r, Hlen, Nat.sub_diag by lia; done).
  pose proof (wire_call_at i c r Hat) as Hw.
  change (sidecar_call (wire_at i) Finished n a p = (r, wire_at (S i))) in Hw. rewrite Hw.
  exists (Some (wire_at (S i))). split; [done|].
  eexists _, (S i). split_and!; [done|by apply lookup_lt_Some in Hat| |done|].
  - simpl. by rewrite Hl, (take_S_r _ _ _ Hat).
  - simpl. rewrite !fmap_app, backend_calls_app, Hb. simpl. by rewrite Ec.
Qed.

(** The in-box run whose log this is, and the wire it is replayed on. *)
Context (db mb : list ascii) (b' : BSet) (w' : World).
Context (Hd : frameable ReqDrain db) (Hm : frameable (RespMetrics (metrics b')) mb) (Ht : tail = frame_bytes mb).
Definition opened : Local := {| lo_set := b; lo_world := w; lo_log := [] |}.
Definition local_run (s : State) (pr : Prepared) :=
  host_run create_runtime (as_host s)
    (invocation (et := in_process sh auth token w) pr (Some opened)) (Some opened, as_net s).

Lemma wire_drained : (sidecar_drain (wire_at (length log))).1 = metrics b'.
Proof.
  unfold wire_at. assert (length rbs = length log) as Hl
    by (apply Forall2_length in Hrs; rewrite !length_fmap in Hrs; done).
  rewrite drop_ge by lia. cbn [fmap list_fmap concat app]. rewrite Ht, <-(app_nil_r (frame_bytes mb)).
  unfold sidecar_drain. by rewrite (roundtrip_ok _ ReqDrain db (RespMetrics (metrics b')) mb).
Qed.

Lemma run_task_alike (env : Env) (s : State) (pr : Prepared) :
  (local_run s pr).2.1 = Some {| lo_set := b'; lo_world := w'; lo_log := log |} →
  run_task (et := sidecar_transport uds_connect quic_open read_file) create_runtime env s pr (Some (wire_at 0)) =
  run_task (et := in_process sh auth token w) create_runtime env s pr (Some opened) ∧
  backend_calls b log.*1 w = (log.*2, b', w').
Proof.
  intros Hend.
  destruct (host_run_alike local_port wire_port replaying on_log local_port_back ports_alike create_runtime
    (as_host s) (invocation (et := in_process sh auth token w) pr (Some opened)) (as_net s)
    (Some opened) (Some (wire_at 0))) as (o2' & Hrun & Hrel); [done| | |].
  - exists opened, 0%nat. split_and!; (done || lia).
  - change (on_log (local_run s pr).2.1). rewrite Hend. exists []. by rewrite app_nil_r.
  - change (host_run create_runtime (as_host s) (invocation (et := in_process sh auth token w) pr (Some opened))
      (Some opened, as_net s)) with (local_run s pr) in Hrun, Hrel.
    destruct Hrel as (l & i & Hl & Hi & Hlog & -> & Hb). rewrite Hend in Hl. injection Hl as <-. simpl in *.
    split; [|done]. unfold run_task. destruct (re_task env); [|done].
    change (invocation (et := sidecar_transport uds_connect quic_open read_file) pr (Some (wire_at 0)))
      with (reinvoke (invocation (et := in_process sh auth token w) pr (Some opened)) wire_port).
    rewrite Hrun. unfold local_run in *.
    destruct (host_run create_runtime (as_host s) (invocation (et := in_process sh auth token w) pr (Some opened))
      (Some opened, as_net s)) as [[outcome h1] [o1 n1]]. simpl in *. subst o1.
    assert (i = length log) as -> by (apply (f_equal length) in Hlog; rewrite length_take in Hlog; lia).
    by rewrite wire_drained.
Qed.
End replay.

Context (task_panic : WireCall → World → option string).
Context (uds_connect : string → result SessionConn IoError)
  (quic_open : QuicClient QConn → result SessionConn IoError * QuicClient QConn)
  (read_file : string → result string IoError).

(** The [Init] of a request's session. *)
Definition session_init (s : State) (pr : Prepared) (token : option string) : WireInit :=
  set_token (wire_init (rq_io (pr_config pr)) (timeout_ms (as_engine_cfg s)) (pr_tenant pr)) token.

(** Connecting over the wire hands the box the connection behind the [Ack]. *)
Lemma connect_reaches (t : SidecarTransport QConn) init ib kb rest token :
  wi_token init = None → reaches uds_connect quic_open read_file t (conn_with [] (frame_bytes kb ++ rest)) token →
  frameable (ReqInit (set_token init token)) ib → frameable Ack kb →
  connect_session uds_connect quic_open read_file t init = (Ok (conn_with (frame_bytes ib) rest), t).
Proof.
  intros Hn Hr Hi Hk. unfold reaches in Hr. unfold connect_session. destruct t as [|path|client]; [done| |].
  - destruct Hr as [-> ->]. assert (set_token init None = init) as Hs by (destruct init; simpl in *; by subst).
    rewrite Hs in Hi. by rewrite (handshake_ok [] init ib kb).
  - destruct Hr as [-> ->]. by rewrite (handshake_ok [] (set_token init token) ib kb).
Qed.

(** A session the daemon refuses ends the request the same way too. *)
Lemma refused_over_wire (sh : Shared) (auth : Authenticator) (token : option string) code message w
    (env : Env) (s : State) (pr : Prepared) ib eb :
  io_any (rq_io (pr_config pr)) = true →
  (open_session sh auth (session_init s pr token)).1 = Err (code, message) →
  frameable (ReqInit (session_init s pr token)) ib → frameable (InitError code message) eb →
  reaches uds_connect quic_open read_file (as_transport s) (conn_with [] (frame_bytes eb)) token →
  run_guarded (et := sidecar_transport uds_connect quic_open read_file) create_runtime env s pr =
  run_guarded (et := in_process sh auth token w) create_runtime env s pr.
Proof.
  intros Hio Hopen Hi He Hr. unfold run_guarded, open_egress. rewrite Hio.
  cbn [et_connect sidecar_transport in_process]. unfold session_init in Hopen. rewrite Hopen.
  assert (∀ init, frameable (ReqInit init) ib →
    handshake (conn_with [] (frame_bytes eb)) init = Err (Resolve code message)) as Hh.
  { intros init Hin. unfold handshake. rewrite (conn_write_ok _ _ _ ib), <-(app_nil_r (frame_bytes eb)) by done.
    by rewrite (conn_read_ok _ (InitError code message) eb). }
  unfold reaches in Hr. unfold connect_session. destruct (as_transport s) as [|path|client]; [done| |].
  - destruct Hr as [-> ->]. by rewrite Hh.
  - destruct Hr as [-> ->]. by rewrite Hh.
Qed.

(** ** Properties *)

(** C1: moving the drivers out of the box changes nothing a caller can see.  A request past the gates,
    admitted, and executed by the daemon's drivers behind the sidecar's socket or QUIC connection, gets
    the response of the same request executed with the session's backends in the box, whatever its
    script does as long as no call outlives the deadline, and leaves the box in the same state: counters, events, cache, pool, permits.  The
    daemon consumes exactly the frames of the calls the script made and leaves the outside world the
    way they do. *)
Theorem request_over_wire (sh sh1 : Shared) (auth : Authenticator) (token : option string) (b b' : BSet)
    (w w' : World) (log : list (WireCall * result string EgressError)) (qbs abs : list (list ascii))
    (env : Env) (s s1 s2 s3 : State) (headers : H) (payload : result ExecRequest string) (pr : Prepared)
    (guard : option QuotaGuard) (permit : option Permit)
    (Hfront : front env s headers payload = (Ok pr, s1))
    (Hquota : enforce_quota s1 (pr_identity pr) (re_trace_id env) (error_meta env pr) = (Ok guard, s2))
    (Hio : io_any (rq_io (pr_config pr)) = true)
    (Hadmit : admit_request s2 (pr_partition pr) (error_meta env pr) = (Ok permit, s3))
    (Hopen : open_session sh auth (session_init s2 pr token) = (Ok b, sh1))
    (Hlog : (local_run b w sh auth token s3 pr).2.1 = Some {| lo_set := b'; lo_world := w'; lo_log := log |})
    (Hpanic : ∀ c w, c ∈ log.*1 → task_panic c w = None)
    (Hreq : Forall2 frameable (requests (session_init s2 pr token) log.*1) qbs)
    (Hans : Forall2 frameable (Ack :: (Reply <$> log.*2) ++ [RespMetrics (metrics b')]) abs)
    (Hreach : reaches uds_connect quic_open read_file (as_transport s2)
       (conn_with [] (concat (frame_bytes <$> abs))) token) :
  run_execute (et := sidecar_transport uds_connect quic_open read_file) create_runtime env s headers payload =
  run_execute (et := in_process sh auth token w) create_runtime env s headers payload ∧
  serve task_panic {| r_avail := concat (frame_bytes <$> qbs); r_tail := None |}
    {| w_sent := []; w_room := None; w_flush := None |} sh auth w =
  (Ok (), {| w_sent := concat (frame_bytes <$> abs); w_room := None; w_flush := None |}, sh1, w').
Proof.
  pose proof Hreq as Hreq'. pose proof Hans as Hans'.
  inversion Hreq as [|? ib ? qbs' Hi Hq]; subst. inversion Hans as [|? kb ? abs' Hk Ha]; subst.
  apply Forall2_app_inv_l in Hq as (cbs & dbs & Hcs & Hd & ->).
  apply Forall2_app_inv_l in Ha as (rbs & mbs & Hrs & Hm & ->).
  inversion Hd as [|? db ? ? Hd1 Hd2]; inversion Hd2; subst.
  inversion Hm as [|? mb ? ? Hm1 Hm2]; inversion Hm2; subst.
  destruct (run_task_alike b w log (frame_bytes ib) (frame_bytes mb) cbs rbs Hcs Hrs sh auth token
    uds_connect quic_open read_file db mb b' w' Hd1 Hm1 eq_refl env s3 pr Hlog) as [Htask Hb].
  split; [|by eapply serve_calls].
  unfold run_execute. rewrite Hfront, Hquota. f_equal. unfold run_guarded, open_egress. rewrite Hio.
  cbn [et_connect sidecar_transport in_process].
  rewrite (connect_reaches _ _ ib kb (concat (frame_bytes <$> rbs) ++ frame_bytes mb) token); try done.
  2: { rewrite fmap_cons, fmap_app in Hreach. cbn [concat fmap list_fmap] in Hreach.
       rewrite concat_app in Hreach. cbn [concat] in Hreach. by rewrite app_nil_r in Hreach. }
  unfold session_init in Hopen. rewrite Hopen. cbn [fst snd].
  assert (set_transport s2 (as_transport s2) = s2) as -> by (by destruct s2).
  unfold run_admitted. rewrite Hadmit. fold (opened b w).
  assert (wire_at (frame_bytes ib) (frame_bytes mb) cbs rbs 0 =
    conn_with (frame_bytes ib) (concat (frame_bytes <$> rbs) ++ frame_bytes mb)) as <-
    by (unfold wire_at; cbn [take drop fmap list_fmap concat]; by rewrite app_nil_r).
  by rewrite Htask.
Qed.
End system.

(** ** Witnesses *)

#[local] Existing Instances plain_eq plain_headers length_hasher nat_semaphore no_sha no_cache no_compiler
  list_queue demo_net log_drivers null_json demo_req_codec demo_resp_codec.

(** A script that reads a key through its port and returns the answer. *)
#[local] Instance get_script : QuickJs (list Injection) unit string string := {|
  ctx_full := Ok [];
  ctx_inject ctx i := Ok (ctx ++ [i]);
  ctx_eval ctx _ := Ret (Evaluated, ctx);
  mod_eval ctx _ := Ret (Evaluated, ctx);
  mod_export _ _ _ := None;
  global_fn _ _ := Some ();
  ctx_remove ctx _ := Ok ctx;
  ctx_eval_determinism ctx := Ok ctx;
  ctx_json_parse _ s := Some s;
  fn_call _ _ _ := Host (CallIo "redis" "get" "k") (λ a, Ret (match a with
    | Some json => HandlerReturned (ReturnedString (Ok json))
    | None => HandlerThrew (CaughtObject (Some "'__io' is not defined") None TagNullish) false
    end)) |}.

(** A box of tenant [ws_b] that reaches the daemon over a live QUIC connection. *)
Definition wire_limits : EngineConfig :=
  {| memory_limit := 32; max_stack_size := 512; timeout_ms := 100; pool_size := 1;
     max_script_size := 1024; max_context_size := 64; max_ops := 1500; max_output_size := 0;
     max_concurrent_executions := 0; max_statement_timeout_ms := 0; max_concurrent_per_partition := 0;
     partition_buckets := 0; db_breaker_threshold := 0; db_breaker_cooldown_ms := 0;
     allow_wildcard_hosts := false |}.
Definition wire_client : QuicClient unit :=
  {| qc_replicas := ["fabricd:7443"]; qc_server_name := "fabricd"; qc_auth := BoxStatic "s3cret";
     qc_connection := Some () |}.
Definition wire_state : AppState (nat * list unit) unit nat (SidecarTransport unit) DemoNet :=
  {| as_host := demo_host; as_registry := {| sr_scripts := ∅ |}; as_engine_cfg := wire_limits;
     as_error_debug := false; as_limiter := 1%nat; as_partition_limiter := None;
     as_transport := TQuic wire_client; as_metrics := Metrics_default; as_access_token := None;
     as_trusted := Some {| tr_headers := TrustedHeaders_default; tr_capability_entitlements := ∅;
                           tr_quota := None |};
     as_events := Some []; as_net := [] |}.
Definition wire_headers : list (string * string) := [("x-tenant-id", "ws_b"); ("x-tenant-scope", "acting")].
Definition wire_request : ExecRequest :=
  {| rq_script := Some "function handler() {}"; rq_key := None; rq_partition := None; rq_context := "{}";
     rq_config := {| rq_allowed_hosts := []; rq_s3 := None; rq_sys := None;
                     rq_io := {| io_db := []; io_mongo := []; io_mail := []; io_redis := ["cache"];
                                 io_amq := []; io_auth := [] |} |} |}.
Definition wire_replies : list ascii := concat (frame_bytes <$> [bytes_of "A"; bytes_of "R"; bytes_of "M"]).
Definition wire_transport : EgressTransport (SidecarTransport unit) SessionConn :=
  sidecar_transport (λ _, Err (OtherIo "no socket"))
    (λ c, (Ok (conn_with [] wire_replies), c)) (λ _, Err (OtherIo "no file")).

Definition wire_prepared : Prepared :=
  {| pr_identity := Some {| ti_tenant := Some "ws_b"; ti_user := None; ti_roles := []; ti_entitlements := [];
       ti_suspended := false; ti_anonymous := false; ti_plan := None; ti_scope := Some "acting" |};
     pr_tenant := Some "ws_b"; pr_partition := Some "ws_b"; pr_source := "function handler() {}";
     pr_key := None; pr_context := "{}"; pr_config := rq_config wire_request; pr_script_bytes := 21;
     pr_context_bytes := 2 |}.
Definition wire_auth : Authenticator := StaticAuthenticator "s3cret" None.
Definition wire_admitted : AppState (nat * list unit) unit nat (SidecarTransport unit) DemoNet :=
  (admit_request wire_state (Some "ws_b") (error_meta demo_env wire_prepared)).2.

Lemma request_over_wire_witness :
  run_execute (et := wire_transport) (R := unit) (Ok tt) demo_env wire_state wire_headers (Ok wire_request) =
  run_execute (et := in_process demo_shared wire_auth (Some "s3cret") []) (R := unit)
    (Ok tt) demo_env wire_state wire_headers (Ok wire_request).
Proof.
  destruct (open_session demo_shared wire_auth (session_init wire_state wire_prepared (Some "s3cret")))
    as [[b|e] sh1] eqn:Eo; [|vm_compute in Eo; discriminate].
  assert (∃ b', (local_run (R := unit) (Ok tt) b [] demo_shared wire_auth (Some "s3cret") wire_admitted wire_prepared).2.1 =
    Some {| lo_set := b'; lo_world := ["redis connect"; "redis get"]; lo_log := [(demo_call, Ok "get")] |} ∧
    metrics b' = BackendMetrics_default) as (b' & Hlog & Hm).
  { vm_compute in Eo. injection Eo as <- <-. eexists. split; [vm_compute; reflexivity|reflexivity]. }
  refine (proj1 (request_over_wire (R := unit) (Ok tt) demo_panic _ _ _ demo_shared sh1
    wire_auth (Some "s3cret") b b' [] _ [(demo_call, Ok "get")]
    [bytes_of "I"; bytes_of "C"; bytes_of "D"] [bytes_of "A"; bytes_of "R"; bytes_of "M"]
    demo_env wire_state wire_state wire_state wire_admitted wire_headers (Ok wire_request)
    wire_prepared None None _ _ _ _ Eo Hlog (λ _ _ _, eq_refl) _ _ _)).
  - vm_compute. reflexivity.
  - vm_compute. reflexivity.
  - reflexivity.
  - vm_compute. reflexivity.
  - repeat constructor; vm_compute; discriminate.
  - rewrite Hm. repeat (constructor;
      [split; [unfold codec_ok, demo_resp_codec, demo_resp_ok; tauto|];
       split; [reflexivity|vm_compute; discriminate]|]). constructor.
  - split; reflexivity.
Defined.
