(* ===== verification/Telemetry.v ===== *)
(** * Telemetry: tracing, and the span of a request

    Models [runlet/src/telemetry.rs] (the OTLP exporter that may be missing, the layers of the global
    subscriber, the flush on shutdown) and the span code of [runlet/src/handler.rs]: the request span and
    its parent, the trace id of a request, the attributes recorded on it.  [execute] is the handler with
    its span around [Handler.run_execute].  OpenTelemetry and [tracing] are third-party: building an
    exporter, reading the [traceparent] header and the level filter are the class [OpenTelemetry]; a
    layer that is not installed gives a span no valid context. *)

From Stdlib Require Import Ascii.
From S2P Require Import Prelude Json Errors Wire Backends Fabricd Sidecar Identity Quota.
From S2P Require Import Partition Bytecode Ssrf Http S3 Sys EngineConfig Engine Registry Pool Host Metrics Events Handler.
Local Open Scope Z_scope.

(** ** Installing the layers *)

Definition EXPORT_TIMEOUT_SECS : Z := 3.
Record TelemetrySettings := {
  ts_otlp_endpoint : option string; ts_sample_ratio : string; ts_service_name : string }.

Inductive Sampler := TraceIdRatioBased (ratio : string) | ParentBased (root : Sampler).
Record TracerProvider := {
  tp_endpoint : string; tp_export_timeout_secs : Z; tp_sampler : Sampler; tp_service_name : string }.

(** [otlp_build] is [SpanExporter::builder]..[build]; [traceparent] the trace id
    [TraceContextPropagator] reads through an extractor; [passes_info] whether a filter lets spans of
    level info through. *)
Class OpenTelemetry := {
  otlp_build : string → Z → result () string;
  traceparent : (string → option string) → option string;
  passes_info : string → bool
}.

(** The subscriber: its filter, and the tracer provider of the OpenTelemetry layer with the global
    propagator, if installed; and the warnings logged. *)
Record Telemetry := {
  tl_filter : string; tl_provider : option TracerProvider; tl_propagator : bool; tl_warnings : list string }.

Section telemetry.
Context {otel : OpenTelemetry}.

(** [build_provider]. *)
Definition build_provider (settings : TelemetrySettings) : option TracerProvider * list string :=
  match ts_otlp_endpoint settings with
  | None => (None, [])
  | Some endpoint =>
      match otlp_build endpoint EXPORT_TIMEOUT_SECS with
      | Err err => (None, ["OTLP exporter unavailable, running untraced: " +:+ err])
      | Ok _ =>
          (Some {| tp_endpoint := endpoint; tp_export_timeout_secs := EXPORT_TIMEOUT_SECS;
                   tp_sampler := ParentBased (TraceIdRatioBased (ts_sample_ratio settings));
                   tp_service_name := ts_service_name settings |}, [])
      end
  end.

(** [init]; [default_env] is the filter of the environment, when it has a valid one. *)
Definition telemetry_init (default_env : option string) (settings : TelemetrySettings) : Telemetry :=
  let '(provider, warnings) := build_provider settings in
  {| tl_filter := default "info" default_env; tl_provider := provider;
     tl_propagator := bool_decide (provider ≠ None); tl_warnings := warnings |}.

(** [TelemetryGuard::shutdown]; [flush] is the provider's own. *)
Definition guard_shutdown (flush : TracerProvider → result () string) (t : Telemetry) : list string :=
  match tl_provider t with
  | None => []
  | Some provider =>
      match flush provider with
      | Ok _ => []
      | Err err => ["tracer provider shutdown error: " +:+ err]
      end
  end.

(** ** Request spans *)

(** A span that is on: its declared fields with what was recorded, the error status, and the trace
    id of its context when it has a valid one.  [None] is a span the filter turned off. *)
Record SpanData := {
  sd_fields : list (string * option string); sd_error : option string; sd_trace_id : option string }.
Definition Span : Type := option SpanData.

(** [Span::record]: only declared fields take a value. *)
Definition span_record (k v : string) (s : Span) : Span :=
  (λ d, {| sd_fields := (λ '(k', o), (k', if decide (k' = k) then Some v else o)) <$> sd_fields d;
           sd_error := sd_error d; sd_trace_id := sd_trace_id d |}) <$> s.
Definition recorded (k : string) (s : Span) : option string :=
  d ← s; p ← list_find (λ p, p.1 = k) (sd_fields d); p.2.2.

(** [Span::set_status] with an error. *)
Definition set_error (description : string) (s : Span) : Span :=
  (λ d, {| sd_fields := sd_fields d; sd_error := Some description; sd_trace_id := sd_trace_id d |}) <$> s.

Context {H V : Type} {hdrs : Headers H V}.

(** [HeaderExtractor::get]. *)
Definition extractor_get (headers : H) (key : string) : option string := hm_get headers key ≫= hv_to_str.

(** [build_request_span]; [root] is the trace id a span without a parent starts. *)
Definition build_request_span (t : Telemetry) (headers : H) (root : string) : Span :=
  if passes_info (tl_filter t) then
    let parent := if tl_propagator t then traceparent (extractor_get headers) else None in
    Some {| sd_fields := [("tenant", None); ("user", None); ("plan", None); ("outcome", None)];
            sd_error := None;
            sd_trace_id := (λ _, default root parent) <$> tl_provider t |}
  else None.

(** [current_trace_id]: the span's, or a fresh UUID. *)
Definition current_trace_id (s : Span) (uuid : string) : string := default uuid (s ≫= sd_trace_id).

(** [record_identity_attrs]. *)
Definition record_opt (k : string) (o : option string) (s : Span) : Span :=
  match o with Some v => span_record k v s | None => s end.
Definition record_identity_attrs (identity : option TrustedIdentity) (s : Span) : Span :=
  match identity with
  | None => s
  | Some id => record_opt "plan" (ti_plan id) (record_opt "user" (ti_user id) (record_opt "tenant" (ti_tenant id) s))
  end.

(** [record_span_outcome]. *)
Definition record_span_outcome (outcome : string) (s : Span) : Span :=
  let s := span_record "outcome" outcome s in
  if decide (outcome = "success") then s else set_error outcome s.
End telemetry.

(** ** The handler with its span *)

Section execute.
Context {otel : OpenTelemetry}.
Context {jt : JsonText} {ct : ConstantTimeEq} {H V : Type} {hdrs : Headers H V}.
Context {hasher : StdHasher} {Sem : Type} {sem : Semaphore Sem}.
Context {Cache : Type} {moka : Moka Cache (list ascii)} {sha : Sha256}.
Context {Ctx Fn JsVal Mod : Type} {compiler : ModuleCompiler Mod Caught}
  {js : QuickJs Ctx Fn JsVal Mod}.
Context {Q R : Type} {aq : ArrayQueue Q R} (create_runtime : result R string).
Context {Transport Session : Type} {et : EgressTransport Transport Session}.
Context {Net : Type} {net : NetLib Net}.
Local Abbreviation State := (AppState Q Cache Sem Transport Net).
Local Abbreviation Env := (RequestEnv (LogicHost Q Cache) Net).
Local Abbreviation Task := (result (result Outcome EngineError * BackendMetrics) string).
Implicit Types (env : Env) (s : State) (headers : H) (pr : Prepared).

(** The identity [run_execute] records, past its two first gates. *)
Definition span_identity env s headers : option TrustedIdentity :=
  match enforce_auth s headers (re_fresh_id env) with
  | (Some _, _) => None
  | (None, s1) =>
      match resolve_identity s1 headers (re_trace_id env) with
      | (Ok identity, _) => identity
      | (Err _, _) => None
      end
  end.

(** The task [build_response] is given, for a request that gets that far. *)
Definition admitted_task env s pr (session : option Session) : option Task :=
  match admit_request s (pr_partition pr) (error_meta env pr) with
  | (Err _, _) => None
  | (Ok _, s1) => Some (run_task create_runtime env s1 pr session).1
  end.
Definition guarded_task env s pr : option Task :=
  match open_egress s pr with
  | (Err _, _) => None
  | (Ok session, s1) => admitted_task env s1 pr session
  end.
Definition request_task env s headers (payload : result ExecRequest string) : option Task :=
  match front env s headers payload with
  | (Err _, _) => None
  | (Ok pr, s1) =>
      match enforce_quota s1 (pr_identity pr) (re_trace_id env) (error_meta env pr) with
      | (Err _, _) => None
      | (Ok _, s2) => guarded_task env s2 pr
      end
  end.

(** The outcome [build_response] records for it. *)
Definition task_outcome (task : Task) : string :=
  match task with
  | Ok (Ok exec, _) =>
      match out_result exec with Success _ => "success" | Error err => engine_error_outcome err end
  | Ok (Err err, _) => engine_error_outcome err
  | Err join_err => engine_error_outcome (Internal ("task panicked: " +:+ join_err))
  end.

(** [execute]: the request in its span.  The environment's trace id is the fresh UUID of a request
    without a trace; [root] the trace id a new trace starts. *)
Definition traced (t : Telemetry) (root : string) env headers : Env :=
  {| re_trace_id := current_trace_id (build_request_span t headers root) (re_trace_id env);
     re_fresh_id := re_fresh_id env; re_exec_time_us := re_exec_time_us env; re_task := re_task env |}.
Definition execute (t : Telemetry) (root : string) env s headers (payload : result ExecRequest string)
    : Response * State * Span :=
  let env := traced t root env headers in
  let span := record_identity_attrs (span_identity env s headers) (build_request_span t headers root) in
  (run_execute create_runtime env s headers payload,
   match request_task env s headers payload with
   | Some task => record_span_outcome (task_outcome task) span
   | None => span
   end).

(** ** Lemmas *)

Definition is_audit (b : EventBody) : Prop := match b with Audit _ => True | Usage _ => False end.

(** The events of a request: those of its task, or audits only. *)
Definition told env (identity : option TrustedIdentity) (o : option Task) (evs : list Emitted) : Prop :=
  match o with
  | Some task => ∃ meta, evs = emitted identity (re_trace_id env) <$> [usage_of meta (task_outcome task); allowed_audit]
  | None => Forall (λ e, em_trace_id e = re_trace_id env ∧ is_audit (em_body e)) evs
  end.
Definition tells env s s' (identity : option TrustedIdentity) (o : option Task) : Prop :=
  ∃ evs, as_events s' = (λ l, l ++ evs) <$> as_events s ∧ told env identity o evs.

Lemma denied_tells env s s' identity id reason detail :
  as_events s' = as_events (emit_denied s id (re_trace_id env) reason detail) →
  tells env s s' identity None.
Proof.
  intros He. eexists. split; [exact He|]. repeat constructor; unfold emitted;
    by destruct (identity_fields id) as [[? ?] ?].
Qed.

Lemma build_response_tells env s s0 task meta identity :
  mt_trace_id meta = re_trace_id env → as_events s = as_events s0 →
  tells env s0 (build_response s task meta identity).2 identity (Some task).
Proof.
  intros Hm He. unfold tells, build_response, respond_error. cbv zeta.
  destruct task as [[[exec|err] backend]|join]; simpl.
  - destruct (out_result exec) as [json|err] eqn:Eo; simpl; eexists; (split; [by rewrite He, Hm|]);
      exists (with_metrics meta (out_metrics exec) backend); simpl; by rewrite ?Eo.
  - eexists. split; [by rewrite He, Hm|]. by exists meta.
  - eexists. split; [by rewrite He, Hm|]. by exists meta.
Qed.

Lemma run_admitted_tells env s pr session :
  tells env s (run_admitted create_runtime env s pr session).2 (pr_identity pr) (admitted_task env s pr session).
Proof.
  unfold run_admitted, admitted_task, admit_request. pose proof (acquire_permits_spec s (pr_partition pr)) as Hp.
  destruct (acquire_permits s (pr_partition pr)) as [[p| |] s1]; destruct Hp as (_ & _ & _ & _ & He & _).
  - pose proof (run_task_state create_runtime env s1 pr session) as Ht.
    destruct (run_task create_runtime env s1 pr session) as [task s2]. simpl in Ht.
    destruct Ht as (_ & _ & _ & _ & Ht). apply build_response_tells; [by destruct (pr_key pr), (pr_partition pr)|].
    simpl. congruence.
  - eapply denied_tells. simpl. by rewrite He.
  - eapply denied_tells. simpl. by rewrite He.
Qed.

Lemma run_guarded_tells env s pr :
  tells env s (run_guarded create_runtime env s pr).2 (pr_identity pr) (guarded_task env s pr).
Proof.
  unfold run_guarded, guarded_task, open_egress.
  destruct (io_any (rq_io (pr_config pr))); [|apply run_admitted_tells].
  destruct (et_connect (as_transport s) _) as [[session|err] t].
  - apply (run_admitted_tells env (set_transport s t)).
  - by eapply denied_tells.
Qed.

Lemma front_identity env s headers payload pr s1 :
  front env s headers payload = (Ok pr, s1) → s1 = s ∧ pr_identity pr = span_identity env s headers.
Proof.
  intros Hf. pose proof (front_ends env s headers payload) as He. rewrite Hf in He. split; [done|].
  unfold span_identity. unfold front in Hf. cbv zeta in Hf.
  destruct (enforce_auth s headers (re_fresh_id env)) as [[r|] s2]; [done|].
  destruct (resolve_identity s2 headers (re_trace_id env)) as [[identity|r] s3]; [|done].
  destruct payload as [req|]; [|done]. destruct (enforce_member_authz _ _ _ _) as [[r|] s4]; [done|].
  destruct (resolve_script _ _ _) as [src|[status e]]; [|done].
  destruct (validate_input_sizes _ _ _ _) as [?|[code msg]]; by simplify_eq/=.
Qed.

Lemma enforce_quota_tells env s identity meta id :
  match enforce_quota s identity (re_trace_id env) meta with
  | (Err _, s') => tells env s s' id None
  | (Ok _, s') => as_events s' = as_events s
  end.
Proof.
  unfold enforce_quota. destruct (as_trusted s) as [tr|]; [|done]. destruct identity as [i|]; [|done].
  destruct (tr_quota tr) as [q|]; [|done]. destruct (ti_tenant i) as [tenant|]; [|done].
  destruct (quota_admit q tenant (ti_plan i)) as [[g|e] q1]; [done|]. by eapply denied_tells.
Qed.
Lemma drop_quota_events guard s : as_events (drop_quota guard s) = as_events s.
Proof. unfold drop_quota. by destruct guard, (as_trusted s). Qed.

Lemma run_execute_tells env s headers payload :
  tells env s (run_execute create_runtime env s headers payload).2 (span_identity env s headers)
    (request_task env s headers payload).
Proof.
  unfold run_execute, request_task. pose proof (front_ends env s headers payload) as Hf.
  pose proof (front_identity env s headers payload) as Hi.
  destruct (front env s headers payload) as [[pr|r] s1].
  - destruct (Hi pr s1 eq_refl) as [-> <-]. clear Hf Hi.
    pose proof (enforce_quota_tells env s (pr_identity pr) (error_meta env pr) (pr_identity pr)) as Hq.
    destruct (enforce_quota s (pr_identity pr) (re_trace_id env) (error_meta env pr)) as [[g|r] s2]; [|exact Hq].
    destruct (run_guarded_tells env s2 pr) as (evs & He & Ht).
    destruct (run_guarded create_runtime env s2 pr) as [r s3]. exists evs. split; [|done].
    simpl in *. by rewrite drop_quota_events, He, Hq.
  - destruct Hf as [[-> _]|(_ & identity & reason & detail & ->)].
    + exists []. split; [|constructor]. simpl. destruct (as_events s); simpl; by rewrite ?app_nil_r.
    + by eapply denied_tells.
Qed.

(** The trace id of a malformed request is not the one in its response. *)
Lemma malformed_trace_uncorrelated env s headers rejection :
  as_access_token s = None → as_trusted s = None → re_fresh_id env ≠ re_trace_id env →
  let '(r, s') := run_execute create_runtime env s headers (Err rejection) in
  mt_trace_id (resp_meta r) = re_fresh_id env ∧
  as_events s' = (λ l, l ++ [emitted None (re_trace_id env) (denied_audit "MALFORMED_REQUEST" None)]) <$> as_events s.
Proof.
  intros Ha Ht Hne. unfold run_execute, front, enforce_auth, resolve_identity. rewrite Ha, Ht. simpl.
  unfold malformed_request_response. by destruct (as_error_debug s).
Qed.

(** ** Properties *)

(** C37: trace, bill and audit tell the same story.  Every event of a request carries its trace id,
    which is the caller's when the box traces and the caller sent a valid [traceparent].  A span that
    is on ends with the outcome the usage event bills, and only when there is one, and is marked as
    failed exactly when that outcome is not a success; its tenant, user and plan are those the usage
    is attributed to.  Requests refused before execution leave audits only, and no outcome. *)
Theorem span_agrees_with_events (t : Telemetry) (root : string) (env : Env) (s : State) (headers : H)
    (payload : result ExecRequest string) :
  let '(_, s', span) := execute t root env s headers payload in
  let trace_id := re_trace_id (traced t root env headers) in
  (∀ id p, tl_provider t = Some p → tl_propagator t = true → passes_info (tl_filter t) = true →
     traceparent (extractor_get headers) = Some id → trace_id = id) ∧
  ∃ evs, as_events s' = (λ l, l ++ evs) <$> as_events s ∧ Forall (λ e, em_trace_id e = trace_id) evs ∧
    (passes_info (tl_filter t) = true →
     (Forall (λ e, is_audit (em_body e)) evs ∧ recorded "outcome" span = None ∧ (span ≫= sd_error) = None) ∨
     (∃ e rest u, evs = e :: rest ∧ Forall (λ e, is_audit (em_body e)) rest ∧ em_body e = Usage u ∧
        recorded "outcome" span = Some (ub_outcome u) ∧
        (span ≫= sd_error) = (if decide (ub_outcome u = "success") then None else Some (ub_outcome u)) ∧
        recorded "tenant" span = em_tenant e ∧ recorded "user" span = em_user e ∧
        recorded "plan" span = em_plan e)).
Proof.
  unfold execute. set (env1 := traced t root env headers).
  destruct (run_execute_tells env1 s headers payload) as (evs & He & Ht).
  destruct (run_execute create_runtime env1 s headers payload) as [r s']. cbv zeta. split.
  { intros id p Hp Hg Hi Htp. unfold env1, traced, build_request_span. simpl. rewrite Hi, Hg, Hp, Htp. done. }
  exists evs. split; [exact He|].
  destruct (request_task env1 s headers payload) as [task|].
  - destruct Ht as [meta ->]. split.
    { repeat constructor; unfold emitted; by destruct (identity_fields _) as [[? ?] ?]. }
    intros Hi. right. eexists _, _, _. split; [done|]. unfold build_request_span. rewrite Hi.
    destruct (span_identity env1 s headers) as [[[?|] [?|] ? ? ? ? [?|] ?]|];
      (split; [by repeat constructor|]); (split; [done|]); simpl ub_outcome;
      unfold record_span_outcome; by case_decide.
  - split; [by eapply Forall_impl; [exact Ht|intros e []]|]. intros Hi. left.
    split; [by eapply Forall_impl; [exact Ht|intros e []]|]. unfold build_request_span. rewrite Hi.
    by destruct (span_identity env1 s headers) as [[[?|] [?|] ? ? ? ? [?|] ?]|].
Qed.
End execute.
