(* ===== verification/Boot.v ===== *)
(** * Boot: from the configuration file to a serving box

    Models the start-up of [runlet/src/main.rs]: the order of its checks and constructions, every
    error that stops it, the shared state it hands to the router, and its shutdown.  What the machine
    provides (the file, the directories, the processor count, runtimes, the TLS endpoint, the
    listening socket) is the record [Machine].  Serving is a run of [Box] from the state built here.  Logging and the tracer have no effect on any of it. *)

From Stdlib Require Import Ascii.
From S2P Require Import Prelude Json Errors Wire Runtime Fabricd Sidecar Identity Quota Partition.
From S2P Require Import Bytecode Ssrf Http S3 Sys EngineConfig BoxConfig Engine Registry Pool Host Metrics.
From S2P Require Import Events Bulkhead Handler Box.
Local Open Scope Z_scope.

Definition BYTECODE_CACHE_CAPACITY : Z := 1024.

(** What the process finds on its machine. *)
Record Machine (R Net : Type) := {
  mc_config_file : option (result string string);
  mc_directory : string → result (list (result (string * Node) string)) string;
  mc_parallelism : option nat;
  mc_create_runtime : EngineConfig → ModuleRegistry → result R string;
  mc_hex_decode : string → result (list ascii) string;
  mc_client_endpoint : list ascii → result unit IoError;
  mc_bind : IpAddr * Z → result () string;
  mc_net : Net }.
Arguments mc_config_file {R Net} _. Arguments mc_directory {R Net} _.
Arguments mc_parallelism {R Net} _. Arguments mc_create_runtime {R Net} _.
Arguments mc_hex_decode {R Net} _. Arguments mc_client_endpoint {R Net} _.
Arguments mc_bind {R Net} _. Arguments mc_net {R Net} _.

Inductive BootError :=
  | BadConfig (e : ConfigError)
  | BadRegistry (e : LoadError)
  | BadPool (e : string)
  | BadTransport (e : IoError)
  | BadBind (e : string).

(** The running box: its state, the body limit of the router, the address, the event channel. *)
Record Booted (State Ch : Type) := {
  bt_state : State; bt_modules : ModuleRegistry; bt_body_limit : Z; bt_addr : IpAddr * Z;
  bt_event_sink : option (LogSink Ch) }.
Arguments bt_state {State Ch} _. Arguments bt_modules {State Ch} _. Arguments bt_body_limit {State Ch} _.
Arguments bt_addr {State Ch} _. Arguments bt_event_sink {State Ch} _.

Section boot.
Context {jt : JsonText} {uc : UnicodeCase} {ua : UnicodeAlphabetic}.
Context {hasher : StdHasher} {Sem : Type} {sem : Semaphore Sem}.
Context {Cache : Type} {moka : Moka Cache (list ascii)}.
Context {Q R : Type} {aq : ArrayQueue Q R}.
Context {QConn Net Ch : Type} {mpsc : Mpsc Ch}.
Local Abbreviation State := (AppState Q Cache Sem (SidecarTransport QConn) Net).
Implicit Types (m : Machine R Net).

(** The registries: a directory that is not configured is an empty registry. *)
Definition boot_scripts m (c : Config) : option (result ScriptRegistry LoadError) :=
  match cf_scripts_dir c with
  | None => Some (Ok ScriptRegistry_default)
  | Some dir => ScriptRegistry_load (mc_directory m dir) (max_script_size (cf_engine c))
  end.
Definition boot_modules m (c : Config) : option (result ModuleRegistry LoadError) :=
  match cf_modules_dir c with
  | None => Some (Ok ModuleRegistry_default)
  | Some dir => ModuleRegistry_load (mc_directory m dir) (max_script_size (cf_engine c))
  end.

(** The trusted-identity runtime, when that mode is on. *)
Definition boot_trusted (t : TrustedConfig) : option TrustedRuntime :=
  if tc_enabled t then
    Some {| tr_headers := tc_headers t; tr_capability_entitlements := tc_capability_entitlements t;
            tr_quota := if qt_enabled (tc_quota t) then Some (TenantQuota_new (qt_plans (tc_quota t)))
                        else None |}
  else None.

(** The shared state, once everything it needs is built. *)
Definition boot_state m (c : Config) (scripts : ScriptRegistry) (pool : JsPool Q)
    (transport : SidecarTransport QConn) : State :=
  let e := cf_engine c in
  {| as_host := LogicHost_new pool (BytecodeCache_new BYTECODE_CACHE_CAPACITY DEFAULT_MIN_SOURCE_BYTES)
                  scripts {| set_limits := e; set_allow_private_targets := cf_debug c |};
     as_registry := scripts; as_engine_cfg := e; as_error_debug := cf_error_debug c;
     as_limiter := sem_new (Z.to_nat (resolved_max_concurrent e (Z.of_nat (jp_size pool))));
     as_partition_limiter := PartitionLimiter_new (Z.to_nat (resolved_partition_buckets e))
                               (Z.to_nat (max_concurrent_per_partition e));
     as_transport := transport; as_metrics := Metrics_default; as_access_token := cf_access_token c;
     as_trusted := boot_trusted (cf_trusted c);
     as_events := if ec_enabled (cf_events c) then Some [] else None; as_net := mc_net m |}.

(** [main] up to serving; [None] only if a directory scan ran out of rounds. *)
Definition boot m : option (result (Booted State Ch) BootError) :=
  match Config_load (mc_config_file m) with
  | Err e => Some (Err (BadConfig e))
  | Ok c =>
  match check_exposure c with
  | Err e => Some (Err (BadConfig e))
  | Ok _ =>
      scripts ← boot_scripts m c;
      match scripts with
      | Err e => Some (Err (BadRegistry e))
      | Ok scripts =>
          modules ← boot_modules m c;
          match modules with
          | Err e => Some (Err (BadRegistry e))
          | Ok modules =>
              Some (
                let? pool := map_err BadPool
                  (JsPool_new (mc_create_runtime m (cf_engine c) modules) (cf_engine c) (mc_parallelism m)) in
                let? transport := map_err BadTransport
                  (transport_from_config (mc_hex_decode m) (mc_client_endpoint m)
                     (cf_fabricd_socket c) (cf_fabricd_quic c)) in
                let addr := server_addr (cf_server c) in
                let? _ := map_err BadBind (mc_bind m addr) in
                Ok {| bt_state := boot_state m c scripts pool transport; bt_modules := modules;
                      bt_body_limit := max_body_size (cf_engine c); bt_addr := addr;
                      bt_event_sink := if ec_enabled (cf_events c)
                                       then Some (spawn (Z.to_nat (ec_buffer (cf_events c)))) else None |})
          end
      end
  end
  end.

(** [host_lifecycle.shutdown()] after the server has drained. *)
Definition stop (s : State) : State := set_host_net s (host_shutdown (R := R) (as_host s)) (as_net s).

(** ** Lemmas *)

(** What the exposure check lets pass. *)
Lemma check_exposure_ok (c : Config) :
  check_exposure c = Ok () ↔
  is_loopback (sc_host (cf_server c)) = true ∨
  ((cf_access_token c ≠ None ∨ cf_allow_unauthenticated c = true) ∧
   (tc_enabled (cf_trusted c) = true → tc_assert_network_isolation (cf_trusted c) = true)).
Proof.
  unfold check_exposure, check_trusted_isolation. cbv zeta.
  destruct (is_loopback _), (cf_access_token c), (cf_allow_unauthenticated c), (tc_enabled _),
    (tc_assert_network_isolation _); simpl; naive_solver.
Qed.

(** The steps behind a box that serves. *)
Lemma boot_steps m b :
  boot m = Some (Ok b) →
  ∃ c scripts modules pool transport,
    Config_load (mc_config_file m) = Ok c ∧ check_exposure c = Ok () ∧
    boot_scripts m c = Some (Ok scripts) ∧ boot_modules m c = Some (Ok modules) ∧
    JsPool_new (mc_create_runtime m (cf_engine c) modules) (cf_engine c) (mc_parallelism m) = Ok pool ∧
    bt_state b = boot_state m c scripts pool transport ∧ bt_modules b = modules ∧
    bt_addr b = server_addr (cf_server c) ∧ bt_body_limit b = max_body_size (cf_engine c).
Proof.
  unfold boot. destruct (Config_load _) as [c|] eqn:Hc; [|done].
  destruct (check_exposure c) as [[]|] eqn:Hx; [|done].
  intros ([scripts|] & Hs & Hb)%bind_Some; [|done].
  apply bind_Some in Hb as ([modules|] & Hm & Hb); [|done].
  destruct (JsPool_new _ _ _) as [pool|] eqn:Hp; [|done].
  destruct (transport_from_config _ _ _ _) as [transport|]; [|done]. simpl in Hb.
  destruct (mc_bind m _); simplify_eq/=. eauto 15.
Qed.

(** The scans always finish. *)
Lemma load_registry_total kind max root : is_Some (load_registry kind max root).
Proof.
  destruct (load_loop_loaded kind max (directories (Dir root)) [([], root)] ∅ [])
    as (r & Hr & _); [unfold rounds; simpl; lia|by split_and!; [set_solver| |set_solver]|]. eauto.
Qed.
Lemma boot_total m : is_Some (boot m).
Proof.
  unfold boot. destruct (Config_load _) as [c|]; [|eauto]. destruct (check_exposure c); [|eauto].
  assert (is_Some (boot_scripts m c)) as [scripts ->].
  { unfold boot_scripts, ScriptRegistry_load. destruct (cf_scripts_dir c) as [dir|]; [|eauto].
    by destruct (load_registry_total script_kind (max_script_size (cf_engine c)) (mc_directory m dir))
      as [r ->]. }
  assert (is_Some (boot_modules m c)) as [modules ->].
  { unfold boot_modules, ModuleRegistry_load. destruct (cf_modules_dir c) as [dir|]; [|eauto].
    by destruct (load_registry_total module_kind (max_script_size (cf_engine c)) (mc_directory m dir))
      as [r ->]. }
  simpl. destruct scripts; [|eauto]. destruct modules; eauto.
Qed.

Lemma boot_scripts_bounded m c scripts key source :
  boot_scripts m c = Some (Ok scripts) → registry_get scripts key = Some source →
  str_len source ≤ max_script_size (cf_engine c).
Proof.
  unfold boot_scripts, ScriptRegistry_load. destruct (cf_scripts_dir c) as [dir|].
  - intros ([r|] & Hr & [= <-])%bind_Some. unfold registry_get. simpl. intros Hk.
    by apply (load_loop_bounded script_kind _ _ _ ∅ r (map_Forall_empty _) Hr key source).
  - intros [= <-]. unfold registry_get. simpl. by rewrite lookup_empty.
Qed.

Lemma boot_trusted_quota c tr q :
  fields_wf c → boot_trusted (cf_trusted c) = Some tr → tr_quota tr = Some q → quota_wf q.
Proof.
  intros (_ & _ & Hplans & _). unfold boot_trusted. destruct (tc_enabled _); [|done]. intros [= <-].
  simpl. destruct (qt_enabled _); [|done]. intros [= <-]. split; [done|].
  intros t n. simpl. by rewrite lookup_empty.
Qed.
End boot.

(** ** Serving *)

Section serving.
Context {jt : JsonText} {uc : UnicodeCase} {ua : UnicodeAlphabetic}.
Context {ct : ConstantTimeEq} {H V : Type} {hdrs : Headers H V}.
Context {hasher : StdHasher} {Sem : Type} {sem : Semaphore Sem}.
Context {Cache : Type} {moka : Moka Cache (list ascii)} {sha : Sha256}.
Context {Ctx Fn JsVal Mod : Type} {compiler : ModuleCompiler Mod Caught}
  {js : QuickJs Ctx Fn JsVal Mod}.
Context {Q R : Type} {aq : ArrayQueue Q R}.
Context {QConn Session : Type} {et : EgressTransport (SidecarTransport QConn) Session}.
Context {Net : Type} {net : NetLib Net} {Ch : Type} {mpsc : Mpsc Ch}.
Local Abbreviation State := (AppState Q Cache Sem (SidecarTransport QConn) Net).
Local Abbreviation Env := (RequestEnv (LogicHost Q Cache) Net).
Implicit Types (m : Machine R Net) (s : State).

(** A booted state is fresh: every permit free, no tenant in flight, every counter zero. *)
Lemma boot_fresh m (b : Booted State Ch) :
  boot m = Some (Ok b) → ∃ capacity, (0 < capacity)%nat ∧ fresh capacity (bt_state b).
Proof.
  intros Hboot.
  destruct (boot_steps _ _ Hboot) as (c & scripts & modules & pool & transport & Hc & _ & _ & _ & _ & Hst & _).
  destruct (Config_load_wf _ _ Hc) as [Hwf _]. rewrite Hst. eexists. split; [|constructor; simpl].
  2: reflexivity.
  - unfold resolved_max_concurrent. cbv zeta. repeat case_decide; lia.
  - eauto.
  - intros tr q Ht Hq. unfold boot_trusted in Ht. destruct (tc_enabled _); [|done].
    injection Ht as <-. simpl in Hq. destruct (qt_enabled _); [|done]. injection Hq as <-.
    eexists. split; [|reflexivity]. apply Hwf.
  - done.
Qed.

(** A state with free permits everywhere admits any request. *)
Lemma permits_granted s partition :
  (0 < available_permits (as_limiter s))%nat →
  (∀ l, as_partition_limiter s = Some l → buckets l ≠ [] ∧
     Forall (λ n, 0 < n)%nat (available_permits <$> buckets l)) →
  ∃ p s', acquire_permits s partition = (Granted p, s').
Proof.
  intros Hl Hp. unfold acquire_permits.
  destruct (sem_try_acquire (as_limiter s)) as [l1|] eqn:El; [|apply available_none in El; lia].
  destruct (as_partition_limiter s) as [l|]; [|eauto]. destruct partition as [id|]; [|eauto].
  destruct (Hp l eq_refl) as [Hne Hall]. unfold try_acquire. cbv zeta.
  destruct (lookup_lt_is_Some_2 (buckets l) (bucket_for l id)) as [b Hb]; [by apply bucket_for_lt|].
  rewrite Hb. simpl. rewrite Forall_fmap in Hall.
  destruct (sem_try_acquire b) as [b'|] eqn:Eb; [eauto|]. exfalso. apply available_none in Eb.
  pose proof (Forall_lookup_1 _ _ _ _ Hall Hb) as Hb0. simpl in Hb0. lia.
Qed.

Lemma PartitionLimiter_new_free count per l :
  PartitionLimiter_new count per = Some l → (0 < count)%nat ∧ (0 < per)%nat ∧
  available_permits <$> buckets l = replicate count per.
Proof.
  unfold PartitionLimiter_new. destruct (bool_decide (per = 0%nat)) eqn:Ep; [done|].
  destruct (bool_decide (count = 0%nat)) eqn:Ec; [done|]. simpl. intros [= <-].
  apply bool_decide_eq_false in Ep, Ec. split_and!; [lia..|]. simpl.
  clear. generalize 0%nat. induction count as [|n IH]; intros k; simpl; [done|].
  by rewrite available_new, IH.
Qed.

(** ** Properties *)

(** C14: the box starts closed.  Start-up always finishes, with a serving box or an error.  A box that
    serves on an address that is not loopback has a bearer token or the operator's explicit opt-out,
    and trusts identity headers there only under the asserted network isolation; its limits leave
    room to parse every admitted context; every registered script is within the script limit; its
    pool is full and idle, its bulkhead and quota accounting start empty, and the private-address
    guard is relaxed exactly by the debug switch. *)
Theorem boot_fail_closed m :
  is_Some (boot (Sem := Sem) (Cache := Cache) (Q := Q) (QConn := QConn) (Ch := Ch) m) ∧
  ∀ b : Booted State Ch, boot m = Some (Ok b) → ∃ c,
    Config_load (mc_config_file m) = Ok c ∧ loaded_config c ∧ bt_addr b = server_addr (cf_server c) ∧
    let s := bt_state b in
    (is_loopback (bt_addr b).1 = false →
       (as_access_token s ≠ None ∨ cf_allow_unauthenticated c = true) ∧
       (as_trusted s ≠ None → tc_assert_network_isolation (cf_trusted c) = true)) ∧
    (∀ key source, registry_get (as_registry s) key = Some source →
       str_len source ≤ max_script_size (as_engine_cfg s)) ∧
    (let pool := lh_pool (as_host s) in
     is_accepting pool = true ∧ jp_in_flight pool = 0 ∧ aq_len (jp_inner pool) = jp_size pool) ∧
    (0 < available_permits (as_limiter s))%nat ∧
    (∀ tr q, as_trusted s = Some tr → tr_quota tr = Some q → quota_wf q ∧ tq_inflight q = ∅) ∧
    lh_allow_private_targets (as_host s) = cf_debug c.
Proof.
  split; [apply boot_total|]. intros b Hb.
  destruct (boot_steps _ _ Hb) as (c & scripts & modules & pool & transport & Hc & Hx & Hs & _ & Hp & Hst & _ & Ha & _).
  destruct (Config_load_wf _ _ Hc) as [Hwf Hctx].
  exists c. rewrite Hst, Ha. split; [done|]. split; [done|]. split; [done|]. cbv zeta. simpl. split_and!.
  - intros Hl. apply check_exposure_ok in Hx as [Hx|[Hx Hi]]; [congruence|]. split; [done|].
    intros Ht. apply Hi. unfold boot_trusted in Ht. by destruct (tc_enabled _).
  - intros key source. by eapply boot_scripts_bounded.
  - unfold JsPool_new in Hp. destruct (fill _ _ _); by simplify_eq/=.
  - by apply JsPool_new_spec in Hp as (_ & _ & ->).
  - by apply JsPool_new_spec in Hp as (-> & _).
  - rewrite available_new. unfold resolved_max_concurrent. cbv zeta. repeat case_decide; lia.
  - intros tr q Ht Hq. split; [by eapply boot_trusted_quota|]. unfold boot_trusted in Ht.
    destruct (tc_enabled _), (qt_enabled (tc_quota (cf_trusted c))); by simplify_eq/=.
  - done.
Qed.

(** C15: a booted box never wedges.  After any interleaving of any number of requests, refused, shed,
    failed and panicking ones and disconnected clients included, once none is in flight the free
    permits, the partition buckets and the quota table are as at start-up, and so the next request
    that passes the gates is admitted by the bulkhead and by its partition. *)
Theorem booted_box_serves m (b : Booted State Ch) (Hboot : boot m = Some (Ok b))
    (ops : list (BoxOp H Cache Q (SidecarTransport QConn) Net))
    (bx : Box H Sem Cache Q (SidecarTransport QConn) Session Net)
    (Hrun : box_run (box_new (bt_state b)) ops = Some bx) (Hidle : bx_live bx = [])
    (partition : option string) :
  resources (bx_app bx) = resources (bt_state b) ∧
  ∃ p s', acquire_permits (bx_app bx) partition = (Granted p, s').
Proof.
  destruct (boot_fresh _ _ Hboot) as (capacity & Hcap & Hfresh).
  pose proof (box_idle_resources _ _ _ _ Hfresh Hrun Hidle) as Hres. split; [done|].
  injection Hres as Hlim Hparts _. apply permits_granted.
  - by rewrite Hlim, (fresh_limiter _ _ Hfresh), available_new.
  - intros l Hl. rewrite Hl in Hparts. simpl in Hparts.
    destruct (as_partition_limiter (bt_state b)) as [l0|] eqn:El0; [|done]. simpl in Hparts.
    injection Hparts as Heq. destruct (fresh_partition _ _ Hfresh _ El0) as (count & per & Hnew).
    apply PartitionLimiter_new_free in Hnew as (Hcount & Hper & Hfree).
    rewrite Hfree in Heq. rewrite Heq. split; [|by apply Forall_replicate].
    intros Hnil. rewrite Hnil in Heq. simpl in Heq. destruct count; [lia|done].
Qed.
End serving.

(** ** Witness *)

#[local] Existing Instances reference_json config_case config_letters plain_eq plain_headers length_hasher
  nat_semaphore no_sha no_cache no_compiler io_script list_queue demo_net list_channel.
#[local] Instance boot_egress : EgressTransport (SidecarTransport unit) (list string) := {|
  et_connect t init := (Ok [], t); et_call name action _ s := (Ok "{}", s ++ [name]);
  et_drain s := (BackendMetrics_default, s) |}.

Definition demo_machine : Machine unit DemoNet :=
  {| mc_config_file := Some (Ok demo_config_text); mc_directory _ := Ok []; mc_parallelism := Some 4%nat;
     mc_create_runtime _ _ := Ok tt; mc_hex_decode s := Ok (bytes_of s); mc_client_endpoint _ := Ok tt;
     mc_bind _ := Ok tt; mc_net := [] |}.
Definition demo_boot :
    option (result (Booted (AppState (nat * list unit) unit nat (SidecarTransport unit) DemoNet)
                           (nat * list Event)) BootError) := boot demo_machine.

(** A request in a booted box that goes through the whole pipeline, its task panicking. *)
Definition demo_boot_ops
    : list (BoxOp (list (string * string)) unit (nat * list unit) (SidecarTransport unit) DemoNet) :=
  OArrive demo_env demo_headers (Ok demo_request) :: replicate 8 (OAdvance 0 demo_left).
Definition demo_boot_run : option (Box (list (string * string)) nat unit (nat * list unit)
    (SidecarTransport unit) (list string) DemoNet) :=
  match demo_boot with Some (Ok b) => box_run (box_new (bt_state b)) demo_boot_ops | _ => None end.
Lemma demo_boot_idle : (λ bx, length (bx_live bx)) <$> demo_boot_run = Some 0%nat.
Proof. vm_compute. reflexivity. Qed.

Lemma booted_box_serves_witness :
  match demo_boot, demo_boot_run with
  | Some (Ok b), Some bx => resources (bx_app bx) = resources (bt_state b) ∧
      ∃ p s', acquire_permits (bx_app bx) (Some "acme") = (Granted p, s')
  | _, _ => False
  end.
Proof.
  pose proof demo_boot_idle as Hidle. unfold demo_boot_run in *.
  destruct demo_boot as [[b|]|] eqn:Hb; [|vm_compute in Hb; discriminate..].
  destruct (box_run _ demo_boot_ops) as [bx|] eqn:Hr; [|discriminate Hidle].
  apply (booted_box_serves demo_machine b Hb demo_boot_ops bx Hr).
  apply nil_length_inv. simpl in Hidle. congruence.
Defined.

Lemma boot_fail_closed_witness :
  match demo_boot with
  | Some (Ok b) => as_access_token (bt_state b) ≠ None
  | _ => False
  end.
Proof.
  destruct demo_boot as [[b|]|] eqn:Hb; [|vm_compute in Hb; discriminate..].
  destruct (proj2 (boot_fail_closed demo_machine) b Hb) as (c & Hc & _ & Ha & Hx & _).
  vm_compute in Hc. injection Hc as <-. rewrite Ha in Hx.
  destruct (Hx eq_refl) as [[Ht|Ht] _]; [done|vm_compute in Ht; discriminate].
Defined.
